(* ===== verification/_CoqProject ===== *)
-Q . S2P
Prelude.v
PyText.v
PyNumber.v
PyTime.v
Enums.v
Money.v
Bounds.v
Sha256.v
Hashing.v
PyDate.v
Rules.v
Candidates.v
DomainModels.v
StateMachines.v
Exchange.v
Publication.v
Contracts.v
Tables.v
Database.v
PyJson.v
Outbox.v
BilateralRepo.v
BilateralHistory.v
ExchangeService.v
ExchangeSafety.v
GraphModels.v
Recall.v
Gates.v
Scores.v
Closure.v
Plans.v
Ranking.v
Graph.v
Scenario.v
Stackfile.v
StackPatch.v
StackScenario.v
DomainScenario.v
ExchangeScenario.v
ServiceScenario.v
OutboxScenario.v
Terms.v
Purchase.v
PurchaseProtocol.v
PurchaseService.v
PurchaseSafety.v
PurchaseReplay.v
PurchaseScenario.v
