(* ===== verification/Prelude.v ===== *)
(** * SIRA + SEIL: a verification library

    SIRA is a buyer's agent for software purchases and SEIL the seller's side
    of the same market.  The Python program under [src/] evaluates decisions
    over a company's stack with an exact engine, lets a buyer and a seller
    negotiate through a coordinator that publishes to each only what both may
    see, carries a purchase through approvals to a payment handoff, and writes
    its events to an outbox that a dispatcher sends to a queue.  This library
    translates these parts into definitions that run, and proves what makes
    them correct.

    ** How the program is modelled

    - [int] is [Z], [fractions.Fraction] is [Q], [Decimal] is a coefficient and
      an exponent with the rounding and the exponent limits of the default
      context ([PyNumber]), text is an ASCII [string] ([PyText]), times and
      dates are [PyTime] and [PyDate].  A dataclass or a pydantic model is a
      [Record]; [X_new] or [X_check] is its construction with its checks, an
      enumeration is a module of [Enums].
    - Code that can raise returns [result], with one constructor per class of
      Python exception ([Prelude.exn]).  A loop is a [Fixpoint] on what it
      consumes, or has fuel that is proved to be enough.
    - A table is the list of its rows; an insert checks the primary key and the
      unique constraints ([Tables]).  A unit of work is a [tx]: it reads and
      writes a store and leaves it alone when it raises.  A request that uses
      several units of work is a [prog] ([Database]): between any two of its
      transactions others may commit ([runs]), so what is proved of requests
      holds for every interleaving of their transactions.  A request without
      interference is [run_alone].
    - Clock readings and drawn identifiers are arguments of the operations that
      read them.

    ** The parts, and the code they model

    Foundations, without code of their own: [Prelude] (results, lists, maps,
    comparison, tactics and hint databases), [PyText], [PyNumber], [PyTime],
    [PyDate], [PyJson] ([json.dumps]), [Sha256], [Tables].

    Domain values, [python/domain].  [Enums] ([enums.py]), [Money]
    ([money.py]), [Hashing] ([hashing.py]), [DomainModels] ([models.py] and
    [errors.py]), [StateMachines] ([state_machines.py]), [Rules] ([rules.py]),
    [Publication] ([publication.py]); and [Terms]
    ([sira_api/commercial_terms.py]).

    The decision engine, [python/decision_engine].  [Bounds] ([bounds.py]),
    [GraphModels] ([graph_v1_models.py]), [Recall] ([graph_v1_recall.py]), and
    [graph_v1.py] in the order it works: [Gates], [Scores], [Closure], [Plans],
    [Ranking], [Graph].  The engine is pure: [Graph.evaluate_decision_graph]
    composes the files above the way [evaluate_decision_graph] does.
    [Candidates] is the older engine of requests ([models.py],
    [evaluation.py], [ranking.py], [counterfactual.py]).

    The stack, [python/stackfile].  [Stackfile] ([models.py]) and [StackPatch]
    ([patches.py]).

    The two-party exchange.  [Exchange] is the coordinator
    ([domain/bilateral_exchange.py]), [Contracts] its documents
    ([domain/exchange_contracts.py]), [BilateralRepo] its store
    ([persistence/bilateral_repository.py]) and [BilateralHistory] what the
    store's histories guarantee, [ExchangeService] its requests
    ([sira_api/exchange_service.py], [domain/exchange_route.py],
    [sira_api/marketplace.py]) and [ExchangeSafety] what these guarantee.

    Units of work and events.  [Database] ([persistence/database.py]) and
    [Outbox] ([sira_worker/outbox_dispatcher.py] and the publisher of
    [integrations/aws_services.py]).

    Purchases.  [Purchase] (tables, and the part of
    [persistence/repositories.py] a purchase uses), [PurchaseService] (requests
    of [sira_api/service.py]), [PurchaseProtocol] (the abstract protocol),
    [PurchaseSafety] (requests are runs of it), [PurchaseReplay] (repeated
    requests).

    [Scenario], [StackScenario], [DomainScenario], [ExchangeScenario],
    [ServiceScenario], [OutboxScenario] and [PurchaseScenario] hold concrete
    runs, to which the theorems of the part are applied: they show that
    hypotheses can hold and evaluate the definitions.

    ** How the parts interact

    Values are hashed by [Hashing] wherever the code binds one document to
    another: offers, approvals and handoffs ([Contracts]), patches
    ([StackPatch]), evaluations ([Graph]), intents ([DomainModels]).  A request
    of [ExchangeService] decodes the route it was handed, compiles a command
    with [Exchange.compile_party_command] and stores the command, the new state
    and its two projections through [BilateralRepo] in one transaction.  The
    engine's plans are what a purchase locks: [Terms] checks the sealed terms of
    a plan and [Purchase] stores them in an intent, whose approval and handoff
    follow [DomainModels] and [StateMachines].  [Outbox] sends what requests
    wrote in the transactions that made it true.

    ** What is proved

    - The exchange.  Every request, failing or not and interleaved with others,
      leads from store to store by repository operations, which refine a ledger
      of accepted commands; offers form a chain with at most one approval, of
      the last; agreement needs both parties; the row of a payment handoff
      carries exactly the terms both agreed on, up to collisions of the hash;
      versions are used once; releases and publications disclose allowlisted
      fields and no private one; totals of offers are exact.
    - The engine.  Rank stability is exactly the absence of an overtaking
      outcome; a stable ranking has a first plan no plan of another identifier
      overtakes (and none at all where eligible plans have distinct ones);
      autonomous execution needs passed gates, a stable rank and an action that
      buys nothing; gates, scores, evidence, recall and costs are characterised;
      counterfactuals are smallest; aliases and closures terminate.
    - The stack.  The graph checks accept exactly the well-formed graphs; valid
      patches give well-formed snapshots, and only approved ones are applied.
    - Purchases.  Requests run an abstract protocol; approvals are earned by
      distinct actors, one per role, a handoff opens only behind a complete
      approval of what it carries; a repeated request is answered with the
      stored response.  The transition services of the domain: an approval by
      [approve_exact] presents the exact hash, a handoff succeeds once.
    - Delivery.  Retries are bounded; the backlog of the outbox is delivered
      once and in order, and what is marked was sent.
    - Values.  Money is exact or raises, and survives its dictionary form;
      normalisation succeeds exactly on canonical values; canonical decimals
      are faithful inside the decimal context; ratios are canonical.

    ** Bounds and fuel

    [Closure.closure] and [Stackfile.visit_hard] recurse with as much fuel as
    there are records or nodes, proved enough ([closure_terminates],
    [hard_cycle_check_exact]); so do the walks along aliases ([Recall],
    [Plans]) and the chain of causes of an error
    ([Database.sqlstate_walk_fuel]).  The digits of a number take fuel from its
    binary logarithm.  [Outbox.backlog_is_delivered] and
    [Database.retries_are_bounded] are the termination of loops that the code
    bounds itself.

    ** Parameters

    Code that is not under [src/] is a class or an argument: [Rfc8785] (the
    canonical writer of JSON), [RawJson] ([json.dumps] of an arbitrary value),
    [JsonTime] and [IsoFormat] (texts of times), [RouteCipher] (Fernet tokens),
    [SqsClient] (the queue's client), [BracketedHosts] (hosts in brackets of
    [urlsplit]), [SetOrder] (the order in which a Python set is walked).  What a
    theorem needs of them is among its hypotheses, and a scenario gives a
    concrete instance.

    ** What is not modelled

    - Across the parts: text outside ASCII; field constraints of pydantic
      models unless stated; the trip of a JSON column to the database and back;
      row level security and session settings; foreign keys and check
      constraints; the range of [datetime] except where texts of times are
      made; the rounding of NUMERIC columns; the sign of a zero except where it
      is written; Python's limits on recursion and on the digits of an integer;
      [MultipleResultsFound] of queries whose uniqueness the tables guarantee;
      cancellation of asyncio tasks; binary floating point.
    - Parts still to be modelled: the seller service, qualified decisions with
      their service and worker, the agents and their journal, sessions and
      tickets, the consumers of queues, evidence parsing; and of [service.py]
      what precedes and follows the purchase.
    - Graph persistence and ledger, the workspace service, the decision room's
      projections, the routes and schemas of the API: projections of rows and
      values with little logic of their own.
    - Identity providers, the runtime of the hosted model, missions and the
      evaluation of conversations: third-party services or their drivers.
    - Migrations, the command line, scripts, fixtures and the web client. *)
From stdpp Require Export base tactics numbers strings list gmap sets option sorting.
From Stdlib Require Export ZArith QArith Qreduction Qpower Lqa.
From Stdlib Require Export Ascii.

Create HintDb sira.
Create Rewrite HintDb sira.

(** ** Exceptions and the error monad *)

(** One constructor per exception class the modelled code raises.  Messages
    are kept where the source writes a literal. *)
Inductive exn :=
| DomainValidationError (msg : string)
| InvalidTransitionError (msg : string)
| ValueError (msg : string)
| ExchangeConflict (msg : string)
| ContractViolation (msg : string)
| PersistenceConflict (msg : string)
| IdempotencyConflict (msg : string)
| RecordNotFound (msg : string)
| IntegrityError
| ExchangeRouteError (msg : string)
| PermissionError (msg : string)
| RuntimeError (msg : string)
| DBAPIError (sqlstate : option string)
| RetryExhausted (attempts : Z)
| CommercialTermsConflict (msg : string)
| ApiProblem (code : string) (status_code : Z)
| TypeError
| KeyError (key : string)
| AssertionError
| RecursionError
| DecimalInvalidOperation
| DecimalOverflow
| OverflowError
| StopIteration
| ZeroDivisionError.

#[export] Instance exn_eq_dec : EqDecision exn.
Proof. solve_decision. Defined.

Inductive result (A : Type) :=
| Ok (a : A)
| Raise (e : exn).
Arguments Ok {A} a.
Arguments Raise {A} e.

#[export] Instance result_ret : MRet result := @Ok.
#[export] Instance result_bind : MBind result := λ A B f m,
  match m with Ok a => f a | Raise e => Raise e end.
#[export] Instance result_fmap : FMap result := λ A B f m,
  match m with Ok a => Ok (f a) | Raise e => Raise e end.

#[export] Instance result_eq_dec `{EqDecision A} : EqDecision (result A).
Proof. solve_decision. Defined.

Declare Scope py_scope.
Delimit Scope py_scope with py.

(** [raise_if c e] is [if c: raise e]. *)
Definition raise_if (c : bool) (e : exn) : result unit :=
  if c then Raise e else Ok ().

Definition is_ok {A} (m : result A) : bool :=
  match m with Ok _ => true | Raise _ => false end.

(** [except DomainValidationError]: the class and its subclass. *)
Definition is_domain_validation_error (e : exn) : bool :=
  match e with
  | DomainValidationError _ | InvalidTransitionError _ => true
  | _ => false
  end.

(** [except ValueError]: the class and its subclasses. *)
Definition is_value_error (e : exn) : bool :=
  match e with
  | ValueError _ | ExchangeConflict _ | ContractViolation _ | ExchangeRouteError _ | CommercialTermsConflict _ => true
  | _ => is_domain_validation_error e
  end.

Lemma bind_Ok {A B} (f : A → result B) (m : result A) (b : B) :
  mbind f m = Ok b ↔ ∃ a, m = Ok a ∧ f a = Ok b.
Proof.
  destruct m as [a|e]; cbn; split; [eauto| |done|].
  - by intros (? & [= ->] & ?).
  - by intros (? & ? & _).
Qed.

Lemma fmap_Ok {A B} (f : A → B) (m : result A) (b : B) :
  f <$> m = Ok b ↔ ∃ a, m = Ok a ∧ b = f a.
Proof.
  destruct m as [a|e]; cbn; split.
  - intros [= <-]. eauto.
  - by intros (? & [= ->] & ->).
  - done.
  - by intros (? & ? & _).
Qed.

Lemma raise_if_Ok c e u : raise_if c e = Ok u ↔ c = false.
Proof. destruct c, u; cbn; naive_solver. Qed.

(** Inverts every monadic step of the hypotheses into equations. *)
Ltac inv_result :=
  repeat match goal with
  | H : mbind _ _ = Ok _ |- _ => apply bind_Ok in H as (? & ? & ?)
  | H : fmap _ _ = Ok _ |- _ => apply fmap_Ok in H as (? & ? & ?)
  | H : raise_if _ _ = Ok _ |- _ => apply raise_if_Ok in H
  | H : mret _ = Ok _ |- _ => injection H as H
  | H : Ok _ = Ok _ |- _ => injection H as H
  | H : Raise _ = Ok _ |- _ => discriminate H
  | H : Ok _ = Raise _ |- _ => discriminate H
  end; subst.

Lemma mapM_Ok {A B} (f : A → result B) (l : list A) (k : list B) :
  mapM f l = Ok k ↔ Forall2 (λ a b, f a = Ok b) l k.
Proof.
  revert k. induction l as [|a l IH]; intros k; cbn.
  - split; [intros [= <-]; constructor|]. by inversion 1.
  - split.
    + intros H. inv_result. constructor; [done|]. by apply IH.
    + inversion 1 as [|? b ? k' Hb Hk]; subst. rewrite Hb. cbn.
      apply IH in Hk. by rewrite Hk.
Qed.

(** Every result of a successful [mapM] comes from an element, and back. *)
Lemma mapM_Ok_elem {A B} (f : A → result B) l k b :
  mapM f l = Ok k → b ∈ k ↔ ∃ a, a ∈ l ∧ f a = Ok b.
Proof.
  rewrite mapM_Ok. induction 1 as [|a c l k Hac Hlk IH]; [set_solver|].
  rewrite elem_of_cons, IH. split.
  - intros [->|(a' & ? & ?)]; [exists a|exists a']; set_solver.
  - intros (a' & [->|Ha']%elem_of_cons & E); [left; congruence|right; eauto].
Qed.

Lemma mapM_Ok_length {A B} (f : A → result B) l k : mapM f l = Ok k → length k = length l.
Proof. rewrite mapM_Ok. intros H. symmetry. by eapply Forall2_length. Qed.

(** ** Python orderings

    [py_cmp] is the ordering the interpreter uses to compare two keys.  It is
    a weak order: [Eq] means "neither is smaller", which for fractions is
    equality of values. *)
Class PyOrd (A : Type) := py_cmp : A → A → comparison.
#[export] Hint Mode PyOrd ! : typeclass_instances.

Definition py_le `{PyOrd A} (x y : A) : bool :=
  match py_cmp x y with Gt => false | _ => true end.
Definition py_lt `{PyOrd A} (x y : A) : bool :=
  match py_cmp x y with Lt => true | _ => false end.

Class PyOrdLaws (A : Type) `{PyOrd A} : Prop := {
  py_cmp_opp (x y : A) : py_cmp y x = CompOpp (py_cmp x y);
  py_le_trans (x y z : A) : py_le x y = true → py_le y z = true → py_le x z = true
}.

(** Orders whose ties are equalities. *)
Class PyOrdTotal (A : Type) `{PyOrd A} : Prop := {
  py_total_laws : PyOrdLaws A;
  py_cmp_eq (x y : A) : py_cmp x y = Eq → x = y
}.
#[export] Existing Instance py_total_laws.

Section ord.
Context `{PyOrdLaws A}.
Implicit Types x y z : A.

Lemma py_cmp_refl x : py_cmp x x = Eq.
Proof. pose proof (py_cmp_opp x x) as E. by destruct (py_cmp x x). Qed.

Lemma py_le_refl x : py_le x x = true.
Proof. unfold py_le. by rewrite py_cmp_refl. Qed.

Lemma py_le_total x y : py_le x y = true ∨ py_le y x = true.
Proof. unfold py_le. rewrite (py_cmp_opp x y). destruct (py_cmp x y); auto. Qed.

Lemma py_lt_le x y : py_lt x y = negb (py_le y x).
Proof. unfold py_le, py_lt. rewrite (py_cmp_opp x y). by destruct (py_cmp x y). Qed.

Lemma py_lt_false x y : py_lt x y = false ↔ py_le y x = true.
Proof. rewrite py_lt_le. destruct (py_le y x); naive_solver. Qed.

Lemma py_cmp_eq_le x y : py_cmp x y = Eq ↔ py_le x y = true ∧ py_le y x = true.
Proof. unfold py_le. rewrite (py_cmp_opp x y). destruct (py_cmp x y); naive_solver. Qed.

Lemma py_cmp_lt_le x y : py_cmp x y = Lt ↔ py_le y x = false.
Proof. unfold py_le. rewrite (py_cmp_opp x y). destruct (py_cmp x y); naive_solver. Qed.

Lemma py_cmp_eq_trans x y z : py_cmp x y = Eq → py_cmp y z = Eq → py_cmp x z = Eq.
Proof. rewrite !py_cmp_eq_le. intros [? ?] [? ?]. split; eauto using py_le_trans. Qed.

Lemma py_le_false_trans x y z :
  py_le y x = false → py_le y z = true → py_le z x = false.
Proof.
  intros Hlt Hle. destruct (py_le z x) eqn:E; [|done].
  rewrite <- Hlt. symmetry. eauto using py_le_trans.
Qed.

Lemma py_le_trans_false x y z :
  py_le x y = true → py_le z y = false → py_le z x = false.
Proof.
  intros Hle Hlt. destruct (py_le z x) eqn:E; [|done].
  rewrite <- Hlt. symmetry. eauto using py_le_trans.
Qed.
End ord.

#[export] Hint Extern 1 (py_le ?x ?x = true) => apply py_le_refl : sira.
#[export] Hint Extern 1 (py_cmp ?x ?x = Eq) => apply py_cmp_refl : sira.

(** Lexicographic combination, as tuples compare. *)
Definition cmp_then (c d : comparison) : comparison :=
  match c with Eq => d | _ => c end.

#[export] Instance prod_ord `{PyOrd A, PyOrd B} : PyOrd (A * B) := λ p q,
  cmp_then (py_cmp p.1 q.1) (py_cmp p.2 q.2).

Fixpoint list_cmp `{PyOrd A} (l k : list A) : comparison :=
  match l, k with
  | [], [] => Eq
  | [], _ :: _ => Lt
  | _ :: _, [] => Gt
  | x :: l, y :: k => cmp_then (py_cmp x y) (list_cmp l k)
  end.
#[export] Instance list_ord `{PyOrd A} : PyOrd (list A) := list_cmp.

#[export] Instance Z_ord : PyOrd Z := Z.compare.
#[export] Instance nat_ord : PyOrd nat := Nat.compare.
#[export] Instance Q_ord : PyOrd Q := Qcompare.
#[export] Instance ascii_ord : PyOrd ascii := λ a b, N.compare (N_of_ascii a) (N_of_ascii b).

(** Strings are the UTF-8 bytes of the Python [str]; byte order is code point
    order. *)
#[export] Instance string_ord : PyOrd string := λ s t,
  list_cmp (String.list_ascii_of_string s) (String.list_ascii_of_string t).

Lemma cmp_then_opp c d : CompOpp (cmp_then c d) = cmp_then (CompOpp c) (CompOpp d).
Proof. by destruct c. Qed.

Lemma cmp_then_eq c d : cmp_then c d = Eq ↔ c = Eq ∧ d = Eq.
Proof. destruct c; cbn; naive_solver. Qed.

#[export] Instance Z_ord_total : PyOrdTotal Z.
Proof.
  split; [split|].
  - intros x y. apply Z.compare_antisym.
  - intros x y z. unfold py_le, py_cmp, Z_ord.
    destruct (Z.compare_spec x y), (Z.compare_spec y z), (Z.compare_spec x z); lia.
  - intros x y. apply Z.compare_eq.
Qed.

Lemma Z_le_iff (x y : Z) : py_le x y = true ↔ (x <= y)%Z.
Proof. unfold py_le, py_cmp, Z_ord. destruct (Z.compare_spec x y); naive_solver lia. Qed.

#[export] Instance nat_ord_total : PyOrdTotal nat.
Proof.
  split; [split|].
  - intros x y. apply Nat.compare_antisym.
  - intros x y z. unfold py_le, py_cmp, nat_ord.
    destruct (Nat.compare_spec x y), (Nat.compare_spec y z), (Nat.compare_spec x z); lia.
  - intros x y. apply Nat.compare_eq.
Qed.

Lemma Q_le_iff (x y : Q) : py_le x y = true ↔ (x <= y)%Q.
Proof.
  unfold py_le, py_cmp, Q_ord. pose proof (Qle_alt x y) as E.
  unfold Qle in *. destruct (x ?= y)%Q; naive_solver.
Qed.

Lemma Q_lt_iff (x y : Q) : py_lt x y = true ↔ (x < y)%Q.
Proof.
  unfold py_lt, py_cmp, Q_ord. pose proof (Qlt_alt x y) as E.
  destruct (x ?= y)%Q; naive_solver.
Qed.

#[export] Instance Q_ord_laws : PyOrdLaws Q.
Proof.
  split.
  - intros x y. symmetry. apply Qcompare_antisym.
  - intros x y z. rewrite !Q_le_iff. apply Qle_trans.
Qed.

#[export] Instance ascii_ord_total : PyOrdTotal ascii.
Proof.
  split; [split|].
  - intros x y. unfold py_cmp, ascii_ord. apply N.compare_antisym.
  - intros x y z. unfold py_le, py_cmp, ascii_ord.
    destruct (N.compare_spec (N_of_ascii x) (N_of_ascii y)),
      (N.compare_spec (N_of_ascii y) (N_of_ascii z)),
      (N.compare_spec (N_of_ascii x) (N_of_ascii z)); lia.
  - intros x y E. apply N.compare_eq in E.
    by rewrite <- (ascii_N_embedding x), <- (ascii_N_embedding y), E.
Qed.

(** One comparison of a lexicographic chain, transitively. *)
Lemma cmp_then_trans `{PyOrdLaws A} (x y z : A) (c d e : comparison) :
  (c ≠ Gt → d ≠ Gt → e ≠ Gt) →
  cmp_then (py_cmp x y) c ≠ Gt → cmp_then (py_cmp y z) d ≠ Gt →
  cmp_then (py_cmp x z) e ≠ Gt.
Proof.
  intros Hcde. destruct (py_cmp x y) eqn:E12, (py_cmp y z) eqn:E23; cbn; try done.
  - by rewrite (py_cmp_eq_trans _ _ _ E12 E23).
  - apply py_cmp_eq_le in E12 as [? ?]. apply py_cmp_lt_le in E23.
    assert (py_cmp x z = Lt) as ->; [|done].
    apply py_cmp_lt_le. by eapply py_le_trans_false.
  - apply py_cmp_eq_le in E23 as [? ?]. apply py_cmp_lt_le in E12.
    assert (py_cmp x z = Lt) as ->; [|done].
    apply py_cmp_lt_le. by eapply py_le_false_trans.
  - apply py_cmp_lt_le in E12, E23.
    assert (py_cmp x z = Lt) as ->; [|done].
    apply py_cmp_lt_le. eapply py_le_false_trans; [done|].
    destruct (py_le_total y z); congruence.
Qed.

Lemma py_le_not_Gt `{PyOrd A} (x y : A) : py_le x y = true ↔ py_cmp x y ≠ Gt.
Proof. unfold py_le. destruct (py_cmp x y); naive_solver. Qed.

#[export] Instance prod_ord_laws `{PyOrdLaws A, PyOrdLaws B} : PyOrdLaws (A * B).
Proof.
  split.
  - intros [a1 b1] [a2 b2]. unfold py_cmp, prod_ord. cbn.
    by rewrite cmp_then_opp, <- !py_cmp_opp.
  - intros [a1 b1] [a2 b2] [a3 b3]. rewrite !py_le_not_Gt.
    apply cmp_then_trans. rewrite <- !py_le_not_Gt. apply py_le_trans.
Qed.

#[export] Instance prod_ord_total `{PyOrdTotal A, PyOrdTotal B} : PyOrdTotal (A * B).
Proof.
  split; [apply _|]. intros [a1 b1] [a2 b2]. unfold py_cmp, prod_ord. cbn.
  rewrite cmp_then_eq. intros [?%py_cmp_eq ?%py_cmp_eq]. by subst.
Qed.

(** Tuples are monotone in each component. *)
Lemma pair_le_mono `{PyOrdLaws A, PyOrdLaws B} (a a' : A) (b b' : B) :
  py_le a a' = true → py_le b b' = true → py_le (a, b) (a', b') = true.
Proof.
  unfold py_le, py_cmp at 3, prod_ord. cbn. by destruct (py_cmp a a').
Qed.

Lemma pair_le_fst `{PyOrd A, PyOrd B} (a a' : A) (b b' : B) :
  py_le (a, b) (a', b') = true → py_le a a' = true.
Proof. unfold py_le, py_cmp at 1, prod_ord. cbn. by destruct (py_cmp a a'). Qed.

(** A list compares like the pair of its head and its tail. *)
#[export] Instance list_ord_laws `{PyOrdLaws A} : PyOrdLaws (list A).
Proof.
  split.
  - unfold py_cmp, list_ord. intros l. induction l as [|x l IH]; intros [|y k]; cbn; try done.
    by rewrite cmp_then_opp, <- py_cmp_opp, IH.
  - intros l1. setoid_rewrite py_le_not_Gt. unfold py_cmp, list_ord.
    induction l1 as [|x1 l1 IH]; intros [|x2 l2] [|x3 l3]; cbn; try done.
    apply cmp_then_trans, IH.
Qed.

#[export] Instance list_ord_total `{PyOrdTotal A} : PyOrdTotal (list A).
Proof.
  split; [apply _|]. unfold py_cmp, list_ord.
  intros l. induction l as [|x l IH]; intros [|y k]; cbn; try done.
  rewrite cmp_then_eq. intros [->%py_cmp_eq ->%IH]. done.
Qed.

#[export] Instance string_ord_total : PyOrdTotal string.
Proof.
  split; [split|].
  - intros x y. unfold py_cmp, string_ord. apply (py_cmp_opp (A:=list ascii)).
  - intros x y z. apply (py_le_trans (A:=list ascii)).
  - intros x y E. apply (py_cmp_eq (String.list_ascii_of_string x)) in E.
    by rewrite <- (String.string_of_list_ascii_of_string x), E, String.string_of_list_ascii_of_string.
Qed.

(** ** [sorted], [min], [max] and [sorted(set(...))] *)

Section sorting.
Context {A K : Type} `{PyOrd K} (key : A → K).

Fixpoint insert_by (x : A) (l : list A) : list A :=
  match l with
  | [] => [x]
  | y :: l' => if py_le (key x) (key y) then x :: l else y :: insert_by x l'
  end.

(** [sorted(l, key=key)]: a stable sort. *)
Definition sorted_by (l : list A) : list A := foldr insert_by [] l.

(** [min(x :: l, key=key)]: the first of the smallest. *)
Fixpoint min_by (x : A) (l : list A) : A :=
  match l with
  | [] => x
  | y :: l => min_by (if py_lt (key y) (key x) then y else x) l
  end.

(** [max(x :: l, key=key)]: the first of the largest. *)
Fixpoint max_by (x : A) (l : list A) : A :=
  match l with
  | [] => x
  | y :: l => max_by (if py_lt (key x) (key y) then y else x) l
  end.

Definition key_le : relation A := λ x y, py_le (key x) (key y) = true.

Lemma insert_by_perm x l : insert_by x l ≡ₚ x :: l.
Proof.
  induction l as [|y l IH]; cbn; [done|]. destruct (py_le _ _); [done|].
  rewrite IH. constructor.
Qed.

Lemma sorted_by_perm l : sorted_by l ≡ₚ l.
Proof.
  induction l as [|x l IH]; cbn; [done|]. by rewrite insert_by_perm, IH.
Qed.

Lemma elem_of_sorted_by x l : x ∈ sorted_by l ↔ x ∈ l.
Proof. by rewrite sorted_by_perm. Qed.

Lemma length_sorted_by l : length (sorted_by l) = length l.
Proof. by rewrite sorted_by_perm. Qed.

Lemma sorted_by_nil l : sorted_by l = [] ↔ l = [].
Proof.
  split; [|by intros ->]. intros E. pose proof (sorted_by_perm l) as P.
  rewrite E in P. by apply Permutation_nil_l in P.
Qed.

Lemma min_by_elem x l : min_by x l = x ∨ min_by x l ∈ l.
Proof.
  revert x. induction l as [|y l IH]; intros x; cbn; [by left|].
  destruct (py_lt (key y) (key x)).
  - destruct (IH y) as [->|?]; set_solver.
  - destruct (IH x) as [->|?]; set_solver.
Qed.

Lemma max_by_elem x l : max_by x l = x ∨ max_by x l ∈ l.
Proof.
  revert x. induction l as [|y l IH]; intros x; cbn; [by left|].
  destruct (py_lt (key x) (key y)).
  - destruct (IH y) as [->|?]; set_solver.
  - destruct (IH x) as [->|?]; set_solver.
Qed.

Context `{!PyOrdLaws K}.

#[global] Instance key_le_trans : Transitive key_le.
Proof. intros x y z. apply py_le_trans. Qed.

Lemma insert_by_sorted x l :
  StronglySorted key_le l → StronglySorted key_le (insert_by x l).
Proof.
  induction 1 as [|y l Hs IH Hall]; cbn; [by repeat constructor|].
  destruct (py_le (key x) (key y)) eqn:E.
  - constructor; [by constructor|]. constructor; [done|].
    eapply Forall_impl; [done|]. intros z Hz. by etrans.
  - constructor; [done|]. rewrite insert_by_perm. constructor; [|done].
    destruct (py_le_total (key x) (key y)); [congruence|done].
Qed.

Lemma sorted_by_sorted l : StronglySorted key_le (sorted_by l).
Proof.
  induction l; cbn; [constructor|]. by apply insert_by_sorted.
Qed.

(** The head of the sorted list is below everything. *)
Lemma sorted_by_head x l k :
  sorted_by l = x :: k → x ∈ l ∧ ∀ y, y ∈ l → key_le x y.
Proof.
  intros E. split.
  - rewrite <- elem_of_sorted_by, E. set_solver.
  - intros y Hy. rewrite <- elem_of_sorted_by, E in Hy.
    apply elem_of_cons in Hy as [->|Hy]; [apply py_le_refl|].
    pose proof (sorted_by_sorted l) as S. rewrite E in S.
    apply StronglySorted_inv in S as [_ S]. by rewrite Forall_forall in S; apply S.
Qed.

Lemma sorted_by_unique l k :
  (∀ x y, x ∈ l → y ∈ l → py_cmp (key x) (key y) = Eq → x = y) →
  l ≡ₚ k → sorted_by l = sorted_by k.
Proof.
  intros Hinj P. apply (StronglySorted_unique_strong key_le).
  - intros x y Hx Hy Hxy Hyx. rewrite elem_of_sorted_by in Hx, Hy.
    apply Hinj; [done| |].
    + by rewrite P.
    + by apply py_cmp_eq_le.
  - apply sorted_by_sorted.
  - apply sorted_by_sorted.
  - by rewrite !sorted_by_perm.
Qed.

(** Sorting a sorted list changes nothing. *)
Lemma sorted_by_id l : StronglySorted key_le l → sorted_by l = l.
Proof.
  induction 1 as [|x l Hs IH Hall]; cbn; [done|].
  unfold sorted_by in IH. rewrite IH. destruct l as [|y l]; cbn; [done|].
  apply Forall_cons_1 in Hall as [Hy _]. unfold key_le in Hy. by rewrite Hy.
Qed.

Lemma min_by_le x l y : y = x ∨ y ∈ l → key_le (min_by x l) y.
Proof.
  revert x y. induction l as [|z l IH]; intros x y; cbn.
  - intros [->|Hy]; [apply py_le_refl|set_solver].
  - intros Hy. destruct (py_lt (key z) (key x)) eqn:E.
    + rewrite py_lt_le in E. apply negb_true_iff in E.
      destruct Hy as [->|Hy].
      * trans z; [apply IH; by left|]. unfold key_le.
        destruct (py_le_total (key z) (key x)); [done|congruence].
      * apply IH. set_solver.
    + apply py_lt_false in E. destruct Hy as [->|Hy]; [apply IH; by left|].
      apply elem_of_cons in Hy as [->|Hy]; [|apply IH; by right].
      trans x; [apply IH; by left|done].
Qed.

Lemma max_by_ge x l y : y = x ∨ y ∈ l → key_le y (max_by x l).
Proof.
  revert x y. induction l as [|z l IH]; intros x y; cbn.
  - intros [->|Hy]; [apply py_le_refl|set_solver].
  - intros Hy. destruct (py_lt (key x) (key z)) eqn:E.
    + rewrite py_lt_le in E. apply negb_true_iff in E.
      destruct Hy as [->|Hy].
      * trans z; [|apply IH; by left]. unfold key_le.
        destruct (py_le_total (key x) (key z)); [done|congruence].
      * apply IH. set_solver.
    + apply py_lt_false in E. destruct Hy as [->|Hy]; [apply IH; by left|].
      apply elem_of_cons in Hy as [->|Hy]; [|apply IH; by right].
      trans x; [done|apply IH; by left].
Qed.
End sorting.

#[export] Hint Resolve sorted_by_perm sorted_by_sorted : sira.

(** [tuple(sorted(set(l)))]. *)
Definition sorted_set `{EqDecision A, PyOrd A} (l : list A) : list A :=
  sorted_by id (remove_dups l).

Lemma elem_of_sorted_set `{EqDecision A, PyOrd A} (x : A) l :
  x ∈ sorted_set l ↔ x ∈ l.
Proof. unfold sorted_set. by rewrite elem_of_sorted_by, elem_of_remove_dups. Qed.

Lemma NoDup_sorted_set `{EqDecision A, PyOrd A} (l : list A) : NoDup (sorted_set l).
Proof. unfold sorted_set. rewrite sorted_by_perm. apply NoDup_remove_dups. Qed.

Lemma sorted_set_nil {A} `{EqDecision A, PyOrd A} (l : list A) : sorted_set l = [] ↔ l = [].
Proof.
  split; [|by intros ->]. destruct l as [|x l]; [done|]. intros E. exfalso.
  apply (elem_of_nil x). rewrite <- E, elem_of_sorted_set. set_solver.
Qed.

(** A sorted set depends on the members only. *)
Lemma sorted_set_ext `{EqDecision A, PyOrd A, !PyOrdTotal A} (l k : list A) :
  (∀ x, x ∈ l ↔ x ∈ k) → sorted_set l = sorted_set k.
Proof.
  intros E. apply sorted_by_unique; [apply _|intros x y _ _; apply py_cmp_eq|].
  apply NoDup_Permutation; [apply NoDup_remove_dups..|].
  intros x. by rewrite !elem_of_remove_dups.
Qed.

Lemma sorted_set_perm `{EqDecision A, PyOrd A, !PyOrdTotal A} (l k : list A) :
  l ≡ₚ k → sorted_set l = sorted_set k.
Proof. intros P. apply sorted_set_ext. intros x. by rewrite P. Qed.

Lemma sorted_set_idemp `{EqDecision A, PyOrd A, !PyOrdTotal A} (l : list A) :
  sorted_set (sorted_set l) = sorted_set l.
Proof. apply sorted_set_ext. intros x. apply elem_of_sorted_set. Qed.

#[export] Hint Rewrite @elem_of_sorted_set @elem_of_sorted_by @length_sorted_by
  @elem_of_remove_dups : sira.

(** [len(set(l)) == len(l)]: the identifiers are unique. *)
Definition all_distinct `{EqDecision A} (l : list A) : bool :=
  bool_decide (length (remove_dups l) = length l).

Lemma length_remove_dups_le `{EqDecision A} (l : list A) :
  length (remove_dups l) ≤ length l.
Proof. induction l as [|x l IH]; cbn; [done|]. case_decide; cbn; lia. Qed.

Lemma all_distinct_NoDup `{EqDecision A} (l : list A) : all_distinct l = true ↔ NoDup l.
Proof.
  unfold all_distinct. rewrite bool_decide_eq_true. induction l as [|x l IH]; cbn.
  - split; [constructor|done].
  - pose proof (length_remove_dups_le l). case_decide as Hx; cbn.
    + rewrite NoDup_cons. split; [lia|]. by intros [? _].
    + rewrite NoDup_cons, <- IH. split; [intros; split; [done|lia]|]. intros [_ ->]. done.
Qed.

Lemma and_iff_compat_l' (P Q R : Prop) : (P → Q ↔ R) → P ∧ Q ↔ P ∧ R.
Proof. tauto. Qed.

(** ** Boolean tests over lists, as [any] and [all] *)

Lemma forallb_Forall {A} (f : A → bool) l : forallb f l = true ↔ ∀ x, x ∈ l → f x = true.
Proof. rewrite forallb_forall. setoid_rewrite list_elem_of_In. done. Qed.

Lemma existsb_Exists {A} (f : A → bool) l : existsb f l = true ↔ ∃ x, x ∈ l ∧ f x = true.
Proof. rewrite existsb_exists. setoid_rewrite list_elem_of_In. done. Qed.

Lemma existsb_false {A} (f : A → bool) l : existsb f l = false ↔ ∀ x, x ∈ l → f x = false.
Proof.
  rewrite <- not_true_iff_false, existsb_Exists. split.
  - intros H x Hx. apply not_true_iff_false. naive_solver.
  - intros H (x & Hx & E). rewrite (H x Hx) in E. done.
Qed.

(** [filter] with a boolean test, as a comprehension. *)
Lemma lfilter_sublist {A} (f : A → bool) (l : list A) : sublist (List.filter f l) l.
Proof. induction l as [|x l IH]; [constructor|]. cbn. destruct (f x); by constructor. Qed.

Lemma elem_of_lfilter {A} (f : A → bool) (x : A) l : x ∈ List.filter f l ↔ x ∈ l ∧ f x = true.
Proof. rewrite !list_elem_of_In. apply filter_In. Qed.

(** [[x for x in l if test(x)]] where the test may raise. *)
Fixpoint filterM {A} (test : A → result bool) (l : list A) : result (list A) :=
  match l with
  | [] => Ok []
  | x :: l =>
      b ← test x;
      k ← filterM test l;
      Ok (if b : bool then x :: k else k)
  end.

Lemma filterM_Ok {A} (test : A → result bool) (f : A → bool) l :
  (∀ x, x ∈ l → test x = Ok (f x)) → filterM test l = Ok (List.filter f l).
Proof.
  induction l as [|x l IH]; intros H; cbn; [done|].
  rewrite (H x) by set_solver. cbn. rewrite IH by set_solver. done.
Qed.

(** [all(test(x) for x in l)] and [any(...)]: they stop at the first answer. *)
Fixpoint allM {A} (test : A → result bool) (l : list A) : result bool :=
  match l with
  | [] => Ok true
  | x :: l => b ← test x; if b : bool then allM test l else Ok false
  end.

Lemma allM_true {A} (test : A → result bool) l :
  allM test l = Ok true ↔ ∀ x, x ∈ l → test x = Ok true.
Proof.
  induction l as [|x l IH]; cbn; [set_solver|]. split.
  - intros H. apply bind_Ok in H as ([] & Hx & H); [|done]. set_solver.
  - intros H. rewrite (H x) by set_solver. cbn. set_solver.
Qed.

Lemma allM_false {A} (test : A → result bool) l :
  allM test l = Ok false → ∃ x, x ∈ l ∧ test x = Ok false.
Proof.
  induction l as [|x l IH]; cbn; [done|]. intros H. apply bind_Ok in H as ([] & Hx & H).
  - destruct (IH H) as (y & ? & ?). exists y. set_solver.
  - exists x. set_solver.
Qed.

(** A [for] loop that threads a state and may raise. *)
Fixpoint foldM {A S} (f : S → A → result S) (s : S) (l : list A) : result S :=
  match l with
  | [] => Ok s
  | x :: l => s' ← f s x; foldM f s' l
  end.

(** An invariant of the loop body holds at the end. *)
Lemma foldM_inv {A S} (P : S → Prop) (f : S → A → result S) l s s' :
  (∀ s x s', x ∈ l → P s → f s x = Ok s' → P s') → P s → foldM f s l = Ok s' → P s'.
Proof.
  revert s. induction l as [|x l IH]; intros s Hf Hs; cbn; [by intros [= <-]|].
  intros (t & Ht & E)%bind_Ok. apply (IH t); [|by eapply (Hf s x); [set_solver|..]|done].
  intros ??? ?. apply Hf. set_solver.
Qed.

(** A relation every body step respects holds between the ends. *)
Lemma foldM_rel {A S} (R : S → S → Prop) `{!PreOrder R} (f : S → A → result S) l s s' :
  (∀ s x s', x ∈ l → f s x = Ok s' → R s s') → foldM f s l = Ok s' → R s s'.
Proof.
  revert s. induction l as [|x l IH]; intros s Hf; cbn; [intros [= <-]; reflexivity|].
  intros (t & Ht & E)%bind_Ok. transitivity t; [by eapply (Hf s x); [set_solver|]|].
  apply IH; [|done]. intros ??? ?. apply Hf. set_solver.
Qed.

(** [o is None] *)
Definition is_none {A} (o : option A) : bool := match o with None => true | Some _ => false end.

Lemma is_none_true {A} (o : option A) : is_none o = true ↔ o = None.
Proof. by destruct o. Qed.

(** [x in l] *)
Definition py_in `{EqDecision A} (x : A) (l : list A) : bool := bool_decide (x ∈ l).

Lemma py_in_true `{EqDecision A} (x : A) l : py_in x l = true ↔ x ∈ l.
Proof. apply bool_decide_eq_true. Qed.
Lemma py_in_false `{EqDecision A} (x : A) l : py_in x l = false ↔ x ∉ l.
Proof. apply bool_decide_eq_false. Qed.

(** [set(l) <= set(k)] *)
Definition py_subset `{EqDecision A} (l k : list A) : bool := forallb (λ x, py_in x k) l.

Lemma py_subset_true `{EqDecision A} (l k : list A) : py_subset l k = true ↔ l ⊆ k.
Proof.
  unfold py_subset. rewrite forallb_Forall. setoid_rewrite py_in_true. done.
Qed.

Lemma NoDup_fmap_inj {A B} (f : A → B) l x y :
  NoDup (f <$> l) → x ∈ l → y ∈ l → f x = f y → x = y.
Proof.
  induction l as [|z l IH]; [set_solver|]. rewrite fmap_cons. intros [Hz Hl]%NoDup_cons Hx Hy E.
  apply elem_of_cons in Hx as [->|Hx], Hy as [->|Hy]; [done| | |by apply IH].
  - destruct Hz. rewrite E. by apply list_elem_of_fmap_2.
  - destruct Hz. rewrite <- E. by apply list_elem_of_fmap_2.
Qed.

Lemma join_cons {A} (x : list A) xs : mjoin (x :: xs) = x ++ mjoin xs.
Proof. done. Qed.

(** ** Dictionaries built from pairs

    A dictionary that is only looked up is the list of the pairs it was built
    from; a later pair overrides an earlier one. *)

Fixpoint dict_get {K V} `{EqDecision K} (k : K) (l : list (K * V)) : option V :=
  match l with
  | [] => None
  | (k', v) :: l =>
      match dict_get k l with
      | Some w => Some w
      | None => if decide (k = k') then Some v else None
      end
  end.

Lemma dict_get_Some {K V} `{EqDecision K} (k : K) (v : V) l : dict_get k l = Some v → (k, v) ∈ l.
Proof.
  induction l as [|[k' w] l IH]; cbn; [done|]. destruct (dict_get k l); [set_solver|].
  case_decide; [subst|done]. intros [= ->]. set_solver.
Qed.

Lemma dict_get_None {K V} `{EqDecision K} (k : K) (l : list (K * V)) : dict_get k l = None ↔ k ∉ l.*1.
Proof.
  induction l as [|[k' w] l IH]; cbn; [set_solver|].
  destruct (dict_get k l); [set_solver|]. case_decide; set_solver.
Qed.

Lemma dict_get_NoDup {K V} `{EqDecision K} (k : K) (v : V) l :
  NoDup l.*1 → (k, v) ∈ l → dict_get k l = Some v.
Proof.
  induction l as [|[k' w] l IH]; cbn; [set_solver|]. intros [Hk Hl]%NoDup_cons Hin.
  apply elem_of_cons in Hin as [[= -> ->]|Hin].
  - assert (dict_get k' l = None) as -> by by apply dict_get_None. by rewrite decide_True.
  - by rewrite (IH Hl Hin).
Qed.

(** [d.items()]: every key once, with its last value. *)
Definition dict_items {K V} `{EqDecision K} (l : list (K * V)) : list (K * V) :=
  omap (λ k, v ← dict_get k l; Some (k, v)) (remove_dups l.*1).

Lemma elem_of_dict_items {K V} `{EqDecision K} (k : K) (v : V) l :
  (k, v) ∈ dict_items l ↔ dict_get k l = Some v.
Proof.
  unfold dict_items. rewrite list_elem_of_omap. setoid_rewrite elem_of_remove_dups. split.
  - intros (k' & _ & E). destruct (dict_get k' l) eqn:G; cbn in E; naive_solver.
  - intros E. exists k. rewrite E. split; [|done]. apply list_elem_of_fmap. exists (k, v).
    split; [done|by apply dict_get_Some].
Qed.

(** Grouping: the keys in order, each with its items in list order. *)
Definition group_sorted {K V} `{EqDecision K, PyOrd K} (l : list (K * V)) : list (K * list V) :=
  (λ k, (k, (List.filter (λ p, bool_decide (p.1 = k)) l).*2)) <$> sorted_set l.*1.

Section grouping.
Context {K V : Type} `{EqDecision K, PyOrd K}.
Implicit Types (l : list (K * V)) (k : K).

(** The items of key [k]. *)
Definition items_of k l : list V := (List.filter (λ p, bool_decide (p.1 = k)) l).*2.

Lemma elem_of_items_of k v l : v ∈ items_of k l ↔ (k, v) ∈ l.
Proof.
  unfold items_of. rewrite list_elem_of_fmap. setoid_rewrite elem_of_lfilter.
  setoid_rewrite bool_decide_eq_true. split.
  - intros ([k' v'] & -> & Hin & Hk). cbn in *. by subst.
  - intros Hin. by exists (k, v).
Qed.

Lemma elem_of_group_sorted l g :
  g ∈ group_sorted l ↔ g.1 ∈ l.*1 ∧ g.2 = items_of g.1 l.
Proof.
  unfold group_sorted. rewrite list_elem_of_fmap. setoid_rewrite elem_of_sorted_set.
  split; [by intros (k & -> & ?)|]. intros [Hk E]. exists g.1. split; [|done].
  destruct g. cbn in *. by rewrite E.
Qed.

Lemma group_sorted_keys l : (group_sorted l).*1 = sorted_set l.*1.
Proof. unfold group_sorted. rewrite <- list_fmap_compose. by apply list_fmap_id. Qed.

(** A group is never empty. *)
Lemma group_sorted_ne l g : g ∈ group_sorted l → g.2 ≠ [].
Proof.
  rewrite elem_of_group_sorted. intros [([k v] & Ek & Hin)%list_elem_of_fmap ->] E. cbn in Ek.
  apply (elem_of_nil v). rewrite <- E. apply elem_of_items_of. by rewrite Ek.
Qed.

Lemma items_of_cons k k' v l :
  items_of k ((k', v) :: l) = if bool_decide (k' = k) then v :: items_of k l else items_of k l.
Proof. unfold items_of. cbn. by destruct (bool_decide (k' = k)). Qed.

Lemma join_insert_perm ks k v (F : K → list V) :
  NoDup ks → k ∈ ks →
  mjoin ((λ k', if bool_decide (k = k') then v :: F k' else F k') <$> ks) ≡ₚ v :: mjoin (F <$> ks).
Proof.
  induction ks as [|k' ks IH]; [set_solver|]. intros [Hk Hks]%NoDup_cons Hin. cbn.
  case_bool_decide as E.
  - subst k'. cbn. constructor. apply Permutation_app_head.
    assert (∀ k', k' ∈ ks → k ≠ k') as Hne by set_solver. clear -Hne.
    induction ks as [|k' ks IH]; [done|]. cbn. rewrite bool_decide_eq_false_2 by set_solver.
    apply Permutation_app_head, IH. set_solver.
  - rewrite IH by set_solver. by rewrite Permutation_middle.
Qed.

(** Grouping keeps every item exactly once. *)
Lemma group_sorted_perm l : mjoin (group_sorted l).*2 ≡ₚ l.*2.
Proof.
  unfold group_sorted. rewrite <- list_fmap_compose.
  assert (∀ ks, NoDup ks → l.*1 ⊆ ks → mjoin ((λ k, items_of k l) <$> ks) ≡ₚ l.*2) as W.
  2:{ apply W; [apply NoDup_sorted_set|]. intros k. by rewrite elem_of_sorted_set. }
  induction l as [|[k v] l IH]; intros ks Hnd Hsub; cbn.
  - induction ks as [|k ks IHk]; [done|]. cbn. apply IHk; [by inversion Hnd|set_solver].
  - rewrite <- (IH ks Hnd) by set_solver.
    rewrite <- (join_insert_perm ks k v (λ k, items_of k l)) by set_solver.
    apply eq_subrelation; [apply _|]. f_equal. apply list_fmap_ext. intros _ k' _. apply items_of_cons.
Qed.
End grouping.

(** ** Sorting with a key that may raise *)

(** [sorted(l, key=key)]: Python computes every key before it compares. *)
Definition sorted_with {A K} `{PyOrd K} (key : A → result K) (l : list A) : result (list A) :=
  ks ← mapM (λ a, k ← key a; Ok (k, a)) l;
  Ok ((sorted_by fst ks).*2).

(** On keys that do not raise it is the plain sort. *)
Lemma sorted_with_Ok {A K} `{PyOrd K} (key : A → result K) (f : A → K) l :
  (∀ a, a ∈ l → key a = Ok (f a)) → sorted_with key l = Ok (sorted_by f l).
Proof.
  intros Hkey. unfold sorted_with.
  assert (mapM (λ a, k ← key a; Ok (k, a)) l = Ok ((λ a, (f a, a)) <$> l)) as ->.
  { apply mapM_Ok. induction l as [|a l IH]; cbn; constructor.
    - rewrite (Hkey a) by set_solver. done.
    - apply IH. set_solver. }
  cbn. f_equal. clear Hkey.
  assert (∀ a k, insert_by fst (f a, a) ((λ a, (f a, a)) <$> k) =
                 (λ a, (f a, a)) <$> insert_by f a k) as W.
  { intros a k. induction k as [|b k IH]; cbn; [done|].
    destruct (py_le (f a) (f b)); cbn; [done|]. by rewrite <- IH. }
  assert (sorted_by fst ((λ a, (f a, a)) <$> l) = (λ a, (f a, a)) <$> sorted_by f l) as ->.
  { induction l as [|a l IH]; cbn; [done|]. unfold sorted_by in IH. by rewrite IH, W. }
  rewrite <- list_fmap_compose. by apply list_fmap_id.
Qed.
