(* ===== verification/PyText.v ===== *)
(** * Python text

    The operations of [str] the modelled code uses, over the ASCII characters:
    case folding, stripping, splitting, prefix and substring tests, the
    identifier and content-hash patterns of [domain/models.py]. *)
From S2P Require Import Prelude.

Local Open Scope string_scope.

Definition chars (s : string) : list ascii := String.list_ascii_of_string s.
Definition of_chars (l : list ascii) : string := String.string_of_list_ascii l.

Lemma chars_of_chars l : chars (of_chars l) = l.
Proof. apply String.list_ascii_of_string_of_list_ascii. Qed.
Lemma of_chars_chars s : of_chars (chars s) = s.
Proof. apply String.string_of_list_ascii_of_string. Qed.

#[export] Instance chars_inj : Inj (=) (=) chars.
Proof. intros s t E. by rewrite <- (of_chars_chars s), E, of_chars_chars. Qed.

Definition between (lo c hi : ascii) : bool :=
  (N_of_ascii lo <=? N_of_ascii c)%N && (N_of_ascii c <=? N_of_ascii hi)%N.

Definition is_digit (c : ascii) : bool := between "0" c "9".
Definition is_upper (c : ascii) : bool := between "A" c "Z".
Definition is_lower (c : ascii) : bool := between "a" c "z".
Definition is_alnum (c : ascii) : bool := is_digit c || is_upper c || is_lower c.

(** ASCII white space of [str.strip] and of the regular expression class [\s]:
    9 to 13, 28 to 31 and 32. *)
Definition is_space (c : ascii) : bool :=
  let n := N_of_ascii c in
  ((9 <=? n)%N && (n <=? 13)%N) || ((28 <=? n)%N && (n <=? 32)%N).

Definition lower_char (c : ascii) : ascii :=
  if is_upper c then ascii_of_N (N_of_ascii c + 32) else c.
Definition upper_char (c : ascii) : ascii :=
  if is_lower c then ascii_of_N (N_of_ascii c - 32) else c.

(** [str.lower], [str.casefold] and [str.upper] on ASCII text. *)
Definition lower (s : string) : string := of_chars (lower_char <$> chars s).
Definition casefold (s : string) : string := lower s.
Definition upper (s : string) : string := of_chars (upper_char <$> chars s).

Fixpoint lstrip_chars (l : list ascii) : list ascii :=
  match l with
  | c :: l' => if is_space c then lstrip_chars l' else l
  | [] => []
  end.
Definition strip_chars (l : list ascii) : list ascii :=
  reverse (lstrip_chars (reverse (lstrip_chars l))).

(** [str.strip()] *)
Definition strip (s : string) : string := of_chars (strip_chars (chars s)).

Definition is_empty (s : string) : bool := bool_decide (s = "").

Fixpoint prefix_chars (p l : list ascii) : bool :=
  match p, l with
  | [], _ => true
  | a :: p, b :: l => bool_decide (a = b) && prefix_chars p l
  | _ :: _, [] => false
  end.
(** [s.startswith(p)] *)
Definition startswith (s p : string) : bool := prefix_chars (chars p) (chars s).

Fixpoint infix_chars (p l : list ascii) : bool :=
  prefix_chars p l || match l with [] => false | _ :: l => infix_chars p l end.
(** [p in s] *)
Definition str_contains (p s : string) : bool := infix_chars (chars p) (chars s).

Fixpoint split_chars (sep : ascii) (cur l : list ascii) : list (list ascii) :=
  match l with
  | [] => [reverse cur]
  | c :: l => if bool_decide (c = sep) then reverse cur :: split_chars sep [] l
              else split_chars sep (c :: cur) l
  end.
(** [s.split(sep)] for a one-character separator. *)
Definition split (sep : ascii) (s : string) : list string :=
  of_chars <$> split_chars sep [] (chars s).

(** [sep.join(l)] *)
Fixpoint join (sep : string) (l : list string) : string :=
  match l with
  | [] => ""
  | [x] => x
  | x :: l => x ++ sep ++ join sep l
  end.

(** [s.replace(a, b)] for one-character [a] and [b]. *)
Definition replace_char (a b : ascii) (s : string) : string :=
  of_chars ((λ c, if bool_decide (c = a) then b else c) <$> chars s).

(** ** Patterns of [domain/models.py] *)

(** [_ID]: [^[A-Za-z0-9][A-Za-z0-9_.:-]{0,127}$] *)
Definition id_char (c : ascii) : bool :=
  is_alnum c || bool_decide (c ∈ ["_"; "."; ":"; "-"]%char).
Definition is_id (s : string) : bool :=
  match chars s with
  | [] => false
  | c :: l => is_alnum c && forallb id_char l && (length l <=? 127)%nat
  end.

(** [require_id(value, field_name)] *)
Definition require_id (value field_name : string) : result unit :=
  raise_if (negb (is_id value))
    (DomainValidationError (field_name ++ " must be a stable non-empty identifier")).

(** [_HASH]: [^sha256:[0-9a-f]{64}$] *)
Definition hex_char (c : ascii) : bool := is_digit c || between "a" c "f".
Definition is_hash (s : string) : bool :=
  startswith s "sha256:" && forallb hex_char (drop 7 (chars s)) &&
  (length (chars s) =? 71)%nat.

(** [require_hash(value, field_name)] *)
Definition require_hash (value field_name : string) : result unit :=
  raise_if (negb (is_hash value))
    (DomainValidationError (field_name ++ " must be a sha256 content hash")).

Lemma require_id_Ok v f u : require_id v f = Ok u ↔ is_id v = true.
Proof. unfold require_id. rewrite raise_if_Ok, negb_false_iff. done. Qed.

Lemma require_hash_Ok v f u : require_hash v f = Ok u ↔ is_hash v = true.
Proof. unfold require_hash. rewrite raise_if_Ok, negb_false_iff. done. Qed.

Lemma is_id_nonempty s : is_id s = true → is_empty s = false.
Proof. unfold is_id, is_empty. destruct s; [done|]. intros _. by apply bool_decide_eq_false. Qed.

(** ** Case folding and stripping are idempotent *)

Local Close Scope string_scope.

Lemma lower_char_idemp c : lower_char (lower_char c) = lower_char c.
Proof. destruct c as [[] [] [] [] [] [] [] []]; reflexivity. Qed.

Lemma is_space_lower c : is_space (lower_char c) = is_space c.
Proof. destruct c as [[] [] [] [] [] [] [] []]; reflexivity. Qed.

Lemma chars_casefold s : chars (casefold s) = lower_char <$> chars s.
Proof. apply chars_of_chars. Qed.

Lemma casefold_idemp s : casefold (casefold s) = casefold s.
Proof.
  apply (inj chars). rewrite !chars_casefold, <- list_fmap_compose.
  apply list_fmap_ext. intros _ c _. apply lower_char_idemp.
Qed.

Lemma lstrip_idemp l : lstrip_chars (lstrip_chars l) = lstrip_chars l.
Proof.
  induction l as [|c l IH]; cbn; [done|]. destruct (is_space c) eqn:E; [done|].
  cbn. by rewrite E.
Qed.

Lemma lstrip_suffix l : ∃ p, l = p ++ lstrip_chars l.
Proof.
  induction l as [|c l [p IH]]; cbn; [by exists []|].
  destruct (is_space c); [exists (c :: p); cbn; by rewrite <- IH|by exists []].
Qed.

Lemma lstrip_head c l : lstrip_chars (c :: l) = c :: l ↔ is_space c = false.
Proof.
  cbn. destruct (is_space c) eqn:E; [|done]. split; [|done]. intros H.
  destruct (lstrip_suffix l) as [p Hp]. apply (f_equal length) in Hp, H.
  rewrite length_app in Hp. rewrite H in Hp. cbn in Hp. lia.
Qed.

Lemma lstrip_fmap l : lstrip_chars (lower_char <$> l) = lower_char <$> lstrip_chars l.
Proof.
  induction l as [|c l IH]; cbn; [done|]. rewrite is_space_lower.
  by destruct (is_space c).
Qed.

(** Stripping the right end keeps a non-blank first character in place. *)
Lemma strip_idemp_chars l : strip_chars (strip_chars l) = strip_chars l.
Proof.
  unfold strip_chars. set (m := lstrip_chars l).
  assert (lstrip_chars (reverse (lstrip_chars (reverse m))) =
          reverse (lstrip_chars (reverse m))) as ->.
  - destruct (lstrip_suffix (reverse m)) as [p Hp].
    set (r := lstrip_chars (reverse m)) in *.
    assert (m = reverse r ++ reverse p) as Hm
      by (rewrite <- (reverse_involutive m), Hp, reverse_app; done).
    assert (lstrip_chars m = m) as Hfix by apply lstrip_idemp.
    destruct (reverse r) as [|c k]; [done|].
    rewrite Hm in Hfix. apply lstrip_head in Hfix. by apply lstrip_head.
  - by rewrite reverse_involutive, lstrip_idemp.
Qed.

Lemma strip_casefold_idemp s :
  strip (casefold (strip (casefold s))) = strip (casefold s).
Proof.
  apply (inj chars). unfold strip.
  repeat first [rewrite chars_casefold | rewrite chars_of_chars]. set (l := chars s).
  assert (∀ k, strip_chars (lower_char <$> k) = lower_char <$> strip_chars k) as E.
  { intros k. unfold strip_chars.
    rewrite lstrip_fmap, <- fmap_reverse, lstrip_fmap, <- fmap_reverse. done. }
  rewrite !E, strip_idemp_chars, <- list_fmap_compose.
  apply list_fmap_ext. intros _ c _. apply lower_char_idemp.
Qed.
