(* ===== verification/PyNumber.v ===== *)
(** * Python numbers

    [int] is [Z].  [fractions.Fraction] is [Q], read through its reduced form.
    [decimal.Decimal] is a coefficient and a power of ten, with the default
    context (28 digits, round half even) for the operations that round.  The
    file also has the text of an [int] and of a [Decimal] and the parsers of
    [Fraction] and [Decimal]. *)
From S2P Require Import Prelude PyText.

Local Open Scope Z_scope.

(** ** Decimal digits *)

Definition digit_char (d : Z) : ascii := ascii_of_N (Z.to_N (48 + d)).
Definition digit_val (c : ascii) : Z := Z.of_N (N_of_ascii c) - 48.

Fixpoint digits_go (fuel : nat) (n : Z) (acc : list ascii) : list ascii :=
  match fuel with
  | O => acc
  | S fuel => let acc := digit_char (n mod 10) :: acc in
              if n <? 10 then acc else digits_go fuel (n / 10) acc
  end.

(** The decimal digits of [n ≥ 0], most significant first. *)
Definition digits_of (n : Z) : list ascii := digits_go (S (Z.to_nat (Z.log2 n))) n [].

(** [int(digits)] *)
Definition digits_val (l : list ascii) : Z := foldl (λ a c, a * 10 + digit_val c) 0 l.

(** [str(n)] *)
Definition str_int (n : Z) : string :=
  of_chars (if n <? 0 then "-"%char :: digits_of (- n) else digits_of n).

(** The number of decimal digits of [|n|]. *)
Definition ndigits (n : Z) : Z := Z.of_nat (length (digits_of (Z.abs n))).

(** A maximal run [\d+(_\d+)*], its underscores dropped, and the rest. *)
Fixpoint take_digits (acc l : list ascii) : list ascii * list ascii :=
  match l with
  | [] => (reverse acc, [])
  | c :: l' =>
      if is_digit c then take_digits (c :: acc) l'
      else if bool_decide (c = "_"%char) && negb (bool_decide (acc = [])) &&
              match l' with d :: _ => is_digit d | [] => false end
      then take_digits acc l'
      else (reverse acc, l)
  end.

Definition take_sign (l : list ascii) : bool * list ascii :=
  match l with
  | c :: l' => if bool_decide (c = "-"%char) then (true, l')
               else if bool_decide (c = "+"%char) then (false, l') else (false, l)
  | [] => (false, [])
  end.

Definition apply_sign (neg : bool) (n : Z) : Z := if neg then - n else n.

(** The look-ahead [(?=\d|\.\d)]. *)
Definition number_ahead (l : list ascii) : bool :=
  match l with
  | c :: l' => is_digit c || (bool_decide (c = "."%char) &&
                              match l' with d :: _ => is_digit d | [] => false end)
  | [] => false
  end.

Definition is_exp_char (c : ascii) : bool := bool_decide (c = "e"%char) || bool_decide (c = "E"%char).

(** The optional fractional part: its digits and the rest. *)
Definition take_frac (l : list ascii) : list ascii * list ascii :=
  match l with
  | c :: l' => if bool_decide (c = "."%char) then take_digits [] l' else ([], l)
  | [] => ([], [])
  end.

(** The optional exponent; [None] when an [E] is not followed by digits. *)
Definition take_exp (l : list ascii) : option (Z * list ascii) :=
  match l with
  | c :: l' =>
      if is_exp_char c then
        let '(neg, l') := take_sign l' in
        match take_digits [] l' with
        | ([], _) => None
        | (ds, l') => Some (apply_sign neg (digits_val ds), l')
        end
      else Some (0, l)
  | [] => Some (0, [])
  end.

(** ** [fractions.Fraction] *)

Definition pow10 (e : Z) : Q :=
  if 0 <=? e then inject_Z (10 ^ e) else (1 # Z.to_pos (10 ^ (- e))).

(** [coef * 10 ** exp] *)
Definition scaled (coef exp : Z) : Q := (inject_Z coef * pow10 exp)%Q.

Definition fraction_error : exn := ValueError "Invalid literal for Fraction".

(** [Fraction(numerator, denominator)] *)
Definition fraction (n d : Z) : result Q :=
  if d =? 0 then Raise ZeroDivisionError
  else Ok (if d <? 0 then - n # Z.to_pos (- d) else n # Z.to_pos d).

(** [Fraction(text)] *)
Definition fraction_of_string (s : string) : result Q :=
  let '(neg, l) := take_sign (lstrip_chars (chars s)) in
  if negb (number_ahead l) then Raise fraction_error else
  let '(num, l) := take_digits [] l in
  match lstrip_chars l with
  | c :: l' =>
      if bool_decide (c = "/"%char) then
        match take_digits [] (lstrip_chars l') with
        | ([], _) => Raise fraction_error
        | (den, l') =>
            if forallb is_space l'
            then fraction (apply_sign neg (digits_val num)) (digits_val den)
            else Raise fraction_error
        end
      else
        let '(frac, l) := take_frac l in
        match take_exp l with
        | Some (e, l) =>
            if forallb is_space l
            then Ok (scaled (apply_sign neg (digits_val (num ++ frac)))
                       (e - Z.of_nat (length frac)))
            else Raise fraction_error
        | None => Raise fraction_error
        end
  | [] => Ok (inject_Z (apply_sign neg (digits_val num)))
  end.

(** [value.numerator] and [value.denominator] *)
Definition numerator (q : Q) : Z := Qnum (Qred q).
Definition denominator (q : Q) : Z := Z.pos (Qden (Qred q)).

(** ** [decimal.Decimal] *)

(** A finite number is [coef * 10 ** exp]; the sign of a zero is not kept. *)
Inductive Decimal :=
| DFinite (coef exp : Z)
| DInfinity (negative : bool)
| DNaN.

#[export] Instance Decimal_eq_dec : EqDecision Decimal.
Proof. solve_decision. Defined.

Definition dec_prec : Z := 28.

Definition dec_is_finite (d : Decimal) : bool :=
  match d with DFinite _ _ => true | _ => false end.

(** The value of a finite decimal ([as_integer_ratio]). *)
Definition dec_value (d : Decimal) : Q :=
  match d with DFinite c e => scaled c e | _ => 0%Q end.

Fixpoint strip_underscores (l : list ascii) : list ascii :=
  match l with
  | [] => []
  | c :: l => if bool_decide (c = "_"%char) then strip_underscores l
              else c :: strip_underscores l
  end.

Definition is_inf_text (l : list ascii) : bool :=
  let s := lower (of_chars l) in bool_decide (s = "inf"%string) || bool_decide (s = "infinity"%string).

Definition is_nan_text (l : list ascii) : bool :=
  let s := lower (of_chars l) in
  (startswith s "nan" && forallb is_digit (drop 3 l)) ||
  (startswith s "snan" && forallb is_digit (drop 4 l)).

(** [Decimal(text)] *)
Definition decimal_of_string (s : string) : result Decimal :=
  let '(neg, l) := take_sign (strip_underscores (strip_chars (chars s))) in
  if number_ahead l then
    let '(int, l) := take_digits [] l in
    let '(frac, l) := take_frac l in
    match take_exp l with
    | Some (e, []) => Ok (DFinite (apply_sign neg (digits_val (int ++ frac)))
                            (e - Z.of_nat (length frac)))
    | _ => Raise DecimalInvalidOperation
    end
  else if is_inf_text l then Ok (DInfinity neg)
  else if is_nan_text l then Ok DNaN
  else Raise DecimalInvalidOperation.

(** Division by [10 ** shift] rounding half to even, on [n ≥ 0]. *)
Definition div_half_even (n shift : Z) : Z :=
  let q := n / 10 ^ shift in
  let r := n mod 10 ^ shift in
  match 2 * r ?= 10 ^ shift with
  | Lt => q
  | Gt => q + 1
  | Eq => if Z.even q then q else q + 1
  end.

Definition round_coef (c shift : Z) : Z := Z.sgn c * div_half_even (Z.abs c) shift.

(** Rounding to the precision of the context, whatever the exponent. *)
Definition dec_fix (d : Decimal) : Decimal :=
  match d with
  | DFinite c e =>
      let n := ndigits c in
      if n <=? dec_prec then d else
      let c' := round_coef c (n - dec_prec) in
      if ndigits c' <=? dec_prec then DFinite c' (e + (n - dec_prec))
      else DFinite (c' / 10) (e + (n - dec_prec) + 1)
  | _ => d
  end.

(** The exponents of the context: the largest adjusted one, and the smallest
    one a coefficient of 28 digits and a subnormal coefficient may have. *)
Definition dec_emax : Z := 999999.
Definition dec_etop : Z := dec_emax - (dec_prec - 1).
Definition dec_etiny : Z := - dec_emax - (dec_prec - 1).

(** [value._fix(context)], what every operation does to its exact result: it
    is rounded to the precision; above the largest exponent it raises, since
    the context traps [Overflow]; below the smallest it loses digits, down to
    zero, since [Underflow] is not trapped. *)
Definition dec_finish (d : Decimal) : result Decimal :=
  match d with
  | DFinite c e =>
      if c =? 0 then Ok (DFinite 0 (Z.min (Z.max e dec_etiny) dec_emax)) else
      let exp_min := ndigits c + e - dec_prec in
      if dec_etop <? exp_min then Raise DecimalOverflow else
      let exp_min := Z.max exp_min dec_etiny in
      if exp_min <=? e then Ok d else
      let c' := if ndigits c + e <? exp_min then 0 else round_coef c (exp_min - e) in
      let '(c', e') := if ndigits c' <=? dec_prec then (c', exp_min) else (c' / 10, exp_min + 1) in
      if dec_etop <? e' then Raise DecimalOverflow else Ok (DFinite c' e')
  | _ => Ok d
  end.

(** The exact sum of two numbers, which [left + right] rounds. *)
Definition dec_sum (a b : Decimal) : Decimal :=
  match a, b with
  | DFinite c1 e1, DFinite c2 e2 =>
      let m := Z.min e1 e2 in DFinite (c1 * 10 ^ (e1 - m) + c2 * 10 ^ (e2 - m)) m
  | DNaN, _ | _, DNaN => DNaN
  | DInfinity s, DInfinity t => if Bool.eqb s t then a else DNaN
  | DInfinity _, _ => a
  | _, DInfinity _ => b
  end.

(** [left + right] of amounts of money, at most 26 digits of cents each: they
    are far inside the exponents of the context, where all there is to do is
    to round to its precision (lemma [dec_finish_fix]). *)
Definition dec_add (a b : Decimal) : Decimal := dec_fix (dec_sum a b).

(** [value.quantize(Decimal("0.01"))] *)
Definition dec_quantize_cents (d : Decimal) : result Decimal :=
  match d with
  | DFinite c e =>
      if c =? 0 then Ok (DFinite 0 (-2))
      else if dec_prec <? ndigits c - 1 + e + 2 + 1 then Raise DecimalInvalidOperation
      else
        let c' := if -2 <=? e then c * 10 ^ (e + 2) else round_coef c (-2 - e) in
        if dec_prec <? ndigits c' then Raise DecimalInvalidOperation
        else Ok (DFinite c' (-2))
  | DInfinity _ => Raise DecimalInvalidOperation
  | DNaN => Ok DNaN
  end.

Fixpoint strip_zeros (fuel : nat) (c e : Z) : Decimal :=
  match fuel with
  | O => DFinite c e
  | S fuel => if c mod 10 =? 0 then strip_zeros fuel (c / 10) (e + 1) else DFinite c e
  end.

(** A rounded number without its trailing zeros. *)
Definition dec_strip (d : Decimal) : Decimal :=
  match d with
  | DFinite c e => if c =? 0 then DFinite 0 0
                   else strip_zeros (S (Z.to_nat (Z.log2 (Z.abs c)))) c e
  | d => d
  end.

(** [value.normalize()] *)
Definition dec_normalize (d : Decimal) : result Decimal := d ← dec_finish d; Ok (dec_strip d).

(** The same inside the exponents of the context. *)
Definition dec_reduce (d : Decimal) : Decimal := dec_strip (dec_fix d).

(** Comparisons of finite decimals are exact. *)
#[export] Instance Decimal_ord : PyOrd Decimal := λ a b, Qcompare (dec_value a) (dec_value b).

Definition zeros (n : Z) : list ascii := replicate (Z.to_nat n) "0"%char.

(** [str(value)] for a finite decimal. *)
Definition dec_str (d : Decimal) : string :=
  match d with
  | DFinite c e =>
      let ds := digits_of (Z.abs c) in
      let len := Z.of_nat (length ds) in
      let left := e + len in
      let dot := if (e <=? 0) && (-6 <? left) then left else 1 in
      let body :=
        if dot <=? 0 then "0"%char :: "."%char :: zeros (- dot) ++ ds
        else if len <=? dot then ds ++ zeros (dot - len)
        else take (Z.to_nat dot) ds ++ "."%char :: drop (Z.to_nat dot) ds in
      let exp :=
        if left =? dot then []
        else "E"%char :: (if left - dot <? 0 then "-"%char else "+"%char)
               :: digits_of (Z.abs (left - dot)) in
      of_chars ((if c <? 0 then ["-"%char] else []) ++ body ++ exp)
  | DInfinity s => if s then "-Infinity"%string else "Infinity"%string
  | DNaN => "NaN"%string
  end.

(** ** Facts about digits *)

Lemma digit_char_digit d : 0 <= d < 10 → is_digit (digit_char d) = true.
Proof.
  intros Hd. assert (d = 0 ∨ d = 1 ∨ d = 2 ∨ d = 3 ∨ d = 4 ∨ d = 5 ∨ d = 6 ∨ d = 7 ∨ d = 8 ∨ d = 9)
    as H by lia. by repeat destruct H as [->|H]; subst.
Qed.

Lemma digit_val_char d : 0 <= d < 10 → digit_val (digit_char d) = d.
Proof.
  intros Hd. assert (d = 0 ∨ d = 1 ∨ d = 2 ∨ d = 3 ∨ d = 4 ∨ d = 5 ∨ d = 6 ∨ d = 7 ∨ d = 8 ∨ d = 9)
    as H by lia. by repeat destruct H as [->|H]; subst.
Qed.

Lemma digits_foldl a l :
  foldl (λ a c, a * 10 + digit_val c) a l = a * 10 ^ Z.of_nat (length l) + digits_val l.
Proof.
  unfold digits_val. revert a. induction l as [|c l IH]; intros a; cbn [foldl length]; [lia|].
  rewrite (IH (a * 10 + digit_val c)), (IH (0 * 10 + digit_val c)).
  rewrite Nat2Z.inj_succ, Z.pow_succ_r by lia. lia.
Qed.

Lemma digits_val_app l k :
  digits_val (l ++ k) = digits_val l * 10 ^ Z.of_nat (length k) + digits_val k.
Proof. unfold digits_val at 1. by rewrite foldl_app, digits_foldl. Qed.

Lemma digits_val_cons c l :
  digits_val (c :: l) = digit_val c * 10 ^ Z.of_nat (length l) + digits_val l.
Proof. change (c :: l) with ([c] ++ l)%list. rewrite digits_val_app. cbn. lia. Qed.

Lemma digits_go_val fuel n acc :
  0 <= n → n < 2 ^ Z.of_nat fuel →
  digits_val (digits_go fuel n acc) = n * 10 ^ Z.of_nat (length acc) + digits_val acc.
Proof.
  revert n acc. induction fuel as [|fuel IH]; intros n acc H0 Hn.
  - change (2 ^ Z.of_nat 0) with 1 in Hn. assert (n = 0) as -> by lia. cbn [digits_go]. lia.
  - cbn [digits_go]. pose proof (Z.mod_pos_bound n 10 ltac:(lia)).
    pose proof (Z.div_mod n 10 ltac:(lia)).
    destruct (n <? 10) eqn:E.
    + apply Z.ltb_lt in E. rewrite digits_val_cons, digit_val_char by lia.
      by rewrite Z.mod_small by lia.
    + rewrite Nat2Z.inj_succ, Z.pow_succ_r in Hn by lia.
      rewrite IH by lia. cbn [length].
      rewrite digits_val_cons, digit_val_char by lia.
      rewrite Nat2Z.inj_succ, Z.pow_succ_r by lia. set (P := 10 ^ _).
      assert (n * P = (10 * (n / 10) + n mod 10) * P) by congruence. lia.
Qed.

Lemma digits_go_digit fuel n acc :
  0 <= n → forallb is_digit acc = true → forallb is_digit (digits_go fuel n acc) = true.
Proof.
  revert n acc. induction fuel as [|fuel IH]; intros n acc H0 Hacc; [done|]. cbn [digits_go].
  pose proof (Z.mod_pos_bound n 10 ltac:(lia)).
  assert (forallb is_digit (digit_char (n mod 10) :: acc) = true) as Hacc'.
  { cbn. by rewrite digit_char_digit. }
  destruct (n <? 10); [done|]. apply IH; [|done]. apply Z.div_pos; lia.
Qed.

Lemma log2_fuel n : 0 <= n → n < 2 ^ Z.of_nat (S (Z.to_nat (Z.log2 n))).
Proof.
  intros Hn. rewrite Nat2Z.inj_succ, Z2Nat.id by apply Z.log2_nonneg.
  destruct (Z.eq_dec n 0) as [->|]; [reflexivity|]. apply Z.log2_spec. lia.
Qed.

Lemma digits_of_val n : 0 <= n → digits_val (digits_of n) = n.
Proof.
  intros Hn. unfold digits_of. rewrite digits_go_val by (done || by apply log2_fuel).
  cbn. lia.
Qed.

Lemma digits_of_digit n : 0 <= n → forallb is_digit (digits_of n) = true.
Proof. intros Hn. by apply digits_go_digit. Qed.

Lemma digits_go_nonempty fuel n acc : acc ≠ [] → digits_go fuel n acc ≠ [].
Proof.
  revert n acc. induction fuel as [|fuel IH]; intros n acc Hacc; [done|]. cbn.
  destruct (n <? 10); [done|]. by apply IH.
Qed.

Lemma digits_of_nonempty n : digits_of n ≠ [].
Proof.
  unfold digits_of. cbn [digits_go]. destruct (n <? 10); [done|].
  by apply digits_go_nonempty.
Qed.

(** The bounds of the digit count. *)
Lemma digits_val_bound l :
  forallb is_digit l = true → 0 <= digits_val l < 10 ^ Z.of_nat (length l).
Proof.
  induction l as [|c l IH]; cbn [forallb length]; [cbn; lia|].
  rewrite andb_true_iff. intros [Hc Hl]. specialize (IH Hl).
  rewrite digits_val_cons, Nat2Z.inj_succ, Z.pow_succ_r by lia.
  assert (0 <= digit_val c < 10).
  { unfold is_digit, between in Hc. unfold digit_val.
    apply andb_true_iff in Hc as [H1%N.leb_le H2%N.leb_le].
    change (N_of_ascii "0") with 48%N in H1. change (N_of_ascii "9") with 57%N in H2. lia. }
  nia.
Qed.

(** Every digit written before the accumulator adds a factor of ten. *)
Lemma digits_go_length fuel n acc :
  0 < n → n < 2 ^ Z.of_nat fuel →
  10 ^ (Z.of_nat (length (digits_go fuel n acc)) - Z.of_nat (length acc) - 1) <= n.
Proof.
  revert n acc. induction fuel as [|fuel IH]; intros n acc H0 Hn;
    [change (2 ^ Z.of_nat 0) with 1 in Hn; lia|].
  cbn [digits_go]. destruct (n <? 10) eqn:E.
  - cbn [length]. rewrite Nat2Z.inj_succ.
    replace (Z.succ _ - _ - 1) with 0 by lia. cbn. lia.
  - apply Z.ltb_ge in E. rewrite Nat2Z.inj_succ, Z.pow_succ_r in Hn by lia.
    pose proof (Z.div_mod n 10 ltac:(lia)). pose proof (Z.mod_pos_bound n 10 ltac:(lia)).
    specialize (IH (n / 10) (digit_char (n mod 10) :: acc) ltac:(lia) ltac:(lia)).
    cbn [length] in IH. rewrite Nat2Z.inj_succ in IH.
    set (k := Z.of_nat (length (digits_go _ _ _))) in *.
    destruct (Z.le_gt_cases 1 (k - Z.of_nat (length acc) - 1)).
    + replace (k - Z.of_nat (length acc) - 1)
        with (Z.succ (k - Z.succ (Z.of_nat (length acc)) - 1)) by lia.
      rewrite Z.pow_succ_r by lia. lia.
    + destruct (Z.eq_dec (k - Z.of_nat (length acc) - 1) 0) as [->|]; [cbn; lia|].
      rewrite Z.pow_neg_r by lia. lia.
Qed.

Lemma ndigits_spec c : c ≠ 0 → 10 ^ (ndigits c - 1) <= Z.abs c < 10 ^ ndigits c.
Proof.
  intros Hc. unfold ndigits. split.
  - pose proof (digits_go_length (S (Z.to_nat (Z.log2 (Z.abs c)))) (Z.abs c) [] ltac:(lia)
      (log2_fuel (Z.abs c) ltac:(lia))) as H. cbn [length] in H.
    by rewrite Z.sub_0_r in H.
  - pose proof (digits_val_bound _ (digits_of_digit (Z.abs c) ltac:(lia))) as H.
    rewrite digits_of_val in H; lia.
Qed.

Lemma ndigits_pos c : 1 <= ndigits c.
Proof.
  unfold ndigits. pose proof (digits_of_nonempty (Z.abs c)).
  destruct (digits_of (Z.abs c)); [done|]. cbn [length]. lia.
Qed.

(** A coefficient below [10 ** k] has at most [k] digits. *)
Lemma ndigits_le c k : 1 <= k → Z.abs c < 10 ^ k → ndigits c <= k.
Proof.
  intros Hk Hc. destruct (Z.eq_dec c 0) as [->|Hne]; [exact Hk|].
  pose proof (ndigits_spec c Hne) as [Hlo _].
  assert (10 ^ (ndigits c - 1) < 10 ^ k) as H by lia.
  apply Z.pow_lt_mono_r_iff in H; lia.
Qed.

Lemma ndigits_lt_pow c k : ndigits c <= k → Z.abs c < 10 ^ k.
Proof.
  intros Hk. pose proof (ndigits_pos c). destruct (Z.eq_dec c 0) as [->|Hne].
  - change (Z.abs 0) with 0. apply Z.pow_pos_nonneg; lia.
  - pose proof (ndigits_spec c Hne) as [_ Hhi]. eapply Z.lt_le_trans; [done|].
    apply Z.pow_le_mono_r; lia.
Qed.

(** ** Facts about scaled values *)

Lemma pow10_Qpower e : (pow10 e == 10 ^ e)%Q.
Proof.
  unfold pow10. destruct (0 <=? e) eqn:E.
  - apply Z.leb_le in E. by apply (Zpower_Qpower 10 e).
  - apply Z.leb_gt in E. rewrite <- (Z.opp_involutive e) at 2.
    rewrite Qpower_opp, <- (Zpower_Qpower 10 (- e)) by lia.
    assert (0 < 10 ^ (- e)) by (apply Z.pow_pos_nonneg; lia).
    unfold inject_Z. destruct (10 ^ (- e)); try lia. reflexivity.
Qed.

Lemma pow10_add a b : (pow10 (a + b) == pow10 a * pow10 b)%Q.
Proof. rewrite !pow10_Qpower. apply Qpower_plus. discriminate. Qed.

Lemma pow10_nonneg e : 0 <= e → pow10 e = inject_Z (10 ^ e).
Proof. intros He. unfold pow10. by rewrite (proj2 (Z.leb_le 0 e) He). Qed.

Lemma pow10_pos e : (0 < pow10 e)%Q.
Proof. rewrite pow10_Qpower. by apply Qpower_0_lt. Qed.

Lemma scaled_shift c e k : 0 <= k → (scaled (c * 10 ^ k) e == scaled c (e + k))%Q.
Proof.
  intros Hk. unfold scaled.
  rewrite inject_Z_mult, pow10_add, (pow10_nonneg k) by done. ring.
Qed.

Lemma scaled_0 c : (scaled c 0 == inject_Z c)%Q.
Proof. unfold scaled. rewrite (pow10_nonneg 0) by lia. change (inject_Z (10 ^ 0)) with 1%Q. ring. Qed.

Lemma scaled_add c d e : (scaled c e + scaled d e == scaled (c + d) e)%Q.
Proof. unfold scaled. rewrite inject_Z_plus. ring. Qed.

Lemma scaled_compare c d e : (scaled c e ?= scaled d e)%Q = (c ?= d).
Proof.
  unfold scaled. pose proof (pow10_pos e) as Hp.
  destruct (Z.compare_spec c d) as [->|H|H].
  - apply Qeq_alt. reflexivity.
  - apply Qlt_alt. apply Qmult_lt_r; [done|]. by rewrite <- Zlt_Qlt.
  - apply Qgt_alt. apply Qmult_lt_r; [done|]. by rewrite <- Zlt_Qlt.
Qed.

(** ** Parsing the text of a number *)

(** The text after a run of digits ends the run. *)
Definition stops (l : list ascii) : bool :=
  match l with [] => true | c :: _ => negb (is_digit c) && negb (bool_decide (c = "_"%char)) end.

Lemma take_digits_run ds : ∀ acc rest, forallb is_digit ds = true → stops rest = true →
  take_digits acc (ds ++ rest) = (reverse acc ++ ds, rest).
Proof.
  induction ds as [|d ds IH]; intros acc rest Hds Hstop; cbn [app].
  - rewrite app_nil_r. destruct rest as [|c rest]; [done|]. cbn in *.
    apply andb_true_iff in Hstop as [Hc Hu]. apply negb_true_iff in Hc, Hu.
    by rewrite Hc, Hu.
  - cbn in Hds. apply andb_true_iff in Hds as [Hd Hds]. cbn. rewrite Hd, IH by done.
    by rewrite reverse_cons, <- app_assoc.
Qed.

Lemma is_digit_not c : is_digit c = true →
  is_space c = false ∧ c ≠ "-"%char ∧ c ≠ "+"%char ∧ c ≠ "/"%char ∧ c ≠ "."%char ∧ is_exp_char c = false.
Proof. destruct c as [[] [] [] [] [] [] [] []]; vm_compute; intros; try discriminate; repeat split; done. Qed.

Lemma take_sign_digit c l : is_digit c = true → take_sign (c :: l) = (false, c :: l).
Proof.
  intros (_ & ? & ? & _)%is_digit_not. cbn.
  by rewrite !bool_decide_eq_false_2.
Qed.

Lemma lstrip_digit c l : is_digit c = true → lstrip_chars (c :: l) = c :: l.
Proof. intros (? & _)%is_digit_not. by apply lstrip_head. Qed.

(** The three optional parts of the text of a number. *)
Definition sign_text (neg : bool) : list ascii := if neg then ["-"%char] else [].
Definition frac_text (frac : option (list ascii)) : list ascii :=
  match frac with Some fs => "."%char :: fs | None => [] end.
Definition exp_text (e : option Z) : list ascii :=
  match e with
  | Some e => "E"%char :: (if e <? 0 then "-"%char else "+"%char) :: digits_of (Z.abs e)
  | None => []
  end.

Definition frac_digits (frac : option (list ascii)) : list ascii :=
  match frac with Some fs => fs | None => [] end.

Lemma take_exp_text e : take_exp (exp_text e) = Some (default 0 e, []).
Proof.
  destruct e as [e|]; cbn [exp_text take_exp default]; [|done].
  change (is_exp_char "E") with true. cbn iota.
  assert (take_sign ((if e <? 0 then "-"%char else "+"%char) :: digits_of (Z.abs e)) =
          (e <? 0, digits_of (Z.abs e))) as -> by (by destruct (e <? 0)).
  pose proof (take_digits_run (digits_of (Z.abs e)) [] [] (digits_of_digit (Z.abs e) ltac:(lia)) eq_refl) as E.
  rewrite app_nil_r in E. rewrite E. cbn [reverse app rev_append].
  destruct (digits_of (Z.abs e)) as [|d ds] eqn:Ed; [by apply digits_of_nonempty in Ed|].
  rewrite <- Ed, digits_of_val by lia. do 2 f_equal. unfold apply_sign.
  unfold id. destruct (Z.ltb_spec e 0); lia.
Qed.

Lemma exp_text_stops e : stops (exp_text e) = true.
Proof. by destruct e. Qed.

Lemma fraction_of_number_text neg ip frac e :
  forallb is_digit ip = true → ip ≠ [] → forallb is_digit (frac_digits frac) = true →
  ∃ q, fraction_of_string (of_chars (sign_text neg ++ ip ++ frac_text frac ++ exp_text e)) = Ok q ∧
       (q == scaled (apply_sign neg (digits_val (ip ++ frac_digits frac)))
               (default 0%Z e - Z.of_nat (length (frac_digits frac))))%Q.
Proof.
  intros Hip Hne Hfp. unfold fraction_of_string. rewrite chars_of_chars.
  destruct ip as [|d ds]; [done|]. cbn in Hip. apply andb_true_iff in Hip as [Hd Hds].
  assert (take_sign (lstrip_chars (sign_text neg ++ (d :: ds) ++ frac_text frac ++ exp_text e)) =
          (neg, (d :: ds) ++ frac_text frac ++ exp_text e)) as ->.
  { destruct neg; cbn [sign_text app]; [done|].
    by rewrite lstrip_digit, take_sign_digit. }
  cbn [number_ahead app]. rewrite Hd. cbn [orb negb]. set (rest := frac_text frac ++ exp_text e).
  assert (take_digits [] (d :: (ds ++ rest)) = (d :: ds, rest)) as ->.
  { apply (take_digits_run (d :: ds)); [cbn; by rewrite Hd|].
    unfold rest. destruct frac; [done|]. apply exp_text_stops. }
  destruct frac as [fs|]; subst rest; cbn [frac_text frac_digits default] in *.
  - assert (take_digits [] (fs ++ exp_text e) = (fs, exp_text e)) as E
      by (apply (take_digits_run fs []); [done|apply exp_text_stops]).
    cbn [app]. change (lstrip_chars ("."%char :: fs ++ exp_text e)) with ("."%char :: fs ++ exp_text e).
    cbn iota. rewrite (bool_decide_eq_false_2 ("."%char = "/"%char)) by done.
    cbn [take_frac]. rewrite (bool_decide_eq_true_2 ("."%char = "."%char)) by done.
    rewrite E, take_exp_text. cbn [forallb]. eexists. split; [reflexivity|]. reflexivity.
  - destruct e as [e|]; cbn [exp_text app].
    + change (lstrip_chars ("E"%char :: ?l)) with ("E"%char :: l).
      cbn iota. rewrite (bool_decide_eq_false_2 ("E"%char = "/"%char)) by done.
      cbn [take_frac]. rewrite (bool_decide_eq_false_2 ("E"%char = "."%char)) by done.
      pose proof (take_exp_text (Some e)) as E. cbn [exp_text] in E. rewrite E.
      cbn [forallb]. eexists. split; [reflexivity|]. reflexivity.
    + cbn [lstrip_chars]. eexists. split; [reflexivity|].
      cbn [default length]. rewrite app_nil_r. change (0 - Z.of_nat 0) with 0.
      by rewrite scaled_0.
Qed.

(** [Fraction(str(n)) == n] *)
Lemma fraction_of_str_int n :
  ∃ q, fraction_of_string (str_int n) = Ok q ∧ (q == inject_Z n)%Q.
Proof.
  destruct (fraction_of_number_text (n <? 0) (digits_of (Z.abs n)) None None) as (q & Hq & E).
  - apply digits_of_digit. lia.
  - apply digits_of_nonempty.
  - done.
  - exists q. split.
    + rewrite <- Hq. cbn [frac_text exp_text app]. rewrite app_nil_r. unfold str_int, sign_text.
      do 2 f_equal. destruct (Z.ltb_spec n 0); cbn [app].
      * by rewrite Z.abs_neq by lia.
      * by rewrite Z.abs_eq by lia.
    + rewrite E. cbn [frac_digits default length]. rewrite app_nil_r, digits_of_val by lia.
      change (0 - Z.of_nat 0) with 0. rewrite scaled_0. unfold apply_sign.
      destruct (Z.ltb_spec n 0).
      * rewrite Z.abs_neq by lia. by rewrite Z.opp_involutive.
      * by rewrite Z.abs_eq by lia.
Qed.

(** ** [Fraction(str(d)) == d] for a finite decimal *)

Lemma apply_sign_abs c : apply_sign (c <? 0) (Z.abs c) = c.
Proof. unfold apply_sign. destruct (Z.ltb_spec c 0); lia. Qed.

Lemma digits_val_zeros n l : digits_val (replicate n "0"%char ++ l) = digits_val l.
Proof.
  induction n as [|n IH]; cbn [replicate app]; [done|]. rewrite digits_val_cons, IH.
  change (digit_val "0") with 0. lia.
Qed.

Lemma zeros_digit n : forallb is_digit (zeros n) = true.
Proof. unfold zeros. induction (Z.to_nat n); done. Qed.

Lemma zeros_length n : 0 <= n → Z.of_nat (length (zeros n)) = n.
Proof. intros Hn. unfold zeros. rewrite length_replicate. lia. Qed.

Lemma forallb_take {A} (f : A → bool) n l : forallb f l = true → forallb f (take n l) = true.
Proof. revert n. induction l; intros [|n]; cbn; rewrite ?andb_true_iff; naive_solver. Qed.
Lemma forallb_drop {A} (f : A → bool) n l : forallb f l = true → forallb f (drop n l) = true.
Proof. revert n. induction l; intros [|n]; cbn; rewrite ?andb_true_iff; naive_solver. Qed.

(** The digits before and after the decimal point, and the exponent. *)
Lemma dec_str_text c e :
  ∃ ip frac ex,
    dec_str (DFinite c e) = of_chars (sign_text (c <? 0) ++ ip ++ frac_text frac ++ exp_text ex) ∧
    forallb is_digit ip = true ∧ ip ≠ [] ∧ forallb is_digit (frac_digits frac) = true ∧
    digits_val (ip ++ frac_digits frac) = Z.abs c ∧
    default 0 ex - Z.of_nat (length (frac_digits frac)) = e.
Proof.
  set (ds := digits_of (Z.abs c)). set (len := Z.of_nat (length ds)).
  assert (forallb is_digit ds = true) as Hds by (apply digits_of_digit; lia).
  assert (ds ≠ []) as Hne by apply digits_of_nonempty.
  assert (digits_val ds = Z.abs c) as Hval by (apply digits_of_val; lia).
  assert (1 <= len) as Hlen by (unfold len; destruct ds; [done|cbn [length]; lia]).
  unfold dec_str. fold ds len. set (left := e + len).
  set (dot := if (e <=? 0) && (-6 <? left) then left else 1).
  assert ((dot = left ∧ e <= 0) ∨ (dot = 1 ∧ (0 < e ∨ left <= -6))) as Hdot.
  { unfold dot. destruct (Z.leb_spec e 0), (Z.ltb_spec (-6) left); cbn; lia. }
  clearbody dot.
  assert ((if left =? dot then [] else "E"%char :: (if left - dot <? 0 then "-"%char else "+"%char)
             :: digits_of (Z.abs (left - dot))) =
          exp_text (if left =? dot then None else Some (left - dot))) as ->
    by (by destruct (left =? dot)).
  assert (default 0 (if left =? dot then None else Some (left - dot)) = left - dot) as Hex.
  { destruct (Z.eqb_spec left dot); cbn; unfold id; lia. }
  set (ex := if left =? dot then None else Some (left - dot)) in *.
  destruct (Z.leb_spec dot 0).
  - exists ["0"%char], (Some (zeros (- dot) ++ ds)), ex. split_and!; try done.
    + cbn [frac_digits]. by rewrite forallb_app, zeros_digit.
    + cbn [frac_digits]. unfold zeros.
      change (["0"%char] ++ ?l) with (replicate 1 "0"%char ++ l).
      by rewrite !digits_val_zeros.
    + rewrite Hex. cbn [frac_digits].
      rewrite length_app, Nat2Z.inj_add, zeros_length by lia. fold len. lia.
  - destruct (Z.leb_spec len dot).
    + assert (dot - len = 0) as Hz by lia. exists ds, None, ex. split_and!; try done.
      * rewrite Hz. cbn [zeros replicate frac_text app]. by rewrite app_nil_r.
      * by rewrite app_nil_r.
      * rewrite Hex. cbn. lia.
    + exists (take (Z.to_nat dot) ds), (Some (drop (Z.to_nat dot) ds)), ex.
      cbn [frac_digits frac_text].
      split_and!; auto using forallb_take, forallb_drop.
      * by rewrite <- !app_assoc.
      * destruct ds; [done|]. by destruct (Z.to_nat dot) eqn:?; [lia|].
      * by rewrite take_drop.
      * rewrite Hex, length_drop. lia.
Qed.

Lemma fraction_of_dec_str c e :
  ∃ q, fraction_of_string (dec_str (DFinite c e)) = Ok q ∧ (q == scaled c e)%Q.
Proof.
  destruct (dec_str_text c e) as (ip & frac & ex & -> & Hip & Hne & Hfp & Hval & Hexp).
  destruct (fraction_of_number_text (c <? 0) ip frac ex Hip Hne Hfp) as (q & Hq & E).
  exists q. split; [done|]. by rewrite E, Hval, Hexp, apply_sign_abs.
Qed.

(** ** Rounding operations that are exact *)

Lemma dec_fix_exact c e : ndigits c <= dec_prec → dec_fix (DFinite c e) = DFinite c e.
Proof. intros H. unfold dec_fix. by rewrite (proj2 (Z.leb_le _ _) H). Qed.

(** ** The exponents of the context *)

(** The exponent of the leading digit. *)
Definition dec_adjusted (d : Decimal) : Z := match d with DFinite c e => ndigits c + e - 1 | _ => 0 end.

(** The number of digits is where the powers of ten enclose a number. *)
Lemma ndigits_unique c k : 10 ^ (k - 1) <= Z.abs c < 10 ^ k → 1 <= k → ndigits c = k.
Proof.
  intros [Hlo Hhi] Hk. assert (0 < 10 ^ (k - 1)) by (apply Z.pow_pos_nonneg; lia).
  pose proof (ndigits_spec c ltac:(lia)) as [H1 H2]. pose proof (ndigits_pos c).
  assert (10 ^ (k - 1) < 10 ^ ndigits c) as Ha by lia. assert (10 ^ (ndigits c - 1) < 10 ^ k) as Hb by lia.
  apply Z.pow_lt_mono_r_iff in Ha, Hb; lia.
Qed.

Lemma ndigits_shift c k : c ≠ 0 → 0 <= k → ndigits (c * 10 ^ k) = ndigits c + k.
Proof.
  intros Hc Hk. pose proof (ndigits_spec c Hc) as [H1 H2]. pose proof (ndigits_pos c).
  assert (0 < 10 ^ k) by (apply Z.pow_pos_nonneg; lia). apply ndigits_unique; [|lia].
  rewrite Z.abs_mul, (Z.abs_eq (10 ^ k)) by lia. replace (ndigits c + k - 1) with (ndigits c - 1 + k) by lia.
  rewrite !Z.pow_add_r by lia. nia.
Qed.

(** Dropping the digits of a coefficient beyond the precision leaves as many
    as the precision, or one more where the rounding carries into a power of
    ten. *)
Lemma round_coef_digits c : dec_prec < ndigits c →
  10 ^ 27 <= Z.abs (round_coef c (ndigits c - dec_prec)) <= 10 ^ 28.
Proof.
  intros Hn. set (s := ndigits c - dec_prec). assert (0 < s) as Hs by (unfold s; lia).
  assert (c ≠ 0) as Hc.
  { intros ->. pose proof (ndigits_le 0 1 ltac:(lia) ltac:(lia)). unfold dec_prec in Hn. lia. }
  pose proof (ndigits_spec c Hc) as [Hlo Hhi]. assert (0 < 10 ^ s) as Hp by (apply Z.pow_pos_nonneg; lia).
  replace (ndigits c - 1) with (27 + s) in Hlo by (unfold s, dec_prec; lia).
  replace (ndigits c) with (28 + s) in Hhi by (unfold s, dec_prec; lia). rewrite Z.pow_add_r in Hlo, Hhi by lia.
  assert (10 ^ 27 <= Z.abs c / 10 ^ s < 10 ^ 28) as Hq.
  { split; [apply Z.div_le_lower_bound; lia|apply Z.div_lt_upper_bound; lia]. }
  unfold round_coef, div_half_even. rewrite Z.abs_mul.
  assert (Z.abs (Z.sgn c) = 1) as -> by (destruct (Z.sgn_spec c) as [[? ->]|[[? ->]|[? ->]]]; lia).
  rewrite Z.mul_1_l. destruct (2 * _ ?= _); [destruct (Z.even _)| |]; rewrite Z.abs_eq; lia.
Qed.

(** [dec_fix] in two cases: nothing is dropped, or a coefficient of exactly the
    precision remains. *)
Lemma dec_fix_digits c e : c ≠ 0 → dec_prec < ndigits c →
  let c' := round_coef c (ndigits c - dec_prec) in
  (ndigits c' = dec_prec ∧ dec_fix (DFinite c e) = DFinite c' (e + (ndigits c - dec_prec))) ∨
  (ndigits c' = dec_prec + 1 ∧ ndigits (c' / 10) = dec_prec ∧
   dec_fix (DFinite c e) = DFinite (c' / 10) (e + (ndigits c - dec_prec) + 1)).
Proof.
  intros Hc Hn c'. pose proof (round_coef_digits c Hn) as [Hlo Hhi]. fold c' in Hlo, Hhi. unfold dec_fix.
  rewrite (proj2 (Z.leb_gt _ _)) by done. fold c'.
  destruct (Z.eq_dec (Z.abs c') (10 ^ 28)) as [E|E].
  - right. assert (ndigits c' = dec_prec + 1) as -> by (apply ndigits_unique; unfold dec_prec; cbn in *; lia).
    rewrite (proj2 (Z.leb_gt _ _)) by lia. split_and!; [done| |done].
    assert (c' = 10 ^ 27 * 10 ∨ c' = - 10 ^ 27 * 10) as [-> | ->] by lia; by vm_compute.
  - left. assert (ndigits c' = dec_prec) as -> by (apply ndigits_unique; unfold dec_prec; cbn in *; lia).
    by rewrite (proj2 (Z.leb_le _ _)).
Qed.

(** Between the exponents of the context an operation only rounds to the
    precision. *)
Lemma dec_finish_fix c e :
  c ≠ 0 → - dec_emax <= ndigits c + e - 1 < dec_emax → dec_finish (DFinite c e) = Ok (dec_fix (DFinite c e)).
Proof.
  intros Hc He. unfold dec_finish. rewrite (proj2 (Z.eqb_neq c 0)) by done.
  rewrite (proj2 (Z.ltb_ge dec_etop _)) by (unfold dec_etop, dec_prec in *; lia).
  rewrite Z.max_l by (unfold dec_etiny, dec_prec in *; lia).
  destruct (Z.leb_spec (ndigits c + e - dec_prec) e) as [Hle|Hlt].
  - by rewrite dec_fix_exact by lia.
  - rewrite (proj2 (Z.ltb_ge (ndigits c + e) _)) by (unfold dec_prec; lia).
    replace (ndigits c + e - dec_prec - e) with (ndigits c - dec_prec) by lia.
    destruct (dec_fix_digits c e Hc ltac:(lia)) as [[-> ->]|(-> & _ & ->)].
    + rewrite Z.leb_refl, (proj2 (Z.ltb_ge dec_etop _)) by (unfold dec_etop, dec_prec in *; lia).
      do 2 f_equal. lia.
    + rewrite (proj2 (Z.leb_gt _ _)), (proj2 (Z.ltb_ge dec_etop _)) by (unfold dec_etop, dec_prec in *; lia).
      do 2 f_equal. lia.
Qed.

(** So does one whose result is not too large. *)
Lemma dec_finish_Ok_fix c e d :
  c ≠ 0 → - dec_emax <= ndigits c + e - 1 → dec_finish (DFinite c e) = Ok d → d = dec_fix (DFinite c e).
Proof.
  intros Hc He. destruct (Z.lt_ge_cases (ndigits c + e - 1) dec_emax) as [Hlt|Hge].
  { rewrite dec_finish_fix by lia. congruence. }
  unfold dec_finish. rewrite (proj2 (Z.eqb_neq c 0)) by done.
  destruct (dec_etop <? ndigits c + e - dec_prec); [done|].
  rewrite Z.max_l by (unfold dec_etiny, dec_prec, dec_emax in *; lia).
  destruct (Z.leb_spec (ndigits c + e - dec_prec) e) as [Hle|Hl]; [rewrite dec_fix_exact by lia; congruence|].
  rewrite (proj2 (Z.ltb_ge (ndigits c + e) _)) by (unfold dec_prec; lia).
  replace (ndigits c + e - dec_prec - e) with (ndigits c - dec_prec) by lia.
  destruct (dec_fix_digits c e Hc ltac:(lia)) as [[-> ->]|(-> & _ & ->)].
  - rewrite Z.leb_refl. destruct (_ <? _); [done|]. intros [= <-]. f_equal. lia.
  - rewrite (proj2 (Z.leb_gt _ _)) by lia. destruct (_ <? _); [done|]. intros [= <-]. f_equal. lia.
Qed.

(** What needs no rounding is kept. *)
Lemma dec_finish_exact c e :
  c ≠ 0 → ndigits c <= dec_prec → dec_etiny <= e → ndigits c + e - 1 <= dec_emax →
  dec_finish (DFinite c e) = Ok (DFinite c e).
Proof.
  intros Hc Hn He Ha. unfold dec_finish. rewrite (proj2 (Z.eqb_neq c 0)) by done.
  rewrite (proj2 (Z.ltb_ge dec_etop _)) by (unfold dec_etop, dec_prec in *; lia).
  by rewrite (proj2 (Z.leb_le (Z.max _ _) e)) by lia.
Qed.

(** An operation raises exactly when its rounded result is too large. *)
Definition dec_fits (d : Decimal) : bool :=
  match d with DFinite c _ => (c =? 0) || (dec_adjusted (dec_fix d) <=? dec_emax) | _ => true end.

Lemma dec_finish_error d e : dec_finish d = Raise e → e = DecimalOverflow.
Proof. unfold dec_finish. destruct d; [|done..]. repeat case_match; intros; congruence. Qed.

Lemma dec_finish_ok d : is_ok (dec_finish d) = dec_fits d.
Proof.
  destruct d as [c e| |]; [|done..]. destruct (Z.eqb_spec c 0) as [->|Hc]; [done|].
  unfold dec_fits. rewrite (proj2 (Z.eqb_neq c 0)) by done. cbn [orb].
  assert (dec_adjusted (dec_fix (DFinite c e)) = ndigits c + e - 1 ∨
    dec_adjusted (dec_fix (DFinite c e)) = ndigits c + e ∧ dec_prec < ndigits c) as Hadj.
  { destruct (Z.le_gt_cases (ndigits c) dec_prec) as [Hn|Hn]; [left; by rewrite dec_fix_exact|].
    destruct (dec_fix_digits c e Hc Hn) as [[Hd ->]|(_ & Hd & ->)]; cbn; rewrite Hd; lia. }
  destruct (Z.lt_trichotomy (ndigits c + e - 1) dec_emax) as [Hlt|[Heq|Hgt]].
  - destruct (Z.le_gt_cases (- dec_emax) (ndigits c + e - 1)) as [Hlow|Hlow].
    + rewrite dec_finish_fix by lia. symmetry. apply Z.leb_le. lia.
    + assert ((dec_adjusted (dec_fix (DFinite c e)) <=? dec_emax) = true) as -> by (apply Z.leb_le; unfold dec_emax in *; lia).
      unfold dec_finish. rewrite (proj2 (Z.eqb_neq c 0)) by done.
      rewrite (proj2 (Z.ltb_ge dec_etop _)) by (unfold dec_etop, dec_prec, dec_emax in *; lia).
      rewrite Z.max_r by (unfold dec_etiny, dec_prec, dec_emax in *; lia). destruct (_ <=? e); [done|].
      destruct (_ <=? dec_prec); by rewrite (proj2 (Z.ltb_ge dec_etop _)) by (unfold dec_etop, dec_etiny, dec_prec, dec_emax in *; lia).
  - unfold dec_finish. rewrite (proj2 (Z.eqb_neq c 0)) by done.
    rewrite (proj2 (Z.ltb_ge dec_etop _)) by (unfold dec_etop, dec_prec in *; lia).
    rewrite Z.max_l by (unfold dec_etiny, dec_prec, dec_emax in *; lia).
    destruct (Z.leb_spec (ndigits c + e - dec_prec) e) as [Hle|Hl].
    + rewrite dec_fix_exact by lia. cbn. symmetry. apply Z.leb_le. lia.
    + rewrite (proj2 (Z.ltb_ge (ndigits c + e) _)) by (unfold dec_prec; lia).
      replace (ndigits c + e - dec_prec - e) with (ndigits c - dec_prec) by lia.
      destruct (dec_fix_digits c e Hc ltac:(lia)) as [[Hd ->]|(Hd & Hd' & ->)]; cbn [dec_adjusted].
      * rewrite Hd, Z.leb_refl, (proj2 (Z.ltb_ge dec_etop _)) by (unfold dec_etop, dec_prec in *; lia).
        symmetry. apply Z.leb_le. lia.
      * rewrite Hd, Hd', (proj2 (Z.leb_gt _ dec_prec)), (proj2 (Z.ltb_lt dec_etop _)) by (unfold dec_etop, dec_prec in *; lia).
        symmetry. apply Z.leb_gt. lia.
  - unfold dec_finish. rewrite (proj2 (Z.eqb_neq c 0)) by done.
    rewrite (proj2 (Z.ltb_lt dec_etop _)) by (unfold dec_etop, dec_prec in *; lia). symmetry. apply Z.leb_gt. lia.
Qed.

(** Far enough below the exponents of the context nothing is left. *)
Lemma dec_finish_tiny c e :
  c ≠ 0 → ndigits c + e < dec_etiny → dec_finish (DFinite c e) = Ok (DFinite 0 dec_etiny).
Proof.
  intros Hc He. pose proof (ndigits_pos c). unfold dec_finish. rewrite (proj2 (Z.eqb_neq c 0)) by done.
  rewrite (proj2 (Z.ltb_ge dec_etop _)) by (unfold dec_etop, dec_etiny, dec_prec, dec_emax in *; lia).
  rewrite Z.max_r by (unfold dec_prec; lia). by rewrite (proj2 (Z.leb_gt _ e)), (proj2 (Z.ltb_lt _ dec_etiny)) by lia.
Qed.

Lemma strip_zeros_value fuel c e :
  ∃ c' e', strip_zeros fuel c e = DFinite c' e' ∧ (scaled c' e' == scaled c e)%Q ∧
           e <= e' ∧ Z.abs c' <= Z.abs c.
Proof.
  revert c e. induction fuel as [|fuel IH]; intros c e; cbn [strip_zeros].
  - exists c, e. split_and!; [done..|lia|lia].
  - destruct (Z.eqb_spec (c mod 10) 0).
    + destruct (IH (c / 10) (e + 1)) as (c' & e' & -> & E & He & Hc).
      pose proof (Z.div_mod c 10 ltac:(lia)).
      exists c', e'. split_and!; [done| |lia|lia]. rewrite E, <- (scaled_shift _ _ 1) by lia.
      change (10 ^ 1) with 10. by replace (c / 10 * 10) with c by lia.
    + exists c, e. split_and!; [done..|lia|lia].
Qed.

Lemma dec_reduce_value c e :
  ndigits c <= dec_prec →
  ∃ c' e', dec_reduce (DFinite c e) = DFinite c' e' ∧ (scaled c' e' == scaled c e)%Q.
Proof.
  intros Hc. unfold dec_reduce. rewrite dec_fix_exact by done. unfold dec_strip.
  destruct (Z.eqb_spec c 0) as [->|].
  - exists 0, 0. split; [done|]. unfold scaled. ring.
  - edestruct strip_zeros_value as (c' & e' & -> & ? & _). eauto.
Qed.

(** ** The order of decimals is the order of their values *)

Lemma dec_le_iff a b : py_le a b = true ↔ (dec_value a <= dec_value b)%Q.
Proof. apply Q_le_iff. Qed.

Lemma dec_lt_iff a b : py_lt a b = true ↔ (dec_value a < dec_value b)%Q.
Proof. apply Q_lt_iff. Qed.

#[export] Instance Decimal_ord_laws : PyOrdLaws Decimal.
Proof.
  split.
  - intros x y. apply (py_cmp_opp (dec_value x)).
  - intros x y z. apply (py_le_trans (dec_value x)).
Qed.
