(* ===== verification/PyTime.v ===== *)
(** * Python [datetime]

    A [datetime] is its local wall clock in microseconds and, when it is aware,
    the offset of its zone.  Aware values compare by instant; ordering an aware
    value against a naive one raises. *)
From S2P Require Import Prelude.

Local Open Scope Z_scope.

Record datetime := mkDatetime {
  dt_local : Z;
  dt_offset : option Z
}.

#[export] Instance datetime_eq_dec : EqDecision datetime.
Proof. solve_decision. Defined.

(** [value.tzinfo is not None] *)
Definition is_aware (d : datetime) : bool :=
  match dt_offset d with Some _ => true | None => false end.

(** The instant of an aware value; a naive value compares by its wall clock. *)
Definition instant (d : datetime) : Z := dt_local d - default 0 (dt_offset d).

Definition dt_compare (a b : datetime) : result comparison :=
  if Bool.eqb (is_aware a) (is_aware b) then Ok (instant a ?= instant b) else Raise TypeError.

Definition dt_le (a b : datetime) : result bool :=
  c ← dt_compare a b; Ok (match c with Gt => false | _ => true end).
Definition dt_lt (a b : datetime) : result bool :=
  c ← dt_compare a b; Ok (match c with Lt => true | _ => false end).
(** [a == b] never raises. *)
Definition dt_eqb (a b : datetime) : bool :=
  Bool.eqb (is_aware a) (is_aware b) && (instant a =? instant b).

(** [require_aware(value, field_name)] *)
Definition require_aware (value : datetime) (field_name : string) : result unit :=
  raise_if (negb (is_aware value))
    (DomainValidationError (field_name ++ " must be timezone-aware")%string).

Lemma require_aware_Ok d f u : require_aware d f = Ok u ↔ is_aware d = true.
Proof. unfold require_aware. rewrite raise_if_Ok, negb_false_iff. done. Qed.

(** Between aware values the comparisons are those of the instants. *)
Lemma dt_le_aware a b :
  is_aware a = true → is_aware b = true → dt_le a b = Ok (instant a <=? instant b).
Proof.
  intros Ha Hb. unfold dt_le, dt_compare. rewrite Ha, Hb. cbn. unfold Z.leb.
  by destruct (_ ?= _).
Qed.

Lemma dt_lt_aware a b :
  is_aware a = true → is_aware b = true → dt_lt a b = Ok (instant a <? instant b).
Proof.
  intros Ha Hb. unfold dt_lt, dt_compare. rewrite Ha, Hb. cbn. unfold Z.ltb.
  by destruct (_ ?= _).
Qed.
