(* ===== verification/Enums.v ===== *)
(** * Enumerations of [domain/enums.py]

    One module per [StringEnum] the modelled code uses: its members [t] with
    the source's names, their wire text [value], and decidable equality. *)
From S2P Require Import Prelude.

Local Open Scope string_scope.

Module CandidateStatus.
Inductive t :=
| ELIGIBLE
| ELIGIBLE_WITH_EXCEPTION
| CONDITIONAL
| SIRA_INELIGIBLE
| SEIL_PASS
| UNAVAILABLE
| STALE_EVIDENCE
| INSUFFICIENT_EVIDENCE
| CONFLICTING_EVIDENCE
| AUTHORITY_REQUIRED
| ADVISORY_ONLY.
#[global] Instance eq_dec : EqDecision t.
Proof. solve_decision. Defined.
Definition value (s : t) : string :=
  match s with
  | ELIGIBLE => "ELIGIBLE"
  | ELIGIBLE_WITH_EXCEPTION => "ELIGIBLE_WITH_EXCEPTION"
  | CONDITIONAL => "CONDITIONAL"
  | SIRA_INELIGIBLE => "SIRA_INELIGIBLE"
  | SEIL_PASS => "SEIL_PASS"
  | UNAVAILABLE => "UNAVAILABLE"
  | STALE_EVIDENCE => "STALE_EVIDENCE"
  | INSUFFICIENT_EVIDENCE => "INSUFFICIENT_EVIDENCE"
  | CONFLICTING_EVIDENCE => "CONFLICTING_EVIDENCE"
  | AUTHORITY_REQUIRED => "AUTHORITY_REQUIRED"
  | ADVISORY_ONLY => "ADVISORY_ONLY"
  end.
End CandidateStatus.

Module RankStability.
Inductive t := STABLE | UNSTABLE | UNDETERMINED.
#[global] Instance eq_dec : EqDecision t.
Proof. solve_decision. Defined.
Definition value (s : t) : string :=
  match s with
  | STABLE => "STABLE" | UNSTABLE => "UNSTABLE" | UNDETERMINED => "UNDETERMINED"
  end.
End RankStability.

Module PackAuthority.
Inductive t := SELLER_SEALED | PLATFORM_COMPILED | EXTERNAL_UNSEALED.
#[global] Instance eq_dec : EqDecision t.
Proof. solve_decision. Defined.
End PackAuthority.

Module ApprovalStatus.
Inductive t :=
| NOT_REQUIRED | NOT_REQUESTED | PENDING | APPROVED | REJECTED | REVOKED | EXPIRED | SUPERSEDED.
#[global] Instance eq_dec : EqDecision t.
Proof. solve_decision. Defined.
Definition value (s : t) : string :=
  match s with
  | NOT_REQUIRED => "NOT_REQUIRED" | NOT_REQUESTED => "NOT_REQUESTED"
  | PENDING => "PENDING" | APPROVED => "APPROVED" | REJECTED => "REJECTED"
  | REVOKED => "REVOKED" | EXPIRED => "EXPIRED" | SUPERSEDED => "SUPERSEDED"
  end.
End ApprovalStatus.

Module PaymentHandoffStatus.
Inductive t := READY | OPENED | EXPIRED | CANCELLED.
#[global] Instance eq_dec : EqDecision t.
Proof. solve_decision. Defined.
Definition value (s : t) : string :=
  match s with
  | READY => "READY" | OPENED => "OPENED" | EXPIRED => "EXPIRED" | CANCELLED => "CANCELLED"
  end.
End PaymentHandoffStatus.

Module SolutionAction.
Inductive t :=
| REUSE_EXISTING | CONFIGURE_EXISTING | NO_ACTION | BUY | RENEW | RESIZE | REPLACE
| CONSOLIDATE | CANCEL.
#[global] Instance eq_dec : EqDecision t.
Proof. solve_decision. Defined.
Definition value (s : t) : string :=
  match s with
  | REUSE_EXISTING => "REUSE_EXISTING" | CONFIGURE_EXISTING => "CONFIGURE_EXISTING"
  | NO_ACTION => "NO_ACTION" | BUY => "BUY" | RENEW => "RENEW" | RESIZE => "RESIZE"
  | REPLACE => "REPLACE" | CONSOLIDATE => "CONSOLIDATE" | CANCEL => "CANCEL"
  end.
End SolutionAction.

Module StackRisk.
Inductive t := LOW | MEDIUM | HIGH | CRITICAL.
#[global] Instance eq_dec : EqDecision t.
Proof. solve_decision. Defined.
Definition value (s : t) : string :=
  match s with LOW => "LOW" | MEDIUM => "MEDIUM" | HIGH => "HIGH" | CRITICAL => "CRITICAL" end.
Definition rank (s : t) : Z :=
  match s with LOW => 0 | MEDIUM => 1 | HIGH => 2 | CRITICAL => 3 end.
End StackRisk.

Module TruthValue.
Inductive t := TRUE | FALSE | UNKNOWN | CONFLICT | UNRESOLVED.
#[global] Instance eq_dec : EqDecision t.
Proof. solve_decision. Defined.
Definition value (s : t) : string :=
  match s with
  | TRUE => "TRUE" | FALSE => "FALSE" | UNKNOWN => "UNKNOWN" | CONFLICT => "CONFLICT"
  | UNRESOLVED => "UNRESOLVED"
  end.
End TruthValue.

Module ProductInstanceState.
Inductive t :=
| PROPOSED | CONTRACTED | PROVISIONED | DEPLOYING | ACTIVE | DEGRADED | RETIRING | CANCELLED.
#[global] Instance eq_dec : EqDecision t.
Proof. solve_decision. Defined.
Definition value (s : t) : string :=
  match s with
  | PROPOSED => "proposed" | CONTRACTED => "contracted" | PROVISIONED => "provisioned"
  | DEPLOYING => "deploying" | ACTIVE => "active" | DEGRADED => "degraded"
  | RETIRING => "retiring" | CANCELLED => "cancelled"
  end.
End ProductInstanceState.

Module StackPatchStatus.
Inductive t :=
| DRAFT | VALIDATED | AWAITING_APPROVAL | APPROVED | APPLYING | APPLIED | CONFLICT | FAILED
| COMPENSATING_PATCH.
#[global] Instance eq_dec : EqDecision t.
Proof. solve_decision. Defined.
Definition value (s : t) : string :=
  match s with
  | DRAFT => "DRAFT" | VALIDATED => "VALIDATED" | AWAITING_APPROVAL => "AWAITING_APPROVAL"
  | APPROVED => "APPROVED" | APPLYING => "APPLYING" | APPLIED => "APPLIED"
  | CONFLICT => "CONFLICT" | FAILED => "FAILED" | COMPENSATING_PATCH => "COMPENSATING_PATCH"
  end.
End StackPatchStatus.

Lemma StackRisk_rank_inj r s : StackRisk.rank r = StackRisk.rank s → r = s.
Proof. by destruct r, s. Qed.

Module RuleOperator.
Inductive t := EQ | NEQ | IN_ | NOT_IN | CONTAINS | CONTAINS_ALL | GTE | LTE | GT | LT | EXISTS
  | DATE_BEFORE | DATE_ON_OR_BEFORE | DATE_AFTER | DATE_ON_OR_AFTER.
#[global] Instance eq_dec : EqDecision t.
Proof. solve_decision. Defined.
Definition value (s : t) : string :=
  match s with
  | EQ => "eq" | NEQ => "neq" | IN_ => "in" | NOT_IN => "not_in" | CONTAINS => "contains"
  | CONTAINS_ALL => "contains_all" | GTE => "gte" | LTE => "lte" | GT => "gt" | LT => "lt" | EXISTS => "exists"
  | DATE_BEFORE => "date_before" | DATE_ON_OR_BEFORE => "date_on_or_before" | DATE_AFTER => "date_after"
  | DATE_ON_OR_AFTER => "date_on_or_after"
  end.
End RuleOperator.
