(* ===== verification/Money.v ===== *)
(** * Exact money: [domain/money.py]

    [Money] with its constructor, addition, comparison and dictionary forms
    over the decimal arithmetic of [PyNumber].  An amount is shown to be a
    whole number of cents below [10 ** 28]; addition is exact or raises, and
    the dictionary form reads back as the same value. *)
From S2P Require Import Prelude PyText PyNumber.

Local Open Scope Z_scope.

(** What [Money(amount, currency)] accepts as an amount. *)
Inductive money_input :=
| MStr (s : string)
| MInt (n : Z)
| MDecimal (d : Decimal)
| MFloat
| MBool.

Definition dec_eqb (a b : Decimal) : bool := bool_decide (py_cmp a b = Eq).

(** [Decimal(value)] for the three accepted kinds; a malformed text is
    reported as a domain error. *)
Definition to_decimal (v : money_input) (malformed : exn) : result Decimal :=
  match v with
  | MDecimal d => Ok d
  | MInt n => Ok (DFinite n 0)
  | MStr s => match decimal_of_string s with Ok d => Ok d | Raise _ => Raise malformed end
  | MFloat | MBool => Raise malformed
  end.

Definition _coerce_decimal (value : money_input) : result Decimal :=
  match value with
  | MFloat => Raise (DomainValidationError "binary floating point is prohibited for money")
  | MBool => Raise (DomainValidationError "money must be constructed from Decimal, string, or int")
  | _ =>
      d ← to_decimal value (DomainValidationError "invalid decimal money amount");
      _ ← raise_if (negb (dec_is_finite d)) (DomainValidationError "money amount must be finite");
      _ ← raise_if (py_lt d (DFinite 0 0)) (DomainValidationError "money amount cannot be negative");
      q ← dec_quantize_cents d;
      _ ← raise_if (negb (dec_eqb q d))
            (DomainValidationError "money amount must have at most two decimal places");
      if dec_eqb d (DFinite 0 0) then Ok (DFinite 0 0) else dec_normalize d
  end.

Record Money := mkMoney { amount : Decimal; currency : string }.

#[export] Instance Money_eq_dec : EqDecision Money.
Proof. solve_decision. Defined.

(** [^[A-Z]{3}$] *)
Definition is_currency (s : string) : bool :=
  forallb is_upper (chars s) && (length (chars s) =? 3)%nat.

(** [Money(amount, currency)] *)
Definition Money_new (amount : money_input) (currency : string) : result Money :=
  a ← _coerce_decimal amount;
  let c := upper currency in
  _ ← raise_if (negb (is_currency c))
        (DomainValidationError "currency must be a three-letter ISO code");
  Ok (mkMoney a c).

(** [format(value, ".2f")]: rescaled to two places, then written in full. *)
Definition decimal_text (d : Decimal) : string :=
  match d with
  | DFinite c e =>
      let c' := if -2 <=? e then c * 10 ^ (e + 2) else round_coef c (-2 - e) in
      let ds := digits_of (Z.abs c') in
      let ds := zeros (3 - Z.of_nat (length ds)) ++ ds in
      let n := (length ds - 2)%nat in
      of_chars (sign_text (c <? 0) ++ take n ds ++ "."%char :: drop n ds)
  | _ => dec_str d
  end.

(** [money.to_dict()] and [Money.from_dict(value)] on a dictionary whose
    values are strings. *)
Definition to_dict (m : Money) : list (string * string) :=
  [("amount", decimal_text (amount m)); ("currency", currency m)]%string.

Definition dict_index (key : string) (d : list (string * string)) : result string :=
  match list_find (λ p, p.1 = key) d with
  | Some (_, (_, v)) => Ok v
  | None => Raise (KeyError key)
  end.

Definition from_dict (value : list (string * string)) : result Money :=
  _ ← raise_if (negb (py_subset value.*1 ["amount"; "currency"]%string &&
                      py_subset ["amount"; "currency"]%string value.*1))
        (DomainValidationError "money requires exactly amount and currency");
  a ← dict_index "amount" value;
  c ← dict_index "currency" value;
  Money_new (MStr a) c.

Definition _require_currency (a b : Money) : result unit :=
  raise_if (negb (bool_decide (currency a = currency b)))
    (DomainValidationError "money values use different currencies").

(** [a + b] *)
Definition Money_add (a b : Money) : result Money :=
  _ ← _require_currency a b;
  Money_new (MDecimal (dec_add (amount a) (amount b))) (currency a).

(** [a < b] *)
Definition Money_lt (a b : Money) : result bool :=
  _ ← _require_currency a b;
  Ok (py_lt (amount a) (amount b)).

(** ** Amounts are whole cents *)

(** The amount the constructor stores for [n] cents. *)
Definition amount_of_cents (n : Z) : Decimal := dec_reduce (DFinite n (-2)).

Definition max_cents : Z := 10 ^ 28.

(** The invariant of a constructed value. *)
Definition Money_wf (m : Money) : Prop :=
  is_currency (currency m) = true ∧
  ∃ n, 0 <= n < max_cents ∧ amount m = amount_of_cents n.

Lemma scaled_lift c e : -2 <= e → (scaled c e == scaled (c * 10 ^ (e + 2)) (-2))%Q.
Proof. intros He. rewrite scaled_shift by lia. by replace (-2 + (e + 2)) with e by lia. Qed.

Lemma strip_zeros_normal fuel c e :
  0 < Z.abs c → Z.abs c < 2 ^ Z.of_nat fuel →
  ∃ c' e', strip_zeros fuel c e = DFinite c' e' ∧ c' mod 10 ≠ 0 ∧ (scaled c' e' == scaled c e)%Q.
Proof.
  revert c e. induction fuel as [|fuel IH]; intros c e H0 Hc.
  - change (2 ^ Z.of_nat 0) with 1 in Hc. lia.
  - cbn [strip_zeros]. rewrite Nat2Z.inj_succ, Z.pow_succ_r in Hc by lia.
    pose proof (Z.div_mod c 10 ltac:(lia)).
    destruct (Z.eqb_spec (c mod 10) 0).
    + destruct (IH (c / 10) (e + 1)) as (c' & e' & -> & Hm & E); [lia..|].
      exists c', e'. split_and!; [done..|]. rewrite E, <- (scaled_shift _ _ 1) by lia.
      change (10 ^ 1) with 10. by replace (c / 10 * 10) with c by lia.
    + exists c, e. by split_and!.
Qed.

(** A normal form is determined by its value. *)
Lemma normal_unique c e c' e' :
  c mod 10 ≠ 0 → c' mod 10 ≠ 0 → (scaled c e == scaled c' e')%Q → c = c' ∧ e = e'.
Proof.
  assert (∀ c e c' e', c mod 10 ≠ 0 → (scaled c e == scaled c' e')%Q → e <= e' → c = c' ∧ e = e')
    as W.
  { clear. intros c e c' e' Hc E He.
    replace e' with (e + (e' - e)) in E by lia. rewrite <- scaled_shift in E by lia.
    apply Qeq_alt in E. rewrite scaled_compare in E. apply Z.compare_eq in E.
    destruct (Z.eq_dec e' e) as [->|]; [rewrite Z.sub_diag in E; lia|].
    exfalso. apply Hc. replace (e' - e) with (Z.succ (e' - e - 1)) in E by lia.
    rewrite Z.pow_succ_r in E by lia. rewrite E.
    replace (c' * (10 * 10 ^ (e' - e - 1))) with (c' * 10 ^ (e' - e - 1) * 10) by lia.
    apply Z.mod_mul. lia. }
  intros Hc Hc' E. destruct (Z.le_ge_cases e e') as [H|H].
  - by apply W.
  - symmetry in E. destruct (W _ _ _ _ Hc' E H). split; congruence.
Qed.

Lemma scaled_zero_iff c e : (scaled c e == 0)%Q ↔ c = 0.
Proof.
  split.
  - intros E. assert (scaled 0 e == 0)%Q as E0 by (unfold scaled; ring).
    rewrite <- E0 in E. apply Qeq_alt in E. rewrite scaled_compare in E. by apply Z.compare_eq.
  - intros ->. unfold scaled. ring.
Qed.

(** Normalising forgets everything but the value. *)
Lemma dec_reduce_ext c e c' e' :
  ndigits c <= dec_prec → ndigits c' <= dec_prec → (scaled c e == scaled c' e')%Q →
  dec_reduce (DFinite c e) = dec_reduce (DFinite c' e').
Proof.
  intros Hc Hc' E. unfold dec_reduce. rewrite !dec_fix_exact by done. unfold dec_strip.
  destruct (Z.eqb_spec c 0) as [->|Hne]; destruct (Z.eqb_spec c' 0) as [->|Hne']; [done| | |].
  - exfalso. apply Hne'. rewrite <- scaled_zero_iff, <- E. by apply scaled_zero_iff.
  - exfalso. apply Hne. rewrite <- scaled_zero_iff, E. by apply scaled_zero_iff.
  - destruct (strip_zeros_normal (S (Z.to_nat (Z.log2 (Z.abs c)))) c e) as (a & x & -> & Ha & Ea);
      [lia|by apply log2_fuel; lia|].
    destruct (strip_zeros_normal (S (Z.to_nat (Z.log2 (Z.abs c')))) c' e') as (b & y & -> & Hb & Eb);
      [lia|by apply log2_fuel; lia|].
    destruct (normal_unique a x b y) as [-> ->]; [done..| |done]. by rewrite Ea, Eb.
Qed.

Lemma cents_ndigits n : 0 <= n < max_cents → ndigits n <= dec_prec.
Proof. intros Hn. apply ndigits_le; unfold dec_prec, max_cents in *; lia. Qed.

Lemma amount_of_cents_finite n :
  0 <= n < max_cents →
  ∃ c e, amount_of_cents n = DFinite c e ∧ -2 <= e ∧ (scaled c e == scaled n (-2))%Q.
Proof.
  intros Hn. pose proof (cents_ndigits n Hn). unfold amount_of_cents, dec_reduce.
  rewrite dec_fix_exact by done. unfold dec_strip. destruct (Z.eqb_spec n 0) as [->|].
  - exists 0, 0. split_and!; [done|lia|]. unfold scaled. ring.
  - edestruct strip_zeros_value as (c & e & -> & E & He & _). eauto.
Qed.

Lemma amount_of_cents_value n :
  0 <= n < max_cents → (dec_value (amount_of_cents n) == scaled n (-2))%Q.
Proof. intros Hn. destruct (amount_of_cents_finite n Hn) as (c & e & -> & _ & E). exact E. Qed.

(** ** The constructor *)

(** The coefficient of a decimal worth [n] cents. *)
Lemma cents_coef c e n :
  (scaled c e == scaled n (-2))%Q →
  (-2 <= e → c * 10 ^ (e + 2) = n) ∧ (e < -2 → c = n * 10 ^ (-2 - e)).
Proof.
  intros E. split; intros He.
  - rewrite scaled_lift in E by done. apply Qeq_alt in E. rewrite scaled_compare in E.
    by apply Z.compare_eq.
  - replace (-2) with (e + (-2 - e)) in E at 1 by lia. rewrite <- scaled_shift in E by lia.
    apply Qeq_alt in E. rewrite scaled_compare in E. by apply Z.compare_eq.
Qed.

(** Dropping zeros rounds nothing. *)
Lemma round_coef_multiple n s : 0 <= n → 0 <= s → round_coef (n * 10 ^ s) s = n.
Proof.
  intros Hn Hs. assert (0 < 10 ^ s) by (apply Z.pow_pos_nonneg; lia).
  unfold round_coef, div_half_even. rewrite (Z.abs_eq (n * 10 ^ s)) by nia.
  rewrite Z.mod_mul, Z.div_mul by lia. rewrite Z.mul_0_r.
  destruct (Z.compare_spec 0 (10 ^ s)); [lia| |lia].
  destruct (Z.eq_dec n 0) as [->|]; [reflexivity|].
  rewrite Z.sgn_pos by nia. lia.
Qed.

(** Rounding a coefficient whose dropped digits are zeros is exact. *)
Lemma dec_fix_multiple n k e :
  0 <= n < max_cents → 0 <= k →
  ∃ c' e', dec_fix (DFinite (n * 10 ^ k) e) = DFinite c' e' ∧ ndigits c' <= dec_prec ∧
           (scaled c' e' == scaled n (e + k))%Q.
Proof.
  intros Hn Hk. pose proof (cents_ndigits n Hn) as Hnd.
  destruct (Z.le_gt_cases (ndigits (n * 10 ^ k)) dec_prec) as [Hle|Hgt].
  - rewrite dec_fix_exact by done. do 2 eexists. split_and!; [done..|]. by apply scaled_shift.
  - unfold dec_fix. rewrite (proj2 (Z.leb_gt _ _) Hgt).
    assert (0 < 10 ^ k) as Hp by (apply Z.pow_pos_nonneg; lia).
    remember (n * 10 ^ k) as c eqn:Hc. set (s := ndigits c - dec_prec).
    assert (c ≠ 0) as Hc0.
    { intros E. rewrite E in Hgt. pose proof (ndigits_le 0 1 ltac:(lia) ltac:(lia)).
      unfold dec_prec in Hgt. lia. }
    assert (0 < n) as Hn0 by nia.
    pose proof (ndigits_spec c Hc0) as [Hlo Hhi]. pose proof (ndigits_lt_pow n _ Hnd).
    assert (s <= k) as Hs.
    { destruct (Z.le_gt_cases s k) as [|Hsk]; [done|exfalso].
      assert (10 ^ (dec_prec + k) <= 10 ^ (ndigits c - 1)) by (apply Z.pow_le_mono_r; lia).
      rewrite Z.pow_add_r in H0 by (unfold dec_prec; lia).
      assert (n * 10 ^ k < 10 ^ dec_prec * 10 ^ k) by (apply Z.mul_lt_mono_pos_r; lia). lia. }
    assert (c = n * 10 ^ (k - s) * 10 ^ s) as Hcs.
    { rewrite Hc, <- Z.mul_assoc, <- Z.pow_add_r by lia. do 2 f_equal. lia. }
    assert (0 < 10 ^ s) by (apply Z.pow_pos_nonneg; lia).
    assert (round_coef c s = n * 10 ^ (k - s)) as ->.
    { rewrite Hcs. apply round_coef_multiple; [|lia]. pose proof (Z.pow_nonneg 10 (k - s)). nia. }
    assert (ndigits (n * 10 ^ (k - s)) <= dec_prec) as Hd.
    { apply ndigits_le; [unfold dec_prec; lia|].
      assert (0 < 10 ^ (k - s)) by (apply Z.pow_pos_nonneg; lia).
      rewrite Z.abs_eq by nia.
      assert (n * 10 ^ (k - s) * 10 ^ s < 10 ^ dec_prec * 10 ^ s); [|nia].
      rewrite <- Hcs, <- Z.pow_add_r by (unfold dec_prec; lia).
      replace (dec_prec + s) with (ndigits c) by lia. lia. }
    rewrite (proj2 (Z.leb_le _ _) Hd). do 2 eexists. split_and!; [done..|].
    rewrite scaled_shift by lia. by replace (e + s + (k - s)) with (e + k) by lia.
Qed.

Lemma dec_quantize_Ok c e q :
  dec_quantize_cents (DFinite c e) = Ok q → ∃ n, q = DFinite n (-2) ∧ Z.abs n < max_cents.
Proof.
  unfold dec_quantize_cents. destruct (c =? 0); [intros [= <-]; exists 0; split; [done|reflexivity]|].
  destruct (_ <? _); [done|]. case_match eqn:E; [done|]. intros [= <-].
  eexists. split; [done|]. apply Z.ltb_ge in E. by apply ndigits_lt_pow.
Qed.

(** A finite decimal equal to a number of cents normalises to that amount. *)
Lemma dec_reduce_cents c e n :
  0 <= n < max_cents → (scaled c e == scaled n (-2))%Q →
  dec_reduce (DFinite c e) = amount_of_cents n.
Proof.
  intros Hn E. pose proof (cents_ndigits n Hn). destruct (cents_coef c e n E) as [Hhi Hlo].
  destruct (Z.le_gt_cases (-2) e) as [He|He].
  - specialize (Hhi He). apply dec_reduce_ext; [|done..].
    apply ndigits_le; [unfold dec_prec; lia|].
    assert (0 < 10 ^ (e + 2)) by (apply Z.pow_pos_nonneg; lia).
    unfold max_cents, dec_prec in *. nia.
  - rewrite (Hlo He).
    destruct (dec_fix_multiple n (-2 - e) e) as (c' & e' & Hfix & Hd & Ev); [done|lia|].
    replace (e + (-2 - e)) with (-2) in Ev by lia.
    transitivity (dec_reduce (DFinite c' e')); [|by apply dec_reduce_ext].
    unfold dec_reduce at 1 2. by rewrite Hfix, (dec_fix_exact c' e').
Qed.

(** The place of its first digit is that of the cents. *)
Lemma cents_digits c e n : c ≠ 0 → (scaled c e == scaled n (-2))%Q → ndigits c + e = ndigits n + -2.
Proof.
  intros Hc E. assert (n ≠ 0) as Hn by (rewrite <- (scaled_zero_iff n (-2)), <- E, scaled_zero_iff; lia).
  destruct (cents_coef c e n E) as [Hhi Hlo]. destruct (Z.le_gt_cases (-2) e) as [He|He].
  - rewrite <- (Hhi He), ndigits_shift by lia. lia.
  - rewrite (Hlo He), ndigits_shift by lia. lia.
Qed.

(** Such a decimal is far inside the exponents of the context, so that its
    normalisation neither underflows nor raises. *)
Lemma dec_normalize_cents c e n :
  0 <= n < max_cents → (scaled c e == scaled n (-2))%Q → dec_normalize (DFinite c e) = Ok (amount_of_cents n).
Proof.
  intros Hn E. destruct (Z.eq_dec n 0) as [->|].
  { assert (c = 0) as -> by (rewrite <- (scaled_zero_iff c e), E, scaled_zero_iff; done). done. }
  pose proof (cents_ndigits n ltac:(lia)) as Hd. pose proof (ndigits_pos n).
  assert (c ≠ 0) as Hc by (rewrite <- (scaled_zero_iff c e), E, scaled_zero_iff; lia).
  pose proof (cents_digits c e n Hc E).
  unfold dec_normalize. rewrite dec_finish_fix by (unfold dec_emax, dec_prec in *; lia).
  cbn [mbind result_bind]. f_equal. by apply dec_reduce_cents; [lia|].
Qed.

Lemma dec_eqb_finite c e c' e' :
  dec_eqb (DFinite c e) (DFinite c' e') = true ↔ (scaled c e == scaled c' e')%Q.
Proof. unfold dec_eqb. rewrite bool_decide_eq_true. symmetry. apply Qeq_alt. Qed.

Lemma scaled_nonneg c e : (0 <= scaled c e)%Q ↔ 0 <= c.
Proof.
  assert (scaled 0 e == 0)%Q as <- by (unfold scaled; ring).
  rewrite Qle_alt, scaled_compare. destruct (Z.compare_spec 0 c); naive_solver lia.
Qed.

Lemma dec_not_negative c e : py_lt (DFinite c e) (DFinite 0 0) = false ↔ 0 <= c.
Proof.
  rewrite py_lt_false, dec_le_iff, <- (scaled_nonneg c e). cbn [dec_value].
  by assert (scaled 0 0 == 0)%Q as -> by reflexivity.
Qed.

Lemma coerce_finite c e :
  _coerce_decimal (MDecimal (DFinite c e)) =
  (_ ← raise_if (bool_decide (c < 0)) (DomainValidationError "money amount cannot be negative");
   q ← dec_quantize_cents (DFinite c e);
   _ ← raise_if (negb (dec_eqb q (DFinite c e)))
         (DomainValidationError "money amount must have at most two decimal places");
   dec_normalize (DFinite c e)).
Proof.
  unfold _coerce_decimal. cbn [to_decimal dec_is_finite negb raise_if mbind result_bind].
  assert (py_lt (DFinite c e) (DFinite 0 0) = bool_decide (c < 0)) as ->.
  { destruct (py_lt _ _) eqn:E; symmetry.
    - apply bool_decide_eq_true. apply Z.nle_gt. rewrite <- (dec_not_negative c e). congruence.
    - apply bool_decide_eq_false. apply dec_not_negative in E. lia. }
  destruct (bool_decide (c < 0)); [done|]. cbn [raise_if].
  destruct (dec_quantize_cents (DFinite c e)) as [q|]; [|done]. cbn.
  destruct (negb (dec_eqb q (DFinite c e))); [done|]. cbn [raise_if mbind result_bind].
  destruct (dec_eqb (DFinite c e) (DFinite 0 0)) eqn:E; [|done].
  apply dec_eqb_finite in E.
  assert (c = 0) as -> by (apply (scaled_zero_iff c e); rewrite E; reflexivity).
  done.
Qed.

(** What the constructor accepts, and what it stores. *)
Lemma coerce_Ok c e a :
  _coerce_decimal (MDecimal (DFinite c e)) = Ok a →
  ∃ n, 0 <= n < max_cents ∧ a = amount_of_cents n ∧ (scaled c e == scaled n (-2))%Q.
Proof.
  rewrite coerce_finite. intros H. inv_result. apply bool_decide_eq_false in H.
  apply dec_quantize_Ok in H0 as (n & -> & Hn). apply negb_false_iff, dec_eqb_finite in H1.
  assert (0 <= n).
  { rewrite <- (scaled_nonneg n (-2)), H1. apply scaled_nonneg. lia. }
  exists n. split_and!; [lia..| |by symmetry].
  rewrite (dec_normalize_cents c e n) in H2 by (done || lia). congruence.
Qed.

(** Every number of cents below the bound is accepted. *)
Lemma coerce_cents c e n :
  0 <= n < max_cents → (scaled c e == scaled n (-2))%Q →
  _coerce_decimal (MDecimal (DFinite c e)) = Ok (amount_of_cents n).
Proof.
  intros Hn E. rewrite coerce_finite.
  assert (0 <= c) as Hc by (rewrite <- (scaled_nonneg c e), E; apply scaled_nonneg; lia).
  rewrite bool_decide_eq_false_2 by lia. cbn [raise_if mbind result_bind].
  rewrite (dec_normalize_cents c e n) by done.
  assert (dec_quantize_cents (DFinite c e) = Ok (DFinite n (-2))) as ->.
  2:{ cbn. by rewrite (proj2 (dec_eqb_finite _ _ _ _) (Qeq_sym _ _ E)). }
  unfold dec_quantize_cents. destruct (Z.eqb_spec c 0) as [->|Hc0].
  { assert (n = 0) as -> by (apply (scaled_zero_iff n (-2)); rewrite <- E; by apply scaled_zero_iff).
    done. }
  pose proof (ndigits_spec c Hc0) as [Hlo _]. pose proof (cents_ndigits n Hn) as Hnd.
  rewrite Z.abs_eq in Hlo by lia. destruct (cents_coef c e n E) as [Hup Hdown].
  assert (ndigits c - 1 + e + 2 + 1 <= dec_prec ∧
          (if -2 <=? e then c * 10 ^ (e + 2) else round_coef c (-2 - e)) = n) as [Hadj ->].
  - destruct (Z.leb_spec (-2) e) as [He|He].
    + specialize (Hup He). split; [|done]. pose proof (ndigits_pos c).
      assert (10 ^ (ndigits c - 1) * 10 ^ (e + 2) < 10 ^ 28) as Hlt.
      { assert (0 < 10 ^ (e + 2)) by (apply Z.pow_pos_nonneg; lia). unfold max_cents in Hn. nia. }
      rewrite <- Z.pow_add_r in Hlt by lia. apply Z.pow_lt_mono_r_iff in Hlt; unfold dec_prec; lia.
    + specialize (Hdown He). rewrite Hdown at 2. rewrite round_coef_multiple by lia. split; [|done].
      assert (10 ^ (ndigits c - 1) < 10 ^ (28 + (-2 - e))) as Hlt.
      { rewrite Z.pow_add_r by lia. assert (0 < 10 ^ (-2 - e)) by (apply Z.pow_pos_nonneg; lia).
        unfold max_cents in Hn. nia. }
      apply Z.pow_lt_mono_r_iff in Hlt; unfold dec_prec; lia.
  - rewrite (proj2 (Z.ltb_ge _ _) Hadj). by rewrite (proj2 (Z.ltb_ge _ _) Hnd).
Qed.

(** Whatever the input, a constructed value is whole cents in a currency code. *)
Lemma Money_new_wf v cur m : Money_new v cur = Ok m → Money_wf m.
Proof.
  unfold Money_new. intros H. inv_result. apply negb_false_iff in H0. split; [done|].
  assert (∃ d, to_decimal v (DomainValidationError "invalid decimal money amount") = Ok d ∧
               _coerce_decimal (MDecimal d) = Ok x) as (d & _ & Hd).
  { destruct v; cbn [_coerce_decimal to_decimal] in *; try discriminate; [|by eauto..].
    destruct (decimal_of_string s); [by eauto|discriminate]. }
  destruct d as [c e| |]; [|cbn in Hd; discriminate..].
  apply coerce_Ok in Hd as (n & Hn & -> & _). by exists n.
Qed.

(** ** Addition *)

Lemma div_half_even_lower n s : n / 10 ^ s <= div_half_even n s.
Proof. unfold div_half_even. repeat case_match; lia. Qed.

Lemma ndigits_ge c k : 10 ^ k <= Z.abs c → k < ndigits c.
Proof.
  intros H. apply Z.nle_gt. intros Hle. pose proof (ndigits_lt_pow c k Hle). lia.
Qed.

(** A sum beyond the bound stays beyond it after rounding, and is refused. *)
Lemma quantize_too_large c e :
  -2 <= e → 10 ^ 28 <= c * 10 ^ (e + 2) →
  ∃ c' e', dec_fix (DFinite c e) = DFinite c' e' ∧ 0 <= c' ∧
           dec_quantize_cents (DFinite c' e') = Raise DecimalInvalidOperation.
Proof.
  intros He Hc. assert (0 < 10 ^ (e + 2)) as Hp by (apply Z.pow_pos_nonneg; lia).
  assert (0 < c) as Hc0 by nia.
  assert (∀ c' e', 0 < c' → dec_prec < ndigits c' + e' + 2 →
            dec_quantize_cents (DFinite c' e') = Raise DecimalInvalidOperation) as Q.
  { intros c' e' H0 Hbig. unfold dec_quantize_cents.
    rewrite (proj2 (Z.eqb_neq c' 0)) by lia. by rewrite (proj2 (Z.ltb_lt _ _)) by lia. }
  pose proof (ndigits_spec c ltac:(lia)) as [Hlo Hhi]. rewrite Z.abs_eq in * by lia.
  assert (dec_prec < ndigits c + e + 2) as Hadj.
  { assert (10 ^ 28 < 10 ^ ndigits c * 10 ^ (e + 2)) as H by nia.
    pose proof (ndigits_pos c). rewrite <- Z.pow_add_r in H by lia.
    apply Z.pow_lt_mono_r_iff in H; unfold dec_prec; lia. }
  unfold dec_fix. destruct (Z.leb_spec (ndigits c) dec_prec) as [|Hn].
  { exists c, e. split_and!; [done|lia|]. by apply Q. }
  set (s := ndigits c - dec_prec). set (c' := round_coef c s).
  assert (10 ^ 27 <= c') as Hc'.
  { unfold c', round_coef. rewrite Z.sgn_pos, Z.abs_eq by lia.
    transitivity (c / 10 ^ s); [|rewrite Z.mul_1_l; apply div_half_even_lower].
    assert (0 < 10 ^ s) by (apply Z.pow_pos_nonneg; lia). apply Z.div_le_lower_bound; [done|].
    rewrite <- Z.pow_add_r by lia. etransitivity; [|exact Hlo].
    apply Z.pow_le_mono_r; unfold s, dec_prec; lia. }
  clearbody c'. destruct (Z.leb_spec (ndigits c') dec_prec) as [|Hn'].
  - exists c', (e + s). split_and!; [done|lia|]. apply Q; [lia|].
    pose proof (ndigits_ge c' 27 ltac:(lia)). unfold s, dec_prec in *. lia.
  - pose proof (ndigits_spec c' ltac:(lia)) as [Hlo' _]. rewrite Z.abs_eq in Hlo' by lia.
    assert (10 ^ 28 <= c').
    { etransitivity; [|exact Hlo']. apply Z.pow_le_mono_r; unfold dec_prec in *; lia. }
    assert (10 ^ 27 <= c' / 10) by (apply Z.div_le_lower_bound; lia).
    exists (c' / 10), (e + s + 1). split_and!; [done|lia|]. apply Q; [lia|].
    pose proof (ndigits_ge (c' / 10) 27 ltac:(lia)). unfold s, dec_prec in *. lia.
Qed.

Lemma is_currency_upper cur : is_currency cur = true → upper cur = cur.
Proof.
  unfold is_currency. intros [Hall _]%andb_true_iff. apply (inj chars).
  unfold upper. rewrite chars_of_chars.
  induction (chars cur) as [|x l IH]; [done|]. cbn in *. apply andb_true_iff in Hall as [Hx Hl].
  rewrite IH by done. f_equal. clear -Hx. by destruct x as [[] [] [] [] [] [] [] []].
Qed.

(** Adding amounts of [m] and [n] cents: exact below the bound, refused above. *)
Lemma Money_add_cents m n cur :
  0 <= m < max_cents → 0 <= n < max_cents → is_currency cur = true →
  Money_add (mkMoney (amount_of_cents m) cur) (mkMoney (amount_of_cents n) cur) =
  if m + n <? max_cents then Ok (mkMoney (amount_of_cents (m + n)) cur)
  else Raise DecimalInvalidOperation.
Proof.
  intros Hm Hn Hcur.
  destruct (amount_of_cents_finite m Hm) as (c1 & e1 & E1 & He1 & V1).
  destruct (amount_of_cents_finite n Hn) as (c2 & e2 & E2 & He2 & V2).
  unfold Money_add, _require_currency. cbn [currency amount].
  rewrite bool_decide_eq_true_2 by done. cbn [negb raise_if mbind result_bind].
  rewrite E1, E2. unfold dec_add, dec_sum. set (k := Z.min e1 e2).
  set (c := c1 * 10 ^ (e1 - k) + c2 * 10 ^ (e2 - k)).
  assert (scaled c k == scaled (m + n) (-2))%Q as V.
  { unfold c. rewrite <- scaled_add, !scaled_shift by (unfold k; lia).
    replace (k + (e1 - k)) with e1 by lia. replace (k + (e2 - k)) with e2 by lia.
    by rewrite V1, V2, scaled_add. }
  assert (-2 <= k) as Hk by (unfold k; lia). clearbody k c.
  destruct (cents_coef c k (m + n) V) as [Hup _]. specialize (Hup Hk).
  assert (0 < 10 ^ (k + 2)) as Hp by (apply Z.pow_pos_nonneg; lia).
  unfold Money_new. cbn [mbind result_bind].
  pose proof (is_currency_upper cur Hcur) as Hupper.
  destruct (Z.ltb_spec (m + n) max_cents) as [Hlt|Hge].
  - rewrite dec_fix_exact
      by (apply ndigits_le; [unfold dec_prec; lia|unfold max_cents, dec_prec in *; nia]).
    rewrite (coerce_cents c k (m + n)) by (done || lia). cbn. by rewrite Hupper, Hcur.
  - destruct (quantize_too_large c k Hk) as (c' & e' & -> & Hc' & Hq);
      [unfold max_cents in Hge; lia|].
    rewrite coerce_finite, bool_decide_eq_false_2 by lia. cbn [raise_if mbind result_bind].
    by rewrite Hq.
Qed.

(** ** The dictionary form *)

Lemma is_digit_plain c : is_digit c = true → is_space c = false ∧ c ≠ "_"%char.
Proof. destruct c as [[] [] [] [] [] [] [] []]; vm_compute; intros; try discriminate; done. Qed.

Lemma strip_chars_plain l :
  forallb (λ c, negb (is_space c)) l = true → strip_chars l = l.
Proof.
  assert (∀ k, forallb (λ c, negb (is_space c)) k = true → lstrip_chars k = k) as L.
  { intros [|c k]; [done|]. cbn [forallb]. rewrite andb_true_iff, negb_true_iff.
    intros [Hc _]. by apply lstrip_head. }
  intros H. unfold strip_chars. rewrite (L l H).
  rewrite L; [apply reverse_involutive|]. apply forallb_Forall. intros c Hc.
  rewrite elem_of_reverse in Hc. rewrite forallb_Forall in H. by apply H.
Qed.

Lemma strip_underscores_plain l :
  forallb (λ c, negb (bool_decide (c = "_"%char))) l = true → strip_underscores l = l.
Proof.
  induction l as [|c l IH]; cbn; [done|]. rewrite andb_true_iff, negb_true_iff.
  intros [-> Hl]. by rewrite IH.
Qed.

Lemma forallb_impl {A} (f g : A → bool) l :
  (∀ x, f x = true → g x = true) → forallb f l = true → forallb g l = true.
Proof. intros H. rewrite !forallb_Forall. eauto. Qed.

(** A text of digits with a decimal point. *)
Lemma decimal_of_fixed_text ip fp :
  forallb is_digit ip = true → ip ≠ [] → forallb is_digit fp = true →
  decimal_of_string (of_chars (ip ++ "."%char :: fp)) =
  Ok (DFinite (digits_val (ip ++ fp)) (- Z.of_nat (length fp))).
Proof.
  intros Hip Hne Hfp. unfold decimal_of_string. rewrite chars_of_chars.
  rewrite strip_chars_plain, strip_underscores_plain.
  2,3: rewrite forallb_app; cbn [forallb]; rewrite !andb_true_iff; split_and!; [|done|];
       (eapply forallb_impl; [|done]); intros c [??]%is_digit_plain; apply negb_true_iff;
       by try apply bool_decide_eq_false.
  destruct ip as [|d ds]; [done|]. cbn in Hip. apply andb_true_iff in Hip as [Hd Hds].
  cbn [app]. rewrite take_sign_digit by done. cbn [number_ahead]. rewrite Hd. cbn [orb].
  assert (take_digits [] (d :: (ds ++ "."%char :: fp)) = (d :: ds, "."%char :: fp)) as ->
    by (apply (take_digits_run (d :: ds)); [cbn; by rewrite Hd|done]).
  cbn [take_frac]. rewrite bool_decide_eq_true_2 by done.
  assert (take_digits [] fp = (fp, [])) as ->.
  { pose proof (take_digits_run fp [] [] Hfp eq_refl) as E. by rewrite app_nil_r in E. }
  reflexivity.
Qed.

Lemma decimal_text_parse n :
  0 <= n < max_cents →
  decimal_of_string (decimal_text (amount_of_cents n)) = Ok (DFinite n (-2)).
Proof.
  intros Hn. destruct (amount_of_cents_finite n Hn) as (c & e & -> & He & V).
  destruct (cents_coef c e n V) as [Hc _]. specialize (Hc He).
  unfold decimal_text. rewrite (proj2 (Z.leb_le _ _) He), Hc.
  assert (0 < 10 ^ (e + 2)) by (apply Z.pow_pos_nonneg; lia).
  rewrite (proj2 (Z.ltb_ge c 0)) by nia. rewrite Z.abs_eq by lia. cbn [sign_text app].
  set (ds := zeros (3 - Z.of_nat (length (digits_of n))) ++ digits_of n).
  assert (forallb is_digit ds = true) as Hds.
  { unfold ds. by rewrite forallb_app, zeros_digit, digits_of_digit by lia. }
  assert (3 <= length ds)%nat as Hlen.
  { unfold ds, zeros. rewrite length_app, length_replicate. lia. }
  assert (digits_val ds = n) as Hval.
  { unfold ds, zeros. rewrite digits_val_zeros. apply digits_of_val. lia. }
  clearbody ds. rewrite decimal_of_fixed_text.
  - rewrite take_drop, Hval, length_drop. do 2 f_equal. lia.
  - by apply forallb_take.
  - destruct ds as [|d1 [|d2 [|d3 ds]]]; cbn [length] in Hlen; [lia..|done].
  - by apply forallb_drop.
Qed.

Lemma coerce_text s d :
  decimal_of_string s = Ok d → _coerce_decimal (MStr s) = _coerce_decimal (MDecimal d).
Proof. intros E. unfold _coerce_decimal. cbn [to_decimal]. by rewrite E. Qed.

(** ** Properties *)

(** C37: [a + b] of two constructed values in one currency is the exact sum when
    the sum is below [10 ** 28] cents and raises otherwise: the context's 28
    digits never round a stored amount. *)
Theorem Money_add_exact_or_raises (a b : Money) :
  Money_wf a → Money_wf b → currency a = currency b →
  match Money_add a b with
  | Ok c => Money_wf c ∧ currency c = currency a ∧
            (dec_value (amount c) == dec_value (amount a) + dec_value (amount b))%Q
  | Raise e => e = DecimalInvalidOperation ∧
               (scaled max_cents (-2) <= dec_value (amount a) + dec_value (amount b))%Q
  end.
Proof.
  destruct a as [x cur], b as [y cur']. intros [Hcur (m & Hm & Ex)] [_ (n & Hn & Ey)]. cbn in *.
  intros <-. subst x y. rewrite Money_add_cents by done.
  destruct (Z.ltb_spec (m + n) max_cents) as [Hlt|Hge]; cbn [amount currency].
  - split_and!; [split; [done|exists (m + n); split; [lia|done]]|done|].
    by rewrite !amount_of_cents_value, scaled_add by lia.
  - split; [done|]. rewrite !amount_of_cents_value, scaled_add by lia.
    rewrite Qle_alt, scaled_compare. by apply Z.compare_le_iff.
Qed.

(** C38: [Money.from_dict(m.to_dict())] is [m] for every constructed value. *)
Theorem Money_dict_roundtrip (m : Money) : Money_wf m → from_dict (to_dict m) = Ok m.
Proof.
  destruct m as [x cur]. intros [Hcur (n & Hn & Ex)]. cbn in *. subst x.
  transitivity (Money_new (MStr (decimal_text (amount_of_cents n))) cur); [reflexivity|].
  unfold Money_new. rewrite (coerce_text _ (DFinite n (-2))) by by apply decimal_text_parse.
  rewrite (coerce_cents n (-2) n) by done. cbn [mbind result_bind].
  by rewrite is_currency_upper, Hcur.
Qed.

Lemma Money_add_witness :
  Money_wf (mkMoney (DFinite 15 (-1)) "USD"%string) ∧
  ∃ c, Money_add (mkMoney (DFinite 15 (-1)) "USD"%string) (mkMoney (DFinite 2 0) "USD"%string) = Ok c ∧
       (dec_value (amount c) == dec_value (DFinite 15 (-1)) + dec_value (DFinite 2 0))%Q.
Proof.
  assert (Money_wf (mkMoney (DFinite 15 (-1)) "USD"%string)) as Ha
    by (split; [reflexivity|exists 150; split; [unfold max_cents; lia|reflexivity]]).
  assert (Money_wf (mkMoney (DFinite 2 0) "USD"%string)) as Hb
    by (split; [reflexivity|exists 200; split; [unfold max_cents; lia|reflexivity]]).
  split; [exact Ha|]. pose proof (Money_add_exact_or_raises _ _ Ha Hb eq_refl) as T.
  destruct (Money_add _ _) as [c|e] eqn:E; [|revert E; vm_compute; discriminate].
  exists c. split; [reflexivity|apply T].
Defined.

Lemma Money_dict_roundtrip_witness :
  from_dict (to_dict (mkMoney (DFinite 15 (-1)) "USD"%string)) = Ok (mkMoney (DFinite 15 (-1)) "USD"%string).
Proof.
  apply (Money_dict_roundtrip (mkMoney (DFinite 15 (-1)) "USD"%string)).
  split; [reflexivity|exists 150; split; [unfold max_cents; lia|reflexivity]].
Defined.
