(* ===== verification/Bounds.v ===== *)
(** * Exact intervals and rank stability: [decision_engine/bounds.py]

    Exact ratios, the aggregation of preference, coverage, risk and
    evidence-age bounds, the three ordering keys of a bounded plan, and
    [assess_rank_stability].  Fractions are [Q]; a constructor with checks is a
    function [X_new] that returns the record or raises. *)
From S2P Require Import Prelude PyText PyNumber PyTime Enums Money.

Local Open Scope string_scope.
Local Open Scope Z_scope.

(** ** [ExactRatio] *)

Record ExactRatio := mkRatio { r_num : Z; r_den : Z }.

#[export] Instance ExactRatio_eq_dec : EqDecision ExactRatio.
Proof. solve_decision. Defined.

(** [ExactRatio(numerator, denominator)] on integers. *)
Definition ExactRatio_new (numerator denominator : Z) : result ExactRatio :=
  _ ← raise_if (denominator =? 0)
        (DomainValidationError "an exact ratio requires integer numerator/denominator");
  let sign := if denominator <? 0 then -1 else 1 in
  let divisor := Z.gcd numerator denominator in
  Ok (mkRatio (sign * numerator / divisor) (Z.abs denominator / divisor)).

(** The property [fraction]. *)
Definition ratio_fraction (r : ExactRatio) : Q := Qmake (r_num r) (Z.to_pos (r_den r)).

(** [ExactRatio(value.numerator, value.denominator)] for a fraction. *)
Definition ratio_of (q : Q) : result ExactRatio := ExactRatio_new (numerator q) (denominator q).

(** The inputs of [_fraction]. *)
Inductive exact_input :=
| XFraction (q : Q)
| XDecimal (d : Decimal)
| XStr (s : string)
| XInt (n : Z)
| XBool
| XFloat.

Definition _fraction (value : exact_input) (field_name : string) : result Q :=
  match value with
  | XBool | XFloat => Raise (DomainValidationError (field_name ++ " requires exact input"))
  | XFraction q => Ok q
  | _ =>
      d ← match value with
          | XDecimal d => Ok d
          | XInt n => Ok (DFinite n 0)
          | XStr s => match decimal_of_string s with
                      | Ok d => Ok d
                      | Raise _ => Raise (DomainValidationError ("invalid " ++ field_name))
                      end
          | _ => Raise TypeError
          end;
      _ ← raise_if (negb (dec_is_finite d))
            (DomainValidationError (field_name ++ " must be finite"));
      Ok (dec_value d)
  end.

(** [ExactRatio.from_value(value, field_name)] *)
Definition from_value (value : exact_input) (field_name : string) : result ExactRatio :=
  exact ← _fraction value field_name; ratio_of exact.

(** ** Preference bounds *)

Record PreferenceCriterionBound := mkPreferenceCriterionBound {
  pb_criterion_id : string;
  pb_weight : Z;
  pb_conservative : ExactRatio;
  pb_optimistic : ExactRatio
}.

Definition PreferenceCriterionBound_new (criterion_id : string) (weight : Z)
    (conservative optimistic : ExactRatio) : result PreferenceCriterionBound :=
  _ ← require_id criterion_id "criterion_id";
  _ ← raise_if (negb ((1 <=? weight) && (weight <=? 5)))
        (DomainValidationError "preference weight must be an integer from 1 to 5");
  let lower := ratio_fraction conservative in
  let upper := ratio_fraction optimistic in
  _ ← raise_if (negb (py_le 0%Q lower && py_le lower upper && py_le upper 1%Q))
        (DomainValidationError "preference satisfaction bounds must satisfy 0 <= low <= high <= 1");
  Ok (mkPreferenceCriterionBound criterion_id weight conservative optimistic).

Record PreferenceScoreBounds := mkPreferenceScoreBounds {
  ps_conservative : ExactRatio;
  ps_optimistic : ExactRatio
}.

Definition PreferenceScoreBounds_new (conservative optimistic : ExactRatio)
  : result PreferenceScoreBounds :=
  let lower := ratio_fraction conservative in
  let upper := ratio_fraction optimistic in
  _ ← raise_if (negb (py_le 0%Q lower && py_le lower upper && py_le upper 100%Q))
        (DomainValidationError "preference score bounds must be between zero and 100");
  Ok (mkPreferenceScoreBounds conservative optimistic).

(** [sum(values, start=Fraction(0))] *)
Definition sum_Q (l : list Q) : Q := foldl Qplus 0%Q l.
Definition sum_Z (l : list Z) : Z := foldl Z.add 0 l.

(** [value / divisor] for a fraction and an [int]. *)
Definition frac_div (value : Q) (divisor : Z) : result Q :=
  if divisor =? 0 then Raise ZeroDivisionError else Ok (value / inject_Z divisor)%Q.

Definition aggregate_preference_bounds (criteria : list PreferenceCriterionBound)
  : result PreferenceScoreBounds :=
  _ ← raise_if (bool_decide (criteria = []))
        (DomainValidationError "a preference-capable plan requires at least one criterion");
  _ ← raise_if (negb (all_distinct (pb_criterion_id <$> criteria)))
        (DomainValidationError "preference criteria must be unique");
  let denominator := sum_Z (pb_weight <$> criteria) in
  conservative ← frac_div (100 * sum_Q ((λ item,
    (inject_Z (pb_weight item) * ratio_fraction (pb_conservative item))%Q) <$> criteria))%Q denominator;
  optimistic ← frac_div (100 * sum_Q ((λ item,
    (inject_Z (pb_weight item) * ratio_fraction (pb_optimistic item))%Q) <$> criteria))%Q denominator;
  lower ← ratio_of conservative;
  upper ← ratio_of optimistic;
  PreferenceScoreBounds_new lower upper.

(** ** Coverage bounds *)

Record CoverageCriterion := mkCoverageCriterion {
  cc_criterion_id : string;
  cc_weight : Z;
  cc_conservative_covered : bool;
  cc_optimistic_covered : bool
}.

Definition CoverageCriterion_new (criterion_id : string) (weight : Z) (conservative optimistic : bool)
  : result CoverageCriterion :=
  _ ← require_id criterion_id "criterion_id";
  _ ← raise_if (negb ((1 <=? weight) && (weight <=? 5)))
        (DomainValidationError "coverage weight must be an integer from 1 to 5");
  _ ← raise_if (conservative && negb optimistic)
        (DomainValidationError "optimistic coverage cannot be lower than conservative coverage");
  Ok (mkCoverageCriterion criterion_id weight conservative optimistic).

Record CoverageBounds := mkCoverageBounds {
  cv_conservative : ExactRatio;
  cv_optimistic : ExactRatio
}.

Definition aggregate_coverage_bounds (criteria : list CoverageCriterion) : result CoverageBounds :=
  if bool_decide (criteria = []) then
    one ← ExactRatio_new 1 1;
    Ok (mkCoverageBounds one one)
  else
    _ ← raise_if (negb (all_distinct (cc_criterion_id <$> criteria)))
          (DomainValidationError "coverage criteria must be unique");
    let denominator := sum_Z (cc_weight <$> criteria) in
    conservative ← fraction (sum_Z (cc_weight <$> List.filter cc_conservative_covered criteria)) denominator;
    optimistic ← fraction (sum_Z (cc_weight <$> List.filter cc_optimistic_covered criteria)) denominator;
    lower ← ratio_of conservative;
    upper ← ratio_of optimistic;
    Ok (mkCoverageBounds lower upper).

(** ** Risk bounds *)

Record RiskBounds := mkRiskBounds {
  rb_lower : StackRisk.t;
  rb_base : StackRisk.t;
  rb_upper : StackRisk.t
}.

Definition RiskBounds_new (lower base upper : StackRisk.t) : result RiskBounds :=
  _ ← raise_if (negb ((StackRisk.rank lower <=? StackRisk.rank base) &&
                      (StackRisk.rank base <=? StackRisk.rank upper)))
        (DomainValidationError "risk bounds must satisfy lower <= base <= upper");
  Ok (mkRiskBounds lower base upper).

(** [by_rank = {risk.rank: risk for risk in StackRisk}] *)
Definition by_rank (rank : Z) : result StackRisk.t :=
  match list_find (λ r, StackRisk.rank r = rank)
          [StackRisk.LOW; StackRisk.MEDIUM; StackRisk.HIGH; StackRisk.CRITICAL] with
  | Some (_, r) => Ok r
  | None => Raise (KeyError (str_int rank))
  end.

Definition aggregate_risk_bounds (components : list RiskBounds) : result RiskBounds :=
  match components with
  | [] => Raise (DomainValidationError "risk aggregation requires a component or current-stack action")
  | first :: rest =>
      let highest (proj : RiskBounds → StackRisk.t) :=
        max_by id (StackRisk.rank (proj first)) ((λ item, StackRisk.rank (proj item)) <$> rest) in
      lower ← by_rank (highest rb_lower);
      base ← by_rank (highest rb_base);
      upper ← by_rank (highest rb_upper);
      RiskBounds_new lower base upper
  end.

(** ** Cost bounds *)

Record CostBounds := mkCostBounds { cb_low : Money; cb_base : Money; cb_high : Money }.

Definition CostBounds_new (low base high : Money) : result CostBounds :=
  _ ← raise_if (negb (bool_decide (currency low = currency base) &&
                      bool_decide (currency base = currency high)) ||
                negb (py_le (amount low) (amount base) && py_le (amount base) (amount high)))
        (DomainValidationError "TCO bounds require one currency and low <= base <= high");
  Ok (mkCostBounds low base high).

(** ** Evidence-age bounds *)

Record EvidenceAgeBounds := mkEvidenceAgeBounds { ea_lower : ExactRatio; ea_upper : ExactRatio }.

Definition EvidenceAgeBounds_new (lower upper : ExactRatio) : result EvidenceAgeBounds :=
  _ ← raise_if (negb (py_le 0%Q (ratio_fraction lower) &&
                      py_le (ratio_fraction lower) (ratio_fraction upper)))
        (DomainValidationError "evidence-age bounds must satisfy 0 <= lower <= upper");
  Ok (mkEvidenceAgeBounds lower upper).

Definition evidence_age_bounds (evaluated_at observed_at_lower observed_at_upper : datetime)
    (sla_seconds : Z) : result EvidenceAgeBounds :=
  _ ← raise_if (negb (is_aware evaluated_at) || negb (is_aware observed_at_lower) ||
                negb (is_aware observed_at_upper))
        (DomainValidationError "evidence times must be timezone-aware");
  _ ← raise_if (sla_seconds <? 1)
        (DomainValidationError "evidence SLA must be a positive integer number of seconds");
  ordered ← dt_le observed_at_lower observed_at_upper;
  before ← (if ordered : bool then dt_le observed_at_upper evaluated_at else Ok false);
  _ ← raise_if (negb before)
        (DomainValidationError "evidence time bounds must precede evaluation");
  let ratio observed_at :=
    (exact ← fraction (instant evaluated_at - instant observed_at) (sla_seconds * 1000000);
     ratio_of exact) in
  lower ← ratio observed_at_upper;
  upper ← ratio observed_at_lower;
  EvidenceAgeBounds_new lower upper.

Definition aggregate_evidence_age_bounds (items : list EvidenceAgeBounds) : result EvidenceAgeBounds :=
  match items with
  | [] =>
      zero ← ExactRatio_new 0 1;
      EvidenceAgeBounds_new zero zero
  | first :: rest =>
      let lower := max_by id (ratio_fraction (ea_lower first))
                     ((λ item, ratio_fraction (ea_lower item)) <$> rest) in
      let upper := max_by id (ratio_fraction (ea_upper first))
                     ((λ item, ratio_fraction (ea_upper item)) <$> rest) in
      l ← ratio_of lower;
      u ← ratio_of upper;
      EvidenceAgeBounds_new l u
  end.

(** ** Bounded plans and their ordering keys *)

Record OrderingBounds := mkOrderingBounds {
  ob_preference : PreferenceScoreBounds;
  ob_stack_risk : RiskBounds;
  ob_total_cost : CostBounds;
  ob_coverage : CoverageBounds;
  ob_age : EvidenceAgeBounds
}.

Record BoundedPlan := mkBoundedPlan {
  bp_plan_id : string;
  bp_status : CandidateStatus.t;
  bp_stable_action_ids : list string;
  bp_bounds : option OrderingBounds;
  bp_bound_unavailable_reasons : list string
}.

Definition BoundedPlan_new (plan_id : string) (status : CandidateStatus.t)
    (stable_action_ids : list string) (bounds : option OrderingBounds) (reasons : list string)
  : result BoundedPlan :=
  _ ← require_id plan_id "plan_id";
  _ ← raise_if (negb (py_in status [CandidateStatus.ELIGIBLE; CandidateStatus.ELIGIBLE_WITH_EXCEPTION]))
        (DomainValidationError "only eligible plans receive authoritative ordering bounds");
  _ ← raise_if (bool_decide (stable_action_ids = []))
        (DomainValidationError "a bounded plan requires stable action IDs");
  _ ← mapM (λ action_id, require_id action_id "stable_action_id") stable_action_ids;
  _ ← raise_if (negb (Bool.eqb (is_none bounds) (negb (bool_decide (reasons = [])))))
        (DomainValidationError "missing bounds require exact BOUND_UNAVAILABLE reasons");
  Ok (mkBoundedPlan plan_id status stable_action_ids bounds reasons).

Definition status_rank (plan : BoundedPlan) : Z :=
  if bool_decide (bp_status plan = CandidateStatus.ELIGIBLE) then 0 else 1.

(** [(status, -preference, risk, cost, -coverage, age, stable ids, plan id)] *)
Definition ordering_key : Type := Z * Q * Z * Decimal * Q * Q * list string * string.

Definition _require_bounds (plan : BoundedPlan) : result OrderingBounds :=
  match bp_bounds plan with
  | None => Raise (DomainValidationError "BOUND_UNAVAILABLE plans cannot receive an ordering key")
  | Some bounds => Ok bounds
  end.

Definition authoritative_key (plan : BoundedPlan) (b : OrderingBounds) : ordering_key :=
  (status_rank plan, (- ratio_fraction (ps_conservative (ob_preference b)))%Q,
   StackRisk.rank (rb_base (ob_stack_risk b)), amount (cb_base (ob_total_cost b)),
   (- ratio_fraction (cv_conservative (ob_coverage b)))%Q, ratio_fraction (ea_upper (ob_age b)),
   bp_stable_action_ids plan, bp_plan_id plan).

Definition conservative_key (plan : BoundedPlan) (b : OrderingBounds) : ordering_key :=
  (status_rank plan, (- ratio_fraction (ps_conservative (ob_preference b)))%Q,
   StackRisk.rank (rb_upper (ob_stack_risk b)), amount (cb_high (ob_total_cost b)),
   (- ratio_fraction (cv_conservative (ob_coverage b)))%Q, ratio_fraction (ea_upper (ob_age b)),
   bp_stable_action_ids plan, bp_plan_id plan).

Definition optimistic_key (plan : BoundedPlan) (b : OrderingBounds) : ordering_key :=
  (status_rank plan, (- ratio_fraction (ps_optimistic (ob_preference b)))%Q,
   StackRisk.rank (rb_lower (ob_stack_risk b)), amount (cb_low (ob_total_cost b)),
   (- ratio_fraction (cv_optimistic (ob_coverage b)))%Q, ratio_fraction (ea_lower (ob_age b)),
   bp_stable_action_ids plan, bp_plan_id plan).

Definition authoritative_ordering_key (plan : BoundedPlan) : result ordering_key :=
  b ← _require_bounds plan; Ok (authoritative_key plan b).
Definition conservative_envelope_key (plan : BoundedPlan) : result ordering_key :=
  b ← _require_bounds plan; Ok (conservative_key plan b).
Definition optimistic_envelope_key (plan : BoundedPlan) : result ordering_key :=
  b ← _require_bounds plan; Ok (optimistic_key plan b).

(** ** Rank stability *)

Record RankStabilityResult := mkRankStabilityResult {
  rs_status : RankStability.t;
  rs_ordering_frontier_plan_ids : list string;
  rs_bound_unavailable_plan_ids : list string
}.

Definition assess_rank_stability (selected : BoundedPlan) (competitors : list BoundedPlan)
  : result RankStabilityResult :=
  let all_plans := selected :: competitors in
  let unavailable :=
    sorted_by id (bp_plan_id <$> List.filter (λ plan, is_none (bp_bounds plan)) all_plans) in
  match unavailable with
  | _ :: _ => Ok (mkRankStabilityResult RankStability.UNDETERMINED [] unavailable)
  | [] =>
      selected_worst ← conservative_envelope_key selected;
      overtaking ← filterM (λ plan, k ← optimistic_envelope_key plan; Ok (py_lt k selected_worst))
                     competitors;
      let frontier := sorted_by id (bp_plan_id <$> overtaking) in
      Ok (mkRankStabilityResult
            (match frontier with [] => RankStability.STABLE | _ => RankStability.UNSTABLE end)
            frontier [])
  end.

(** ** Exact ratios are canonical *)

Definition ratio_wf (r : ExactRatio) : Prop := 0 < r_den r ∧ Z.gcd (r_num r) (r_den r) = 1.

Lemma ratio_fraction_eq r p q :
  0 < r_den r → 0 < q → (r_num r * q = p * r_den r) → (ratio_fraction r == p # Z.to_pos q)%Q.
Proof. intros Hr Hq E. unfold ratio_fraction, Qeq. cbn. by rewrite !Z2Pos.id. Qed.

Lemma ExactRatio_new_Ok n d r :
  ExactRatio_new n d = Ok r →
  d ≠ 0 ∧ ratio_wf r ∧ r_num r * d = n * r_den r.
Proof.
  unfold ExactRatio_new. intros H. inv_result. apply Z.eqb_neq in H. split; [done|].
  assert (0 < Z.gcd n d) as Hg.
  { pose proof (Z.gcd_nonneg n d). destruct (Z.eq_dec (Z.gcd n d) 0) as [E|]; [|lia].
    apply Z.gcd_eq_0 in E. lia. }
  destruct (Z.gcd_divide_l n d) as [a Ha], (Z.gcd_divide_r n d) as [b Hb].
  pose proof (Z.gcd_div_gcd n d (Z.gcd n d) ltac:(lia) eq_refl) as Hab.
  set (g := Z.gcd n d) in *. clearbody g. subst n d. rewrite !Z.div_mul in Hab by lia.
  unfold ratio_wf. cbn [r_num r_den].
  rewrite Z.abs_mul, (Z.abs_eq g) by lia. rewrite (Z.div_mul (Z.abs b)) by lia.
  destruct (Z.ltb_spec (b * g) 0).
  - replace (-1 * (a * g)) with (- a * g) by lia. rewrite Z.div_mul by lia.
    rewrite Z.gcd_abs_r, Z.gcd_opp_l, Z.abs_neq by nia. split; [nia|lia].
  - rewrite Z.mul_1_l, Z.div_mul by lia. rewrite Z.gcd_abs_r, Z.abs_eq by nia. split; [nia|lia].
Qed.

Lemma ExactRatio_new_total n d : d ≠ 0 → ∃ r, ExactRatio_new n d = Ok r.
Proof.
  intros Hd. unfold ExactRatio_new. rewrite (proj2 (Z.eqb_neq d 0) Hd). cbn. eauto.
Qed.

(** A canonical pair is determined by its value. *)
Lemma ratio_wf_unique r s : ratio_wf r → ratio_wf s → r_num r * r_den s = r_num s * r_den r → r = s.
Proof.
  destruct r as [a b], s as [c d]. unfold ratio_wf. cbn. intros [Hb Gb] [Hd Gd] E.
  assert (b = d) as ->.
  { apply Z.divide_antisym_nonneg; [lia..| |].
    - apply (Z.gauss b a d); [exists c; lia|by rewrite Z.gcd_comm].
    - apply (Z.gauss d c b); [exists a; lia|by rewrite Z.gcd_comm]. }
  f_equal. nia.
Qed.

Lemma ratio_of_spec q : ∃ r, ratio_of q = Ok r ∧ ratio_wf r ∧ (ratio_fraction r == q)%Q.
Proof.
  unfold ratio_of.
  destruct (ExactRatio_new_total (numerator q) (denominator q)) as [r E]; [done|].
  exists r. split; [done|]. apply ExactRatio_new_Ok in E as (_ & Hwf & E). split; [done|].
  rewrite (ratio_fraction_eq r (numerator q) (denominator q)) by (done || apply Hwf).
  unfold numerator, denominator. rewrite <- (Qred_correct q) at 3. by destruct (Qred q).
Qed.

(** Runs [ratio_of] in the goal. *)
Ltac run_ratio_of H :=
  match goal with |- context [ratio_of ?q] =>
    let r := fresh "r" in let E := fresh in
    destruct (ratio_of_spec q) as (r & E & ? & H); rewrite E; clear E; cbn [mbind result_bind]
  end.

(** ** Weighted means *)

Lemma foldl_Qplus_acc l a : (foldl Qplus a l == a + sum_Q l)%Q.
Proof.
  unfold sum_Q. revert a. induction l as [|x l IH]; intros a; cbn; [ring|].
  rewrite (IH (a + x)%Q), (IH (0 + x)%Q). ring.
Qed.

Lemma sum_Q_cons x l : (sum_Q (x :: l) == x + sum_Q l)%Q.
Proof. unfold sum_Q at 1. cbn. rewrite foldl_Qplus_acc. ring. Qed.

Lemma foldl_Zadd_acc l a : foldl Z.add a l = a + sum_Z l.
Proof.
  unfold sum_Z. revert a. induction l as [|x l IH]; intros a; cbn; [lia|].
  rewrite (IH (a + x)), (IH (0 + x)). lia.
Qed.

Lemma sum_Z_cons x l : sum_Z (x :: l) = x + sum_Z l.
Proof. unfold sum_Z at 1. cbn. by rewrite foldl_Zadd_acc. Qed.

(** The invariant of a constructed criterion. *)
Definition preference_criterion_wf (c : PreferenceCriterionBound) : Prop :=
  1 <= pb_weight c <= 5 ∧
  (0 <= ratio_fraction (pb_conservative c))%Q ∧
  (ratio_fraction (pb_conservative c) <= ratio_fraction (pb_optimistic c))%Q ∧
  (ratio_fraction (pb_optimistic c) <= 1)%Q.

Lemma PreferenceCriterionBound_new_wf i w l u c :
  PreferenceCriterionBound_new i w l u = Ok c → preference_criterion_wf c.
Proof.
  unfold PreferenceCriterionBound_new. intros H. inv_result.
  apply negb_false_iff in H0, H1. rewrite !andb_true_iff, !Q_le_iff in H1.
  apply andb_true_iff in H0 as [?%Z.leb_le ?%Z.leb_le]. unfold preference_criterion_wf. cbn. naive_solver.
Qed.

(** [Σ weight * part] over the criteria. *)
Definition weighted (part : PreferenceCriterionBound → ExactRatio) (l : list PreferenceCriterionBound) : Q :=
  sum_Q ((λ c, (inject_Z (pb_weight c) * ratio_fraction (part c))%Q) <$> l).

Lemma weighted_mono p q l :
  (∀ c, c ∈ l → 0 <= pb_weight c ∧ (ratio_fraction (p c) <= ratio_fraction (q c))%Q) →
  (weighted p l <= weighted q l)%Q.
Proof.
  unfold weighted. induction l as [|c l IH]; intros H; cbn [fmap list_fmap]; [apply Qle_refl|].
  rewrite !sum_Q_cons. destruct (H c) as [Hw Hc]; [set_solver|].
  apply Qplus_le_compat; [|apply IH; set_solver].
  rewrite !(Qmult_comm (inject_Z _)). apply Qmult_le_compat_r; [done|].
  by apply (inject_Z_le 0) in Hw || (rewrite <- Zle_Qle with (x := 0); done).
Qed.

Definition total_weight (l : list PreferenceCriterionBound) : Z := sum_Z (pb_weight <$> l).

Lemma total_weight_pos l : Forall preference_criterion_wf l → l ≠ [] → 0 < total_weight l.
Proof.
  unfold total_weight. intros Hwf. induction Hwf as [|c l Hc Hl IH]; [done|]. intros _.
  cbn [fmap list_fmap]. rewrite sum_Z_cons. destruct Hc as [? _].
  destruct l as [|d l]; [cbn; lia|]. specialize (IH ltac:(done)). lia.
Qed.

Lemma weighted_bounds l :
  Forall preference_criterion_wf l →
  (0 <= weighted pb_conservative l)%Q ∧ (weighted pb_conservative l <= weighted pb_optimistic l)%Q ∧
  (weighted pb_optimistic l <= inject_Z (total_weight l))%Q.
Proof.
  intros Hwf. split_and!.
  2:{ apply weighted_mono. intros c Hc. rewrite Forall_forall in Hwf.
      destruct (Hwf c Hc) as (? & _ & ? & _). split; [lia|done]. }
  all: unfold weighted, total_weight; induction Hwf as [|c l (Hw & H0 & H1 & H2) Hl IH];
    cbn [fmap list_fmap]; [apply Qle_refl|]; rewrite ?sum_Q_cons, ?sum_Z_cons, ?inject_Z_plus.
  all: assert (0 <= inject_Z (pb_weight c))%Q by (change 0%Q with (inject_Z 0); rewrite <- Zle_Qle; lia).
  all: nra.
Qed.

(** [100 * total / weights] as the code computes it. *)
Definition percentage (total : Q) (weights : Z) : Q := (100 * total / inject_Z weights)%Q.

Lemma percentage_bounds t u w :
  0 < w → (0 <= t)%Q → (t <= u)%Q → (u <= inject_Z w)%Q →
  (0 <= percentage t w)%Q ∧ (percentage t w <= percentage u w)%Q ∧ (percentage u w <= 100)%Q.
Proof.
  intros Hw H0 H1 H2. unfold percentage.
  assert (0 < inject_Z w)%Q as Hp by (change 0%Q with (inject_Z 0); rewrite <- Zlt_Qlt; lia).
  split_and!.
  - apply Qle_shift_div_l; [done|]. nra.
  - unfold Qdiv. apply Qmult_le_compat_r; [nra|]. apply Qinv_le_0_compat. nra.
  - apply Qle_shift_div_r; [done|]. nra.
Qed.

(** ** Risk *)

Definition risk_wf (b : RiskBounds) : Prop :=
  StackRisk.rank (rb_lower b) <= StackRisk.rank (rb_base b) <= StackRisk.rank (rb_upper b).

Lemma by_rank_rank r : by_rank (StackRisk.rank r) = Ok r.
Proof. by destruct r. Qed.

Lemma RiskBounds_new_wf b :
  risk_wf b → RiskBounds_new (rb_lower b) (rb_base b) (rb_upper b) = Ok b.
Proof.
  intros [H1 H2]. unfold RiskBounds_new.
  rewrite (proj2 (Z.leb_le _ _) H1), (proj2 (Z.leb_le _ _) H2). by destruct b.
Qed.

(** The largest value of a projection over a non-empty list, as a member. *)
Lemma max_by_fmap {A} `{PyOrdLaws K} (f : A → K) (x : A) (l : list A) :
  ∃ y, y ∈ x :: l ∧ max_by id (f x) (f <$> l) = f y ∧
       ∀ z, z ∈ x :: l → py_le (f z) (f y) = true.
Proof.
  destruct (max_by_elem id (f x) (f <$> l)) as [E|E].
  - exists x. split_and!; [set_solver|done|]. intros z Hz. rewrite <- E.
    apply (max_by_ge id (f x) (f <$> l) (f z)).
    apply elem_of_cons in Hz as [->|Hz]; [by left|right]. by apply list_elem_of_fmap_2.
  - apply list_elem_of_fmap in E as (y & E & Hy). exists y. split_and!; [set_solver|done|].
    intros z Hz. rewrite <- E. apply (max_by_ge id (f x) (f <$> l) (f z)).
    apply elem_of_cons in Hz as [->|Hz]; [by left|right]. by apply list_elem_of_fmap_2.
Qed.

(** The part of a bound that the aggregate takes from its worst component. *)
Definition is_highest (proj : RiskBounds → StackRisk.t) (l : list RiskBounds) (r : StackRisk.t) : Prop :=
  (∃ c, c ∈ l ∧ proj c = r) ∧ ∀ c, c ∈ l → StackRisk.rank (proj c) <= StackRisk.rank r.

Lemma by_rank_max proj first rest :
  ∃ r, by_rank (max_by id (StackRisk.rank (proj first)) ((λ c, StackRisk.rank (proj c)) <$> rest)) = Ok r ∧
       is_highest proj (first :: rest) r.
Proof.
  destruct (max_by_fmap (λ c, StackRisk.rank (proj c)) first rest) as (c & Hc & E & Hmax).
  exists (proj c). cbv beta in E. rewrite E. split; [apply by_rank_rank|]. split; [eauto|].
  intros d Hd. by apply Z_le_iff, Hmax.
Qed.

(** Two projections that are ordered on every component have ordered maxima. *)
Lemma is_highest_mono p q l r s :
  (∀ c, c ∈ l → StackRisk.rank (p c) <= StackRisk.rank (q c)) →
  is_highest p l r → is_highest q l s → StackRisk.rank r <= StackRisk.rank s.
Proof. intros H [(c & Hc & <-) _] [_ Hs]. etransitivity; [by apply H|by apply Hs]. Qed.

(** ** Properties of the aggregates *)

(** C39: two exact ratios built from any integers are equal as records exactly
    when they are equal as numbers: the stored form is canonical. *)
Theorem ExactRatio_canonical (n d m e : Z) (r s : ExactRatio) :
  ExactRatio_new n d = Ok r → ExactRatio_new m e = Ok s → (r = s ↔ n * e = m * d).
Proof.
  intros (Hd & [Hr Gr] & Er)%ExactRatio_new_Ok (He & [Hs Gs] & Es)%ExactRatio_new_Ok. split.
  - intros <-. assert (r_den r * (n * e) = r_den r * (m * d)); nia.
  - intros E. apply ratio_wf_unique; [by split..|].
    assert (d * e * (r_num r * r_den s) = d * e * (r_num s * r_den r)) as H; [|].
    + transitivity (r_num r * d * (r_den s * e)); [ring|]. rewrite Er.
      transitivity (n * e * (r_den r * r_den s)); [ring|]. rewrite E.
      transitivity (m * r_den s * (r_den r * d)); [ring|]. rewrite <- Es. ring.
    + apply Z.mul_reg_l in H; [done|]. by apply Z.neq_mul_0.
Qed.

Lemma ExactRatio_canonical_witness :
  ExactRatio_new 2 (-4) = Ok (mkRatio (-1) 2) ∧
  (mkRatio (-1) 2 = mkRatio (-1) 2 ↔ 2 * 6 = -3 * -4).
Proof.
  split; [vm_compute; reflexivity|].
  apply (ExactRatio_canonical 2 (-4) (-3) 6); vm_compute; reflexivity.
Defined.

(** On valid, distinct criteria the aggregate is the pair of weighted means. *)
Lemma aggregate_preference_bounds_total criteria :
  Forall preference_criterion_wf criteria → criteria ≠ [] → NoDup (pb_criterion_id <$> criteria) →
  ∃ b, aggregate_preference_bounds criteria = Ok b ∧
    (ratio_fraction (ps_conservative b) ==
       percentage (weighted pb_conservative criteria) (total_weight criteria))%Q ∧
    (ratio_fraction (ps_optimistic b) ==
       percentage (weighted pb_optimistic criteria) (total_weight criteria))%Q ∧
    (0 <= ratio_fraction (ps_conservative b))%Q ∧
    (ratio_fraction (ps_conservative b) <= ratio_fraction (ps_optimistic b))%Q ∧
    (ratio_fraction (ps_optimistic b) <= 100)%Q.
Proof.
  intros Hwf Hne Hd. unfold aggregate_preference_bounds.
  rewrite bool_decide_eq_false_2, (proj2 (all_distinct_NoDup _) Hd) by done.
  cbn [negb raise_if mbind result_bind]. pose proof (total_weight_pos _ Hwf Hne) as Hw.
  unfold frac_div. fold (total_weight criteria) (weighted pb_conservative criteria)
    (weighted pb_optimistic criteria).
  rewrite (proj2 (Z.eqb_neq _ 0)) by lia. cbn [mbind result_bind].
  fold (percentage (weighted pb_conservative criteria) (total_weight criteria)).
  fold (percentage (weighted pb_optimistic criteria) (total_weight criteria)).
  run_ratio_of Eu. run_ratio_of El.
  destruct (weighted_bounds _ Hwf) as (B0 & B1 & B2).
  destruct (percentage_bounds _ _ _ Hw B0 B1 B2) as (P0 & P1 & P2).
  rewrite <- El in P0, P1. rewrite <- Eu in P1, P2.
  unfold PreferenceScoreBounds_new.
  rewrite (proj2 (Q_le_iff _ _) P0), (proj2 (Q_le_iff _ _) P1), (proj2 (Q_le_iff _ _) P2).
  eexists. by split_and!.
Qed.

(** On valid criteria the preference aggregate fails exactly when there is
    no criterion or one is repeated; otherwise both bounds are the weighted
    means in percent and [0 <= conservative <= optimistic <= 100]. *)
Theorem aggregate_preference_bounds_spec (criteria : list PreferenceCriterionBound) :
  Forall preference_criterion_wf criteria →
  match aggregate_preference_bounds criteria with
  | Ok b =>
      criteria ≠ [] ∧ NoDup (pb_criterion_id <$> criteria) ∧
      (ratio_fraction (ps_conservative b) ==
         percentage (weighted pb_conservative criteria) (total_weight criteria))%Q ∧
      (ratio_fraction (ps_optimistic b) ==
         percentage (weighted pb_optimistic criteria) (total_weight criteria))%Q ∧
      (0 <= ratio_fraction (ps_conservative b))%Q ∧
      (ratio_fraction (ps_conservative b) <= ratio_fraction (ps_optimistic b))%Q ∧
      (ratio_fraction (ps_optimistic b) <= 100)%Q
  | Raise e =>
      (criteria = [] ∨ ¬ NoDup (pb_criterion_id <$> criteria)) ∧ is_domain_validation_error e = true
  end.
Proof.
  intros Hwf. destruct (decide (criteria = [])) as [->|Hne]; [by split; [left|]|].
  destruct (decide (NoDup (pb_criterion_id <$> criteria))) as [Hd|Hd].
  - destruct (aggregate_preference_bounds_total _ Hwf Hne Hd) as (b & -> & H). by split_and!; try apply H.
  - unfold aggregate_preference_bounds. rewrite bool_decide_eq_false_2 by done.
    cbn [raise_if mbind result_bind]. rewrite <- all_distinct_NoDup in Hd.
    destruct (all_distinct _) eqn:E; [done|]. split; [right|done]. rewrite <- all_distinct_NoDup. congruence.
Qed.

(** Aggregating component risks never looks up an unknown rank: on valid
    components it returns the highest lower, base and upper risk, in order. *)
Theorem aggregate_risk_bounds_spec (first : RiskBounds) (rest : list RiskBounds) :
  Forall risk_wf (first :: rest) →
  ∃ b, aggregate_risk_bounds (first :: rest) = Ok b ∧ risk_wf b ∧
       is_highest rb_lower (first :: rest) (rb_lower b) ∧
       is_highest rb_base (first :: rest) (rb_base b) ∧
       is_highest rb_upper (first :: rest) (rb_upper b).
Proof.
  rewrite Forall_forall. intros Hwf. unfold aggregate_risk_bounds.
  destruct (by_rank_max rb_lower first rest) as (l & -> & Hl).
  destruct (by_rank_max rb_base first rest) as (m & -> & Hm).
  destruct (by_rank_max rb_upper first rest) as (u & -> & Hu). cbn [mbind result_bind].
  assert (risk_wf (mkRiskBounds l m u)) as Hb.
  { split; [eapply (is_highest_mono rb_lower rb_base); [|done..]
           |eapply (is_highest_mono rb_base rb_upper); [|done..]]; apply Hwf. }
  exists (mkRiskBounds l m u). split; [apply (RiskBounds_new_wf _ Hb)|]. by split_and!.
Qed.

(** ** Rank stability against every realisation of the bounds *)

(** One choice of the uncertain dimensions of a plan. *)
Record realisation := mkRealisation {
  re_preference : Q;
  re_risk : Z;
  re_cost : Decimal;
  re_coverage : Q;
  re_age : Q
}.

(** The ordering key of a plan whose dimensions turned out to be [x]. *)
Definition realised_key (plan : BoundedPlan) (x : realisation) : ordering_key :=
  (status_rank plan, (- re_preference x)%Q, re_risk x, re_cost x, (- re_coverage x)%Q, re_age x,
   bp_stable_action_ids plan, bp_plan_id plan).

Definition within (b : OrderingBounds) (x : realisation) : Prop :=
  (ratio_fraction (ps_conservative (ob_preference b)) <= re_preference x)%Q ∧
  (re_preference x <= ratio_fraction (ps_optimistic (ob_preference b)))%Q ∧
  StackRisk.rank (rb_lower (ob_stack_risk b)) <= re_risk x <= StackRisk.rank (rb_upper (ob_stack_risk b)) ∧
  py_le (amount (cb_low (ob_total_cost b))) (re_cost x) = true ∧
  py_le (re_cost x) (amount (cb_high (ob_total_cost b))) = true ∧
  (ratio_fraction (cv_conservative (ob_coverage b)) <= re_coverage x)%Q ∧
  (re_coverage x <= ratio_fraction (cv_optimistic (ob_coverage b)))%Q ∧
  (ratio_fraction (ea_lower (ob_age b)) <= re_age x)%Q ∧
  (re_age x <= ratio_fraction (ea_upper (ob_age b)))%Q.

(** The ends of the bounds. *)
Definition worst (b : OrderingBounds) : realisation :=
  mkRealisation (ratio_fraction (ps_conservative (ob_preference b)))
    (StackRisk.rank (rb_upper (ob_stack_risk b))) (amount (cb_high (ob_total_cost b)))
    (ratio_fraction (cv_conservative (ob_coverage b))) (ratio_fraction (ea_upper (ob_age b))).
Definition best (b : OrderingBounds) : realisation :=
  mkRealisation (ratio_fraction (ps_optimistic (ob_preference b)))
    (StackRisk.rank (rb_lower (ob_stack_risk b))) (amount (cb_low (ob_total_cost b)))
    (ratio_fraction (cv_optimistic (ob_coverage b))) (ratio_fraction (ea_lower (ob_age b))).

(** Every bound has its ends in order, so some realisation exists. *)
Definition bounds_wf (b : OrderingBounds) : Prop := within b (worst b) ∧ within b (best b).

Definition plan_wf (p : BoundedPlan) : Prop :=
  match bp_bounds p with Some b => bounds_wf b | None => True end.

Definition realises (p : BoundedPlan) (x : realisation) : Prop :=
  ∃ b, bp_bounds p = Some b ∧ within b x.

(** Some outcome inside the bounds ranks [c] strictly before [s]. *)
Definition may_overtake (c s : BoundedPlan) : Prop :=
  ∃ x y, realises c x ∧ realises s y ∧ py_lt (realised_key c x) (realised_key s y) = true.

Lemma worst_last p b x : within b x → py_le (realised_key p x) (realised_key p (worst b)) = true.
Proof.
  intros (H1 & H2 & [H3 H4] & H5 & H6 & H7 & H8 & H9 & H10). unfold realised_key.
  repeat apply pair_le_mono; cbn; auto with sira; first [apply Q_le_iff; lra|apply Z_le_iff; lia].
Qed.

Lemma best_first p b x : within b x → py_le (realised_key p (best b)) (realised_key p x) = true.
Proof.
  intros (H1 & H2 & [H3 H4] & H5 & H6 & H7 & H8 & H9 & H10). unfold realised_key.
  repeat apply pair_le_mono; cbn; auto with sira; first [apply Q_le_iff; lra|apply Z_le_iff; lia].
Qed.

(** The comparison the code makes decides whether overtaking is possible. *)
Lemma may_overtake_envelope c s bc bs :
  bp_bounds c = Some bc → bp_bounds s = Some bs → bounds_wf bc → bounds_wf bs →
  may_overtake c s ↔ py_lt (optimistic_key c bc) (conservative_key s bs) = true.
Proof.
  intros Ec Es [_ Hc] [Hs _].
  change (optimistic_key c bc) with (realised_key c (best bc)).
  change (conservative_key s bs) with (realised_key s (worst bs)). split.
  - intros (x & y & (b & Eb & Hx) & (b' & Eb' & Hy) & Hlt). simplify_eq.
    rewrite !py_lt_le, !negb_true_iff in *.
    eapply py_le_trans_false; [by apply best_first|].
    eapply py_le_false_trans; [done|by apply worst_last].
  - intros Hlt. exists (best bc), (worst bs). unfold realises. naive_solver.
Qed.

Lemma unavailable_ids plans i :
  i ∈ sorted_by id (bp_plan_id <$> List.filter (λ p, is_none (bp_bounds p)) plans) ↔
  ∃ p, p ∈ plans ∧ bp_plan_id p = i ∧ bp_bounds p = None.
Proof.
  rewrite elem_of_sorted_by, list_elem_of_fmap. setoid_rewrite elem_of_lfilter.
  setoid_rewrite is_none_true. naive_solver.
Qed.

Lemma assess_rank_stability_cases (selected : BoundedPlan) (competitors : list BoundedPlan) :
  Forall plan_wf (selected :: competitors) →
  ∃ r, assess_rank_stability selected competitors = Ok r ∧
    (rs_status r = RankStability.UNDETERMINED ↔ ∃ p, p ∈ selected :: competitors ∧ bp_bounds p = None) ∧
    (∀ i, i ∈ rs_bound_unavailable_plan_ids r ↔
       ∃ p, p ∈ selected :: competitors ∧ bp_plan_id p = i ∧ bp_bounds p = None) ∧
    (rs_status r ≠ RankStability.UNDETERMINED →
       (∀ i, i ∈ rs_ordering_frontier_plan_ids r ↔
          ∃ c, c ∈ competitors ∧ bp_plan_id c = i ∧ may_overtake c selected) ∧
       (rs_status r = RankStability.STABLE ↔ ∀ c, c ∈ competitors → ¬ may_overtake c selected)).
Proof.
  rewrite Forall_forall. intros Hwf. unfold assess_rank_stability.
  pose proof (unavailable_ids (selected :: competitors)) as Hun.
  destruct (sorted_by _ _) as [|i l] eqn:E.
  - assert (∀ p, p ∈ selected :: competitors → ∃ b, bp_bounds p = Some b ∧ bounds_wf b) as Hb.
    { intros p Hp. specialize (Hwf p Hp). unfold plan_wf in Hwf.
      destruct (bp_bounds p) eqn:Ep; [by eauto|]. exfalso.
      apply (elem_of_nil (bp_plan_id p)), Hun. eauto. }
    destruct (Hb selected) as (bs & Es & Hs); [set_solver|].
    unfold conservative_envelope_key, _require_bounds. rewrite Es. cbn [mbind result_bind].
    rewrite (filterM_Ok _ (λ p, match bp_bounds p with
                               | Some b => py_lt (optimistic_key p b) (conservative_key selected bs)
                               | None => false end)).
    2:{ intros p Hp. destruct (Hb p) as (b & Ep & _); [set_solver|].
        unfold optimistic_envelope_key, _require_bounds. by rewrite Ep. }
    cbn [mbind result_bind]. set (over := List.filter _ competitors).
    assert (∀ c, c ∈ over ↔ c ∈ competitors ∧ may_overtake c selected) as Hover.
    { intros c. unfold over. rewrite elem_of_lfilter. apply and_iff_compat_l'. intros Hc.
      destruct (Hb c) as (bc & Ec & Hbc); [set_solver|].
      rewrite (may_overtake_envelope c selected bc bs), Ec by done. done. }
    clearbody over. eexists. split; [done|]. cbn. split_and!.
    + split; [by case_match|]. intros (p & Hp & Ep). destruct (Hb p) as (? & ? & _); congruence.
    + intros i. rewrite <- Hun. done.
    + intros _. split.
      * intros i. rewrite elem_of_sorted_by, list_elem_of_fmap. naive_solver.
      * destruct (sorted_by _ (_ <$> over)) as [|j k] eqn:F.
        -- apply sorted_by_nil, fmap_nil_inv in F. subst over. split; [|done].
           intros _ c Hc Hov. by apply (elem_of_nil c), Hover.
        -- split; [done|]. intros Hno. exfalso.
           assert (j ∈ bp_plan_id <$> over) as (c & _ & Hc)%list_elem_of_fmap.
           { rewrite <- (elem_of_sorted_by id), F. set_solver. }
           apply Hover in Hc as [Hc Hov]. by apply (Hno c).
  - eexists. split; [done|]. cbn. split_and!; [|done|done].
    split; [|done]. intros _. destruct (Hun i) as [Hi _].
    destruct Hi as (p & ? & _ & ?); [set_solver|]. eauto.
Qed.

(** C11: on plans whose bounds are ordered the assessment never raises.  It is
    UNDETERMINED exactly when a plan has no bounds and then lists those plans;
    otherwise the frontier lists exactly the competitors that some outcome
    inside the bounds puts strictly before the selected plan, and the rank is
    STABLE exactly when there is none. *)
Theorem assess_rank_stability_spec (selected : BoundedPlan) (competitors : list BoundedPlan) :
  Forall plan_wf (selected :: competitors) →
  ∃ r, assess_rank_stability selected competitors = Ok r ∧
    (rs_status r = RankStability.UNDETERMINED ↔ ∃ p, p ∈ selected :: competitors ∧ bp_bounds p = None) ∧
    (∀ i, i ∈ rs_bound_unavailable_plan_ids r ↔
       ∃ p, p ∈ selected :: competitors ∧ bp_plan_id p = i ∧ bp_bounds p = None) ∧
    (rs_status r ≠ RankStability.UNDETERMINED →
       (∀ i, i ∈ rs_ordering_frontier_plan_ids r ↔
          ∃ c, c ∈ competitors ∧ bp_plan_id c = i ∧ may_overtake c selected) ∧
       (rs_status r = RankStability.STABLE ↔ ∀ c, c ∈ competitors → ¬ may_overtake c selected)).
Proof. apply assess_rank_stability_cases. Qed.

(** ** Bounds that a constructor returned have their ends in order *)

Lemma PreferenceScoreBounds_new_Ok lo hi b :
  PreferenceScoreBounds_new lo hi = Ok b →
  (ratio_fraction (ps_conservative b) <= ratio_fraction (ps_optimistic b))%Q.
Proof.
  unfold PreferenceScoreBounds_new.
  intros (? & [[_ H]%andb_true_iff _]%raise_if_Ok%negb_false_iff%andb_true_iff & [= <-])%bind_Ok.
  by apply Q_le_iff.
Qed.

Lemma aggregate_preference_bounds_Ok criteria b :
  aggregate_preference_bounds criteria = Ok b →
  (ratio_fraction (ps_conservative b) <= ratio_fraction (ps_optimistic b))%Q.
Proof.
  unfold aggregate_preference_bounds. intros H. do 6 apply bind_Ok in H as (? & _ & H).
  by eapply PreferenceScoreBounds_new_Ok.
Qed.

Lemma RiskBounds_new_Ok lower base upper b : RiskBounds_new lower base upper = Ok b → risk_wf b.
Proof.
  unfold RiskBounds_new, risk_wf.
  intros (? & [H1%Z.leb_le H2%Z.leb_le]%raise_if_Ok%negb_false_iff%andb_true_iff & [= <-])%bind_Ok.
  done.
Qed.

Lemma aggregate_risk_bounds_Ok components b : aggregate_risk_bounds components = Ok b → risk_wf b.
Proof.
  unfold aggregate_risk_bounds. destruct components; [done|]. intros H.
  do 3 apply bind_Ok in H as (? & _ & H). by eapply RiskBounds_new_Ok.
Qed.

Lemma CostBounds_new_Ok low base high b :
  CostBounds_new low base high = Ok b →
  b = mkCostBounds low base high ∧ currency low = currency base ∧ currency base = currency high ∧
  py_le (amount low) (amount base) = true ∧ py_le (amount base) (amount high) = true.
Proof.
  unfold CostBounds_new. intros (? & [Hc Ha]%raise_if_Ok%orb_false_iff & [= <-])%bind_Ok.
  apply negb_false_iff, andb_true_iff in Hc as [?%bool_decide_eq_true ?%bool_decide_eq_true].
  by apply negb_false_iff, andb_true_iff in Ha as [? ?].
Qed.

Lemma EvidenceAgeBounds_new_Ok lo hi b :
  EvidenceAgeBounds_new lo hi = Ok b → (ratio_fraction (ea_lower b) <= ratio_fraction (ea_upper b))%Q.
Proof.
  unfold EvidenceAgeBounds_new.
  intros (? & [_ H]%raise_if_Ok%negb_false_iff%andb_true_iff & [= <-])%bind_Ok. by apply Q_le_iff.
Qed.

Lemma aggregate_evidence_age_bounds_Ok items b :
  aggregate_evidence_age_bounds items = Ok b →
  (ratio_fraction (ea_lower b) <= ratio_fraction (ea_upper b))%Q.
Proof.
  unfold aggregate_evidence_age_bounds. intros H.
  destruct items; apply bind_Ok in H as (? & _ & H).
  - by eapply EvidenceAgeBounds_new_Ok.
  - apply bind_Ok in H as (? & _ & H). by eapply EvidenceAgeBounds_new_Ok.
Qed.

Lemma fraction_Ok n d q : fraction n d = Ok q → d ≠ 0 ∧ (q == inject_Z n / inject_Z d)%Q.
Proof.
  unfold fraction. destruct (Z.eqb_spec d 0) as [|Hd]; [done|]. intros [= <-]. split; [done|].
  destruct d as [|p|p]; [done|..]; unfold Qeq; cbn; [lia|].
  change (Z.to_pos (- Z.neg p)) with p. rewrite Pos.mul_1_l. lia.
Qed.

(** What [CoverageCriterion_new] guarantees. *)
Definition coverage_criterion_wf (c : CoverageCriterion) : Prop :=
  1 <= cc_weight c <= 5 ∧ (cc_conservative_covered c = true → cc_optimistic_covered c = true).

Lemma CoverageCriterion_new_Ok i w c o x : CoverageCriterion_new i w c o = Ok x → coverage_criterion_wf x.
Proof.
  unfold CoverageCriterion_new. intros (? & _ & H)%bind_Ok.
  apply bind_Ok in H as (? & [H1%Z.leb_le H2%Z.leb_le]%raise_if_Ok%negb_false_iff%andb_true_iff & H).
  apply bind_Ok in H as (? & Hc%raise_if_Ok & [= <-]). split; cbn; [done|]. by destruct c, o.
Qed.

(** The weight of the criteria that [covered] selects. *)
Definition covered_weight (covered : CoverageCriterion → bool) (l : list CoverageCriterion) : Z :=
  sum_Z (cc_weight <$> List.filter covered l).

Lemma covered_weight_cons covered c l :
  covered_weight covered (c :: l) = (if covered c then cc_weight c else 0) + covered_weight covered l.
Proof. unfold covered_weight. cbn [List.filter]. destruct (covered c); [apply sum_Z_cons|done]. Qed.

Lemma covered_weight_bounds l :
  Forall coverage_criterion_wf l →
  0 <= covered_weight cc_conservative_covered l ∧
  covered_weight cc_conservative_covered l <= covered_weight cc_optimistic_covered l ∧
  covered_weight cc_optimistic_covered l <= sum_Z (cc_weight <$> l).
Proof.
  induction 1 as [|c l [[H0 H1] Hco] _ IH]; [done|]. rewrite !covered_weight_cons, fmap_cons, sum_Z_cons.
  destruct (cc_conservative_covered c), (cc_optimistic_covered c); first [lia|by specialize (Hco eq_refl)].
Qed.

Lemma inject_Z_div_mono a b d : 0 <= d → a <= b → (inject_Z a / inject_Z d <= inject_Z b / inject_Z d)%Q.
Proof.
  intros Hd Hab. apply Qmult_le_compat_r; [by rewrite <- Zle_Qle|].
  apply Qinv_le_0_compat. change 0%Q with (inject_Z 0). by rewrite <- Zle_Qle.
Qed.

Lemma ratio_of_Ok q r : ratio_of q = Ok r → (ratio_fraction r == q)%Q.
Proof. destruct (ratio_of_spec q) as (s & -> & _ & ?). by intros [= <-]. Qed.

Lemma aggregate_coverage_bounds_Ok criteria b :
  Forall coverage_criterion_wf criteria → aggregate_coverage_bounds criteria = Ok b →
  (ratio_fraction (cv_conservative b) <= ratio_fraction (cv_optimistic b))%Q.
Proof.
  intros Hwf. unfold aggregate_coverage_bounds. case_bool_decide.
  - intros (one & _ & [= <-])%bind_Ok. apply Qle_refl.
  - intros (? & _ & H1)%bind_Ok. apply bind_Ok in H1 as (c & [_ Hc]%fraction_Ok & H1).
    apply bind_Ok in H1 as (o & [_ Ho]%fraction_Ok & H1).
    apply bind_Ok in H1 as (l & Hl%ratio_of_Ok & H1). apply bind_Ok in H1 as (u & Hu%ratio_of_Ok & [= <-]).
    cbn. rewrite Hl, Hu, Hc, Ho. destruct (covered_weight_bounds _ Hwf) as (H0 & Hco & Ht).
    apply inject_Z_div_mono; [lia|exact Hco].
Qed.

(** ** The hypotheses hold on concrete inputs *)

Definition ex_criteria : list PreferenceCriterionBound :=
  [mkPreferenceCriterionBound "speed" 3 (mkRatio 1 2) (mkRatio 1 1);
   mkPreferenceCriterionBound "price" 1 (mkRatio 0 1) (mkRatio 1 4)].

Lemma aggregate_preference_bounds_witness :
  aggregate_preference_bounds ex_criteria =
    Ok (mkPreferenceScoreBounds (mkRatio 75 2) (mkRatio 325 4)) ∧
  (ratio_fraction (mkRatio 75 2) == percentage (weighted pb_conservative ex_criteria) 4)%Q.
Proof.
  assert (Forall preference_criterion_wf ex_criteria) as H
    by (repeat constructor; vm_compute; try done; intros; discriminate).
  pose proof (aggregate_preference_bounds_spec ex_criteria H) as T.
  assert (aggregate_preference_bounds ex_criteria =
    Ok (mkPreferenceScoreBounds (mkRatio 75 2) (mkRatio 325 4))) as E by (vm_compute; reflexivity).
  rewrite E in T. split; [exact E|apply T].
Defined.

Lemma aggregate_risk_bounds_witness :
  Forall risk_wf [mkRiskBounds StackRisk.LOW StackRisk.LOW StackRisk.HIGH;
                  mkRiskBounds StackRisk.LOW StackRisk.MEDIUM StackRisk.MEDIUM] ∧
  ∃ b, aggregate_risk_bounds [mkRiskBounds StackRisk.LOW StackRisk.LOW StackRisk.HIGH;
                  mkRiskBounds StackRisk.LOW StackRisk.MEDIUM StackRisk.MEDIUM] = Ok b ∧ risk_wf b.
Proof.
  assert (Forall risk_wf [mkRiskBounds StackRisk.LOW StackRisk.LOW StackRisk.HIGH;
                  mkRiskBounds StackRisk.LOW StackRisk.MEDIUM StackRisk.MEDIUM]) as H
    by (repeat constructor; vm_compute; discriminate).
  split; [exact H|]. destruct (aggregate_risk_bounds_spec _ _ H) as (b & E & Hb & _).
  exists b. split; [exact E|exact Hb].
Defined.

Definition ex_bounds (pref : ExactRatio) : OrderingBounds :=
  mkOrderingBounds (mkPreferenceScoreBounds pref (mkRatio 80 1))
    (mkRiskBounds StackRisk.LOW StackRisk.LOW StackRisk.LOW)
    (mkCostBounds (mkMoney (DFinite 1 0) "USD") (mkMoney (DFinite 1 0) "USD") (mkMoney (DFinite 2 0) "USD"))
    (mkCoverageBounds (mkRatio 1 2) (mkRatio 1 1)) (mkEvidenceAgeBounds (mkRatio 0 1) (mkRatio 1 2)).
Definition ex_plan (name : string) (pref : ExactRatio) : BoundedPlan :=
  mkBoundedPlan name CandidateStatus.ELIGIBLE [name] (Some (ex_bounds pref)) [].

Lemma assess_rank_stability_witness :
  Forall plan_wf [ex_plan "plan:a" (mkRatio 70 1); ex_plan "plan:b" (mkRatio 60 1)] ∧
  ∃ r, assess_rank_stability (ex_plan "plan:a" (mkRatio 70 1)) [ex_plan "plan:b" (mkRatio 60 1)] = Ok r ∧
       rs_status r = RankStability.UNSTABLE.
Proof.
  assert (Forall plan_wf [ex_plan "plan:a" (mkRatio 70 1); ex_plan "plan:b" (mkRatio 60 1)]) as H
    by (repeat constructor; vm_compute; try done; intros; discriminate).
  split; [exact H|].
  destruct (assess_rank_stability_spec _ _ H) as (r & E & _).
  exists r. split; [exact E|]. revert E. vm_compute. by intros [= <-].
Defined.

(** ** Evidence age *)

(** When it returns, the times were ordered and the ratios are the ages of the
    oldest and newest possible observation over the freshness budget. *)
Lemma evidence_age_bounds_Ok at_ lower upper sla b :
  evidence_age_bounds at_ lower upper sla = Ok b →
  1 <= sla ∧ instant lower <= instant upper <= instant at_ ∧
  (ratio_fraction (ea_upper b) == inject_Z (instant at_ - instant lower) / inject_Z (sla * 1000000))%Q ∧
  (ratio_fraction (ea_lower b) == inject_Z (instant at_ - instant upper) / inject_Z (sla * 1000000))%Q.
Proof.
  unfold evidence_age_bounds. intros H.
  apply bind_Ok in H as (? & [[Ha Hl]%orb_false_iff Hu]%raise_if_Ok%orb_false_iff & H).
  apply negb_false_iff in Ha, Hl, Hu. apply bind_Ok in H as (? & Hs%raise_if_Ok%Z.ltb_ge & H).
  rewrite (dt_le_aware lower upper), (dt_le_aware upper at_) in H by done.
  cbn [mbind result_bind] in H. split; [done|].
  destruct (Z.leb_spec (instant lower) (instant upper)); cbn [mbind result_bind] in H; [|discriminate].
  destruct (Z.leb_spec (instant upper) (instant at_)); cbn [mbind result_bind negb raise_if] in H;
    [|discriminate].
  split; [lia|]. unfold EvidenceAgeBounds_new in H.
  apply bind_Ok in H as (l & (ql & Hql & El)%bind_Ok & H).
  apply bind_Ok in H as (u & (qu & Hqu & Eu)%bind_Ok & H). inv_result. cbn [ea_lower ea_upper].
  apply fraction_Ok in Hql as [_ Hql], Hqu as [_ Hqu].
  destruct (ratio_of_spec ql) as (l' & El' & _ & Vl), (ratio_of_spec qu) as (u' & Eu' & _ & Vu).
  rewrite El in El'. rewrite Eu in Eu'. injection El' as <-. injection Eu' as <-.
  by rewrite Vl, Vu, Hql, Hqu.
Qed.
