(* ===== verification/Sha256.v ===== *)
(** * SHA-256

    [hashlib.sha256(payload).hexdigest()] on a string of bytes, with 32-bit
    words as [Z] and additions reduced modulo [2 ^ 32]. *)
From S2P Require Import Prelude PyText.

Local Open Scope Z_scope.

Definition mask32 : Z := 4294967295.
Definition add32 (a b : Z) : Z := Z.land (a + b) mask32.
Definition rotr (x k : Z) : Z := Z.lor (Z.shiftr x k) (Z.land (Z.shiftl x (32 - k)) mask32).
Definition not32 (x : Z) : Z := Z.lxor x mask32.

Definition round_constants : list Z :=
  [1116352408; 1899447441; 3049323471; 3921009573; 961987163; 1508970993; 2453635748; 2870763221;
   3624381080; 310598401; 607225278; 1426881987; 1925078388; 2162078206; 2614888103; 3248222580;
   3835390401; 4022224774; 264347078; 604807628; 770255983; 1249150122; 1555081692; 1996064986;
   2554220882; 2821834349; 2952996808; 3210313671; 3336571891; 3584528711; 113926993; 338241895;
   666307205; 773529912; 1294757372; 1396182291; 1695183700; 1986661051; 2177026350; 2456956037;
   2730485921; 2820302411; 3259730800; 3345764771; 3516065817; 3600352804; 4094571909; 275423344;
   430227734; 506948616; 659060556; 883997877; 958139571; 1322822218; 1537002063; 1747873779;
   1955562222; 2024104815; 2227730452; 2361852424; 2428436474; 2756734187; 3204031479; 3329325298].

Definition initial_hash : list Z :=
  [1779033703; 3144134277; 1013904242; 2773480762; 1359893119; 2600822924; 528734635; 1541459225].

(** The bytes of a 64-bit length, most significant first. *)
Definition be_bytes (n : nat) (x : Z) : list Z :=
  reverse ((λ i : nat, Z.land (Z.shiftr x (8 * Z.of_nat i)) 255) <$> seq 0 n).

Definition pad (bytes : list Z) : list Z :=
  let n := Z.of_nat (length bytes) in
  bytes ++ [128] ++ replicate (Z.to_nat ((55 - n) mod 64)) 0 ++ be_bytes 8 (8 * n).

Fixpoint words (bytes : list Z) : list Z :=
  match bytes with
  | a :: b :: c :: d :: rest => (((a * 256 + b) * 256 + c) * 256 + d) :: words rest
  | _ => []
  end.

Definition small_sigma0 (x : Z) : Z := Z.lxor (Z.lxor (rotr x 7) (rotr x 18)) (Z.shiftr x 3).
Definition small_sigma1 (x : Z) : Z := Z.lxor (Z.lxor (rotr x 17) (rotr x 19)) (Z.shiftr x 10).
Definition big_sigma0 (x : Z) : Z := Z.lxor (Z.lxor (rotr x 2) (rotr x 13)) (rotr x 22).
Definition big_sigma1 (x : Z) : Z := Z.lxor (Z.lxor (rotr x 6) (rotr x 11)) (rotr x 25).
Definition choose (x y z : Z) : Z := Z.lxor (Z.land x y) (Z.land (not32 x) z).
Definition majority (x y z : Z) : Z := Z.lxor (Z.lxor (Z.land x y) (Z.land x z)) (Z.land y z).

(** The message schedule, newest word first. *)
Fixpoint schedule (n : nat) (w : list Z) : list Z :=
  match n with
  | O => w
  | S n =>
      let at_ k := nth k w 0 in
      schedule n (add32 (add32 (small_sigma1 (at_ 1%nat)) (at_ 6%nat))
                        (add32 (small_sigma0 (at_ 14%nat)) (at_ 15%nat)) :: w)
  end.

Definition compress_round (h : list Z) (kw : Z * Z) : list Z :=
  match h with
  | [a; b; c; d; e; f; g; i] =>
      let t1 := add32 (add32 i (big_sigma1 e)) (add32 (choose e f g) (add32 kw.1 kw.2)) in
      let t2 := add32 (big_sigma0 a) (majority a b c) in
      [add32 t1 t2; a; b; c; add32 d t1; e; f; g]
  | _ => h
  end.

Definition compress (h block : list Z) : list Z :=
  let w := reverse (schedule 48 (reverse block)) in
  zip_with add32 h (foldl compress_round h (zip round_constants w)).

Fixpoint blocks (fuel : nat) (h ws : list Z) : list Z :=
  match fuel, ws with
  | S fuel, _ :: _ => blocks fuel (compress h (take 16 ws)) (drop 16 ws)
  | _, _ => h
  end.

Definition hex_digit (d : Z) : ascii := ascii_of_N (Z.to_N (if d <? 10 then 48 + d else 87 + d)).
Definition hex_word (x : Z) : list ascii :=
  reverse ((λ i : nat, hex_digit (Z.land (Z.shiftr x (4 * Z.of_nat i)) 15)) <$> seq 0 8).

(** [hashlib.sha256(s).hexdigest()] *)
Definition sha256_hex (s : string) : string :=
  let ws := words (pad ((λ c, Z.of_N (N_of_ascii c)) <$> chars s)) in
  of_chars (mjoin (hex_word <$> blocks (length ws) initial_hash ws)).

Example sha256_abc :
  sha256_hex "abc" = "ba7816bf8f01cfea414140de5dae2223b00361a396177a9cb410ff61f20015ad"%string.
Proof. vm_compute. reflexivity. Qed.

Example sha256_two_blocks :
  sha256_hex "abcdbcdecdefdefgefghfghighijhijkijkljklmklmnlmnomnopnopq" =
  "248d6a61d20638b8e5c026930c3e6039a33ce45964ff2167f6ecedd419db06c1"%string.
Proof. vm_compute. reflexivity. Qed.

(** ** The digest is 64 hexadecimal digits *)

Lemma length_compress_round h kw : length h = 8%nat → length (compress_round h kw) = 8%nat.
Proof. do 9 (destruct h as [|? h]; [try done|]); done. Qed.

Lemma length_foldl_round l h : length h = 8%nat → length (foldl compress_round h l) = 8%nat.
Proof. revert h. induction l as [|x l IH]; intros h Hh; cbn; [done|]. by apply IH, length_compress_round. Qed.

Lemma length_compress h b : length h = 8%nat → length (compress h b) = 8%nat.
Proof. intros Hh. unfold compress. rewrite length_zip_with, length_foldl_round by done. lia. Qed.

Lemma length_blocks fuel h ws : length h = 8%nat → length (blocks fuel h ws) = 8%nat.
Proof.
  revert h ws. induction fuel as [|fuel IH]; intros h [|w ws] Hh; cbn [blocks]; [done..|].
  by apply IH, length_compress.
Qed.

Lemma hex_digit_hex x : hex_char (hex_digit (Z.land x 15)) = true.
Proof.
  change 15 with (Z.ones 4). rewrite Z.land_ones by lia.
  pose proof (Z.mod_pos_bound x (2 ^ 4) ltac:(lia)) as B. set (d := x mod 2 ^ 4) in *. clearbody d.
  assert (d ∈ Z.of_nat <$> seq 0 16) as Hd.
  { apply list_elem_of_fmap. exists (Z.to_nat d). rewrite elem_of_seq. lia. }
  cbn in Hd. repeat (apply elem_of_cons in Hd as [->|Hd]; [reflexivity|]). by apply elem_of_nil in Hd.
Qed.

Lemma hex_word_hex x : length (hex_word x) = 8%nat ∧ forallb hex_char (hex_word x) = true.
Proof.
  unfold hex_word. split; [by rewrite length_reverse, length_fmap, length_seq|].
  apply forallb_Forall. intros c. rewrite elem_of_reverse, list_elem_of_fmap.
  intros (i & -> & _). apply hex_digit_hex.
Qed.

Lemma hex_words_hex l :
  length (mjoin (hex_word <$> l)) = (8 * length l)%nat ∧ forallb hex_char (mjoin (hex_word <$> l)) = true.
Proof.
  induction l as [|x l [IH1 IH2]]; [done|]. destruct (hex_word_hex x) as [H1 H2].
  change (mjoin (hex_word <$> x :: l)) with (hex_word x ++ mjoin (hex_word <$> l)).
  rewrite length_app, forallb_app, H1, H2, IH1, IH2. cbn. split; [lia|done].
Qed.

Lemma sha256_hex_wf s :
  length (chars (sha256_hex s)) = 64%nat ∧ forallb hex_char (chars (sha256_hex s)) = true.
Proof.
  unfold sha256_hex. rewrite chars_of_chars.
  destruct (hex_words_hex (blocks (length (words (pad ((λ c, Z.of_N (N_of_ascii c)) <$> chars s))))
    initial_hash (words (pad ((λ c, Z.of_N (N_of_ascii c)) <$> chars s))))) as [H1 H2].
  by rewrite H1, length_blocks.
Qed.
