(* ===== verification/Hashing.v ===== *)
(** * Canonical values and content hashes: [domain/hashing.py]

    [PyVal] is what the code hands to [content_hash]: the dictionary or
    dataclass a [to_hash_payload] returns.  [_normalize] turns it into JSON or
    raises, the RFC 8785 writer (a third-party package) is the interface
    [Rfc8785], and [content_hash] is the SHA-256 of the text.  The theory says
    when normalisation succeeds, what excluding fields means, and that the
    texts of numbers and times are faithful: equal texts are equal values. *)
From S2P Require Import Prelude PyText PyNumber PyTime Money Sha256.

Local Open Scope string_scope.
Local Open Scope Z_scope.

(** ** Values *)

(** A dictionary key is text or something else, with the text [str] gives it. *)
Inductive dict_key := KStr (s : string) | KOther (text : string).

#[export] Instance dict_key_eq_dec : EqDecision dict_key.
Proof. solve_decision. Defined.

(** An [Enum], a [UUID] and a [date] stand for their text, a dataclass for the
    dictionary of its fields or its hash payload. *)
Inductive PyVal :=
| VNone
| VBool (b : bool)
| VStr (s : string)
| VInt (n : Z)
| VDecimal (d : Decimal)
| VFloat (finite : bool)
| VDatetime (d : datetime)
| VList (l : list PyVal)
| VDict (l : list (dict_key * PyVal))
| VOther (type_name : string).

Inductive Json :=
| JNull
| JBool (b : bool)
| JStr (s : string)
| JInt (n : Z)
| JList (l : list Json)
| JObj (l : list (string * Json)).

(** The third-party package [rfc8785]: the text of a value, or the message of
    the [CanonicalizationError] it raises. *)
Class Rfc8785 := dumps : Json → string + string.

(** ** Scalars *)

(** [format(value, "f")] of a finite decimal. *)
Definition format_f (c e : Z) : string :=
  let ds := digits_of (Z.abs c) in
  of_chars (sign_text (c <? 0) ++
    (if 0 <=? e then (if c =? 0 then ds else ds ++ zeros e)
     else let ds := zeros (1 - e - Z.of_nat (length ds)) ++ ds in
          let n := (length ds - Z.to_nat (- e))%nat in
          take n ds ++ "."%char :: drop n ds))%list.

(** [text.rstrip(c)] *)
Fixpoint lstrip_char (c : ascii) (l : list ascii) : list ascii :=
  match l with
  | d :: l' => if bool_decide (d = c) then lstrip_char c l' else l
  | [] => []
  end.
Definition rstrip_char (c : ascii) (l : list ascii) : list ascii :=
  reverse (lstrip_char c (reverse l)).

(** Zeros of the model carry no sign; one that [normalize] makes of a negative
    number keeps it. *)
Definition _decimal_text (value : Decimal) : result string :=
  _ ← raise_if (negb (dec_is_finite value))
        (DomainValidationError "non-finite decimals are not canonical JSON");
  if dec_eqb value (DFinite 0 0) then Ok "0" else
  normalized ← dec_normalize value;
  match normalized with
  | DFinite c e =>
      let text := (if (c =? 0) && py_lt value (DFinite 0 0) then "-0" else format_f c e) in
      Ok (if str_contains "." text
          then of_chars (rstrip_char "."%char (rstrip_char "0"%char (chars text))) else text)
  | _ => Ok "Infinity"
  end.

(** Day [n] after 0001-01-01 in the proleptic Gregorian calendar, counted in
    400-year cycles from 0000-03-01. *)
Definition civil_of_cycle_day (doe : Z) : Z * Z * Z :=
  let yoe := (doe - doe / 1460 + doe / 36524 - doe / 146096) / 365 in
  let doy := doe - (365 * yoe + yoe / 4 - yoe / 100) in
  let mp := (5 * doy + 2) / 153 in
  (yoe, mp, doy - (153 * mp + 2) / 5 + 1).
Definition civil_of_days (n : Z) : Z * Z * Z :=
  let z := n + 306 in
  let '(yoe, mp, d) := civil_of_cycle_day (z mod 146097) in
  let m := if mp <? 10 then mp + 3 else mp - 9 in
  (yoe + 400 * (z / 146097) + (if m <=? 2 then 1 else 0), m, d).

(** [n] in decimal, padded with zeros to [w] digits. *)
Definition padded (w n : Z) : list ascii :=
  let ds := digits_of n in zeros (w - Z.of_nat (length ds)) ++ ds.

Definition microseconds_per_day : Z := 86400000000.
(** The day number of 10000-01-01: [datetime] stops before it. *)
Definition max_days : Z := 3652059.

(** [value.astimezone(UTC).isoformat(timespec="microseconds")] of an instant
    in microseconds since 0001-01-01, with [Z] for the zone and without the
    zero fraction. *)
Definition isoformat_z (t : Z) : string :=
  let '(y, m, d) := civil_of_days (t / microseconds_per_day) in
  let s := (t mod microseconds_per_day) / 1000000 in
  let micro := t mod 1000000 in
  of_chars (padded 4 y ++ "-"%char :: padded 2 m ++ "-"%char :: padded 2 d ++ "T"%char ::
            padded 2 (s / 3600) ++ ":"%char :: padded 2 (s / 60 mod 60) ++ ":"%char ::
            padded 2 (s mod 60) ++
            (if micro =? 0 then [] else "."%char :: padded 6 micro) ++ ["Z"%char]).

Definition _datetime_text (value : datetime) : result string :=
  _ ← raise_if (negb (is_aware value))
        (DomainValidationError "naive datetimes cannot enter canonical artifacts");
  let t := instant value in
  _ ← raise_if ((t <? 0) || (max_days * microseconds_per_day <=? t)) OverflowError;
  Ok (isoformat_z t).

(** ** Normalisation *)

Fixpoint _normalize (excluded : list string) (value : PyVal) : result Json :=
  match value with
  | VNone => Ok JNull
  | VBool b => Ok (JBool b)
  | VStr s => Ok (JStr s)
  | VInt n => Ok (JInt n)
  | VDecimal d => s ← _decimal_text d; Ok (JStr s)
  | VFloat finite =>
      Raise (DomainValidationError
        (if finite then "binary floating point is prohibited in canonical artifacts; use Decimal"
         else "non-finite floats are not canonical JSON"))
  | VDatetime d => s ← _datetime_text d; Ok (JStr s)
  | VList l =>
      js ← (fix items (l : list PyVal) : result (list Json) :=
              match l with
              | [] => Ok []
              | v :: l => j ← _normalize excluded v; js ← items l; Ok (j :: js)
              end) l;
      Ok (JList js)
  | VDict l =>
      kvs ← (fix entries (l : list (dict_key * PyVal)) : result (list (string * Json)) :=
               match l with
               | [] => Ok []
               | (KOther _, _) :: _ =>
                   Raise (DomainValidationError "canonical JSON object keys must be strings")
               | (KStr k, v) :: l =>
                   if py_in k excluded then entries l
                   else j ← _normalize excluded v; kvs ← entries l; Ok ((k, j) :: kvs)
               end) l;
      Ok (JObj kvs)
  | VOther name => Raise (DomainValidationError ("unsupported canonical JSON value: " ++ name))
  end.

Section hashing.
Context `{Rfc8785}.

Definition canonical_json (value : PyVal) (excluded_fields : list string) : result string :=
  normalized ← _normalize excluded_fields value;
  match dumps normalized with
  | inl text => Ok text
  | inr error => Raise (DomainValidationError ("RFC 8785 canonicalization failed: " ++ error))
  end.

Definition content_hash_excluding (value : PyVal) (excluded_fields : list string) : result string :=
  payload ← canonical_json value excluded_fields;
  Ok ("sha256:" ++ sha256_hex payload).

(** [content_hash(value)] *)
Definition content_hash (value : PyVal) : result string := content_hash_excluding value [].
End hashing.

(** A dictionary with text keys, as the payloads are written. *)
Definition dict (l : list (string * PyVal)) : PyVal := VDict ((λ p, (KStr p.1, p.2)) <$> l).
Definition vstrs (l : list string) : PyVal := VList (VStr <$> l).
Definition vopt {A} (f : A → PyVal) (o : option A) : PyVal := from_option f VNone o.
(** [Money.to_hash_payload()] *)
Definition money_payload (m : Money) : PyVal := dict ((λ p, (p.1, VStr p.2)) <$> to_dict m).

(** ** Induction over values *)

Section value_ind.
Context (P : PyVal → Prop).
Context (Pnone : P VNone) (Pbool : ∀ b, P (VBool b)) (Pstr : ∀ s, P (VStr s)) (Pint : ∀ n, P (VInt n))
  (Pdec : ∀ d, P (VDecimal d)) (Pfloat : ∀ f, P (VFloat f)) (Pdt : ∀ d, P (VDatetime d))
  (Plist : ∀ l, (∀ v, v ∈ l → P v) → P (VList l))
  (Pdict : ∀ l, (∀ k v, (k, v) ∈ l → P v) → P (VDict l)) (Pother : ∀ s, P (VOther s)).

Fixpoint value_ind (v : PyVal) : P v.
Proof.
  destruct v as [|b|s|n|d|f|d|l|l|s]; [apply Pnone|apply Pbool|apply Pstr|apply Pint|apply Pdec
    |apply Pfloat|apply Pdt| | |apply Pother].
  - apply Plist. induction l as [|x l IH]; intros v Hv; [destruct (not_elem_of_nil _ Hv)|].
    apply elem_of_cons in Hv as [->|Hv]; [apply value_ind|apply IH, Hv].
  - apply Pdict. induction l as [|[k0 x] l IH]; intros k v Hv; [destruct (not_elem_of_nil _ Hv)|].
    apply elem_of_cons in Hv as [[= -> ->]|Hv]; [apply value_ind|apply (IH k v Hv)].
Defined.
End value_ind.

(** ** The loops of [_normalize] *)

Fixpoint normalize_entries (excluded : list string) (l : list (dict_key * PyVal))
  : result (list (string * Json)) :=
  match l with
  | [] => Ok []
  | (KOther _, _) :: _ => Raise (DomainValidationError "canonical JSON object keys must be strings")
  | (KStr k, v) :: l =>
      if py_in k excluded then normalize_entries excluded l
      else j ← _normalize excluded v; kvs ← normalize_entries excluded l; Ok ((k, j) :: kvs)
  end.

Lemma bind_congr {A B} (m n : result A) (f : A → result B) : m = n → m ≫= f = n ≫= f.
Proof. by intros ->. Qed.

Lemma normalize_list excluded l :
  _normalize excluded (VList l) = (js ← mapM (_normalize excluded) l; Ok (JList js)).
Proof.
  cbn [_normalize]. apply bind_congr. induction l as [|v l IH]; cbn [mapM]; [done|]. by rewrite IH.
Qed.

Lemma normalize_dict excluded l :
  _normalize excluded (VDict l) = (kvs ← normalize_entries excluded l; Ok (JObj kvs)).
Proof.
  cbn [_normalize]. apply bind_congr. induction l as [|[[k|k] v] l IH]; cbn [normalize_entries]; [done| |done].
  by rewrite IH.
Qed.

(** ** Which values are canonical *)

Definition canonical_scalar (value : PyVal) : bool :=
  match value with
  | VNone | VBool _ | VStr _ | VInt _ => true
  | VDecimal d => dec_is_finite d && dec_fits d
  | VDatetime d => is_aware d && (0 <=? instant d) && (instant d <? max_days * microseconds_per_day)
  | _ => false
  end.

(** No binary float, naive time, time outside the calendar, non-finite decimal,
    decimal too large for the context, foreign object or key that is not text
    outside the excluded fields. *)
Fixpoint canonical (excluded : list string) (value : PyVal) : bool :=
  match value with
  | VList l => forallb (canonical excluded) l
  | VDict l => forallb (λ p : dict_key * PyVal,
      match p.1 with KStr k => py_in k excluded || canonical excluded p.2 | KOther _ => false end) l
  | _ => canonical_scalar value
  end.

(** The value without the excluded fields, at any depth. *)
Fixpoint strip_fields (excluded : list string) (value : PyVal) : PyVal :=
  match value with
  | VList l => VList (List.map (strip_fields excluded) l)
  | VDict l => VDict (List.filter
      (λ p : dict_key * PyVal, match p.1 with KStr k => negb (py_in k excluded) | KOther _ => true end)
      (List.map (λ p : dict_key * PyVal, (p.1, strip_fields excluded p.2)) l))
  | _ => value
  end.

Lemma dec_nonzero c e : dec_eqb (DFinite c e) (DFinite 0 0) = bool_decide (c = 0).
Proof.
  apply eq_true_iff_eq. rewrite dec_eqb_finite, bool_decide_eq_true, <- (scaled_zero_iff c e).
  by rewrite (proj2 (scaled_zero_iff 0 0)).
Qed.

Lemma decimal_text_ok d : is_ok (_decimal_text d) = dec_is_finite d && dec_fits d.
Proof.
  unfold _decimal_text. destruct d as [c e| |]; [|done..].
  cbn [dec_is_finite negb raise_if mbind result_bind andb]. rewrite dec_nonzero.
  destruct (Z.eq_dec c 0) as [->|Hc]; [done|]. rewrite bool_decide_eq_false_2 by done.
  rewrite <- dec_finish_ok. unfold dec_normalize. destruct (dec_finish (DFinite c e)) as [n|]; [|done].
  cbn [mbind result_bind is_ok]. by destruct (dec_strip n).
Qed.

Lemma normalize_scalar excluded v :
  (∀ l, v ≠ VList l) → (∀ l, v ≠ VDict l) → is_ok (_normalize excluded v) = canonical_scalar v.
Proof.
  intros H1 H2. destruct v; try done; cbn [_normalize canonical_scalar]; [| |by destruct (H1 l)|by destruct (H2 l)].
  - rewrite <- decimal_text_ok. by destruct (_decimal_text d).
  - unfold _datetime_text. destruct (is_aware d); cbn; [|done].
    destruct (Z.leb_spec 0 (instant d)), (Z.ltb_spec (instant d) 0); try lia; cbn; [|done].
    by destruct (Z.leb_spec (max_days * microseconds_per_day) (instant d)),
      (Z.ltb_spec (instant d) (max_days * microseconds_per_day)); try lia.
Qed.

Lemma is_ok_bind {A B} (m : result A) (f : A → B) : is_ok (x ← m; Ok (f x)) = is_ok m.
Proof. by destruct m. Qed.

Lemma is_ok_mapM {A B} (f : A → result B) l : is_ok (mapM f l) = forallb (λ x, is_ok (f x)) l.
Proof. induction l as [|x l IH]; cbn; [done|]. destruct (f x); cbn; [|done]. by rewrite is_ok_bind, IH. Qed.

Lemma normalize_ok_canonical excluded v : is_ok (_normalize excluded v) = canonical excluded v.
Proof.
  induction v as [| | | | | | |l IH|l IH|] using value_ind; try (by apply normalize_scalar).
  - rewrite normalize_list, is_ok_bind, is_ok_mapM. cbn [canonical].
    induction l as [|v l IHl]; cbn; [done|]. rewrite IH by set_solver. f_equal. apply IHl. set_solver.
  - rewrite normalize_dict, is_ok_bind. cbn [canonical].
    induction l as [|[[k|k] v] l IHl]; cbn [normalize_entries forallb fst snd]; [done| |done].
    destruct (py_in k excluded); cbn [orb andb]; [apply IHl; intros k' w Hw; apply (IH k' w); set_solver|].
    rewrite <- (IH (KStr k)) by set_solver. destruct (_normalize excluded v); cbn; [|done].
    rewrite is_ok_bind. apply IHl. intros k' w Hw; apply (IH k' w); set_solver.
Qed.

Lemma normalize_strip excluded v : _normalize excluded v = _normalize [] (strip_fields excluded v).
Proof.
  induction v as [| | | | | | |l IH|l IH|] using value_ind; try done.
  - cbn [strip_fields]. rewrite !normalize_list. f_equal.
    induction l as [|v l IHl]; cbn; [done|]. rewrite IH by set_solver. by rewrite IHl by set_solver.
  - cbn [strip_fields]. rewrite !normalize_dict. f_equal.
    induction l as [|[[k|k] v] l IHl]; cbn [normalize_entries List.filter List.map fst snd]; [done| |done].
    destruct (py_in k excluded) eqn:Ek; cbn [negb].
    + apply IHl. intros k' w Hw; apply (IH k' w); set_solver.
    + cbn [List.map normalize_entries fst snd]. replace (py_in k []) with false by done. rewrite (IH (KStr k)) by set_solver.
      rewrite IHl; [done|]. intros k' w Hw; apply (IH k' w); set_solver.
Qed.

(** ** Properties of normalisation *)

Section properties.
Context `{Rfc8785}.

Lemma content_hash_is_hash (excluded : list string) (v : PyVal) h :
  content_hash_excluding v excluded = Ok h → is_hash h = true.
Proof.
  unfold content_hash_excluding. intros (text & _ & [= <-])%bind_Ok.
  destruct (sha256_hex_wf text) as [Hl Hh].
  unfold is_hash, startswith. change (chars ("sha256:" ++ sha256_hex text))
    with (chars "sha256:" ++ chars (sha256_hex text))%list.
  rewrite length_app, Hl, (drop_app_length' _ _ 7), Hh by done. done.
Qed.

(** C35: a value is normalised exactly when it holds no binary float, naive or
    unrepresentable time, decimal that is not finite or too large for the
    decimal context, foreign object or key that is not text (excluded fields
    apart); every other value raises. *)
Theorem normalize_total_on_canonical (excluded : list string) (v : PyVal) :
  is_ok (_normalize excluded v) = canonical excluded v.
Proof. apply normalize_ok_canonical. Qed.

(** C34: excluding fields from a hash is hashing the value without them, at any
    depth: values that agree outside the excluded fields have the same content
    hash, and the hash is a [sha256:] digest. *)
Theorem content_hash_excludes (excluded : list string) (v : PyVal) :
  content_hash_excluding v excluded = content_hash (strip_fields excluded v) ∧
  ∀ h, content_hash_excluding v excluded = Ok h → is_hash h = true.
Proof.
  unfold content_hash, content_hash_excluding, canonical_json. rewrite normalize_strip. split; [done|].
  intros h E. by apply (content_hash_is_hash [] (strip_fields excluded v)).
Qed.
End properties.

(** ** Numbers *)

Lemma rstrip_char_last c l x : x ≠ c → rstrip_char c (l ++ [x])%list = (l ++ [x])%list.
Proof.
  intros Hx. unfold rstrip_char. rewrite reverse_snoc. cbn [lstrip_char].
  rewrite bool_decide_eq_false_2 by done. by rewrite reverse_cons, reverse_involutive.
Qed.

Lemma infix_dot l : infix_chars ["."%char] l = existsb (λ c, bool_decide ("."%char = c)) l.
Proof. induction l as [|c l IH]; [done|]. cbn [infix_chars prefix_chars existsb]. by rewrite andb_true_r, IH. Qed.

Lemma digits_no_dot l : forallb is_digit l = true → existsb (λ c, bool_decide ("."%char = c)) l = false.
Proof.
  intros Hl. apply existsb_false. intros c Hc. apply bool_decide_eq_false. intros <-.
  by apply forallb_Forall with (x := "."%char) in Hl.
Qed.

Lemma last_digit l x : forallb is_digit (l ++ [x])%list = true → x = "0"%char → digits_val (l ++ [x])%list mod 10 = 0.
Proof.
  intros _ ->. rewrite digits_val_app. cbn. rewrite Z.add_0_r. change (Z.pow_pos 10 1) with 10.
  apply Z.mod_mul. done.
Qed.

(** The text of a number in normal form reads back as the number. *)
Lemma format_f_value c e :
  c mod 10 ≠ 0 →
  let text := format_f c e in
  let stripped := if str_contains "." text
    then of_chars (rstrip_char "."%char (rstrip_char "0"%char (chars text))) else text in
  ∃ q, fraction_of_string stripped = Ok q ∧ (q == scaled c e)%Q.
Proof.
  intros Hc. cbv zeta. assert (c ≠ 0) as Hnz by (intros ->; done).
  unfold format_f, str_contains. rewrite !chars_of_chars.
  set (ds := digits_of (Z.abs c)).
  assert (forallb is_digit ds = true) as Hds by (apply digits_of_digit; lia).
  assert (ds ≠ []) as Hne by apply digits_of_nonempty.
  assert (digits_val ds = Z.abs c) as Hval by (apply digits_of_val; lia). clearbody ds.
  destruct (Z.leb_spec 0 e) as [He|He].
  - rewrite (proj2 (Z.eqb_neq c 0)) by done. change (chars ".") with ["."%char]. rewrite infix_dot, existsb_app.
    rewrite (digits_no_dot (ds ++ zeros e)) by (by rewrite forallb_app, Hds, zeros_digit).
    replace (existsb _ (sign_text (c <? 0))) with false by (by destruct (c <? 0)). cbn [orb].
    destruct (fraction_of_number_text (c <? 0) (ds ++ zeros e) None None) as (q & Hq & E);
      [by rewrite forallb_app, Hds, zeros_digit|by destruct ds|done|].
    exists q. cbn [frac_text exp_text] in Hq. rewrite !app_nil_r in Hq. split; [done|].
    rewrite E. cbn [frac_digits default length]. rewrite app_nil_r.
    assert (digits_val (ds ++ zeros e) = Z.abs c * 10 ^ e) as ->.
    { rewrite digits_val_app, Hval, zeros_length by done.
      assert (digits_val (zeros e) = 0) as ->; [|lia].
      unfold zeros. rewrite <- (app_nil_r (replicate _ _)). by rewrite digits_val_zeros. }
    change (0 - Z.of_nat 0) with 0. unfold id. change (0 - Z.of_nat 0) with 0.
    replace (apply_sign (c <? 0) (Z.abs c * 10 ^ e)) with (c * 10 ^ e)
      by (rewrite <- (apply_sign_abs c) at 1; unfold apply_sign; destruct (c <? 0); lia).
    by rewrite scaled_shift.
  - set (ds' := (zeros (1 - e - Z.of_nat (length ds)) ++ ds)%list).
    assert (forallb is_digit ds' = true) as Hds' by (unfold ds'; by rewrite forallb_app, zeros_digit).
    assert (digits_val ds' = Z.abs c) as Hval' by (unfold ds', zeros; by rewrite digits_val_zeros).
    assert (1 - e <= Z.of_nat (length ds')) as Hlen
      by (unfold ds', zeros; rewrite length_app, length_replicate; lia).
    clearbody ds'. clear Hds Hne Hval. set (n := (length ds' - Z.to_nat (- e))%nat).
    destruct (exists_last (l := drop n ds')) as (front & x & Elast).
    { intros E%(f_equal length). rewrite length_drop in E. cbn in E. lia. }
    assert (x ≠ "0"%char ∧ x ≠ "."%char) as [Hx Hx'].
    { assert (ds' = (take n ds' ++ front) ++ [x])%list as E by by rewrite <- app_assoc, <- Elast, take_drop.
      split; intros ->.
      - pose proof (last_digit (take n ds' ++ front) "0"%char) as Hd. rewrite <- E in Hd.
        rewrite Hval' in Hd. specialize (Hd Hds' eq_refl). apply Hc.
        Z.to_euclidean_division_equations. lia.
      - rewrite E, !forallb_app in Hds'. cbn in Hds'. by rewrite !andb_false_r in Hds'. }
    assert (forallb is_digit (take n ds') = true ∧ forallb is_digit (drop n ds') = true) as [Ht Hd]
      by auto using forallb_take, forallb_drop.
    change (chars ".") with ["."%char]. rewrite infix_dot, !existsb_app. cbn [existsb].
    rewrite (bool_decide_eq_true_2 ("."%char = "."%char)) by done. rewrite !orb_true_r.
    replace (sign_text (c <? 0) ++ take n ds' ++ "."%char :: drop n ds')%list
      with ((sign_text (c <? 0) ++ take n ds' ++ "."%char :: front) ++ [x])%list
      by (rewrite Elast, <- !app_assoc; done).
    rewrite !rstrip_char_last by done.
    destruct (fraction_of_number_text (c <? 0) (take n ds') (Some (drop n ds')) None) as (q & Hq & E);
      [done|intros E%(f_equal length); rewrite length_take in E; cbn in E; lia|done|].
    exists q. cbn [frac_text exp_text] in Hq. rewrite app_nil_r in Hq. split.
    + rewrite <- Hq. do 2 f_equal. rewrite Elast, <- !app_assoc. done.
    + rewrite E. cbn [frac_digits default]. unfold id. rewrite take_drop, Hval', apply_sign_abs, length_drop.
      by replace (0 - Z.of_nat (length ds' - n)) with e by lia.
Qed.

(** A number the decimal context holds as it is: zero, or one of at most 28
    digits within the exponents of the context. *)
Definition dec_held (c e : Z) : Prop :=
  c = 0 ∨ ndigits c <= dec_prec ∧ dec_etiny <= e ∧ ndigits c + e - 1 <= dec_emax.

Lemma decimal_text_value c e :
  dec_held c e →
  ∃ text q, _decimal_text (DFinite c e) = Ok text ∧ fraction_of_string text = Ok q ∧ (q == scaled c e)%Q.
Proof.
  intros Hheld. unfold _decimal_text. cbn [dec_is_finite negb raise_if mbind result_bind].
  rewrite dec_nonzero. destruct (Z.eq_dec c 0) as [->|Hnz].
  { exists "0", 0%Q. split_and!; [done|by vm_compute|]. by rewrite (proj2 (scaled_zero_iff 0 e)). }
  destruct Hheld as [|(Hc & He & Ha)]; [done|].
  rewrite bool_decide_eq_false_2 by done. unfold dec_normalize. rewrite dec_finish_exact by done.
  cbn [mbind result_bind]. unfold dec_strip. rewrite (proj2 (Z.eqb_neq c 0)) by done.
  destruct (strip_zeros_normal (S (Z.to_nat (Z.log2 (Z.abs c)))) c e) as (c' & e' & -> & Hm & E);
    [lia|apply log2_fuel; lia|].
  assert (c' ≠ 0) as Hc' by (by intros ->). rewrite (proj2 (Z.eqb_neq c' 0)) by done. cbn [andb].
  destruct (format_f_value c' e' Hm) as (q & Hq & Eq). eexists _, q. split; [done|]. split; [done|].
  by rewrite Eq.
Qed.

(** ** Times *)

Lemma padded_length w n : 1 <= w → 0 <= n < 10 ^ w → Z.of_nat (length (padded w n)) = w.
Proof.
  intros Hw Hn. unfold padded. rewrite length_app, Nat2Z.inj_add.
  assert (Z.of_nat (length (digits_of n)) <= w) as H.
  { pose proof (ndigits_le n w Hw ltac:(lia)) as H. unfold ndigits in H. rewrite Z.abs_eq in H; lia. }
  rewrite zeros_length; lia.
Qed.

Lemma padded_val w n : 0 <= n → digits_val (padded w n) = n.
Proof. intros Hn. unfold padded, zeros. by rewrite digits_val_zeros, digits_of_val. Qed.

Lemma padded_inj w n n' rest rest' :
  1 <= w → 0 <= n < 10 ^ w → 0 <= n' < 10 ^ w →
  (padded w n ++ rest = padded w n' ++ rest')%list → n = n' ∧ rest = rest'.
Proof.
  intros Hw Hn Hn' E. apply app_inj_1 in E as [E ->].
  - rewrite <- (padded_val w n), <- (padded_val w n'), E by lia. done.
  - apply Nat2Z.inj. by rewrite !padded_length.
Qed.

(** The day number of a civil date determines it and is determined by it. *)
Lemma cycle_day_bounds doe : 0 <= doe < 146097 →
  let '(yoe, mp, d) := civil_of_cycle_day doe in
  0 <= yoe <= 399 ∧ 0 <= mp <= 11 ∧ 1 <= d <= 31 ∧
  (146036 < doe ∨ mp < 10 ∨ yoe < 399).
Proof.
  intros Hd. unfold civil_of_cycle_day.
  set (yoe := (doe - doe / 1460 + doe / 36524 - doe / 146096) / 365).
  set (doy := doe - (365 * yoe + yoe / 4 - yoe / 100)).
  assert (0 <= yoe <= 399) by (unfold yoe; Z.to_euclidean_division_equations; lia).
  assert (0 <= doy <= 365) as Hdoy.
  { unfold doy, yoe. Z.to_euclidean_division_equations. lia. }
  assert (146036 < doe ∨ doy <= 305 ∨ yoe < 399) as Hlast.
  { destruct (Z.eq_dec yoe 399) as [E|]; [|lia]. unfold doy. rewrite E. change (399 / 4) with 99. change (399 / 100) with 3. clear. lia. }
  clearbody doy yoe. cbv zeta. split_and!; [lia..| | | | |].
  1-4: clear Hlast; Z.to_euclidean_division_equations; lia.
  destruct Hlast as [?|[?|?]]; [by left| |by right; right].
  right; left. Z.to_euclidean_division_equations. lia.
Qed.

Lemma cycle_day_inj a b :
  civil_of_cycle_day a = civil_of_cycle_day b → a = b.
Proof.
  unfold civil_of_cycle_day.
  generalize ((a - a / 1460 + a / 36524 - a / 146096) / 365) as ya.
  generalize ((b - b / 1460 + b / 36524 - b / 146096) / 365) as yb. intros yb ya [= -> E2 E3].
  rewrite E2 in E3. lia.
Qed.

Lemma civil_bounds n : 0 <= n < max_days →
  let '(y, m, d) := civil_of_days n in 0 <= y < 10 ^ 4 ∧ 1 <= m <= 12 ∧ 1 <= d <= 31.
Proof.
  intros Hn. unfold civil_of_days, max_days in *.
  pose proof (cycle_day_bounds ((n + 306) mod 146097) (Z.mod_pos_bound _ 146097 eq_refl)) as Hb.
  pose proof (Z.div_mod (n + 306) 146097 ltac:(lia)) as Ediv.
  set (q := (n + 306) / 146097) in *. set (r := (n + 306) mod 146097) in *.
  destruct (civil_of_cycle_day r) as [[yoe mp] d]. destruct Hb as (Hy & Hm & Hd & Hlast).
  assert (0 <= r < 146097) by (apply Z.mod_pos_bound; lia). clearbody q r.
  change (10 ^ 4) with 10000. destruct (Z.ltb_spec mp 10); [destruct (Z.leb_spec (mp + 3) 2)|destruct (Z.leb_spec (mp - 9) 2)]; split_and!; lia.
Qed.

Lemma civil_of_days_inj a b :
  0 <= a < max_days → 0 <= b < max_days → civil_of_days a = civil_of_days b → a = b.
Proof.
  intros Ha Hb. unfold civil_of_days.
  pose proof (cycle_day_bounds ((a + 306) mod 146097) (Z.mod_pos_bound _ 146097 eq_refl)) as Ba.
  pose proof (cycle_day_bounds ((b + 306) mod 146097) (Z.mod_pos_bound _ 146097 eq_refl)) as Bb.
  pose proof (Z.div_mod (a + 306) 146097 ltac:(lia)) as Ea.
  pose proof (Z.div_mod (b + 306) 146097 ltac:(lia)) as Eb.
  pose proof (cycle_day_inj ((a + 306) mod 146097) ((b + 306) mod 146097)) as Hinj.
  destruct (civil_of_cycle_day _) as [[ya ma] da], (civil_of_cycle_day _) as [[yb mb] db].
  destruct Ba as (? & ? & ? & _), Bb as (? & ? & ? & _). intros [= E1 E2 ->].
  assert (ma = mb) as -> by (destruct (Z.ltb_spec ma 10), (Z.ltb_spec mb 10); lia).
  assert (ya = yb) as -> by lia. specialize (Hinj eq_refl). lia.
Qed.

Lemma isoformat_z_inj a b :
  0 <= a < max_days * microseconds_per_day → 0 <= b < max_days * microseconds_per_day →
  isoformat_z a = isoformat_z b → a = b.
Proof.
  unfold isoformat_z. intros Ha Hb.
  assert (0 <= a / microseconds_per_day < max_days ∧ 0 <= b / microseconds_per_day < max_days) as [Da Db]
    by (unfold microseconds_per_day, max_days in *; split; Z.to_euclidean_division_equations; lia).
  pose proof (civil_bounds _ Da) as Ba. pose proof (civil_bounds _ Db) as Bb.
  pose proof (civil_of_days_inj _ _ Da Db) as Hinj.
  assert (0 <= a mod microseconds_per_day / 1000000 < 86400 ∧
          0 <= b mod microseconds_per_day / 1000000 < 86400) as [Sa Sb]
    by (unfold microseconds_per_day; split; Z.to_euclidean_division_equations; lia).
  assert (a = a / microseconds_per_day * microseconds_per_day +
              a mod microseconds_per_day / 1000000 * 1000000 + a mod 1000000 ∧
          b = b / microseconds_per_day * microseconds_per_day +
              b mod microseconds_per_day / 1000000 * 1000000 + b mod 1000000) as [Ea Eb]
    by (unfold microseconds_per_day; split; Z.to_euclidean_division_equations; lia).
  assert (0 <= a mod 1000000 < 10 ^ 6 ∧ 0 <= b mod 1000000 < 10 ^ 6) as [Ma Mb]
    by (split; apply Z.mod_pos_bound; done).
  destruct (civil_of_days _) as [[ya ma] da], (civil_of_days _) as [[yb mb] db].
  destruct Ba as (? & ? & ?), Bb as (? & ? & ?).
  set (sa := a mod microseconds_per_day / 1000000) in *. set (sb := b mod microseconds_per_day / 1000000) in *.
  set (ua := a mod 1000000) in *. set (ub := b mod 1000000) in *. clearbody sa sb ua ub.
  intros E%(f_equal chars). rewrite !chars_of_chars in E.
  assert (∀ k, 0 <= k < 86400 → 0 <= k / 3600 < 10 ^ 2 ∧ 0 <= k / 60 mod 60 < 10 ^ 2 ∧ 0 <= k mod 60 < 10 ^ 2 ∧
    k = k / 3600 * 3600 + k / 60 mod 60 * 60 + k mod 60) as W.
  { intros k Hk. change (10 ^ 2) with 100. Z.to_euclidean_division_equations. lia. }
  destruct (W sa Sa) as (? & ? & ? & Ka), (W sb Sb) as (? & ? & ? & Kb). clear W.
  do 5 (apply padded_inj in E as [? E]; [apply (inj (cons _)) in E|lia..]).
  apply padded_inj in E as [? E]; [|lia..].
  simplify_eq. specialize (Hinj eq_refl).
  assert (sa = sb) as -> by congruence.
  assert (ua = ub) as -> by (destruct (Z.eqb_spec ua 0), (Z.eqb_spec ub 0); simplify_eq/=; try congruence;
    apply padded_inj in E as [? _]; lia).
  lia.
Qed.

(** ** The texts are faithful *)

Lemma dec_held_normalize c e : dec_held c e → c ≠ 0 →
  ndigits c <= dec_prec ∧ dec_normalize (DFinite c e) = Ok (dec_reduce (DFinite c e)).
Proof.
  intros [|(Hc & He & Ha)] Hnz; [done|]. split; [done|].
  unfold dec_normalize, dec_reduce. by rewrite dec_finish_exact, dec_fix_exact.
Qed.

Lemma decimal_text_ext c e c' e' :
  dec_held c e → dec_held c' e' → (scaled c e == scaled c' e')%Q →
  _decimal_text (DFinite c e) = _decimal_text (DFinite c' e').
Proof.
  intros Hc Hc' E. unfold _decimal_text. cbn [dec_is_finite negb raise_if mbind result_bind].
  assert (c = 0 ↔ c' = 0) as Ez by (rewrite <- (scaled_zero_iff c e), <- (scaled_zero_iff c' e'); by rewrite E).
  rewrite !dec_nonzero, (bool_decide_ext _ _ Ez). destruct (Z.eq_dec c' 0) as [|Hnz]; [by rewrite bool_decide_eq_true_2|].
  destruct (dec_held_normalize c e Hc) as [Hd ->]; [tauto|]. destruct (dec_held_normalize c' e' Hc') as [Hd' ->]; [done|].
  rewrite (dec_reduce_ext c e c' e') by done.
  assert (py_lt (DFinite c e) (DFinite 0 0) = py_lt (DFinite c' e') (DFinite 0 0)) as ->; [|done].
  apply eq_true_iff_eq. rewrite !dec_lt_iff. cbn [dec_value]. by rewrite E.
Qed.

(** C36: canonical decimal texts are faithful inside the decimal context: two
    numbers of at most 28 digits within its exponents, however they are
    written, both have a text, and get the same one exactly when they are the
    same number. *)
Theorem decimal_text_faithful (c e c' e' : Z) :
  dec_held c e → dec_held c' e' →
  ∃ t t', _decimal_text (DFinite c e) = Ok t ∧ _decimal_text (DFinite c' e') = Ok t' ∧
          (t = t' ↔ (scaled c e == scaled c' e')%Q).
Proof.
  intros Hc Hc'. destruct (decimal_text_value c e Hc) as (t & q & Ht & Hq & E).
  destruct (decimal_text_value c' e' Hc') as (t' & q' & Ht' & Hq' & E').
  exists t, t'. split_and!; [done..|]. rewrite <- E, <- E'. split.
  - intros <-. rewrite Hq in Hq'. by injection Hq' as <-.
  - rewrite E, E'. intros Ev. rewrite (decimal_text_ext c e c' e') in Ht by done. congruence.
Qed.

Lemma decimal_text_faithful_witness :
  dec_held 1250 (-3) ∧ dec_held 125 (-2) ∧
  ∃ t t', _decimal_text (DFinite 1250 (-3)) = Ok t ∧ _decimal_text (DFinite 125 (-2)) = Ok t' ∧
          (t = t' ↔ (scaled 1250 (-3) == scaled 125 (-2))%Q).
Proof.
  assert (dec_held 1250 (-3)) as H1 by (right; vm_compute; split_and!; discriminate).
  assert (dec_held 125 (-2)) as H2 by (right; vm_compute; split_and!; discriminate).
  split; [exact H1|split; [exact H2|]]. exact (decimal_text_faithful 1250 (-3) 125 (-2) H1 H2).
Defined.

(** Beyond 28 digits normalisation rounds: these two decimals share a text. *)
Example long_decimals_share_text :
  _decimal_text (DFinite 10000000000000000000000000000 0) =
  _decimal_text (DFinite 10000000000000000000000000001 0).
Proof. vm_compute. reflexivity. Qed.

(** Below the exponents of the context every number gets the text of zero, and
    the sign it had: [1E-2000000] and [2E-2000000] share theirs with zero. *)
Lemma tiny_decimals_share_text c e :
  c ≠ 0 → ndigits c + e < dec_etiny →
  _decimal_text (DFinite c e) = Ok (if bool_decide (c < 0) then "-0" else "0").
Proof.
  intros Hc He. unfold _decimal_text. cbn [dec_is_finite negb raise_if mbind result_bind].
  rewrite dec_nonzero, bool_decide_eq_false_2 by done. unfold dec_normalize. rewrite dec_finish_tiny by done.
  cbn [mbind result_bind dec_strip Z.eqb andb].
  assert (py_lt (DFinite c e) (DFinite 0 0) = bool_decide (c < 0)) as ->; [|case_bool_decide; reflexivity].
  apply eq_true_iff_eq. rewrite bool_decide_eq_true, <- Z.nle_gt, <- (dec_not_negative c e).
  by destruct (py_lt _ _).
Qed.

(** Above them the text is refused, with an exception of [decimal] instead of
    a domain error: [1E+1000000]. *)
Lemma huge_decimals_raise c e :
  c ≠ 0 → dec_emax < ndigits c + e - 1 → _decimal_text (DFinite c e) = Raise DecimalOverflow.
Proof.
  intros Hc He. unfold _decimal_text. cbn [dec_is_finite negb raise_if mbind result_bind].
  rewrite dec_nonzero, bool_decide_eq_false_2 by done. unfold dec_normalize, dec_finish.
  by rewrite (proj2 (Z.eqb_neq c 0)), (proj2 (Z.ltb_lt dec_etop _)) by (done || (unfold dec_etop, dec_prec; lia)).
Qed.

(** Canonical times are faithful: two aware times get the same text exactly
    when they are the same instant, in whatever zones they are given. *)
Theorem datetime_text_faithful (a b : datetime) (ta tb : string) :
  _datetime_text a = Ok ta → _datetime_text b = Ok tb → (ta = tb ↔ instant a = instant b).
Proof.
  unfold _datetime_text.
  intros (? & _ & Ea)%bind_Ok (? & _ & Eb)%bind_Ok.
  apply bind_Ok in Ea as (? & [Ha1%Z.ltb_ge Ha2%Z.leb_gt]%raise_if_Ok%orb_false_iff & [= <-]).
  apply bind_Ok in Eb as (? & [Hb1%Z.ltb_ge Hb2%Z.leb_gt]%raise_if_Ok%orb_false_iff & [= <-]).
  split; [by apply isoformat_z_inj|by intros ->].
Qed.

Lemma datetime_text_faithful_witness :
  _datetime_text (mkDatetime 63871286400000000 (Some 0)) = Ok "2025-01-01T00:00:00Z" ∧
  _datetime_text (mkDatetime 63871290000000000 (Some 3600000000)) = Ok "2025-01-01T00:00:00Z" ∧
  instant (mkDatetime 63871286400000000 (Some 0)) =
  instant (mkDatetime 63871290000000000 (Some 3600000000)).
Proof.
  assert (_datetime_text (mkDatetime 63871286400000000 (Some 0)) = Ok "2025-01-01T00:00:00Z") as H1
    by (vm_compute; reflexivity).
  assert (_datetime_text (mkDatetime 63871290000000000 (Some 3600000000)) = Ok "2025-01-01T00:00:00Z") as H2
    by (vm_compute; reflexivity).
  split; [exact H1|split; [exact H2|]]. exact (proj1 (datetime_text_faithful _ _ _ _ H1 H2) eq_refl).
Defined.
