(* ===== verification/PyDate.v ===== *)
(** * Python [date]

    A date is the number of days since 0001-01-01.  [date_fromisoformat] reads
    the texts [date.fromisoformat] accepts: [YYYY-MM-DD], [YYYYMMDD] and the
    week dates of ISO 8601.  [isoformat] writes a time; reading one back is the
    interface [IsoFormat], since the texts accepted differ between versions. *)
From S2P Require Import Prelude PyText PyNumber PyTime Hashing.

Local Open Scope string_scope.
Local Open Scope Z_scope.

Definition is_leap (y : Z) : bool := (y mod 4 =? 0) && (negb (y mod 100 =? 0) || (y mod 400 =? 0)).

Definition days_in_month (y m : Z) : Z :=
  if m =? 2 then (if is_leap y then 29 else 28)
  else if py_in m [4; 6; 9; 11] then 30 else 31.

(** The days before the first of a year and of a month. *)
Definition days_before_year (y : Z) : Z := let p := y - 1 in p * 365 + p / 4 - p / 100 + p / 400.
Definition days_before_month (y m : Z) : Z :=
  foldr Z.add 0 ((λ k, days_in_month y (Z.of_nat k)) <$> seq 1 (Z.to_nat (m - 1))).

(** [date(y, m, d)] *)
Definition date_new (y m d : Z) : result Z :=
  _ ← raise_if (negb ((1 <=? y) && (y <=? 9999) && (1 <=? m) && (m <=? 12) && (1 <=? d) && (d <=? days_in_month y m)))
        (ValueError "out of range");
  Ok (days_before_year y + days_before_month y m + d - 1).

(** [value.date()] *)
Definition date_of_datetime (d : datetime) : Z := dt_local d / microseconds_per_day.

(** The Monday of the first ISO week of a year. *)
Definition iso_week1_monday (y : Z) : Z :=
  let first := days_before_year y in
  first - first mod 7 + (if 3 <? first mod 7 then 7 else 0).

Definition iso_week_ok (y w : Z) : bool :=
  (1 <=? w) && (w <? 53) ||
  (w =? 53) && ((days_before_year y mod 7 =? 3) || (days_before_year y mod 7 =? 2) && is_leap y).

Definition iso_date (y w d : Z) : result Z :=
  _ ← raise_if (negb ((1 <=? y) && (y <=? 9999) && iso_week_ok y w && (1 <=? d) && (d <=? 7)))
        (ValueError "Invalid isoformat string");
  let n := iso_week1_monday y + (w - 1) * 7 + (d - 1) in
  _ ← raise_if (negb ((0 <=? n) && (n <? max_days))) (ValueError "year is out of range");
  Ok n.

(** [n] digits at the front of a text, and the rest. *)
Definition parse_digits (n : nat) (l : list ascii) : result (Z * list ascii) :=
  _ ← raise_if (negb ((length (take n l) =? n)%nat && forallb is_digit (take n l)))
        (ValueError "Invalid isoformat string");
  Ok (digits_val (take n l), drop n l).

(** A separator where there was one before. *)
Definition parse_separator (sep : bool) (l : list ascii) : result (list ascii) :=
  if negb sep then Ok l else
  match l with
  | c :: l => if bool_decide (c = "-"%char) then Ok l else Raise (ValueError "Invalid isoformat string")
  | [] => Raise (ValueError "Invalid isoformat string")
  end.

(** The text has 7, 8 or 10 characters; what follows a complete date in them
    is not read. *)
Definition date_fromisoformat (s : string) : result Z :=
  let l := chars s in
  _ ← raise_if (negb (py_in (length l) [7; 8; 10]%nat)) (ValueError "Invalid isoformat string");
  '(y, l) ← parse_digits 4 l;
  let sep := match l with c :: _ => bool_decide (c = "-"%char) | [] => false end in
  let l := if sep then drop 1 l else l in
  match l with
  | "W"%char :: l =>
      '(w, l) ← parse_digits 2 l;
      match l with
      | [] => iso_date y w 1
      | _ => l ← parse_separator sep l; '(d, _) ← parse_digits 1 l; iso_date y w d
      end
  | _ =>
      '(m, l) ← parse_digits 2 l;
      l ← parse_separator sep l;
      '(d, _) ← parse_digits 2 l;
      date_new y m d
  end.

(** [datetime.fromisoformat(text.replace("Z", "+00:00"))] *)
Class IsoFormat := fromisoformat : string → result datetime.

(** The zone of a time: [+HH:MM], with seconds and microseconds where it has
    them. *)
Definition offset_text (offset : option Z) : list ascii :=
  match offset with
  | None => []
  | Some o =>
      let s := Z.abs o / 1000000 in
      let micro := Z.abs o mod 1000000 in
      (if o <? 0 then "-"%char else "+"%char) :: padded 2 (s / 3600) ++ ":"%char :: padded 2 (s / 60 mod 60) ++
      (if (s mod 60 =? 0) && (micro =? 0) then [] else
         ":"%char :: padded 2 (s mod 60) ++ (if micro =? 0 then [] else "."%char :: padded 6 micro))
  end.

(** [value.isoformat()] *)
Definition isoformat (d : datetime) : string :=
  of_chars (removelast (chars (isoformat_z (dt_local d))) ++ offset_text (dt_offset d))%list.
