(* ===== verification/Rules.v ===== *)
(** * The rule grammar: [domain/rules.py]

    A rule compares the value at a dotted path of a context with an expected
    value and answers TRUE, FALSE or UNRESOLVED; an expression joins such
    conditions by [all] or [any].  The values are Python's: numbers of several
    types, text, dates, sequences and mappings with text keys.  A binary float
    is finite and stands for its exact value; a NaN object's identity and
    signalling NaNs are not kept apart.  The theory: an expression is the
    three-valued conjunction or disjunction of its conditions, and a decided
    answer never changes when facts are added. *)
From S2P Require Import Prelude PyText PyNumber PyTime Hashing PyDate Enums.

Local Open Scope string_scope.
Local Open Scope Z_scope.

(** ** Values *)

Inductive seq_kind := SeqList | SeqTuple | SeqSet | SeqFrozenset.

#[export] Instance seq_kind_eq_dec : EqDecision seq_kind.
Proof. solve_decision. Defined.

Definition is_set (k : seq_kind) : bool := py_in k [SeqSet; SeqFrozenset].

Inductive rvalue :=
| RNone
| RBool (b : bool)
| RInt (n : Z)
| RDecimal (d : Decimal)
| RFloat (q : Q)
| RStr (s : string)
| RDate (day : Z)
| RDatetime (d : datetime)
| RSeq (kind : seq_kind) (items : list rvalue)
| RDict (entries : list (string * rvalue)).

(** A number as an extended rational: [None] is no number or a NaN. *)
Definition number_of (v : rvalue) : option (Q + bool) :=
  match v with
  | RBool b => Some (inl (if b then 1%Q else 0%Q))
  | RInt n => Some (inl (inject_Z n))
  | RFloat q => Some (inl q)
  | RDecimal (DFinite c e) => Some (inl (dec_value (DFinite c e)))
  | RDecimal (DInfinity negative) => Some (inr negative)
  | _ => None
  end.

Definition number_eqb (x y : Q + bool) : bool :=
  match x, y with
  | inl p, inl q => Qeq_bool p q
  | inr a, inr b => Bool.eqb a b
  | _, _ => false
  end.

(** [left == right] *)
Fixpoint py_eq (x y : rvalue) : bool :=
  match x, y with
  | RNone, RNone => true
  | RStr a, RStr b => bool_decide (a = b)
  | RDate a, RDate b => a =? b
  | RDatetime a, RDatetime b => dt_eqb a b
  | RSeq k l, RSeq k' l' =>
      if is_set k then
        is_set k' && (length l =? length l')%nat && forallb (λ a, existsb (py_eq a) l') l
      else
        bool_decide (k = k') &&
        (fix items (l l' : list rvalue) : bool :=
           match l, l' with
           | [], [] => true
           | a :: l, b :: l' => py_eq a b && items l l'
           | _, _ => false
           end) l l'
  | RDict l, RDict l' =>
      (length l =? length l')%nat &&
      forallb (λ p, match dict_get p.1 l' with Some b => py_eq p.2 b | None => false end) l
  | _, _ =>
      match number_of x, number_of y with
      | Some p, Some q => number_eqb p q
      | _, _ => false
      end
  end.

Fixpoint hashable (v : rvalue) : bool :=
  match v with
  | RSeq k l => match k with
                | SeqList | SeqSet => false
                | SeqTuple | SeqFrozenset => forallb hashable l
                end
  | RDict _ => false
  | _ => true
  end.

(** [expected in actual].  A set looks a set up as a frozenset. *)
Definition contains (actual expected : rvalue) : result bool :=
  match actual with
  | RStr text =>
      match expected with RStr s => Ok (str_contains s text) | _ => Raise TypeError end
  | RSeq k l =>
      _ ← raise_if (is_set k && negb (hashable expected ||
                      match expected with RSeq SeqSet _ => true | _ => false end)) TypeError;
      Ok (existsb (py_eq expected) l)
  | RDict entries =>
      _ ← raise_if (negb (hashable expected)) TypeError;
      Ok (match expected with RStr s => py_in s entries.*1 | _ => false end)
  | _ => Raise TypeError
  end.

(** ** Fields *)

Definition path_char (c : ascii) : bool := is_lower c || is_digit c || bool_decide (c = "_"%char).

(** Segments joined by dots, each a small letter followed by small letters,
    digits and underscores. *)
Definition _FIELD_PATH (path : string) : bool :=
  forallb (λ segment, match chars segment with c :: l => is_lower c && forallb path_char l | [] => false end)
    (split "."%char path).

(** The walk along the segments of a path. *)
Fixpoint walk (segments : list string) (current : rvalue) : result (option rvalue) :=
  match segments with
  | [] => Ok (Some current)
  | segment :: segments =>
      _ ← raise_if (is_empty segment || startswith segment "_")
            (DomainValidationError "private or empty field path segments are prohibited");
      match current with
      | RDict entries =>
          match dict_get segment entries with Some v => walk segments v | None => Ok None end
      | _ => Ok None
      end
  end.

(** [(found, value)], the value of a path that is not found being [None]. *)
Definition resolve_field (context : list (string * rvalue)) (path : string) : result (option rvalue) :=
  _ ← raise_if (negb (_FIELD_PATH path)) (DomainValidationError "rule field must be a valid dotted path");
  walk (split "."%char path) (RDict context).

(** ** Comparisons *)

Definition _as_decimal (v : rvalue) : result Decimal :=
  match v with
  | RDecimal d => Ok d
  | RInt n => Ok (DFinite n 0)
  | RStr s => decimal_of_string s
  | _ => Raise DecimalInvalidOperation
  end.

Definition _as_date (v : rvalue) : result Z :=
  match v with
  | RDatetime d => Ok (date_of_datetime d)
  | RDate n => Ok n
  | RStr s => date_fromisoformat s
  | _ => Raise (ValueError "")
  end.

Definition _collection (v : rvalue) : bool := match v with RSeq _ _ => true | _ => false end.

Definition items (v : rvalue) : list rvalue := match v with RSeq _ l => l | _ => [] end.

Definition _strict_equal (left right : rvalue) : bool :=
  match left, right with
  | RBool a, RBool b => Bool.eqb a b
  | RBool _, _ | _, RBool _ => false
  | _, _ => py_eq left right
  end.

(** Ordering decimals raises on a NaN. *)
Definition decimal_compare (a b : Decimal) : result comparison :=
  match a, b with
  | DNaN, _ | _, DNaN => Raise DecimalInvalidOperation
  | DInfinity s, DInfinity t => Ok (if Bool.eqb s t then Eq else if s then Lt else Gt)
  | DInfinity s, _ => Ok (if s then Lt else Gt)
  | _, DInfinity t => Ok (if t then Gt else Lt)
  | _, _ => Ok (dec_value a ?= dec_value b)%Q
  end.

Definition is_ge (c : comparison) : bool := match c with Lt => false | _ => true end.
Definition is_le (c : comparison) : bool := match c with Gt => false | _ => true end.
Definition is_gt (c : comparison) : bool := match c with Gt => true | _ => false end.
Definition is_lt (c : comparison) : bool := match c with Lt => true | _ => false end.

(** ** Conditions *)

Record RuleCondition := mkRuleCondition {
  rc_field : string;
  rc_operator : RuleOperator.t;
  rc_value : rvalue
}.

Definition RuleCondition_check (c : RuleCondition) : result RuleCondition :=
  _ ← resolve_field [] (rc_field c);
  _ ← raise_if (py_in (rc_operator c) [RuleOperator.IN_; RuleOperator.NOT_IN; RuleOperator.CONTAINS_ALL] &&
                negb (_collection (rc_value c)))
        (DomainValidationError (RuleOperator.value (rc_operator c) ++ " requires a list-like value"));
  _ ← raise_if (bool_decide (rc_operator c = RuleOperator.EXISTS) &&
                match rc_value c with RBool _ => false | _ => true end)
        (DomainValidationError "exists requires a boolean expected value");
  Ok c.

Definition _compare (c : RuleCondition) (actual : rvalue) : result bool :=
  let expected := rc_value c in
  let by_decimal (test : comparison → bool) :=
    left ← _as_decimal actual; right ← _as_decimal expected; o ← decimal_compare left right; Ok (test o) in
  let by_date (test : comparison → bool) :=
    left ← _as_date actual; right ← _as_date expected; Ok (test (left ?= right)) in
  match rc_operator c with
  | RuleOperator.EQ => Ok (_strict_equal actual expected)
  | RuleOperator.NEQ => Ok (negb (_strict_equal actual expected))
  | RuleOperator.IN_ => Ok (existsb (_strict_equal actual) (items expected))
  | RuleOperator.NOT_IN => Ok (negb (existsb (_strict_equal actual) (items expected)))
  | RuleOperator.CONTAINS => contains actual expected
  | RuleOperator.CONTAINS_ALL =>
      _ ← raise_if (negb (_collection actual)) TypeError;
      Ok (forallb (λ item, existsb (_strict_equal item) (items actual)) (items expected))
  | RuleOperator.GTE => by_decimal is_ge
  | RuleOperator.LTE => by_decimal is_le
  | RuleOperator.GT => by_decimal is_gt
  | RuleOperator.LT => by_decimal is_lt
  | RuleOperator.DATE_BEFORE => by_date is_lt
  | RuleOperator.DATE_ON_OR_BEFORE => by_date is_le
  | RuleOperator.DATE_AFTER => by_date is_gt
  | RuleOperator.DATE_ON_OR_AFTER => by_date is_ge
  | RuleOperator.EXISTS => Raise (DomainValidationError "unsupported operator")
  end.

Record RuleEvaluation := mkRuleEvaluation {
  re_value : TruthValue.t;
  re_unresolved_fields : list string
}.

#[export] Instance RuleEvaluation_eq_dec : EqDecision RuleEvaluation.
Proof. solve_decision. Defined.

(** [except (InvalidOperation, TypeError, ValueError)] *)
Definition comparison_error (e : exn) : bool :=
  match e with DecimalInvalidOperation | TypeError => true | _ => is_value_error e end.

Definition truth (b : bool) : TruthValue.t := if b then TruthValue.TRUE else TruthValue.FALSE.

Definition evaluate_condition (c : RuleCondition) (context : list (string * rvalue)) : result RuleEvaluation :=
  actual ← resolve_field context (rc_field c);
  let present := match actual with None | Some RNone => false | Some _ => true end in
  match rc_operator c with
  | RuleOperator.EXISTS =>
      Ok (mkRuleEvaluation (truth (match rc_value c with RBool b => Bool.eqb present b | _ => false end)) [])
  | _ =>
      match actual with
      | None | Some RNone => Ok (mkRuleEvaluation TruthValue.UNRESOLVED [rc_field c])
      | Some v =>
          match _compare c v with
          | Ok matched => Ok (mkRuleEvaluation (truth matched) [])
          | Raise e => if comparison_error e then Ok (mkRuleEvaluation TruthValue.UNRESOLVED [rc_field c])
                       else Raise e
          end
      end
  end.

(** ** Expressions *)

Inductive rule_mode := ModeAll | ModeAny.

#[export] Instance rule_mode_eq_dec : EqDecision rule_mode.
Proof. solve_decision. Defined.

Record RuleExpression := mkRuleExpression {
  rx_conditions : list RuleCondition;
  rx_mode : rule_mode
}.

Definition RuleExpression_check (x : RuleExpression) : result RuleExpression :=
  _ ← raise_if (bool_decide (length (rx_conditions x) = 0%nat))
        (DomainValidationError "a rule expression needs at least one condition");
  Ok x.

Definition evaluate_expression (x : RuleExpression) (context : list (string * rvalue)) : result RuleEvaluation :=
  results ← mapM (λ c, evaluate_condition c context) (rx_conditions x);
  let unresolved := sorted_set (r ← results; re_unresolved_fields r) in
  let values := re_value <$> results in
  let has v := py_in v values in
  match rx_mode x with
  | ModeAll =>
      if has TruthValue.FALSE then Ok (mkRuleEvaluation TruthValue.FALSE unresolved)
      else if has TruthValue.UNRESOLVED then Ok (mkRuleEvaluation TruthValue.UNRESOLVED unresolved)
      else Ok (mkRuleEvaluation TruthValue.TRUE [])
  | ModeAny =>
      if has TruthValue.TRUE then Ok (mkRuleEvaluation TruthValue.TRUE unresolved)
      else if has TruthValue.UNRESOLVED then Ok (mkRuleEvaluation TruthValue.UNRESOLVED unresolved)
      else Ok (mkRuleEvaluation TruthValue.FALSE [])
  end.

(** ** Evaluation never fails *)

Lemma comparison_error_decimal_compare a b e : decimal_compare a b = Raise e → comparison_error e = true.
Proof. destruct a, b; cbn; intros [=<-]; done. Qed.

Lemma decimal_of_string_error s e : decimal_of_string s = Raise e → e = DecimalInvalidOperation.
Proof.
  unfold decimal_of_string. repeat (case_match; try done); try congruence.
Qed.

Lemma as_decimal_error v e : _as_decimal v = Raise e → comparison_error e = true.
Proof. destruct v; cbn; try (by intros [=<-]). by intros ->%decimal_of_string_error. Qed.

(** Whatever fails inside reading a date is a [ValueError]. *)
Definition value_errors {A} (m : result A) : Prop := ∀ e, m = Raise e → is_value_error e = true.

Lemma value_errors_bind {A B} (m : result A) (f : A → result B) :
  value_errors m → (∀ a, value_errors (f a)) → value_errors (mbind f m).
Proof. intros Hm Hf e. destruct m as [a|e']; cbn; [apply Hf|]. intros [=<-]. by apply Hm. Qed.
Lemma value_errors_Ok {A} (a : A) : value_errors (Ok a).
Proof. intros e [=]. Qed.
Lemma value_errors_raise_if c msg : value_errors (raise_if c (ValueError msg)).
Proof. intros e. destruct c; cbn; [by intros [=<-]|intros [=]]. Qed.
Create HintDb value_error.
#[local] Hint Resolve value_errors_Ok value_errors_raise_if value_errors_bind : value_error.

Lemma iso_date_errors y w d : value_errors (iso_date y w d).
Proof. unfold iso_date. repeat (apply value_errors_bind; [|intros]); eauto with value_error. Qed.
Lemma date_new_errors y m d : value_errors (date_new y m d).
Proof. unfold date_new. eauto with value_error. Qed.
Lemma parse_digits_errors n l : value_errors (parse_digits n l).
Proof. unfold parse_digits. eauto with value_error. Qed.
Lemma parse_separator_errors b l : value_errors (parse_separator b l).
Proof. intros e. unfold parse_separator. repeat (case_match; try done); by intros [=<-]. Qed.
#[local] Hint Resolve iso_date_errors date_new_errors parse_digits_errors parse_separator_errors : value_error.

Lemma date_fromisoformat_errors s : value_errors (date_fromisoformat s).
Proof.
  unfold date_fromisoformat. apply value_errors_bind; [auto with value_error|intros _].
  apply value_errors_bind; [auto with value_error|intros [y l]].
  set (l' := if _ : bool then _ else _). clearbody l'. cbn zeta.
  assert (∀ l b, value_errors ('(m, l0) ← parse_digits 2 l; l1 ← parse_separator b l0;
            '(d, _) ← parse_digits 2 l1; date_new y m d)) as Hm.
  { intros. repeat (apply value_errors_bind; [auto with value_error|intros]; repeat case_match); auto with value_error. }
  assert (∀ l b, value_errors ('(w, l) ← parse_digits 2 l;
      match l with [] => iso_date y w 1 | _ => l ← parse_separator b l; '(d, _) ← parse_digits 1 l; iso_date y w d end)) as Hw.
  { intros. apply value_errors_bind; [auto with value_error|intros [w [|c r]]]; [auto with value_error|].
    repeat (apply value_errors_bind; [auto with value_error|intros]; repeat case_match); auto with value_error. }
  repeat case_match; solve [apply Hm|apply Hw].
Qed.

Lemma as_date_error v e : _as_date v = Raise e → comparison_error e = true.
Proof.
  assert (is_value_error e = true → comparison_error e = true) as Hv by (by destruct e).
  destruct v; cbn; try (by intros [=<-]). intros H. apply Hv. by eapply date_fromisoformat_errors.
Qed.

Lemma contains_error a v e : contains a v = Raise e → comparison_error e = true.
Proof.
  destruct a; cbn; try (by intros [=<-]).
  - destruct v; try (by intros [=<-]); done.
  - by destruct (_ && _); [intros [=<-]|].
  - by destruct (negb _); [intros [=<-]|].
Qed.

Lemma compare_error c v e :
  rc_operator c ≠ RuleOperator.EXISTS → _compare c v = Raise e → comparison_error e = true.
Proof.
  intros Hx. unfold _compare. destruct (rc_operator c); try done.
  all: try (by apply contains_error).
  all: try (destruct (negb _); [by intros [=<-]|done]).
  all: cbn beta zeta; repeat match goal with
       | |- context [_as_decimal ?v] => destruct (_as_decimal v) eqn:?; cbn; [|intros [=<-]; by eapply as_decimal_error]
       | |- context [_as_date ?v] => destruct (_as_date v) eqn:?; cbn; [|intros [=<-]; by eapply as_date_error]
       end; try done.
  all: match goal with |- context [decimal_compare ?a ?b] => destruct (decimal_compare a b) eqn:E end; cbn;
    [done|intros [=<-]; by eapply comparison_error_decimal_compare].
Qed.

(** A valid path has no private or empty segment. *)
Lemma walk_total segments v :
  forallb (λ s, match chars s with c :: l => is_lower c && forallb path_char l | [] => false end) segments = true →
  ∃ o, walk segments v = Ok o.
Proof.
  revert v. induction segments as [|s segments IH]; [cbn; eauto|]. cbn [walk forallb]. intros v [Hs Hl]%andb_true_iff.
  assert (is_empty s || startswith s "_" = false) as ->.
  { destruct s as [|c s]; [done|]. cbn in Hs |- *. apply andb_true_iff in Hs as [Hc _].
    unfold startswith, chars. cbn. unfold is_empty. rewrite bool_decide_false by done. cbn.
    rewrite bool_decide_false; [done|]. intros <-. by vm_compute in Hc. }
  cbn [raise_if mbind result_bind]. destruct v; eauto. destruct (dict_get s entries); eauto.
Qed.

Lemma resolve_field_total context context' path o :
  resolve_field context path = Ok o → ∃ o', resolve_field context' path = Ok o'.
Proof.
  unfold resolve_field. intros (_ & Hp%raise_if_Ok & _)%bind_Ok. rewrite Hp. cbn.
  apply negb_false_iff in Hp. by apply walk_total.
Qed.

(** ** Three-valued logic *)

Definition kleene_and (a b : TruthValue.t) : TruthValue.t :=
  match a, b with
  | TruthValue.FALSE, _ | _, TruthValue.FALSE => TruthValue.FALSE
  | TruthValue.TRUE, TruthValue.TRUE => TruthValue.TRUE
  | _, _ => TruthValue.UNRESOLVED
  end.
Definition kleene_or (a b : TruthValue.t) : TruthValue.t :=
  match a, b with
  | TruthValue.TRUE, _ | _, TruthValue.TRUE => TruthValue.TRUE
  | TruthValue.FALSE, TruthValue.FALSE => TruthValue.FALSE
  | _, _ => TruthValue.UNRESOLVED
  end.
Definition kleene (mode : rule_mode) (l : list TruthValue.t) : TruthValue.t :=
  match mode with
  | ModeAll => foldr kleene_and TruthValue.TRUE l
  | ModeAny => foldr kleene_or TruthValue.FALSE l
  end.

Definition rule_truths : list TruthValue.t := [TruthValue.TRUE; TruthValue.FALSE; TruthValue.UNRESOLVED].

(** What a condition says about a value: it is unresolved when the value is
    missing or cannot be compared. *)
Definition condition_truth (c : RuleCondition) (actual : option rvalue) : TruthValue.t :=
  let present := match actual with None | Some RNone => false | Some _ => true end in
  match rc_operator c with
  | RuleOperator.EXISTS => truth (match rc_value c with RBool b => Bool.eqb present b | _ => false end)
  | _ =>
      match actual with
      | None | Some RNone => TruthValue.UNRESOLVED
      | Some v => match _compare c v with Ok matched => truth matched | Raise _ => TruthValue.UNRESOLVED end
      end
  end.

(** The value at the field of a condition. *)
Definition fact (context : list (string * rvalue)) (c : RuleCondition) : option rvalue :=
  match resolve_field context (rc_field c) with Ok o => o | Raise _ => None end.

Definition outcome_of (context : list (string * rvalue)) (c : RuleCondition) : TruthValue.t :=
  condition_truth c (fact context c).

Lemma truth_cases b : truth b ∈ rule_truths ∧ truth b ≠ TruthValue.UNRESOLVED.
Proof. unfold rule_truths. destruct b; cbn; split; first [set_solver|done]. Qed.

Lemma outcome_of_cases context c : outcome_of context c ∈ rule_truths.
Proof.
  unfold outcome_of, condition_truth, rule_truths.
  repeat case_match; first [apply truth_cases|set_solver].
Qed.

Definition unresolved_fields (context : list (string * rvalue)) (c : RuleCondition) : list string :=
  if bool_decide (outcome_of context c = TruthValue.UNRESOLVED) then [rc_field c] else [].

Lemma truth_resolved b (l : list string) :
  (if bool_decide (truth b = TruthValue.UNRESOLVED) then l else []) = [].
Proof. by rewrite bool_decide_false by apply truth_cases. Qed.

Lemma evaluate_condition_spec context c :
  RuleCondition_check c = Ok c →
  evaluate_condition c context = Ok (mkRuleEvaluation (outcome_of context c) (unresolved_fields context c)).
Proof.
  intros (o & Ho & _)%bind_Ok. unfold evaluate_condition, unresolved_fields, outcome_of, fact, condition_truth.
  destruct (resolve_field_total _ context _ _ Ho) as [o' Ho']. rewrite Ho'. cbn.
  destruct (decide (rc_operator c = RuleOperator.EXISTS)) as [Hx|Hx];
    [rewrite Hx, truth_resolved; done|].
  destruct (rc_operator c) eqn:Eo; try done.
  all: destruct o' as [v|]; [|done]; destruct v; try done.
  all: match goal with |- context [_compare ?k ?v] => destruct (_compare k v) eqn:E end;
    [by rewrite truth_resolved|].
  all: erewrite compare_error; [reflexivity| |exact E]; by rewrite Eo.
Qed.

Lemma mapM_evaluate context l :
  Forall (λ c, RuleCondition_check c = Ok c) l →
  mapM (λ c, evaluate_condition c context) l =
    Ok ((λ c, mkRuleEvaluation (outcome_of context c) (unresolved_fields context c)) <$> l).
Proof.
  induction 1 as [|c l Hc _ IH]; [done|].
  change (mapM (λ c, evaluate_condition c context) (c :: l)) with
    (y ← evaluate_condition c context; k ← mapM (λ c, evaluate_condition c context) l; mret (y :: k)).
  by rewrite evaluate_condition_spec, IH.
Qed.

Lemma kleene_all_spec l :
  Forall (λ v, v ∈ rule_truths) l →
  kleene ModeAll l = if py_in TruthValue.FALSE l then TruthValue.FALSE
                     else if py_in TruthValue.UNRESOLVED l then TruthValue.UNRESOLVED else TruthValue.TRUE.
Proof.
  unfold py_in. induction 1 as [|v l Hv _ IH]; [done|]. cbn in *. rewrite IH.
  unfold rule_truths in Hv. destruct v; try set_solver.
  all: repeat case_bool_decide; try done; set_solver.
Qed.
Lemma kleene_any_spec l :
  Forall (λ v, v ∈ rule_truths) l →
  kleene ModeAny l = if py_in TruthValue.TRUE l then TruthValue.TRUE
                     else if py_in TruthValue.UNRESOLVED l then TruthValue.UNRESOLVED else TruthValue.FALSE.
Proof.
  unfold py_in. induction 1 as [|v l Hv _ IH]; [done|]. cbn in *. rewrite IH.
  unfold rule_truths in Hv. destruct v; try set_solver.
  all: repeat case_bool_decide; try done; set_solver.
Qed.

Lemma kleene_not_unknown mode l : kleene mode l ≠ TruthValue.UNKNOWN.
Proof. destruct mode, l as [|v l]; cbn; try done; destruct v; try done; by destruct (foldr _ _ l). Qed.
Lemma kleene_not_conflict mode l : kleene mode l ≠ TruthValue.CONFLICT.
Proof. destruct mode, l as [|v l]; cbn; try done; destruct v; try done; by destruct (foldr _ _ l). Qed.

(** ** What expressions mean *)

(** A constructed expression. *)
Definition constructed_rule (x : RuleExpression) : Prop :=
  RuleExpression_check x = Ok x ∧ Forall (λ c, RuleCondition_check c = Ok c) (rx_conditions x).

(** The fields an expression reports as unresolved. *)
Definition open_fields (x : RuleExpression) (context : list (string * rvalue)) : list string :=
  sorted_set (c ← rx_conditions x; unresolved_fields context c).

Lemma evaluate_expression_spec x context :
  constructed_rule x →
  ∃ fields, evaluate_expression x context =
    Ok (mkRuleEvaluation (kleene (rx_mode x) (outcome_of context <$> rx_conditions x)) fields) ∧
    (fields = open_fields x context ∨ fields = [] ∧
       kleene (rx_mode x) (outcome_of context <$> rx_conditions x) ≠ TruthValue.UNRESOLVED).
Proof.
  intros [_ Hc]. unfold evaluate_expression. rewrite (mapM_evaluate context _ Hc).
  change (mbind ?f (Ok ?r)) with (f r). cbv beta zeta.
  assert (re_value <$> ((λ c, mkRuleEvaluation (outcome_of context c) (unresolved_fields context c)) <$> rx_conditions x)
          = outcome_of context <$> rx_conditions x) as -> by (by rewrite <- list_fmap_compose).
  assert ((r ← (λ c, mkRuleEvaluation (outcome_of context c) (unresolved_fields context c)) <$> rx_conditions x;
           re_unresolved_fields r) = (c ← rx_conditions x; unresolved_fields context c)) as ->
    by (induction (rx_conditions x) as [|c l IH]; [done|]; cbn; inversion_clear Hc; by rewrite IH).
  fold (open_fields x context).
  set (l := outcome_of context <$> rx_conditions x).
  assert (Forall (λ v, v ∈ rule_truths) l) as Hl by (apply Forall_fmap, Forall_forall; intros; apply outcome_of_cases).
  destruct (rx_mode x); [rewrite kleene_all_spec by done|rewrite kleene_any_spec by done].
  all: destruct (py_in _ l); [by eauto|]; destruct (py_in _ l); eauto.
Qed.

(** A rule is three-valued logic and never fails.  Evaluating a constructed
    expression on any context succeeds; its value is the strong Kleene
    conjunction ([all]) or disjunction ([any]) of its conditions, of which one
    is unresolved exactly when its value is missing or cannot be compared; and
    an unresolved answer names the fields of its unresolved conditions. *)
Theorem evaluation_is_kleene (x : RuleExpression) (context : list (string * rvalue)) :
  constructed_rule x →
  ∃ e, evaluate_expression x context = Ok e ∧
    re_value e = kleene (rx_mode x) (outcome_of context <$> rx_conditions x) ∧
    (∀ c, c ∈ rx_conditions x → rc_operator c ≠ RuleOperator.EXISTS →
       (outcome_of context c = TruthValue.UNRESOLVED ↔
          fact context c = None ∨ fact context c = Some RNone ∨
          ∃ v e', fact context c = Some v ∧ _compare c v = Raise e')) ∧
    (re_value e = TruthValue.UNRESOLVED → ∀ f, f ∈ re_unresolved_fields e ↔
       ∃ c, c ∈ rx_conditions x ∧ rc_field c = f ∧ outcome_of context c = TruthValue.UNRESOLVED).
Proof.
  intros Hx. destruct (evaluate_expression_spec x context Hx) as (fields & He & Hf).
  eexists. split_and!; [exact He|done| |].
  - intros c _ Hop. unfold outcome_of, condition_truth. split.
    + destruct (rc_operator c); try done; repeat case_match; try (eauto 6; fail); intros Ht; exfalso; by eapply truth_cases.
    + intros [->|[->|(v & e & -> & Ee)]]; [by destruct (rc_operator c)..|].
      destruct (rc_operator c); try done; rewrite Ee; by destruct v.
  - cbn. intros Hu f. destruct Hf as [->|[_ Hn]]; [|done]. unfold open_fields.
    rewrite elem_of_sorted_set, list_elem_of_bind. unfold unresolved_fields. split.
    + intros (c & Hc & Hin). case_bool_decide; [|set_solver]. exists c. set_solver.
    + intros (c & Hc & <- & Hu'). exists c. rewrite bool_decide_true by done. set_solver.
Qed.

Lemma kleene_all_true l : kleene ModeAll l = TruthValue.TRUE ↔ Forall (eq TruthValue.TRUE) l.
Proof.
  induction l as [|v l IH]; cbn in *; [done|]. rewrite Forall_cons, <- IH.
  destruct v, (foldr kleene_and _ _); cbn; naive_solver.
Qed.
Lemma kleene_all_false l : kleene ModeAll l = TruthValue.FALSE ↔ TruthValue.FALSE ∈ l.
Proof.
  induction l as [|v l IH]; cbn in *; [split; [done|set_solver]|]. rewrite elem_of_cons, <- IH.
  destruct v, (foldr kleene_and _ _); cbn; naive_solver.
Qed.
Lemma kleene_any_true l : kleene ModeAny l = TruthValue.TRUE ↔ TruthValue.TRUE ∈ l.
Proof.
  induction l as [|v l IH]; cbn in *; [split; [done|set_solver]|]. rewrite elem_of_cons, <- IH.
  destruct v, (foldr kleene_or _ _); cbn; naive_solver.
Qed.
Lemma kleene_any_false l : kleene ModeAny l = TruthValue.FALSE ↔ Forall (eq TruthValue.FALSE) l.
Proof.
  induction l as [|v l IH]; cbn in *; [done|]. rewrite Forall_cons, <- IH.
  destruct v, (foldr kleene_or _ _); cbn; naive_solver.
Qed.

(** A list of answers refines another when every decided answer is kept. *)
Definition keeps_decided : relation (list TruthValue.t) :=
  Forall2 (λ a b, a ≠ TruthValue.UNRESOLVED → a = b).

Lemma kleene_mono mode l k :
  keeps_decided l k → kleene mode l ∈ [TruthValue.TRUE; TruthValue.FALSE] → kleene mode k = kleene mode l.
Proof.
  intros Hlk Hd.
  assert (∀ v, v ≠ TruthValue.UNRESOLVED → v ∈ l → v ∈ k) as Hin.
  { intros v Hv (i & Hi)%list_elem_of_lookup. destruct (Forall2_lookup_l _ _ _ _ _ Hlk Hi) as (y & Hy & Hvy).
    apply list_elem_of_lookup. exists i. by rewrite Hvy. }
  assert (∀ v, v ≠ TruthValue.UNRESOLVED → Forall (eq v) l → Forall (eq v) k) as Hall.
  { intros v Hv Hl. apply Forall_forall. intros y (i & Hi)%list_elem_of_lookup.
    destruct (Forall2_lookup_r _ _ _ _ _ Hlk Hi) as (z & Hz & Hzy).
    pose proof (proj1 (Forall_lookup _ _) Hl _ _ Hz). naive_solver. }
  apply elem_of_cons in Hd as [E|Hd%list_elem_of_singleton]; [rewrite E|rewrite Hd; rename Hd into E]; destruct mode.
  - apply kleene_all_true, Hall; [done|]. by apply kleene_all_true.
  - apply kleene_any_true, Hin; [done|]. by apply kleene_any_true.
  - apply kleene_all_false, Hin; [done|]. by apply kleene_all_false.
  - apply kleene_any_false, Hall; [done|]. by apply kleene_any_false.
Qed.

Lemma outcome_stays context context' c :
  rc_operator c ≠ RuleOperator.EXISTS →
  (∀ v, fact context c = Some v → v ≠ RNone → fact context' c = Some v) →
  outcome_of context c ≠ TruthValue.UNRESOLVED → outcome_of context c = outcome_of context' c.
Proof.
  intros Hop Hf. unfold outcome_of.
  assert (fact context c = None ∨ fact context c = Some RNone ∨ fact context c = fact context' c) as [ -> | [ -> | -> ] ].
  { destruct (fact context c) as [v|]; [|by left]. right.
    assert (v = RNone ∨ v ≠ RNone) as [->|Hn] by (destruct v; first [by left|by right]); [by left|right].
    symmetry. by apply Hf. }
  all: unfold condition_truth; try done.
  all: destruct (rc_operator c); done.
Qed.

(** New facts never overturn a decided rule.  When a context only adds
    values to the fields of a constructed rule (none of its conditions asks
    whether a field exists) and the rule was TRUE or FALSE before, it still
    is. *)
Theorem decided_rules_stay (x : RuleExpression) (context context' : list (string * rvalue)) (e : RuleEvaluation) :
  constructed_rule x →
  (∀ c, c ∈ rx_conditions x → rc_operator c ≠ RuleOperator.EXISTS ∧
     ∀ v, fact context c = Some v → v ≠ RNone → fact context' c = Some v) →
  evaluate_expression x context = Ok e → re_value e ≠ TruthValue.UNRESOLVED →
  ∃ e', evaluate_expression x context' = Ok e' ∧ re_value e' = re_value e.
Proof.
  intros Hx Hc He Hu.
  destruct (evaluate_expression_spec x context Hx) as (fs & He1 & _).
  destruct (evaluate_expression_spec x context' Hx) as (fs' & He2 & _).
  rewrite He in He1. injection He1 as ->. eexists. split; [exact He2|]. cbn in *. apply kleene_mono.
  - apply Forall2_fmap, Forall2_same_length_lookup. split; [done|].
    intros i c c' Hi Hi'. rewrite Hi in Hi'. injection Hi' as <-. apply list_elem_of_lookup_2 in Hi.
    destruct (Hc c Hi) as [Hop Hf]. by apply outcome_stays.
  - assert (kleene (rx_mode x) (outcome_of context <$> rx_conditions x) ∈ rule_truths) as Hr.
    { destruct (rx_mode x); [rewrite kleene_all_spec|rewrite kleene_any_spec];
        try (apply Forall_fmap, Forall_forall; intros; apply outcome_of_cases);
        unfold rule_truths; repeat case_match; set_solver. }
    unfold rule_truths in Hr. set_solver.
Qed.

(** ** Examples *)

Definition ex_rule : RuleExpression :=
  mkRuleExpression
    [mkRuleCondition "team.seats" RuleOperator.LTE (RInt 50);
     mkRuleCondition "data.region" RuleOperator.IN_ (RSeq SeqList [RStr "EU"; RStr "UK"]);
     mkRuleCondition "renewal" RuleOperator.DATE_BEFORE (RStr "2027-01-01")] ModeAll.
Definition ex_context (seats : rvalue) : list (string * rvalue) :=
  [("team", RDict [("seats", seats)]); ("renewal", RStr "2026-06-30")].
Definition ex_context' : list (string * rvalue) := ("data", RDict [("region", RStr "EU")]) :: ex_context (RStr "60.5").

Lemma ex_rule_constructed : constructed_rule ex_rule.
Proof. split; [done|]. repeat constructor. Qed.

Lemma evaluation_is_kleene_witness :
  ∃ e, evaluate_expression ex_rule (ex_context (RInt 10)) = Ok e ∧
    re_value e = TruthValue.UNRESOLVED ∧ re_unresolved_fields e = ["data.region"].
Proof.
  destruct (evaluation_is_kleene ex_rule (ex_context (RInt 10)) ex_rule_constructed) as (e & He & Hv & _).
  exists e. vm_compute in He. injection He as <-. done.
Defined.

Lemma decided_rules_stay_witness :
  ∃ e', evaluate_expression ex_rule ex_context' = Ok e' ∧ re_value e' = TruthValue.FALSE.
Proof.
  apply (decided_rules_stay ex_rule (ex_context (RStr "60.5")) ex_context'
           (mkRuleEvaluation TruthValue.FALSE ["data.region"]) ex_rule_constructed); [|by vm_compute|done].
  intros c Hc. unfold ex_rule in Hc. cbn in Hc.
  repeat (apply elem_of_cons in Hc as [->|Hc]; [split; [done|]; by vm_compute|]). by apply not_elem_of_nil in Hc.
Defined.

(** Inside sequences and under [contains], a boolean still equals a number. *)
Lemma nested_booleans_are_numbers :
  _strict_equal (RSeq SeqList [RBool true]) (RSeq SeqList [RInt 1]) = true ∧
  contains (RSeq SeqList [RBool true]) (RInt 1) = Ok true ∧ _strict_equal (RBool true) (RInt 1) = false.
Proof. by vm_compute. Qed.
