(* ===== verification/Candidates.v ===== *)
(** * The request engine: [decision_engine/models.py], [evaluation.py],
    [ranking.py] and [counterfactual.py]

    Candidates are evaluated against the buyer's rules and the seller's
    published anti-fit rules, each on its own context; plans of eligible
    candidates are ranked by one lexicographic key; two rankings are compared
    in a counterfactual.  The theory says exactly which candidates are eligible
    and whose rule a rejection names, and that a ranking is the one sorted
    arrangement of the eligible plans. *)
From S2P Require Import Prelude PyText PyNumber Enums Money Rules.

Local Open Scope string_scope.
Local Open Scope Z_scope.

#[local] Notation "a ≟ b" := (bool_decide (a = b)) (at level 70).

(** ** Values *)

Definition _decimal (value : money_input) (name : string) : result Decimal :=
  _ ← raise_if (match value with MFloat | MBool => true | _ => false end)
        (DomainValidationError (name ++ " must use exact decimal input"));
  d ← to_decimal value (DomainValidationError ("invalid " ++ name));
  _ ← raise_if (negb (dec_is_finite d)) (DomainValidationError (name ++ " must be finite"));
  Ok d.

Record BuyerConstraint := mkBuyerConstraint {
  bk_rule_id : string;
  bk_expression : RuleExpression;
  bk_reason_code : string;
  bk_display_reason : string;
  bk_exception_allowed : bool
}.

Definition BuyerConstraint_check (c : BuyerConstraint) : result BuyerConstraint :=
  _ ← require_id (bk_rule_id c) "rule_id";
  _ ← raise_if (is_empty (bk_reason_code c) || is_empty (bk_display_reason c))
        (DomainValidationError "buyer constraint reason is required");
  Ok c.

Record SellerAntiFitRule := mkSellerAntiFitRule {
  sa_rule_id : string;
  sa_expression : RuleExpression;
  sa_reason_code : string;
  sa_display_reason : string;
  sa_evidence_claim_ids : list string
}.

Definition SellerAntiFitRule_check (c : SellerAntiFitRule) : result SellerAntiFitRule :=
  _ ← require_id (sa_rule_id c) "rule_id";
  _ ← raise_if (is_empty (sa_reason_code c) || is_empty (sa_display_reason c))
        (DomainValidationError "seller anti-fit reason is required");
  _ ← raise_if (bool_decide (sa_evidence_claim_ids c = []))
        (DomainValidationError "published hard anti-fit needs evidence claims");
  _ ← mapM (λ id, require_id id "evidence_claim_id") (sa_evidence_claim_ids c);
  Ok c.

Record PreferenceResult := mkPreferenceResult {
  pr_criterion_id : string;
  pr_weight : Z;
  pr_satisfaction : Decimal;
  pr_evidence_ids : list string;
  pr_unknown : bool
}.

Definition _SATISFACTION_VALUES : list Decimal :=
  [DFinite 0 0; DFinite 25 (-2); DFinite 5 (-1); DFinite 75 (-2); DFinite 1 0].

Definition PreferenceResult_new (criterion_id : string) (weight : Z) (satisfaction : money_input)
    (evidence_ids : list string) (unknown : bool) : result PreferenceResult :=
  _ ← require_id criterion_id "criterion_id";
  _ ← raise_if (negb ((1 <=? weight) && (weight <=? 5)))
        (DomainValidationError "preference weight must be an integer from 1 to 5");
  exact ← _decimal satisfaction "satisfaction";
  _ ← raise_if (negb (existsb (dec_eqb exact) _SATISFACTION_VALUES))
        (DomainValidationError "satisfaction must be one of 0, .25, .5, .75, 1");
  _ ← raise_if (unknown && negb (dec_eqb exact (DFinite 0 0)))
        (DomainValidationError "unknown evidence must contribute zero");
  Ok (mkPreferenceResult criterion_id weight exact evidence_ids unknown).

(** The score as an exact fraction in percent. *)
Definition exact_preference_score (results : list PreferenceResult) : result Q :=
  _ ← raise_if (bool_decide (length results = 0%nat))
        (DomainValidationError "an eligible plan needs at least one preference criterion");
  let numerator := foldr (λ r acc, (inject_Z (pr_weight r) * dec_value (pr_satisfaction r) + acc)%Q) 0%Q results in
  let denominator := foldr (λ r acc, pr_weight r + acc) 0 results in
  _ ← raise_if (denominator =? 0) ZeroDivisionError;
  Ok (100 * numerator / inject_Z denominator)%Q.

Record CandidateDefinition := mkCandidateDefinition {
  cd_candidate_id : string;
  cd_name : string;
  cd_pack_id : string;
  cd_pack_version : Z;
  cd_available : bool;
  cd_evidence_block : option CandidateStatus.t;
  cd_buyer_constraints : list BuyerConstraint;
  cd_seller_anti_fit_rules : list SellerAntiFitRule;
  cd_approved_exception_rule_ids : list string;
  cd_dependency_state : TruthValue.t;
  cd_preference_results : list PreferenceResult;
  cd_seller_positioning : option string
}.

Definition CandidateDefinition_check (c : CandidateDefinition) : result CandidateDefinition :=
  _ ← require_id (cd_candidate_id c) "candidate_id";
  _ ← require_id (cd_pack_id c) "pack_id";
  _ ← raise_if (is_empty (cd_name c) || (cd_pack_version c <? 1))
        (DomainValidationError "candidate name and positive Pack version are required");
  _ ← raise_if (negb (py_in (cd_evidence_block c)
          [None; Some CandidateStatus.STALE_EVIDENCE; Some CandidateStatus.INSUFFICIENT_EVIDENCE;
           Some CandidateStatus.CONFLICTING_EVIDENCE]))
        (DomainValidationError "evidence_block must be an evidence blocking status");
  _ ← raise_if (negb (py_subset (cd_approved_exception_rule_ids c) (bk_rule_id <$> cd_buyer_constraints c)))
        (DomainValidationError "an exception references an unknown buyer constraint");
  Ok c.

Record CandidateResult := mkCandidateResult {
  ce_candidate_id : string;
  ce_name : string;
  ce_pack_id : string;
  ce_pack_version : Z;
  ce_status : CandidateStatus.t;
  ce_reason_code : option string;
  ce_reason : string;
  ce_preference_results : list PreferenceResult;
  ce_buyer_rule_id : option string;
  ce_seller_rule_id : option string;
  ce_evidence_claim_ids : list string;
  ce_unresolved_fields : list string;
  ce_seller_positioning : option string
}.

(** A missing or empty identifier. *)
Definition no_text (o : option string) : bool := match o with None => true | Some s => is_empty s end.

Definition CandidateResult_check (r : CandidateResult) : result CandidateResult :=
  _ ← raise_if ((ce_status r ≟ CandidateStatus.SIRA_INELIGIBLE) && no_text (ce_buyer_rule_id r))
        (DomainValidationError "SIRA_INELIGIBLE must identify the buyer rule");
  _ ← raise_if ((ce_status r ≟ CandidateStatus.SEIL_PASS) && no_text (ce_seller_rule_id r))
        (DomainValidationError "SEIL_PASS must identify the published seller rule");
  _ ← raise_if (negb (no_text (ce_buyer_rule_id r)) && negb (no_text (ce_seller_rule_id r)))
        (DomainValidationError "buyer and seller rejection provenance cannot be conflated");
  Ok (mkCandidateResult (ce_candidate_id r) (ce_name r) (ce_pack_id r) (ce_pack_version r) (ce_status r)
        (ce_reason_code r) (ce_reason r) (ce_preference_results r) (ce_buyer_rule_id r) (ce_seller_rule_id r)
        (ce_evidence_claim_ids r) (sorted_set (ce_unresolved_fields r)) (ce_seller_positioning r)).

(** ** Evaluating a candidate *)

Definition facts : Type := list (string * rvalue).

(** What a result says beyond the candidate. *)
Definition _result (c : CandidateDefinition) (status : CandidateStatus.t) (reason_code : option string) (reason : string)
    (buyer_rule_id seller_rule_id : option string) (evidence_claim_ids unresolved_fields : list string)
  : result CandidateResult :=
  CandidateResult_check (mkCandidateResult (cd_candidate_id c) (cd_name c) (cd_pack_id c) (cd_pack_version c) status
    reason_code reason (cd_preference_results c) buyer_rule_id seller_rule_id evidence_claim_ids unresolved_fields
    (cd_seller_positioning c)).

Definition has_exception (c : CandidateDefinition) (k : BuyerConstraint) : bool :=
  bk_exception_allowed k && py_in (bk_rule_id k) (cd_approved_exception_rule_ids c).

(** The loop over the buyer's constraints: a result that ends it, or whether an
    exception was used. *)
Fixpoint check_constraints (c : CandidateDefinition) (context : facts) (l : list BuyerConstraint)
    (exception_used : bool) : result (CandidateResult + bool) :=
  match l with
  | [] => Ok (inr exception_used)
  | k :: l =>
      e ← evaluate_expression (bk_expression k) context;
      match re_value e with
      | TruthValue.UNRESOLVED =>
          r ← _result c CandidateStatus.INSUFFICIENT_EVIDENCE (Some "BUYER_RULE_UNRESOLVED")
                "A required buyer-policy fact is unresolved" (Some (bk_rule_id k)) None [] (re_unresolved_fields e);
          Ok (inl r)
      | TruthValue.FALSE =>
          if has_exception c k then check_constraints c context l true
          else
            r ← _result c CandidateStatus.SIRA_INELIGIBLE (Some (bk_reason_code k)) (bk_display_reason k)
                  (Some (bk_rule_id k)) None [] [];
            Ok (inl r)
      | _ => check_constraints c context l exception_used
      end
  end.

(** The loop over the seller's rules. *)
Fixpoint check_anti_fit (c : CandidateDefinition) (context : facts) (l : list SellerAntiFitRule)
  : result (option CandidateResult) :=
  match l with
  | [] => Ok None
  | k :: l =>
      e ← evaluate_expression (sa_expression k) context;
      match re_value e with
      | TruthValue.TRUE =>
          r ← _result c CandidateStatus.SEIL_PASS (Some (sa_reason_code k)) (sa_display_reason k) None
                (Some (sa_rule_id k)) (sa_evidence_claim_ids k) [];
          Ok (Some r)
      | TruthValue.UNRESOLVED =>
          r ← _result c CandidateStatus.CONDITIONAL (Some "SELLER_CONDITION_UNRESOLVED")
                "A published seller condition needs an allowed field or seller revision" None
                (Some (sa_rule_id k)) (sa_evidence_claim_ids k) (re_unresolved_fields e);
          Ok (Some r)
      | _ => check_anti_fit c context l
      end
  end.

Definition evaluate_candidate (c : CandidateDefinition) (buyer_context seller_context : facts)
  : result CandidateResult :=
  if negb (cd_available c) then
    _result c CandidateStatus.UNAVAILABLE (Some "UNAVAILABLE") "Not available" None None [] []
  else
    match cd_evidence_block c with
    | Some block =>
        _result c block (Some (CandidateStatus.value block)) "Required evidence is not currently actionable" None None [] []
    | None =>
        buyer ← check_constraints c buyer_context (cd_buyer_constraints c) false;
        match buyer with
        | inl r => Ok r
        | inr exception_used =>
            seller ← check_anti_fit c seller_context (cd_seller_anti_fit_rules c);
            match seller with
            | Some r => Ok r
            | None =>
                match cd_dependency_state c with
                | TruthValue.FALSE =>
                    _result c CandidateStatus.SIRA_INELIGIBLE (Some "DEPENDENCY_UNSATISFIED")
                      "A required dependency cannot be satisfied" (Some "dependency_plan") None [] []
                | TruthValue.UNRESOLVED =>
                    _result c CandidateStatus.CONDITIONAL (Some "DEPENDENCY_PLAN_REQUIRED")
                      "A required dependency plan is unresolved" None None [] ["dependency_plan"]
                | _ =>
                    if exception_used : bool then
                      _result c CandidateStatus.ELIGIBLE_WITH_EXCEPTION (Some "APPROVED_EXCEPTION")
                        "Eligible with an approved buyer-policy exception" None None [] []
                    else
                      _result c CandidateStatus.ELIGIBLE None "Meets evaluated buyer and published seller gates"
                        None None [] []
                end
            end
        end
    end.

Definition evaluate_candidate_set (candidates : list CandidateDefinition) (buyer_contexts seller_contexts : list (string * facts))
  : result (list CandidateResult) :=
  mapM (λ c, evaluate_candidate c (default [] (dict_get (cd_candidate_id c) buyer_contexts))
               (default [] (dict_get (cd_candidate_id c) seller_contexts)))
    (sorted_by cd_candidate_id candidates).

(** ** Ranking plans *)

Record SolutionPlan := mkSolutionPlan {
  so_plan_id : string;
  so_action : SolutionAction.t;
  so_component_ids : list string;
  so_status : CandidateStatus.t;
  so_preference_results : list PreferenceResult;
  so_stack_risk : StackRisk.t;
  so_total_cost : Money;
  so_horizon_days : Z;
  so_required_evidence_coverage : Decimal;
  so_maximum_evidence_age_ratio : Decimal;
  so_seller_positioning : option string;
  so_stable_action_ids : list string
}.

Definition SolutionPlan_new (plan_id : string) (action : SolutionAction.t) (component_ids : list string)
    (status : CandidateStatus.t) (preference_results : list PreferenceResult) (stack_risk : StackRisk.t)
    (total_cost : Money) (horizon_days : Z) (required_evidence_coverage maximum_evidence_age_ratio : money_input)
    (seller_positioning : option string) (stable_action_ids : list string) : result SolutionPlan :=
  _ ← require_id plan_id "plan_id";
  _ ← raise_if (horizon_days <? 1) (DomainValidationError "comparison horizon must be positive");
  coverage ← _decimal required_evidence_coverage "required_evidence_coverage";
  age ← _decimal maximum_evidence_age_ratio "maximum_evidence_age_ratio";
  _ ← raise_if (negb (py_le (DFinite 0 0) coverage && py_le coverage (DFinite 1 0)))
        (DomainValidationError "evidence coverage must be between zero and one");
  _ ← raise_if (py_lt age (DFinite 0 0)) (DomainValidationError "evidence age ratio cannot be negative");
  _ ← mapM (λ id, require_id id "component_id") component_ids;
  _ ← raise_if ((action ≟ SolutionAction.BUY) && bool_decide (component_ids = []))
        (DomainValidationError "a BUY plan requires at least one component");
  Ok (mkSolutionPlan plan_id action component_ids status preference_results stack_risk total_cost horizon_days
        coverage age seller_positioning
        (match stable_action_ids with [] => SolutionAction.value action :: component_ids | _ => stable_action_ids end)).

Definition _ELIGIBILITY_ORDER (s : CandidateStatus.t) : option Z :=
  match s with
  | CandidateStatus.ELIGIBLE => Some 0
  | CandidateStatus.ELIGIBLE_WITH_EXCEPTION => Some 1
  | _ => None
  end.

(** [-value], rounded to the context. *)
Definition dec_neg (d : Decimal) : result Decimal :=
  dec_finish (match d with DFinite c e => DFinite (- c) e | DInfinity s => DInfinity (negb s) | DNaN => DNaN end).

Definition rank_key : Type := Z * Q * Z * Decimal * Decimal * Decimal * list string * string.

Definition ranking_key (plan : SolutionPlan) : result rank_key :=
  match _ELIGIBILITY_ORDER (so_status plan) with
  | None => Raise (DomainValidationError "only eligible SolutionPlans receive a final rank")
  | Some order =>
      score ← exact_preference_score (so_preference_results plan);
      coverage ← dec_neg (so_required_evidence_coverage plan);
      Ok (order, Qopp score, StackRisk.rank (so_stack_risk plan), amount (so_total_cost plan),
          coverage, so_maximum_evidence_age_ratio plan,
          so_stable_action_ids plan, so_plan_id plan)
  end.

Definition rank_solution_plans (plans : list SolutionPlan) : result (list SolutionPlan) :=
  let eligible := List.filter (λ p, negb (is_none (_ELIGIBILITY_ORDER (so_status p)))) plans in
  match eligible with
  | [] => Ok []
  | _ =>
      _ ← raise_if (negb (length (remove_dups (currency ∘ so_total_cost <$> eligible)) =? 1)%nat)
            (DomainValidationError "plans require one quote currency or an approved FX snapshot");
      _ ← raise_if (negb (length (remove_dups (so_horizon_days <$> eligible)) =? 1)%nat)
            (DomainValidationError "plans require one declared comparison horizon");
      sorted_with ranking_key eligible
  end.

Definition select_winner (plans : list SolutionPlan) : result (option SolutionPlan) :=
  ranked ← rank_solution_plans plans; Ok (head ranked).

(** ** Counterfactuals *)

Record Counterfactual := mkCounterfactual {
  cn_generic_winner_plan_id : option string;
  cn_company_aware_winner_plan_id : option string;
  cn_changed : bool;
  cn_decisive_private_fact_ids : list string;
  cn_buyer_eliminations : list (string * string * string);
  cn_seller_passes : list (string * string * string);
  cn_coverage_statement : string;
  cn_uncertainties : list string
}.

Definition Counterfactual_check (c : Counterfactual) : result Counterfactual :=
  _ ← raise_if (cn_changed c && bool_decide (cn_decisive_private_fact_ids c = []))
        (DomainValidationError "a changed counterfactual must identify decisive private facts");
  Ok c.

(** The results with a status, with their reasons. *)
Definition with_status (status : CandidateStatus.t) (results : list CandidateResult) : list (string * string * string) :=
  (λ r, (ce_candidate_id r, default "" (ce_reason_code r), ce_reason r)) <$>
    List.filter (λ r, ce_status r ≟ status) results.

Definition build_counterfactual (generic_plans company_aware_plans : list SolutionPlan)
    (company_candidate_results : list CandidateResult) (decisive_private_fact_ids : list string)
    (coverage_statement : string) (uncertainties : list string) : result Counterfactual :=
  generic_ranked ← rank_solution_plans generic_plans;
  aware_ranked ← rank_solution_plans company_aware_plans;
  let generic_winner := so_plan_id <$> head generic_ranked in
  let aware_winner := so_plan_id <$> head aware_ranked in
  Counterfactual_check (mkCounterfactual generic_winner aware_winner (negb (generic_winner ≟ aware_winner))
    decisive_private_fact_ids (with_status CandidateStatus.SIRA_INELIGIBLE company_candidate_results)
    (with_status CandidateStatus.SEIL_PASS company_candidate_results) coverage_statement uncertainties).

(** ** Which candidates are eligible *)

(** The answer of a rule: the three-valued value of its conditions. *)
Definition rule_answer (x : RuleExpression) (context : facts) : TruthValue.t :=
  kleene (rx_mode x) (outcome_of context <$> rx_conditions x).

Definition constraint_answer (k : BuyerConstraint) := rule_answer (bk_expression k).
Definition anti_fit_answer (k : SellerAntiFitRule) := rule_answer (sa_expression k).

Definition constructed_constraint (k : BuyerConstraint) : Prop :=
  BuyerConstraint_check k = Ok k ∧ constructed_rule (bk_expression k).
Definition constructed_anti_fit (k : SellerAntiFitRule) : Prop :=
  SellerAntiFitRule_check k = Ok k ∧ constructed_rule (sa_expression k).
Definition constructed_candidate (c : CandidateDefinition) : Prop :=
  CandidateDefinition_check c = Ok c ∧ Forall constructed_constraint (cd_buyer_constraints c) ∧
  Forall constructed_anti_fit (cd_seller_anti_fit_rules c).

(** A constraint is met, or broken with an approved exception. *)
Definition constraint_met (c : CandidateDefinition) (context : facts) (k : BuyerConstraint) : Prop :=
  constraint_answer k context = TruthValue.TRUE ∨
  constraint_answer k context = TruthValue.FALSE ∧ has_exception c k = true.

Lemma id_not_empty id field u : require_id id field = Ok u → is_empty id = false.
Proof. rewrite require_id_Ok. apply is_id_nonempty. Qed.

Lemma constraint_id k : constructed_constraint k → is_empty (bk_rule_id k) = false.
Proof. intros [(u & H & _)%bind_Ok _]. by eapply id_not_empty. Qed.
Lemma anti_fit_id k : constructed_anti_fit k → is_empty (sa_rule_id k) = false.
Proof. intros [(u & H & _)%bind_Ok _]. by eapply id_not_empty. Qed.

Lemma result_check_Ok r :
  (ce_status r = CandidateStatus.SIRA_INELIGIBLE → no_text (ce_buyer_rule_id r) = false) →
  (ce_status r = CandidateStatus.SEIL_PASS → no_text (ce_seller_rule_id r) = false) →
  no_text (ce_buyer_rule_id r) = true ∨ no_text (ce_seller_rule_id r) = true →
  is_ok (CandidateResult_check r) = true.
Proof.
  intros Hb Hs Hx. unfold CandidateResult_check.
  destruct (no_text (ce_buyer_rule_id r)), (no_text (ce_seller_rule_id r)); repeat case_bool_decide; cbn; naive_solver.
Qed.

(** What [_result] answers. *)
Definition answers (m : result CandidateResult) (status : CandidateStatus.t) (buyer seller : option string)
    (claims : list string) : Prop :=
  ∃ r, m = Ok r ∧ ce_status r = status ∧ ce_buyer_rule_id r = buyer ∧ ce_seller_rule_id r = seller ∧
    ce_evidence_claim_ids r = claims.

Lemma result_answers c status code reason buyer seller claims fields :
  (status = CandidateStatus.SIRA_INELIGIBLE → no_text buyer = false) →
  (status = CandidateStatus.SEIL_PASS → no_text seller = false) →
  no_text buyer = true ∨ no_text seller = true →
  answers (_result c status code reason buyer seller claims fields) status buyer seller claims.
Proof.
  intros Hb Hs Hx. unfold _result.
  match goal with |- answers (CandidateResult_check ?r) _ _ _ _ => pose proof (result_check_Ok r Hb Hs Hx) as Hok end.
  destruct (CandidateResult_check _) as [r|] eqn:E; [|done].
  exists r. split; [done|]. unfold CandidateResult_check in E.
  apply bind_Ok in E as (_ & _ & E). apply bind_Ok in E as (_ & _ & E). apply bind_Ok in E as (_ & _ & E).
  by injection E as <-.
Qed.

(** The loop over the constraints ends at the first that is not met. *)
Lemma check_constraints_spec c context l used :
  Forall constructed_constraint l →
  ∃ o, check_constraints c context l used = Ok o ∧
  match o with
  | inr u => Forall (constraint_met c context) l ∧
      (u = true ↔ used = true ∨ ∃ k, k ∈ l ∧ constraint_answer k context = TruthValue.FALSE)
  | inl r => ∃ k, k ∈ l ∧ ¬ constraint_met c context k ∧ ce_buyer_rule_id r = Some (bk_rule_id k) ∧
      ce_seller_rule_id r = None ∧
      (ce_status r = CandidateStatus.INSUFFICIENT_EVIDENCE ∧ constraint_answer k context = TruthValue.UNRESOLVED ∨
       ce_status r = CandidateStatus.SIRA_INELIGIBLE ∧ constraint_answer k context = TruthValue.FALSE)
  end.
Proof.
  intros Hl. revert used. induction Hl as [|k l Hk _ IH]; intros used; cbn [check_constraints].
  { eexists. split; [done|]. split; [constructor|]. set_solver. }
  destruct (evaluate_expression_spec (bk_expression k) context (proj2 Hk)) as (fs & -> & _).
  cbn [mbind result_bind re_value re_unresolved_fields]. fold (rule_answer (bk_expression k) context). fold (constraint_answer k context).
  pose proof (constraint_id k Hk) as Hid.
  assert (∀ used', (constraint_answer k context = TruthValue.FALSE ∧ has_exception c k = true ∧ used' = true ∨
                    constraint_answer k context = TruthValue.TRUE ∧ used' = used) →
    ∃ o, check_constraints c context l used' = Ok o ∧ match o with
      | inr u => Forall (constraint_met c context) (k :: l) ∧
          (u = true ↔ used = true ∨ ∃ k', k' ∈ k :: l ∧ constraint_answer k' context = TruthValue.FALSE)
      | inl r => ∃ k', k' ∈ k :: l ∧ ¬ constraint_met c context k' ∧ ce_buyer_rule_id r = Some (bk_rule_id k') ∧
          ce_seller_rule_id r = None ∧
          (ce_status r = CandidateStatus.INSUFFICIENT_EVIDENCE ∧ constraint_answer k' context = TruthValue.UNRESOLVED ∨
           ce_status r = CandidateStatus.SIRA_INELIGIBLE ∧ constraint_answer k' context = TruthValue.FALSE) end) as Step.
  { intros used' Hu. destruct (IH used') as (o & -> & Ho). exists o. split; [done|]. destruct o as [r|u].
    - destruct Ho as (k' & Hk' & Ho). exists k'. split; [by constructor|done].
    - destruct Ho as [Hm Hu']. split; [constructor; [unfold constraint_met; naive_solver|done]|]. rewrite Hu'. split.
      + intros [?|(k' & ? & ?)]; [|right; exists k'; split; [by constructor|done]]. destruct Hu as [(Hf & _)|[_ ->]]; [|by left].
        right. exists k. split; [by left|done].
      + intros [?|(k' & [->|Hin]%elem_of_cons & Hf)]; [naive_solver| |right; eauto].
        destruct Hu as [(_ & _ & ->)|[Ht _]]; [by left|congruence]. }
  destruct (constraint_answer k context) eqn:Ea.
  - apply Step. by right.
  - destruct (has_exception c k) eqn:Ex; [apply Step; by left|].
    destruct (result_answers c CandidateStatus.SIRA_INELIGIBLE (Some (bk_reason_code k)) (bk_display_reason k)
      (Some (bk_rule_id k)) None [] []) as (r & -> & Hs & Hb & Hse & _); [done|done|by right|].
    cbn. eexists. split; [done|]. exists k. split_and!; [by left| |done..|by right].
    intros [?|[_ ?]]; congruence.
  - unfold constraint_answer, rule_answer in Ea. exfalso. by eapply kleene_not_unknown.
  - unfold constraint_answer, rule_answer in Ea. exfalso. by eapply kleene_not_conflict.
  - destruct (result_answers c CandidateStatus.INSUFFICIENT_EVIDENCE (Some "BUYER_RULE_UNRESOLVED")
      "A required buyer-policy fact is unresolved" (Some (bk_rule_id k)) None [] fs) as (r & -> & Hs & Hb & Hse & _); [done|done|by right|].
    cbn. eexists. split; [done|]. exists k. split_and!; [by left| |done..|by left].
    intros [?|[? _]]; congruence.
Qed.

(** The loop over the seller's rules ends at the first that is not FALSE. *)
Lemma check_anti_fit_spec c context l :
  Forall constructed_anti_fit l →
  ∃ o, check_anti_fit c context l = Ok o ∧
  match o with
  | None => Forall (λ k, anti_fit_answer k context = TruthValue.FALSE) l
  | Some r => ∃ k, k ∈ l ∧ ce_seller_rule_id r = Some (sa_rule_id k) ∧ ce_buyer_rule_id r = None ∧
      ce_evidence_claim_ids r = sa_evidence_claim_ids k ∧
      (ce_status r = CandidateStatus.SEIL_PASS ∧ anti_fit_answer k context = TruthValue.TRUE ∨
       ce_status r = CandidateStatus.CONDITIONAL ∧ anti_fit_answer k context = TruthValue.UNRESOLVED)
  end.
Proof.
  induction 1 as [|k l Hk _ IH]; cbn [check_anti_fit]; [eexists; split; [done|constructor]|].
  destruct (evaluate_expression_spec (sa_expression k) context (proj2 Hk)) as (fs & -> & _).
  cbn [mbind result_bind re_value re_unresolved_fields]. fold (rule_answer (sa_expression k) context). fold (anti_fit_answer k context).
  pose proof (anti_fit_id k Hk) as Hid.
  destruct (anti_fit_answer k context) eqn:Ea.
  - destruct (result_answers c CandidateStatus.SEIL_PASS (Some (sa_reason_code k)) (sa_display_reason k)
      None (Some (sa_rule_id k)) (sa_evidence_claim_ids k) []) as (r & -> & Hs & Hb & Hse & Hc); [done|done|by left|].
    cbn. eexists. split; [done|]. exists k. split_and!; [by left|done..|by left].
  - destruct IH as (o & -> & Ho). exists o. split; [done|]. destruct o; [|by constructor].
    destruct Ho as (k' & Hk' & Ho). exists k'. split; [by constructor|done].
  - unfold anti_fit_answer, rule_answer in Ea. exfalso. by eapply kleene_not_unknown.
  - unfold anti_fit_answer, rule_answer in Ea. exfalso. by eapply kleene_not_conflict.
  - destruct (result_answers c CandidateStatus.CONDITIONAL (Some "SELLER_CONDITION_UNRESOLVED")
      "A published seller condition needs an allowed field or seller revision"
      None (Some (sa_rule_id k)) (sa_evidence_claim_ids k) fs) as (r & -> & Hs & Hb & Hse & Hc); [done|done|by left|].
    cbn. eexists. split; [done|]. exists k. split_and!; [by left|done..|by right].
Qed.

(** Every gate of a candidate is passed. *)
Definition passes (c : CandidateDefinition) (buyer seller : facts) : Prop :=
  cd_available c = true ∧ cd_evidence_block c = None ∧
  Forall (constraint_met c buyer) (cd_buyer_constraints c) ∧
  Forall (λ k, anti_fit_answer k seller = TruthValue.FALSE) (cd_seller_anti_fit_rules c) ∧
  cd_dependency_state c ∉ [TruthValue.FALSE; TruthValue.UNRESOLVED].

(** An approved exception stands in for a constraint. *)
Definition by_exception (c : CandidateDefinition) (buyer : facts) : Prop :=
  ∃ k, k ∈ cd_buyer_constraints c ∧ constraint_answer k buyer = TruthValue.FALSE.

(** Whose rule a rejection names. *)
Definition provenance (c : CandidateDefinition) (buyer seller : facts) (r : CandidateResult) : Prop :=
  (ce_status r = CandidateStatus.SIRA_INELIGIBLE → ce_seller_rule_id r = None ∧
     (ce_buyer_rule_id r = Some "dependency_plan" ∧ cd_dependency_state c = TruthValue.FALSE ∨
      ∃ k, k ∈ cd_buyer_constraints c ∧ ce_buyer_rule_id r = Some (bk_rule_id k) ∧
        constraint_answer k buyer = TruthValue.FALSE ∧ has_exception c k = false)) ∧
  (ce_status r = CandidateStatus.SEIL_PASS → ce_buyer_rule_id r = None ∧
     ∃ k, k ∈ cd_seller_anti_fit_rules c ∧ ce_seller_rule_id r = Some (sa_rule_id k) ∧
       anti_fit_answer k seller = TruthValue.TRUE ∧ ce_evidence_claim_ids r = sa_evidence_claim_ids k ∧
       Forall (constraint_met c buyer) (cd_buyer_constraints c)).

(** What an evaluation must say. *)
Definition evaluated (c : CandidateDefinition) (buyer seller : facts) (r : CandidateResult) : Prop :=
  (ce_status r = CandidateStatus.ELIGIBLE ↔ passes c buyer seller ∧ ¬ by_exception c buyer) ∧
  (ce_status r = CandidateStatus.ELIGIBLE_WITH_EXCEPTION ↔ passes c buyer seller ∧ by_exception c buyer) ∧
  provenance c buyer seller r.

Lemma rejected c buyer seller r :
  ¬ passes c buyer seller → ce_status r ∉ [CandidateStatus.ELIGIBLE; CandidateStatus.ELIGIBLE_WITH_EXCEPTION] →
  provenance c buyer seller r → evaluated c buyer seller r.
Proof. intros Hp Hs Hr. split_and!; [set_solver..|done]. Qed.

Lemma not_rejected c buyer seller r :
  ce_status r ∉ [CandidateStatus.SIRA_INELIGIBLE; CandidateStatus.SEIL_PASS] → provenance c buyer seller r.
Proof. intros Hs. split; intros E; rewrite E in Hs; set_solver. Qed.

Lemma check_block c : CandidateDefinition_check c = Ok c → ∀ b, cd_evidence_block c = Some b →
  b ∈ [CandidateStatus.STALE_EVIDENCE; CandidateStatus.INSUFFICIENT_EVIDENCE; CandidateStatus.CONFLICTING_EVIDENCE].
Proof.
  unfold CandidateDefinition_check. intros H b Hb.
  apply bind_Ok in H as (_ & _ & H). apply bind_Ok in H as (_ & _ & H). apply bind_Ok in H as (_ & _ & H).
  apply bind_Ok in H as (_ & Hc%raise_if_Ok & _). apply negb_false_iff, py_in_true in Hc. rewrite Hb in Hc. set_solver.
Qed.

Lemma met_false_exception c buyer k : ¬ constraint_met c buyer k → constraint_answer k buyer = TruthValue.FALSE →
  has_exception c k = false.
Proof. unfold constraint_met. destruct (has_exception c k); naive_solver. Qed.

(** A closed decidable fact. *)
#[local] Ltac by_deciding := refine (bool_decide_unpack _ _); vm_compute; exact I.

(** The part of the evaluation after both loops. *)
Lemma evaluated_dependency c buyer seller used :
  cd_available c = true → cd_evidence_block c = None →
  Forall (constraint_met c buyer) (cd_buyer_constraints c) → (used = true ↔ by_exception c buyer) →
  Forall (λ k, anti_fit_answer k seller = TruthValue.FALSE) (cd_seller_anti_fit_rules c) →
  ∃ r, match cd_dependency_state c with
       | TruthValue.FALSE =>
           _result c CandidateStatus.SIRA_INELIGIBLE (Some "DEPENDENCY_UNSATISFIED")
             "A required dependency cannot be satisfied" (Some "dependency_plan") None [] []
       | TruthValue.UNRESOLVED =>
           _result c CandidateStatus.CONDITIONAL (Some "DEPENDENCY_PLAN_REQUIRED")
             "A required dependency plan is unresolved" None None [] ["dependency_plan"]
       | _ =>
           if used then
             _result c CandidateStatus.ELIGIBLE_WITH_EXCEPTION (Some "APPROVED_EXCEPTION")
               "Eligible with an approved buyer-policy exception" None None [] []
           else
             _result c CandidateStatus.ELIGIBLE None "Meets evaluated buyer and published seller gates"
               None None [] []
       end = Ok r ∧ evaluated c buyer seller r.
Proof.
  intros Ha Hb Hc Hu Hs.
  assert (∀ m status code reason, status ∈ [CandidateStatus.ELIGIBLE; CandidateStatus.ELIGIBLE_WITH_EXCEPTION] →
    (status = CandidateStatus.ELIGIBLE_WITH_EXCEPTION ↔ by_exception c buyer) →
    cd_dependency_state c ∉ [TruthValue.FALSE; TruthValue.UNRESOLVED] →
    m = _result c status code reason None None [] [] → ∃ r, m = Ok r ∧ evaluated c buyer seller r) as Pass.
  { intros m status code reason Hst Hx Hd ->.
    destruct (result_answers c status code reason None None [] []) as (r & Er & Hr & _);
      [intros ->; clear -Hst; set_solver|intros ->; clear -Hst; set_solver|by left|].
    exists r. split; [done|]. assert (passes c buyer seller) as Hp by (by split_and!).
    apply elem_of_cons in Hst as [->| ->%list_elem_of_singleton]; (split_and!; [rewrite Hr, <- Hx; clear -Hp; naive_solver..|
      apply not_rejected; rewrite Hr; by_deciding]). }
  destruct (cd_dependency_state c) eqn:Ed.
  2: { destruct (result_answers c CandidateStatus.SIRA_INELIGIBLE (Some "DEPENDENCY_UNSATISFIED")
         "A required dependency cannot be satisfied" (Some "dependency_plan") None [] []) as (r & -> & Hr & Hbu & Hse & _); [done|done|by right|].
       exists r. split; [done|]. apply rejected; [unfold passes; rewrite Ed; clear; set_solver|rewrite Hr; by_deciding|].
       split; rewrite Hr; [intros _; split; [done|by left]|done]. }
  4: { destruct (result_answers c CandidateStatus.CONDITIONAL (Some "DEPENDENCY_PLAN_REQUIRED")
         "A required dependency plan is unresolved" None None [] ["dependency_plan"]) as (r & -> & Hr & _); [done|done|by left|].
       exists r. split; [done|]. apply rejected; [unfold passes; rewrite Ed; clear; set_solver|rewrite Hr; by_deciding|].
       apply not_rejected. rewrite Hr. by_deciding. }
  all: destruct used; (eapply Pass; [| | |reflexivity]; [by_deciding|clear -Hu; naive_solver|by_deciding]).
Qed.

(** A candidate is eligible exactly when every gate passes, and a rejection
    names the right party's rule.  Evaluating a constructed candidate on any
    two contexts succeeds.  It is ELIGIBLE exactly when it is available with
    actionable evidence, every buyer constraint holds, every seller rule is
    FALSE and no dependency is missing; ELIGIBLE_WITH_EXCEPTION when moreover
    an approved exception stands in for a broken constraint.  A buyer's
    rejection names a broken constraint without an exception, or the missing
    dependency, and no seller rule; a seller's pass names a published rule that
    holds, with its evidence, and no buyer rule. *)
Theorem candidate_evaluation (c : CandidateDefinition) (buyer seller : facts) :
  constructed_candidate c → ∃ r, evaluate_candidate c buyer seller = Ok r ∧ evaluated c buyer seller r.
Proof.
  intros (Hc & Hbc & Hsc). unfold evaluate_candidate.
  destruct (cd_available c) eqn:Ea; cbn [negb].
  2: { destruct (result_answers c CandidateStatus.UNAVAILABLE (Some "UNAVAILABLE") "Not available" None None [] [])
         as (r & -> & Hr & _); [done|done|by left|].
       exists r. split; [done|]. apply rejected; [unfold passes; rewrite Ea; naive_solver| |apply not_rejected]; rewrite Hr; by_deciding. }
  destruct (cd_evidence_block c) as [b|] eqn:Eb.
  { pose proof (check_block c Hc b Eb) as Hbl.
    destruct (result_answers c b (Some (CandidateStatus.value b)) "Required evidence is not currently actionable" None None [] [])
      as (r & -> & Hr & _); [intros ->; clear -Hbl; set_solver|intros ->; clear -Hbl; set_solver|by left|].
    exists r. split; [done|]. apply rejected; [unfold passes; rewrite Eb; naive_solver| |apply not_rejected]; rewrite Hr; clear -Hbl; set_solver. }
  destruct (check_constraints_spec c buyer (cd_buyer_constraints c) false Hbc) as (o & -> & Ho).
  cbn [mbind result_bind]. destruct o as [r|used].
  { destruct Ho as (k & Hk & Hn & Hb & Hs & Hcase). exists r. split; [done|].
    apply rejected; [intros (_ & _ & Hall & _); rewrite Forall_forall in Hall; by apply Hn, Hall| |].
    - destruct Hcase as [[-> _]|[-> _]]; by_deciding.
    - split; intros Es; destruct Hcase as [[Ec Hf]|[Ec Hf]]; try congruence.
      split; [done|]. right. exists k. split_and!; try done. by eapply met_false_exception. }
  destruct Ho as [Hmet Hused].
  destruct (check_anti_fit_spec c seller (cd_seller_anti_fit_rules c) Hsc) as (o & -> & Ho).
  cbn [mbind result_bind]. destruct o as [r|].
  { destruct Ho as (k & Hk & Hs & Hb & Hcl & Hcase). exists r. split; [done|].
    apply rejected; [intros (_ & _ & _ & Hall & _); rewrite Forall_forall in Hall; specialize (Hall k Hk); destruct Hcase as [[_ ?]|[_ ?]]; congruence| |].
    - destruct Hcase as [[-> _]|[-> _]]; by_deciding.
    - split; intros Es; destruct Hcase as [[Ec Hf]|[Ec Hf]]; try congruence. split; [done|]. by exists k. }
  apply evaluated_dependency; try done. rewrite Hused. unfold by_exception. naive_solver.
Qed.

(** ** Rankings *)

(** The score of constructed preferences is a percentage. *)
Definition constructed_preference (r : PreferenceResult) : Prop :=
  PreferenceResult_new (pr_criterion_id r) (pr_weight r) (MDecimal (pr_satisfaction r)) (pr_evidence_ids r) (pr_unknown r) = Ok r.

Lemma constructed_preference_bounds r :
  constructed_preference r → 1 <= pr_weight r <= 5 ∧ (0 <= dec_value (pr_satisfaction r) <= 1)%Q.
Proof.
  unfold constructed_preference, PreferenceResult_new. intros H.
  apply bind_Ok in H as (_ & _ & H). apply bind_Ok in H as (_ & Hw%raise_if_Ok & H).
  apply bind_Ok in H as (d & _ & H). apply bind_Ok in H as (_ & Hs%raise_if_Ok & H).
  apply bind_Ok in H as (_ & _ & H). injection H as H. apply (f_equal pr_satisfaction) in H. cbn in H. subst d.
  split; [lia|]. apply negb_false_iff, existsb_Exists in Hs as (v & Hv & E). unfold dec_eqb in E.
  apply bool_decide_eq_true in E. unfold py_cmp, Decimal_ord in E. apply Qeq_alt in E. rewrite E.
  unfold _SATISFACTION_VALUES in Hv. repeat (apply elem_of_cons in Hv as [->|Hv]; [split; by vm_compute|]).
  by apply not_elem_of_nil in Hv.
Qed.

Lemma exact_preference_score_bounds results :
  results ≠ [] → Forall constructed_preference results →
  ∃ q, exact_preference_score results = Ok q ∧ (0 <= q <= 100)%Q.
Proof.
  intros Hne Hall. unfold exact_preference_score.
  rewrite bool_decide_false by (by destruct results). cbn [raise_if mbind result_bind].
  set (num := foldr _ 0%Q results). set (den := foldr _ 0 results).
  assert ((0 <= num)%Q ∧ (num <= inject_Z den)%Q ∧ Z.of_nat (length results) <= den) as (H0' & H1' & H2').
  { subst num den. clear Hne. induction Hall as [|r l Hr _ IH]; [by split_and!|]. cbn -[inject_Z].
    destruct (constructed_preference_bounds r Hr) as [Hw Hs].
    destruct IH as (I0 & I1 & I2). rewrite inject_Z_plus.
    assert (0 <= inject_Z (pr_weight r))%Q by (change 0%Q with (inject_Z 0); rewrite <- Zle_Qle; lia).
    split_and!; [nra|nra|lia]. }
  assert (0 < den) by (destruct results; [done|cbn in *; lia]).
  rewrite (proj2 (Z.eqb_neq _ _)) by lia. cbn. eexists. split; [done|].
  assert (0 < inject_Z den)%Q by (change 0%Q with (inject_Z 0); rewrite <- Zlt_Qlt; lia).
  split; [apply Qle_shift_div_l; [done|]|apply Qle_shift_div_r; [done|]]; nra.
Qed.

Definition is_ranked (p : SolutionPlan) : bool := negb (is_none (_ELIGIBILITY_ORDER (so_status p))).

Lemma sorted_with_keys {A K} `{PyOrd K} (key : A → result K) l r :
  sorted_with key l = Ok r → ∀ a, a ∈ l → ∃ k, key a = Ok k.
Proof.
  unfold sorted_with. intros (ks & Hk%mapM_Ok & _)%bind_Ok a (i & Hi)%list_elem_of_lookup.
  destruct (Forall2_lookup_l _ _ _ _ _ Hk Hi) as (y & _ & Hy). apply bind_Ok in Hy as (k & Hk' & _). eauto.
Qed.

Lemma length_remove_dups_perm {A} `{EqDecision A} (l k : list A) :
  l ≡ₚ k → length (remove_dups l) = length (remove_dups k).
Proof.
  intros P. apply Permutation_length, NoDup_Permutation; [apply NoDup_remove_dups..|].
  intros x. by rewrite !elem_of_remove_dups, P.
Qed.

Lemma lfilter_perm {A} (f : A → bool) (l k : list A) : l ≡ₚ k → List.filter f l ≡ₚ List.filter f k.
Proof. induction 1; cbn; repeat case_match; by econstructor. Qed.

(** The key of a plan, where it has one. *)
Definition key_of (p : SolutionPlan) : rank_key :=
  match ranking_key p with Ok k => k | Raise _ => (0, 0%Q, 0, DNaN, DNaN, DNaN, [], so_plan_id p) end.

Lemma key_of_id p : (key_of p).2 = so_plan_id p.
Proof.
  unfold key_of, ranking_key. destruct (_ELIGIBILITY_ORDER _); [|done].
  destruct (exact_preference_score _); [|done]. cbn [mbind result_bind]. by destruct (dec_neg _).
Qed.

Lemma key_of_inj p q : py_cmp (key_of p) (key_of q) = Eq → so_plan_id p = so_plan_id q.
Proof.
  rewrite <- !key_of_id. destruct (key_of p) as [k i], (key_of q) as [k' i'].
  unfold py_cmp at 1. cbn. intros [_ E]%cmp_then_eq. by apply py_cmp_eq.
Qed.

Lemma rank_solution_plans_Ok plans ranked :
  rank_solution_plans plans = Ok ranked ↔
  let eligible := List.filter is_ranked plans in
  eligible = [] ∧ ranked = [] ∨
  length (remove_dups (currency ∘ so_total_cost <$> eligible)) = 1%nat ∧
  length (remove_dups (so_horizon_days <$> eligible)) = 1%nat ∧
  (∀ p, p ∈ eligible → ranking_key p = Ok (key_of p)) ∧ ranked = sorted_by key_of eligible.
Proof.
  unfold rank_solution_plans. fold is_ranked. change (λ p, is_ranked p) with is_ranked. cbn zeta.
  set (eligible := List.filter is_ranked plans). clearbody eligible.
  destruct eligible as [|p l]; [cbn; naive_solver|]. cbv iota. set (e := p :: l). assert (e ≠ []) as Hne by done. clearbody e.
  split.
  - intros H. apply bind_Ok in H as (_ & Hc%raise_if_Ok & H). apply bind_Ok in H as (_ & Hh%raise_if_Ok & H).
    right. assert (∀ p, p ∈ e → ranking_key p = Ok (key_of p)) as Hk.
    { intros q Hq. destruct (sorted_with_keys _ _ _ H q Hq) as (k & Hk). unfold key_of. by rewrite Hk. }
    rewrite (sorted_with_Ok ranking_key key_of) in H by done. injection H as <-.
    apply negb_false_iff, Nat.eqb_eq in Hc, Hh. done.
  - intros [[-> _]|(-> & -> & Hk & ->)]; [done|]. cbn. by apply sorted_with_Ok.
Qed.

Lemma one_value {A} `{EqDecision A} (l : list A) x y :
  length (remove_dups l) = 1%nat → x ∈ l → y ∈ l → x = y.
Proof.
  rewrite <- !(elem_of_remove_dups l). destruct (remove_dups l) as [|a [|b k]]; cbn; try done. set_solver.
Qed.

(** A ranking is the one sorted arrangement of the eligible plans.  When
    plans with distinct identifiers are ranked, the result is a permutation of
    the eligible plans in one currency and over one horizon, no plan comes
    after one with a larger key, the winner is its first plan, and every order
    of the input gives the same ranking. *)
Theorem ranking_canonical (plans ranked : list SolutionPlan) :
  NoDup (so_plan_id <$> plans) → rank_solution_plans plans = Ok ranked →
  ranked ≡ₚ List.filter is_ranked plans ∧
  StronglySorted (λ p q, ∃ kp kq, ranking_key p = Ok kp ∧ ranking_key q = Ok kq ∧ py_le kp kq = true) ranked ∧
  (∀ p q, p ∈ ranked → q ∈ ranked → currency (so_total_cost p) = currency (so_total_cost q) ∧
     so_horizon_days p = so_horizon_days q) ∧
  select_winner plans = Ok (head ranked) ∧
  (∀ plans', plans ≡ₚ plans' → rank_solution_plans plans' = Ok ranked).
Proof.
  intros Hnd Hr. assert (select_winner plans = Ok (head ranked)) as Hw by (unfold select_winner; by rewrite Hr).
  pose proof Hr as Hr'. apply rank_solution_plans_Ok in Hr'. cbn zeta in Hr'. destruct Hr' as [[E ->]|(Hc & Hh & Hk & ->)].
  { rewrite E. split_and!; [done|constructor|set_solver|done|]. intros plans' P. apply rank_solution_plans_Ok. left.
    split; [|done]. symmetry. apply Permutation_nil_l. rewrite <- E. by apply lfilter_perm. }
  split_and!; [apply sorted_by_perm| | |done|].
  - assert (∀ l, (∀ p, p ∈ l → ranking_key p = Ok (key_of p)) → StronglySorted (key_le key_of) l →
      StronglySorted (λ p q, ∃ kp kq, ranking_key p = Ok kp ∧ ranking_key q = Ok kq ∧ py_le kp kq = true) l) as W.
    { intros l Hl. induction 1 as [|p l _ IH Hp]; constructor; [apply IH; set_solver|].
      apply Forall_forall. intros q Hq. rewrite Forall_forall in Hp.
      exists (key_of p), (key_of q). split_and!; [apply Hl; set_solver..|by apply Hp]. }
    apply W; [|apply sorted_by_sorted; apply _]. intros p. rewrite elem_of_sorted_by. apply Hk.
  - intros p q. rewrite !elem_of_sorted_by. intros Hp Hq. split.
    + apply (one_value _ ((currency ∘ so_total_cost) p) ((currency ∘ so_total_cost) q) Hc); by apply list_elem_of_fmap_2.
    + apply (one_value _ (so_horizon_days p) (so_horizon_days q) Hh); by apply list_elem_of_fmap_2.
  - intros plans' P. apply rank_solution_plans_Ok. right. pose proof (lfilter_perm is_ranked _ _ P) as Pf. split_and!.
    + rewrite <- Hc. symmetry. apply length_remove_dups_perm. by rewrite Pf.
    + rewrite <- Hh. symmetry. apply length_remove_dups_perm. by rewrite Pf.
    + intros p Hp. apply Hk. by rewrite Pf.
    + apply sorted_by_unique; [apply _| |done]. intros p q Hp Hq E%key_of_inj.
      apply elem_of_lfilter in Hp as [Hp _], Hq as [Hq _]. by eapply NoDup_fmap_inj.
Qed.

(** A changed outcome names decisive facts, and unchanged inputs change
    nothing. *)
Lemma counterfactual_changed g a results facts coverage uncertain c :
  build_counterfactual g a results facts coverage uncertain = Ok c →
  (cn_changed c = true ↔ cn_generic_winner_plan_id c ≠ cn_company_aware_winner_plan_id c) ∧
  (cn_changed c = true → cn_decisive_private_fact_ids c ≠ []).
Proof.
  unfold build_counterfactual. intros H. apply bind_Ok in H as (r1 & _ & H). apply bind_Ok in H as (r2 & _ & H).
  apply bind_Ok in H as (_ & Hf%raise_if_Ok & [= <-]). cbn in *.
  rewrite negb_true_iff, bool_decide_eq_false. split; [done|]. intros Hn ->.
  rewrite bool_decide_false in Hf by done. by rewrite bool_decide_true in Hf.
Qed.

(** ** Examples *)

Definition ex_constraint : BuyerConstraint :=
  mkBuyerConstraint "rule_seats" (mkRuleExpression [mkRuleCondition "team.seats" RuleOperator.LTE (RInt 50)] ModeAll)
    "TOO_MANY_SEATS" "The team is larger than the plan allows" true.
Definition ex_anti_fit : SellerAntiFitRule :=
  mkSellerAntiFitRule "rule_region" (mkRuleExpression [mkRuleCondition "region" RuleOperator.NOT_IN (RSeq SeqList [RStr "EU"])] ModeAny)
    "REGION" "Only sold in the EU" ["claim_region"].
Definition ex_candidate (exceptions : list string) : CandidateDefinition :=
  mkCandidateDefinition "cand_notes" "Notes" "pack_notes" 1 true None [ex_constraint] [ex_anti_fit] exceptions
    TruthValue.TRUE [] None.
Definition ex_buyer : facts := [("team", RDict [("seats", RInt 60)])].
Definition ex_seller (region : string) : facts := [("region", RStr region)].

Lemma ex_candidate_constructed exceptions :
  CandidateDefinition_check (ex_candidate exceptions) = Ok (ex_candidate exceptions) →
  constructed_candidate (ex_candidate exceptions).
Proof.
  intros H. split_and!; [done| |]; (constructor; [|constructor]); (split; [by vm_compute|]);
    (split; [done|]); repeat constructor.
Qed.

Lemma candidate_evaluation_witness :
  (∃ r, evaluate_candidate (ex_candidate ["rule_seats"]) ex_buyer (ex_seller "EU") = Ok r ∧
     ce_status r = CandidateStatus.ELIGIBLE_WITH_EXCEPTION ∧
     evaluated (ex_candidate ["rule_seats"]) ex_buyer (ex_seller "EU") r) ∧
  (∃ r, evaluate_candidate (ex_candidate []) ex_buyer (ex_seller "EU") = Ok r ∧
     ce_status r = CandidateStatus.SIRA_INELIGIBLE ∧ ce_buyer_rule_id r = Some "rule_seats" ∧
     evaluated (ex_candidate []) ex_buyer (ex_seller "EU") r) ∧
  (∃ r, evaluate_candidate (ex_candidate ["rule_seats"]) ex_buyer (ex_seller "US") = Ok r ∧
     ce_status r = CandidateStatus.SEIL_PASS ∧ ce_seller_rule_id r = Some "rule_region").
Proof.
  split_and!.
  - destruct (candidate_evaluation (ex_candidate ["rule_seats"]) ex_buyer (ex_seller "EU")) as (r & Hr & He);
      [apply ex_candidate_constructed; by vm_compute|].
    exists r. split_and!; [done| |done]. vm_compute in Hr. by injection Hr as <-.
  - destruct (candidate_evaluation (ex_candidate []) ex_buyer (ex_seller "EU")) as (r & Hr & He);
      [apply ex_candidate_constructed; by vm_compute|].
    exists r. split_and!; [done| | |done]; vm_compute in Hr; by injection Hr as <-.
  - destruct (candidate_evaluation (ex_candidate ["rule_seats"]) ex_buyer (ex_seller "US")) as (r & Hr & He);
      [apply ex_candidate_constructed; by vm_compute|].
    exists r. split_and!; [done| |]; vm_compute in Hr; by injection Hr as <-.
Defined.

Definition ex_plan (id : string) (weight : Z) (cost : Z) : SolutionPlan :=
  mkSolutionPlan id SolutionAction.BUY ["prod_" ++ id] CandidateStatus.ELIGIBLE
    [mkPreferenceResult "crit_a" weight (DFinite 5 (-1)) [] false; mkPreferenceResult "crit_b" 2 (DFinite 1 0) [] false]
    StackRisk.LOW (mkMoney (DFinite cost 0) "USD") 365 (DFinite 1 0) (DFinite 0 0) None ["BUY"; "prod_" ++ id].

Lemma ranking_canonical_witness :
  ∃ ranked, rank_solution_plans [ex_plan "plan_b" 3 90; ex_plan "plan_a" 3 80; ex_plan "plan_c" 1 200] = Ok ranked ∧
    so_plan_id <$> ranked = ["plan_c"; "plan_a"; "plan_b"] ∧
    rank_solution_plans [ex_plan "plan_a" 3 80; ex_plan "plan_b" 3 90; ex_plan "plan_c" 1 200] = Ok ranked.
Proof.
  destruct (rank_solution_plans [ex_plan "plan_b" 3 90; ex_plan "plan_a" 3 80; ex_plan "plan_c" 1 200]) as [ranked|] eqn:E;
    [|by vm_compute in E].
  exists ranked. split; [done|].
  destruct (λ H, ranking_canonical _ _ H E) as (_ & _ & _ & _ & Hp); [by_deciding|].
  split; [vm_compute in E; by injection E as <-|]. apply Hp. constructor.
Defined.

(** A dependency that is unknown or in conflict does not stop a candidate. *)
Lemma unknown_dependency_is_eligible :
  (ce_status <$> evaluate_candidate
     (mkCandidateDefinition "cand_notes" "Notes" "pack_notes" 1 true None [] [] [] TruthValue.CONFLICT [] None) [] [])
  = Ok CandidateStatus.ELIGIBLE.
Proof. by vm_compute. Qed.
