(* ===== verification/DomainModels.v ===== *)
(** * Value objects of the commerce vertical: [domain/models.py]

    Sources, verifications, buyer facts, evidence references, merchants,
    fulfilments, purchase intents, approval bindings and payment handoffs, each
    with the checks its [__post_init__] makes.  A purchase intent and a handoff
    are bound to the hash of their payload; the destination of a handoff is
    split the way [urllib.parse.urlsplit] does. *)
From S2P Require Import Prelude PyText PyNumber PyTime Enums Money Hashing.

Local Open Scope string_scope.
Local Open Scope Z_scope.

(** ** Shared helpers *)

(** [deep_freeze(value)]: the keys of mappings become text; a later key that
    becomes the same text wins. *)
Definition key_text (k : dict_key) : string := match k with KStr s | KOther s => s end.
Fixpoint deep_freeze (value : PyVal) : PyVal :=
  match value with
  | VList l => VList (List.map deep_freeze l)
  | VDict l => VDict ((λ p : string * PyVal, (KStr p.1, p.2)) <$>
      dict_items (List.map (λ p : dict_key * PyVal, (key_text p.1, deep_freeze p.2)) l))
  | VOther name => VOther (if bool_decide (name = "set") then "frozenset" else name)
  | _ => value
  end.

(** Some key in [value], at any depth, satisfies [bad]. *)
Fixpoint some_key (bad : string → bool) (value : PyVal) : bool :=
  match value with
  | VDict l => existsb (λ p : dict_key * PyVal, bad (key_text p.1) || some_key bad p.2) l
  | VList l => existsb (some_key bad) l
  | _ => false
  end.

Definition invalid_when (c : bool) (message : string) : result unit :=
  raise_if c (DomainValidationError message).

(** [require_aware] of an optional time. *)
Definition require_aware_opt (value : option datetime) (field_name : string) : result unit :=
  match value with None => Ok () | Some d => require_aware d field_name end.

(** [require_id(getattr(self, field_name), field_name)] for each field. *)
Definition require_ids (fields : list (string * string)) : result unit :=
  _ ← mapM (λ f : string * string, require_id f.2 f.1) fields; Ok ().

Section bound.
Context `{Rfc8785}.

(** The hash an artifact stores: computed when none is given, else compared. *)
Definition bind_hash (payload : PyVal) (given field_name mismatch : string) : result string :=
  computed ← content_hash payload;
  if is_empty given then Ok computed else
  _ ← require_hash given field_name;
  _ ← raise_if (negb (bool_decide (computed = given))) (DomainValidationError mismatch);
  Ok given.

Lemma bind_hash_Ok payload given field mismatch h :
  bind_hash payload given field mismatch = Ok h ↔
  content_hash payload = Ok h ∧ (given = "" ∨ given = h ∧ is_hash h = true).
Proof.
  unfold bind_hash. rewrite bind_Ok. unfold is_empty. case_bool_decide as Eg.
  - split; [intros (c & Hc & [= <-]); auto|]. intros [Hc _]. by exists h.
  - split.
    + intros (c & Hc & E). apply bind_Ok in E as ([] & Hh%require_hash_Ok & E).
      apply bind_Ok in E as ([] & ->%raise_if_Ok%negb_false_iff%bool_decide_eq_true & [= <-]). auto.
    + intros [Hc [?|[-> Hh]]]; [done|]. exists h. split; [done|].
      rewrite (proj2 (require_hash_Ok h field ()) Hh), bool_decide_eq_true_2 by done. done.
Qed.
End bound.

(** ** Sources, verifications and facts *)

Record SourceRef := mkSourceRef {
  sr_provider : string;
  sr_content_id : string;
  sr_version_id : string;
  sr_fragment_hash : string;
  sr_retrieved_at : datetime;
  sr_fragment_ordinal : option Z
}.

Definition SourceRef_check (s : SourceRef) : result SourceRef :=
  _ ← require_id (sr_provider s) "provider";
  _ ← require_id (sr_content_id s) "content_id";
  _ ← require_id (sr_version_id s) "version_id";
  _ ← require_hash (sr_fragment_hash s) "fragment_hash";
  _ ← require_aware (sr_retrieved_at s) "retrieved_at";
  _ ← invalid_when (from_option (λ n, n <? 0) false (sr_fragment_ordinal s))
        "fragment_ordinal cannot be negative";
  Ok s.

Record Verification := mkVerification {
  vf_status : string;
  vf_method : string;
  vf_verified_by : option string;
  vf_verified_at : option datetime;
  vf_scope : string
}.

Definition verified_statuses : list string := ["verified"; "human_approved"].

Definition Verification_check (v : Verification) : result Verification :=
  _ ← invalid_when (negb (py_in (vf_status v)
        ["unverified"; "verified"; "human_approved"; "disputed"; "expired"; "revoked"]))
        "unsupported verification status";
  _ ← invalid_when (is_empty (vf_method v)) "verification method is required";
  _ ← invalid_when (py_in (vf_status v) verified_statuses &&
        (from_option is_empty true (vf_verified_by v) || is_none (vf_verified_at v)))
        "verified facts require verifier and timestamp";
  _ ← require_aware_opt (vf_verified_at v) "verified_at";
  Ok v.

Record BuyerFact := mkBuyerFact {
  bf_fact_id : string;
  bf_organization_id : string;
  bf_subject_type : string;
  bf_subject_id : string;
  bf_field : string;
  bf_operator : string;
  bf_value : PyVal;
  bf_kind : string;
  bf_stakeholder_role : string;
  bf_source : SourceRef;
  bf_verification : Verification;
  bf_valid_from : datetime;
  bf_valid_until : option datetime;
  bf_sensitivity : string;
  bf_confidence : string
}.

(** [valid_until] is aware and after [valid_from]. *)
Definition check_window (valid_from : datetime) (valid_until : option datetime) : result unit :=
  match valid_until with
  | None => Ok ()
  | Some until =>
      _ ← require_aware until "valid_until";
      late ← dt_le until valid_from;
      invalid_when late "valid_until must be after valid_from"
  end.

Definition BuyerFact_check (f : BuyerFact) : result BuyerFact :=
  _ ← require_ids [("fact_id", bf_fact_id f); ("organization_id", bf_organization_id f);
                   ("subject_id", bf_subject_id f)];
  _ ← invalid_when (is_empty (bf_subject_type f) || is_empty (bf_field f) || is_empty (bf_operator f))
        "fact subject, field, and operator are required";
  _ ← invalid_when (negb (py_in (bf_kind f) ["hard_constraint"; "preference"; "observation"; "authority"]))
        "unsupported buyer fact kind";
  _ ← invalid_when (negb (py_in (bf_confidence f) ["confirmed"; "measured"; "inferred"; "unknown"]))
        "unsupported confidence";
  _ ← require_aware (bf_valid_from f) "valid_from";
  _ ← check_window (bf_valid_from f) (bf_valid_until f);
  _ ← invalid_when (bool_decide (bf_kind f = "hard_constraint") &&
        negb (py_in (vf_status (bf_verification f)) verified_statuses))
        "hard constraints require verified or owner-approved facts";
  Ok (mkBuyerFact (bf_fact_id f) (bf_organization_id f) (bf_subject_type f) (bf_subject_id f) (bf_field f)
        (bf_operator f) (deep_freeze (bf_value f)) (bf_kind f) (bf_stakeholder_role f) (bf_source f)
        (bf_verification f) (bf_valid_from f) (bf_valid_until f) (bf_sensitivity f) (bf_confidence f)).

(** [fact.is_current(at)]; [now] is the clock's value when it is read. *)
Definition is_current (f : BuyerFact) (at_ : option datetime) (now : datetime) : result bool :=
  let point := default now at_ in
  _ ← require_aware point "at";
  started ← dt_le (bf_valid_from f) point;
  if negb started then Ok false else
  match bf_valid_until f with None => Ok true | Some until => dt_lt point until end.

Record EvidenceRef := mkEvidenceRef {
  ev_evidence_id : string;
  ev_claim_id : string;
  ev_source : SourceRef;
  ev_assertion_source : string;
  ev_visibility : string;
  ev_verification_method : string;
  ev_verification_scope : string;
  ev_verification_state : string;
  ev_expires_at : option datetime
}.

Definition EvidenceRef_check (e : EvidenceRef) : result EvidenceRef :=
  _ ← require_ids [("evidence_id", ev_evidence_id e); ("claim_id", ev_claim_id e)];
  _ ← invalid_when (negb (py_in (ev_verification_state e)
        ["unverified"; "verified"; "disputed"; "expired"; "revoked"]))
        "unsupported evidence verification state";
  _ ← require_aware_opt (ev_expires_at e) "expires_at";
  Ok e.

(** ** Merchants and fulfilment *)

Record MerchantIdentity := mkMerchantIdentity {
  mi_merchant_id : string;
  mi_name : string;
  mi_url : string;
  mi_country : string
}.

(** [len(country) == 2 and country.isalpha() and country.isupper()] *)
Definition is_alpha2 (s : string) : bool := (length (chars s) =? 2)%nat && forallb is_upper (chars s).

Definition MerchantIdentity_check (m : MerchantIdentity) : result MerchantIdentity :=
  _ ← require_id (mi_merchant_id m) "merchant_id";
  _ ← invalid_when (is_empty (mi_name m)) "merchant name is required";
  _ ← invalid_when (negb (startswith (mi_url m) "https://")) "merchant URL must use HTTPS";
  _ ← invalid_when (negb (is_alpha2 (mi_country m))) "merchant country must be ISO alpha-2";
  Ok m.

Definition merchant_payload (m : MerchantIdentity) : PyVal :=
  dict [("merchant_id", VStr (mi_merchant_id m)); ("name", VStr (mi_name m)); ("url", VStr (mi_url m));
        ("country", VStr (mi_country m))].

Record ExpectedFulfillment := mkExpectedFulfillment {
  ef_fulfillment_item_id : string;
  ef_line_item_id : string;
  ef_type : string;
  ef_subject_type : string;
  ef_required : bool;
  ef_minimum_quantity : Z;
  ef_expected_quantity : Z;
  ef_verification_method : string
}.

Definition ExpectedFulfillment_check (e : ExpectedFulfillment) : result ExpectedFulfillment :=
  _ ← require_ids [("fulfillment_item_id", ef_fulfillment_item_id e); ("line_item_id", ef_line_item_id e)];
  _ ← invalid_when (is_empty (ef_type e) || is_empty (ef_subject_type e) || is_empty (ef_verification_method e))
        "fulfillment type, subject, and verification are required";
  _ ← invalid_when ((ef_minimum_quantity e <? 0) || (ef_expected_quantity e <? ef_minimum_quantity e))
        "fulfillment quantities are inconsistent";
  _ ← invalid_when (ef_required e && (ef_minimum_quantity e <? 1))
        "required fulfillment needs a positive minimum";
  Ok e.

Definition fulfillment_payload (e : ExpectedFulfillment) : PyVal :=
  dict [("fulfillment_item_id", VStr (ef_fulfillment_item_id e)); ("line_item_id", VStr (ef_line_item_id e));
        ("type", VStr (ef_type e)); ("subject_type", VStr (ef_subject_type e));
        ("required", VBool (ef_required e)); ("minimum_quantity", VInt (ef_minimum_quantity e));
        ("expected_quantity", VInt (ef_expected_quantity e));
        ("verification_method", VStr (ef_verification_method e))].

(** ** Purchase intents *)

Record PurchaseIntent := mkPurchaseIntent {
  in_schema_version : string;
  in_purchase_intent_id : string;
  in_organization_id : string;
  in_decision_id : string;
  in_decision_hash : string;
  in_solution_plan_id : string;
  in_procurement_plan_id : string;
  in_procurement_gate_result_hash : string;
  in_pack_id : string;
  in_pack_version : Z;
  in_offer_id : string;
  in_offer_version : Z;
  in_quote_id : string;
  in_quote_expires_at : datetime;
  in_merchant : MerchantIdentity;
  in_approved_merchant_chain_id : string;
  in_amount : Money;
  in_line_items : list PyVal;
  in_expected_fulfillments : list ExpectedFulfillment;
  in_approval_policy_version : Z;
  in_approval_plan_hash : string;
  in_buyer_legal_entity_id : string;
  in_seller_contracting_entity_id : string;
  in_billing_identity_id : string;
  in_cost_center_id : string;
  in_contract_version_id : string;
  in_intent_hash : string
}.

Definition intent_payload (p : PurchaseIntent) : PyVal :=
  dict [("schema_version", VStr (in_schema_version p));
        ("purchase_intent_id", VStr (in_purchase_intent_id p));
        ("organization_id", VStr (in_organization_id p));
        ("decision_id", VStr (in_decision_id p));
        ("decision_hash", VStr (in_decision_hash p));
        ("solution_plan_id", VStr (in_solution_plan_id p));
        ("procurement_plan_id", VStr (in_procurement_plan_id p));
        ("procurement_gate_result_hash", VStr (in_procurement_gate_result_hash p));
        ("pack_id", VStr (in_pack_id p));
        ("pack_version", VInt (in_pack_version p));
        ("offer_id", VStr (in_offer_id p));
        ("offer_version", VInt (in_offer_version p));
        ("quote_id", VStr (in_quote_id p));
        ("quote_expires_at", VDatetime (in_quote_expires_at p));
        ("merchant", merchant_payload (in_merchant p));
        ("approved_merchant_chain_id", VStr (in_approved_merchant_chain_id p));
        ("amount", money_payload (in_amount p));
        ("line_items", VList (in_line_items p));
        ("expected_fulfillments", VList (fulfillment_payload <$> in_expected_fulfillments p));
        ("approval_policy_version", VInt (in_approval_policy_version p));
        ("approval_plan_hash", VStr (in_approval_plan_hash p));
        ("buyer_legal_entity_id", VStr (in_buyer_legal_entity_id p));
        ("seller_contracting_entity_id", VStr (in_seller_contracting_entity_id p));
        ("billing_identity_id", VStr (in_billing_identity_id p));
        ("cost_center_id", VStr (in_cost_center_id p));
        ("contract_version_id", VStr (in_contract_version_id p))].

Definition intent_ids (p : PurchaseIntent) : list (string * string) :=
  [("purchase_intent_id", in_purchase_intent_id p); ("organization_id", in_organization_id p);
   ("decision_id", in_decision_id p); ("solution_plan_id", in_solution_plan_id p);
   ("procurement_plan_id", in_procurement_plan_id p); ("pack_id", in_pack_id p);
   ("offer_id", in_offer_id p); ("quote_id", in_quote_id p);
   ("approved_merchant_chain_id", in_approved_merchant_chain_id p);
   ("buyer_legal_entity_id", in_buyer_legal_entity_id p);
   ("seller_contracting_entity_id", in_seller_contracting_entity_id p);
   ("billing_identity_id", in_billing_identity_id p); ("cost_center_id", in_cost_center_id p);
   ("contract_version_id", in_contract_version_id p)].

(** The intent with its line items and its hash replaced. *)
Definition with_intent (p : PurchaseIntent) (line_items : list PyVal) (hash : string) : PurchaseIntent :=
  mkPurchaseIntent (in_schema_version p) (in_purchase_intent_id p) (in_organization_id p) (in_decision_id p)
    (in_decision_hash p) (in_solution_plan_id p) (in_procurement_plan_id p)
    (in_procurement_gate_result_hash p) (in_pack_id p) (in_pack_version p) (in_offer_id p)
    (in_offer_version p) (in_quote_id p) (in_quote_expires_at p) (in_merchant p)
    (in_approved_merchant_chain_id p) (in_amount p) line_items (in_expected_fulfillments p)
    (in_approval_policy_version p) (in_approval_plan_hash p) (in_buyer_legal_entity_id p)
    (in_seller_contracting_entity_id p) (in_billing_identity_id p) (in_cost_center_id p)
    (in_contract_version_id p) hash.

Definition PurchaseIntent_check `{Rfc8785} (p : PurchaseIntent) : result PurchaseIntent :=
  _ ← require_ids (intent_ids p);
  _ ← require_hash (in_decision_hash p) "decision_hash";
  _ ← require_hash (in_procurement_gate_result_hash p) "procurement_gate_result_hash";
  _ ← require_hash (in_approval_plan_hash p) "approval_plan_hash";
  _ ← require_aware (in_quote_expires_at p) "quote_expires_at";
  _ ← invalid_when ((in_pack_version p <? 1) || (in_offer_version p <? 1) || (in_approval_policy_version p <? 1))
        "artifact versions must be positive";
  _ ← invalid_when (is_empty (in_schema_version p)) "schema_version is required";
  let line_items := deep_freeze <$> in_line_items p in
  _ ← invalid_when (bool_decide (length line_items = 0%nat) ||
                    bool_decide (length (in_expected_fulfillments p) = 0%nat))
        "a purchase intent needs line items and expected fulfillment";
  hash ← bind_hash (intent_payload (with_intent p line_items "")) (in_intent_hash p) "intent_hash"
           "intent_hash does not match the canonical payload";
  Ok (with_intent p line_items hash).

(** ** Approval bindings *)

Record ApprovalBinding := mkApprovalBinding {
  ab_approval_request_id : string;
  ab_intent_hash : string;
  ab_status : ApprovalStatus.t
}.

Definition ApprovalBinding_check (b : ApprovalBinding) : result ApprovalBinding :=
  _ ← require_id (ab_approval_request_id b) "approval_request_id";
  _ ← require_hash (ab_intent_hash b) "intent_hash";
  Ok b.

(** ** [urllib.parse.urlsplit] on ASCII text *)

(** [_check_bracketed_netloc] of the interpreter's version: the message of the
    [ValueError] for a network location whose brackets do not hold an IPv6 or
    a future address. *)
Class BracketedHosts := bracketed_netloc_error : string → option string.

Record SplitResult := mkSplitResult {
  url_scheme : string;
  url_netloc : string;
  url_path : string;
  url_query : string;
  url_fragment : string
}.

(** Splits before the first character that satisfies [stop]. *)
Fixpoint break_at (stop : ascii → bool) (l : list ascii) : list ascii * list ascii :=
  match l with
  | [] => ([], [])
  | c :: l' => if stop c then ([], l) else let '(a, b) := break_at stop l' in (c :: a, b)
  end.
(** [text.partition(sep)] without the separator, for a one-character one. *)
Definition partition_char (sep : ascii) (l : list ascii) : list ascii * list ascii :=
  let '(a, b) := break_at (λ c, bool_decide (c = sep)) l in (a, tail b).
(** [text.rpartition(sep)[2]] *)
Definition after_last (sep : ascii) (l : list ascii) : list ascii :=
  reverse (break_at (λ c, bool_decide (c = sep)) (reverse l)).1.

Definition control_or_space (c : ascii) : bool := (N_of_ascii c <=? 32)%N.
Fixpoint lstrip_control (l : list ascii) : list ascii :=
  match l with
  | c :: l' => if control_or_space c then lstrip_control l' else l
  | [] => []
  end.
(** The bytes removed from anywhere in the URL: tab, line feed, return. *)
Definition unsafe_byte (c : ascii) : bool := py_in (N_of_ascii c) [9; 10; 13]%N.
Definition scheme_char (c : ascii) : bool := is_alnum c || py_in c ["+"; "-"; "."]%char.
Definition is_letter (c : ascii) : bool := is_upper c || is_lower c.

Definition split_scheme (url : list ascii) : list ascii * list ascii :=
  match break_at (λ c, bool_decide (c = ":"%char)) url with
  | (c :: s, _ :: rest) =>
      if is_letter c && forallb scheme_char (c :: s) then (lower_char <$> c :: s, rest) else ([], url)
  | _ => ([], url)
  end.

Definition netloc_end (c : ascii) : bool := py_in c ["/"; "?"; "#"]%char.
Definition split_netloc (url : list ascii) : list ascii * list ascii :=
  match url with
  | "/"%char :: "/"%char :: rest => break_at netloc_end rest
  | _ => ([], url)
  end.

Section urls.
Context `{BracketedHosts}.

Definition urlsplit (url : string) : result SplitResult :=
  let cleaned := List.filter (λ c, negb (unsafe_byte c)) (lstrip_control (chars url)) in
  let '(scheme, rest) := split_scheme cleaned in
  let '(netloc, rest) := split_netloc rest in
  let has c := existsb (λ d, bool_decide (d = c)) netloc in
  _ ← raise_if (xorb (has "["%char) (has "]"%char)) (ValueError "Invalid IPv6 URL");
  _ ← match bracketed_netloc_error (of_chars netloc) with
      | Some message => raise_if (has "["%char) (ValueError message)
      | None => Ok ()
      end;
  let '(rest, fragment) := partition_char "#"%char rest in
  let '(path, query) := partition_char "?"%char rest in
  Ok (mkSplitResult (of_chars scheme) (of_chars netloc) (of_chars path) (of_chars query)
        (of_chars fragment)).
End urls.

(** [parts.hostname] is not empty and [parts.username] is [None]. *)
Definition host_of (netloc : list ascii) : list ascii :=
  let info := after_last "@"%char netloc in
  match break_at (λ c, bool_decide (c = "["%char)) info with
  | (_, _ :: bracketed) => (partition_char "]"%char bracketed).1
  | (_, []) => (partition_char ":"%char info).1
  end.
Definition has_credentials (netloc : list ascii) : bool := existsb (λ c, bool_decide (c = "@"%char)) netloc.

(** The destination is an HTTPS URL with a host and neither credentials nor a
    fragment. *)
Definition destination_ok (u : SplitResult) : bool :=
  bool_decide (url_scheme u = "https") && negb (bool_decide (host_of (chars (url_netloc u)) = [])) &&
  negb (has_credentials (chars (url_netloc u))) && is_empty (url_fragment u).

(** ** Payment handoffs *)

Record PaymentHandoff := mkPaymentHandoff {
  ph_schema_version : string;
  ph_handoff_id : string;
  ph_organization_id : string;
  ph_purchase_intent_id : string;
  ph_approval_request_id : string;
  ph_intent_hash : string;
  ph_destination_url : string;
  ph_recipient : string;
  ph_amount : Money;
  ph_reference : string;
  ph_created_at : datetime;
  ph_expires_at : datetime;
  ph_status : PaymentHandoffStatus.t;
  ph_opened_at : option datetime;
  ph_handoff_hash : string
}.

Definition handoff_payload (h : PaymentHandoff) : PyVal :=
  dict [("schema_version", VStr (ph_schema_version h)); ("handoff_id", VStr (ph_handoff_id h));
        ("organization_id", VStr (ph_organization_id h));
        ("purchase_intent_id", VStr (ph_purchase_intent_id h));
        ("approval_request_id", VStr (ph_approval_request_id h));
        ("intent_hash", VStr (ph_intent_hash h)); ("destination_url", VStr (ph_destination_url h));
        ("recipient", VStr (ph_recipient h)); ("amount", money_payload (ph_amount h));
        ("reference", VStr (ph_reference h)); ("created_at", VDatetime (ph_created_at h));
        ("expires_at", VDatetime (ph_expires_at h))].

(** [replace(handoff, status=..., opened_at=..., handoff_hash=...)] before the
    checks. *)
Definition with_handoff (h : PaymentHandoff) (status : PaymentHandoffStatus.t) (opened_at : option datetime)
    (hash : string) : PaymentHandoff :=
  mkPaymentHandoff (ph_schema_version h) (ph_handoff_id h) (ph_organization_id h) (ph_purchase_intent_id h)
    (ph_approval_request_id h) (ph_intent_hash h) (ph_destination_url h) (ph_recipient h) (ph_amount h)
    (ph_reference h) (ph_created_at h) (ph_expires_at h) status opened_at hash.

(** The checks on the status and the time of opening. *)
Definition check_opening (h : PaymentHandoff) : result unit :=
  _ ← require_aware_opt (ph_opened_at h) "opened_at";
  if bool_decide (ph_status h = PaymentHandoffStatus.OPENED) then
    match ph_opened_at h with
    | None => Raise (DomainValidationError "opened payment handoff requires opened_at")
    | Some d =>
        early ← dt_le (ph_expires_at h) d;
        invalid_when early "expired payment handoff cannot be opened"
    end
  else invalid_when (negb (is_none (ph_opened_at h))) "only an opened payment handoff may have opened_at".

Section handoffs.
Context `{Rfc8785} `{BracketedHosts}.

(** The checks that do not read the lifecycle fields. *)
Definition check_authorization (h : PaymentHandoff) : result unit :=
  _ ← require_ids [("handoff_id", ph_handoff_id h); ("organization_id", ph_organization_id h);
                   ("purchase_intent_id", ph_purchase_intent_id h);
                   ("approval_request_id", ph_approval_request_id h)];
  _ ← require_hash (ph_intent_hash h) "intent_hash";
  _ ← invalid_when (is_empty (ph_schema_version h)) "schema_version is required";
  _ ← invalid_when (is_empty (strip (ph_recipient h)) || is_empty (strip (ph_reference h)))
        "payment handoff recipient and reference are required";
  destination ← urlsplit (ph_destination_url h);
  _ ← invalid_when (negb (destination_ok destination))
        "payment handoff destination must be an HTTPS URL without credentials or fragment";
  _ ← require_aware (ph_created_at h) "created_at";
  _ ← require_aware (ph_expires_at h) "expires_at";
  late ← dt_le (ph_expires_at h) (ph_created_at h);
  invalid_when late "payment handoff must expire after it is created".

Definition PaymentHandoff_check (h : PaymentHandoff) : result PaymentHandoff :=
  _ ← check_authorization h;
  _ ← check_opening h;
  hash ← bind_hash (handoff_payload h) (ph_handoff_hash h) "handoff_hash"
           "handoff_hash does not match the canonical payload";
  Ok (with_handoff h (ph_status h) (ph_opened_at h) hash).
End handoffs.

(** ** Destinations *)

Lemma break_at_spec stop l :
  l = ((break_at stop l).1 ++ (break_at stop l).2)%list ∧
  (∀ c, c ∈ (break_at stop l).1 → stop c = false) ∧
  ((break_at stop l).2 = [] ∨ ∃ c k, (break_at stop l).2 = c :: k ∧ stop c = true).
Proof.
  induction l as [|c l IH]; [split_and!; [done|by intros c ?%not_elem_of_nil|by left]|].
  cbn [break_at]. destruct (stop c) eqn:Ec; [split_and!; [done|by intros d ?%not_elem_of_nil|right; eauto]|].
  destruct (break_at stop l) as [a b]. cbn in *. destruct IH as (-> & Ha & Hb).
  split_and!; [done| |done]. intros d [->|Hd]%elem_of_cons; auto.
Qed.

(** The text [urlsplit] works on. *)
Definition cleaned_url (url : string) : list ascii :=
  List.filter (λ c, negb (unsafe_byte c)) (lstrip_control (chars url)).

Lemma split_scheme_spec l :
  (split_scheme l).1 = [] ∧ (split_scheme l).2 = l ∨
  ∃ s, (split_scheme l).1 = lower_char <$> s ∧ l = (s ++ ":"%char :: (split_scheme l).2)%list.
Proof.
  unfold split_scheme. pose proof (break_at_spec (λ c, bool_decide (c = ":"%char)) l) as (E & _ & Hb).
  destruct (break_at _ l) as [[|c s] [|d rest]]; cbn in *; try by left.
  destruct (_ && _); [|by left]. right. exists (c :: s). split; [done|].
  destruct Hb as [?|(? & ? & [= <- <-] & ->%bool_decide_eq_true)]; [done|]. by rewrite E.
Qed.

Lemma split_netloc_spec l :
  (split_netloc l).1 = [] ∨
  l = ("/"%char :: "/"%char :: (split_netloc l).1 ++ (split_netloc l).2)%list ∧
  (∀ c, c ∈ (split_netloc l).1 → netloc_end c = false) ∧
  ((split_netloc l).2 = [] ∨ ∃ c k, (split_netloc l).2 = c :: k ∧ netloc_end c = true).
Proof.
  unfold split_netloc. destruct l as [|c l]; [by left|].
  destruct (decide (c = "/"%char)) as [->|Hc]; [|left; by repeat case_match].
  destruct l as [|c l]; [by left|].
  destruct (decide (c = "/"%char)) as [->|Hc]; [|left; by repeat case_match].
  right. destruct (break_at_spec netloc_end l) as (E & H1 & H2). split_and!; [by rewrite <- E|done|done].
Qed.

Lemma urlsplit_parts `{BracketedHosts} url u :
  urlsplit url = Ok u →
  url_scheme u = of_chars (split_scheme (cleaned_url url)).1 ∧
  url_netloc u = of_chars (split_netloc (split_scheme (cleaned_url url)).2).1.
Proof.
  unfold urlsplit, cleaned_url. destruct (split_scheme _) as [scheme rest]. cbn [fst snd].
  destruct (split_netloc rest) as [netloc rest']. cbn [fst snd].
  intros (? & _ & E)%bind_Ok. apply bind_Ok in E as (? & _ & E).
  destruct (partition_char "#"%char rest') as [r f]. destruct (partition_char "?"%char r) as [p q].
  by injection E as <-.
Qed.

Section handoff_destination.
Context `{Rfc8785} `{BracketedHosts}.

(** The destination a person is sent to is an HTTPS address that carries no
    credentials: the text splits into the scheme [https] in any case, [://], a
    non-empty authority without [@] that ends at the first slash, question
    mark or hash, and the rest. *)
Theorem handoff_destination_https (h h' : PaymentHandoff) :
  PaymentHandoff_check h = Ok h' →
  ∃ scheme authority rest,
    cleaned_url (ph_destination_url h') =
      (scheme ++ chars "://" ++ authority ++ rest)%list ∧
    lower (of_chars scheme) = "https" ∧ authority ≠ [] ∧
    (∀ c, c ∈ authority → c ≠ "@"%char ∧ netloc_end c = false) ∧
    (rest = [] ∨ ∃ c k, rest = c :: k ∧ netloc_end c = true).
Proof.
  intros ([] & Ha & E)%bind_Ok. apply bind_Ok in E as (? & _ & E). apply bind_Ok in E as (hash & _ & [= <-]).
  change (ph_destination_url (with_handoff _ _ _ _)) with (ph_destination_url h).
  unfold check_authorization, invalid_when in Ha. do 4 apply bind_Ok in Ha as (? & _ & Ha).
  apply bind_Ok in Ha as (u & [Es En]%urlsplit_parts & Ha). apply bind_Ok in Ha as (? & Hd%raise_if_Ok & _).
  apply negb_false_iff in Hd. unfold destination_ok in Hd. rewrite !andb_true_iff, !negb_true_iff in Hd.
  destruct Hd as [[[Hs%bool_decide_eq_true Hh%bool_decide_eq_false] Hc] _]. rewrite Es in Hs. rewrite En in Hh, Hc.
  rewrite chars_of_chars in Hh, Hc. clear Es En u.
  destruct (split_scheme_spec (cleaned_url (ph_destination_url h))) as [[E _]|(s & E & Eu)];
    [by rewrite E in Hs|]. rewrite E in Hs. clear E.
  remember (split_scheme (cleaned_url (ph_destination_url h))).2 as l eqn:El0. clear El0.
  destruct (split_netloc_spec l) as [E|(El & Hend & Hrest)]; [by rewrite E in Hh|].
  exists s, (split_netloc l).1, (split_netloc l).2.
  split_and!; [by rewrite Eu, El at 1|unfold lower; by rewrite chars_of_chars|by intros E; rewrite E in Hh| |done].
  intros c Hin. split; [|by apply Hend]. intros ->. unfold has_credentials in Hc.
  pose proof (proj1 (existsb_false _ _) Hc _ Hin) as Hf. by apply bool_decide_eq_false in Hf.
Qed.
End handoff_destination.
