(* ===== verification/StateMachines.v ===== *)
(** * Approvals and payment handoffs: [domain/state_machines.py]

    The transitions of an approval binding and of a payment handoff.  A binding
    that was approved through [approve_exact] was approved by presenting exactly
    its hash, and no approved binding has been reconciled with another one
    since; the bare [transition] approves without a hash.  A handoff is opened
    at most once, before it expires, and with the authorisation it was created
    with. *)
From S2P Require Import Prelude PyText PyNumber PyTime Enums Money Hashing DomainModels.

Local Open Scope string_scope.
Local Open Scope Z_scope.

(** ** Approvals *)

Module ApprovalTransitionService.
(** [None] is a status without an entry. *)
Definition _allowed (s : ApprovalStatus.t) : option (list ApprovalStatus.t) :=
  match s with
  | ApprovalStatus.NOT_REQUIRED => None
  | ApprovalStatus.NOT_REQUESTED => Some [ApprovalStatus.PENDING]
  | ApprovalStatus.PENDING =>
      Some [ApprovalStatus.APPROVED; ApprovalStatus.REJECTED; ApprovalStatus.REVOKED;
            ApprovalStatus.EXPIRED; ApprovalStatus.SUPERSEDED]
  | ApprovalStatus.APPROVED => Some [ApprovalStatus.REVOKED; ApprovalStatus.SUPERSEDED]
  | ApprovalStatus.REJECTED | ApprovalStatus.REVOKED | ApprovalStatus.EXPIRED
  | ApprovalStatus.SUPERSEDED => Some []
  end.

Definition transition (current target : ApprovalStatus.t) : result ApprovalStatus.t :=
  match _allowed current with
  | None => Raise (KeyError (ApprovalStatus.value current))
  | Some targets =>
      _ ← raise_if (negb (py_in target targets))
            (InvalidTransitionError ("approval cannot transition " ++ ApprovalStatus.value current ++
               " -> " ++ ApprovalStatus.value target));
      Ok target
  end.

Definition approve_exact (binding : ApprovalBinding) (presented_intent_hash : string) : result ApprovalBinding :=
  _ ← require_hash presented_intent_hash "presented_intent_hash";
  _ ← invalid_when (negb (bool_decide (presented_intent_hash = ab_intent_hash binding)))
        "approval payload hash does not match Purchase Intent";
  status ← transition (ab_status binding) ApprovalStatus.APPROVED;
  ApprovalBinding_check (mkApprovalBinding (ab_approval_request_id binding) (ab_intent_hash binding) status).

Definition reconcile_payload (binding : ApprovalBinding) (current_intent_hash : string) : result ApprovalBinding :=
  _ ← require_hash current_intent_hash "current_intent_hash";
  if bool_decide (ab_intent_hash binding = current_intent_hash) then Ok binding
  else if py_in (ab_status binding) [ApprovalStatus.PENDING; ApprovalStatus.APPROVED]
  then ApprovalBinding_check (mkApprovalBinding (ab_approval_request_id binding) (ab_intent_hash binding)
         ApprovalStatus.SUPERSEDED)
  else Ok binding.
End ApprovalTransitionService.

(** ** Payment handoffs *)

Module PaymentHandoffTransitionService.
Definition _allowed (s : PaymentHandoffStatus.t) : list PaymentHandoffStatus.t :=
  match s with
  | PaymentHandoffStatus.READY =>
      [PaymentHandoffStatus.OPENED; PaymentHandoffStatus.EXPIRED; PaymentHandoffStatus.CANCELLED]
  | PaymentHandoffStatus.OPENED | PaymentHandoffStatus.EXPIRED | PaymentHandoffStatus.CANCELLED => []
  end.

Section transition.
Context `{Rfc8785} `{BracketedHosts}.

Definition transition (handoff : PaymentHandoff) (target : PaymentHandoffStatus.t) (at_ : datetime)
  : result PaymentHandoff :=
  _ ← require_aware at_ "at";
  _ ← raise_if (negb (py_in target (_allowed (ph_status handoff))))
        (InvalidTransitionError ("payment handoff cannot transition " ++
           PaymentHandoffStatus.value (ph_status handoff) ++ " -> " ++ PaymentHandoffStatus.value target));
  if bool_decide (target = PaymentHandoffStatus.OPENED) then
    late ← dt_le (ph_expires_at handoff) at_;
    _ ← raise_if late (InvalidTransitionError "expired payment handoff cannot be opened");
    PaymentHandoff_check (with_handoff handoff target (Some at_) (ph_handoff_hash handoff))
  else PaymentHandoff_check (with_handoff handoff target (ph_opened_at handoff) (ph_handoff_hash handoff)).
End transition.
End PaymentHandoffTransitionService.

(** ** The history of an approval *)

(** What is done to a binding: its status is moved by [transition], which asks
    for no hash, it is approved with a presented hash, it is reconciled with the
    current hash. *)
Inductive approval_action :=
| Decide (target : ApprovalStatus.t)
| Approve (presented : string)
| Reconcile (current : string).

Definition with_status (b : ApprovalBinding) (s : ApprovalStatus.t) : ApprovalBinding :=
  mkApprovalBinding (ab_approval_request_id b) (ab_intent_hash b) s.

Inductive approval_step (b : ApprovalBinding) : approval_action → ApprovalBinding → Prop :=
| step_decide target :
    ApprovalTransitionService.transition (ab_status b) target = Ok target →
    approval_step b (Decide target) (with_status b target)
| step_approve presented b' :
    ApprovalTransitionService.approve_exact b presented = Ok b' → approval_step b (Approve presented) b'
| step_reconcile current b' :
    ApprovalTransitionService.reconcile_payload b current = Ok b' → approval_step b (Reconcile current) b'.

Inductive approval_history (b : ApprovalBinding) : list approval_action → ApprovalBinding → Prop :=
| history_start : approval_history b [] b
| history_step l a b1 b2 :
    approval_history b l b1 → approval_step b1 a b2 → approval_history b (l ++ [a]) b2.

Lemma binding_check_Ok b b' :
  ApprovalBinding_check b = Ok b' ↔
  b' = b ∧ is_id (ab_approval_request_id b) = true ∧ is_hash (ab_intent_hash b) = true.
Proof.
  unfold ApprovalBinding_check. split.
  - intros ([] & Hi%require_id_Ok & E)%bind_Ok. by apply bind_Ok in E as ([] & Hh%require_hash_Ok & [= ->]).
  - intros (-> & Hi & Hh). by rewrite (proj2 (require_id_Ok _ _ ()) Hi), (proj2 (require_hash_Ok _ _ ()) Hh).
Qed.

Lemma transition_Ok s t r :
  ApprovalTransitionService.transition s t = Ok r ↔
  r = t ∧ ∃ ts, ApprovalTransitionService._allowed s = Some ts ∧ t ∈ ts.
Proof.
  unfold ApprovalTransitionService.transition. destruct (ApprovalTransitionService._allowed s) as [ts|].
  - split.
    + intros ([] & Hin%raise_if_Ok%negb_false_iff%py_in_true & [= ->])%bind_Ok. eauto.
    + intros (-> & ts' & [= <-] & Hin%py_in_true). by rewrite Hin.
  - split; [done|]. by intros (_ & ts & ? & _).
Qed.

Lemma transition_to_approved s :
  ApprovalTransitionService.transition s ApprovalStatus.APPROVED = Ok ApprovalStatus.APPROVED ↔
  s = ApprovalStatus.PENDING.
Proof. by destruct s. Qed.

Lemma approve_exact_Ok b h b' :
  ApprovalTransitionService.approve_exact b h = Ok b' ↔
  h = ab_intent_hash b ∧ ab_status b = ApprovalStatus.PENDING ∧ b' = with_status b ApprovalStatus.APPROVED ∧
  ApprovalBinding_check b = Ok b.
Proof.
  unfold ApprovalTransitionService.approve_exact, invalid_when. split.
  - intros (? & _ & E)%bind_Ok.
    apply bind_Ok in E as (? & ->%raise_if_Ok%negb_false_iff%bool_decide_eq_true & E).
    apply bind_Ok in E as (s & Hs & (-> & Hi & Hh)%binding_check_Ok).
    pose proof Hs as Hs'. apply transition_Ok in Hs' as [-> _]. apply transition_to_approved in Hs.
    split_and!; try done. by apply binding_check_Ok.
  - intros (-> & Hs & -> & Hc). pose proof Hc as (_ & Hi & Hh)%binding_check_Ok.
    rewrite (proj2 (require_hash_Ok _ _ ()) Hh), bool_decide_eq_true_2 by done. cbn [negb raise_if mbind result_bind].
    rewrite (proj2 (transition_to_approved _) Hs). cbn [mbind result_bind]. by apply binding_check_Ok.
Qed.

Lemma reconcile_Ok b h b' :
  ApprovalTransitionService.reconcile_payload b h = Ok b' →
  is_hash h = true ∧
  (b' = b ∧ (ab_intent_hash b = h ∨ ab_status b ∉ [ApprovalStatus.PENDING; ApprovalStatus.APPROVED]) ∨
   b' = with_status b ApprovalStatus.SUPERSEDED ∧ ab_intent_hash b ≠ h ∧
     ab_status b ∈ [ApprovalStatus.PENDING; ApprovalStatus.APPROVED]).
Proof.
  unfold ApprovalTransitionService.reconcile_payload. intros (? & Hh%require_hash_Ok & E)%bind_Ok.
  split; [done|]. case_bool_decide as Eh; [injection E as <-; auto|].
  destruct (py_in _ _) eqn:Ein.
  - apply py_in_true in Ein. apply binding_check_Ok in E as [-> _]. auto.
  - apply py_in_false in Ein. injection E as <-. auto.
Qed.

Lemma step_intent_hash b a b' : approval_step b a b' → ab_intent_hash b' = ab_intent_hash b.
Proof.
  destruct 1 as [t _|h b' E|h b' E]; [done| |].
  - by apply approve_exact_Ok in E as (_ & _ & -> & _).
  - apply reconcile_Ok in E as [_ [[-> _]|[-> _]]]; done.
Qed.

Lemma history_intent_hash b0 l b : approval_history b0 l b → ab_intent_hash b = ab_intent_hash b0.
Proof. induction 1 as [|l a b1 b2 _ IH Hs]; [done|]. rewrite <- IH. by eapply step_intent_hash. Qed.

(** What approves a pending binding of this hash. *)
Definition approves (hash : string) (a : approval_action) : Prop :=
  a = Approve hash ∨ a = Decide ApprovalStatus.APPROVED.

(** A step that ends approved either approves, or reconciles an approved
    binding with its own hash. *)
Lemma step_to_approved b a b' :
  approval_step b a b' → ab_status b' = ApprovalStatus.APPROVED →
  approves (ab_intent_hash b) a ∧ ab_status b = ApprovalStatus.PENDING ∨
  a = Reconcile (ab_intent_hash b) ∧ ab_status b = ApprovalStatus.APPROVED.
Proof.
  destruct 1 as [t E|h b' E|h b' E]; intros Hs.
  - cbn in Hs. subst t. apply transition_to_approved in E. left. by split; [right|].
  - apply approve_exact_Ok in E as (-> & Hp & _). left. by split; [left|].
  - apply reconcile_Ok in E as [_ [[-> Hor]|[-> _]]]; [|done]. right. split; [|done].
    destruct Hor as [->|Hn]; [done|]. rewrite Hs in Hn. by destruct Hn; apply py_in_true.
Qed.

(** C16: an approval is bound to one exact intent.  The hash of a binding never
    changes.  A binding that was not approved at first and is approved now was
    pending when it was approved, by presenting exactly its intent hash to
    [approve_exact] or by the bare [transition], which asks for no hash; and
    nothing happened to it since but reconciliations with that same hash.  So
    where the bare transition is not used to approve, the hash was presented;
    and [approve_exact] approves a well-formed pending binding for its own hash
    and nothing else. *)
Theorem approval_is_exact (b0 b : ApprovalBinding) (l : list approval_action) :
  approval_history b0 l b → ab_status b0 ≠ ApprovalStatus.APPROVED → ab_status b = ApprovalStatus.APPROVED →
  ab_intent_hash b = ab_intent_hash b0 ∧
  (∃ l1 a l2 b1, l = (l1 ++ a :: l2)%list ∧ approval_history b0 l1 b1 ∧
    ab_status b1 = ApprovalStatus.PENDING ∧ approves (ab_intent_hash b) a ∧
    (Decide ApprovalStatus.APPROVED ∉ l → a = Approve (ab_intent_hash b)) ∧
    ∀ a, a ∈ l2 → a = Reconcile (ab_intent_hash b)) ∧
  ∀ b1 presented b2, ApprovalTransitionService.approve_exact b1 presented = Ok b2 ↔
    presented = ab_intent_hash b1 ∧ ab_status b1 = ApprovalStatus.PENDING ∧ b2 = with_status b1 ApprovalStatus.APPROVED ∧
    ApprovalBinding_check b1 = Ok b1.
Proof.
  intros Hist H0 Hb. split; [by eapply history_intent_hash|]. split; [|intros; apply approve_exact_Ok].
  induction Hist as [|l a b1 b2 Hist IH Hs]; [done|].
  rewrite (step_intent_hash _ _ _ Hs).
  destruct (step_to_approved _ _ _ Hs Hb) as [[Ha Hp]|[-> Ha]].
  - exists l, a, [], b1. split_and!; [done..| |by intros x ?%not_elem_of_nil].
    intros Hn. destruct Ha as [->|Ha]; [done|]. destruct Hn. rewrite Ha. set_solver.
  - destruct (IH Ha) as (l1 & a & l2 & b' & -> & Hh & Hp & Hap & Hn & Hall).
    exists l1, a, (l2 ++ [Reconcile (ab_intent_hash b1)])%list, b'.
    split_and!; [by rewrite <- app_assoc|done..| |].
    + intros Hno. apply Hn. intros Hin. apply Hno. apply elem_of_app. by left.
    + intros x [Hin| ->%list_elem_of_singleton]%elem_of_app; auto.
Qed.

(** Once an intent changes, no approval of it stays usable: after a
    reconciliation the binding is pending or approved only for the current
    hash, a binding for that hash is untouched, and a decided one never comes
    back. *)
Theorem reconciled_binding_current (b b' : ApprovalBinding) (current : string) :
  ApprovalTransitionService.reconcile_payload b current = Ok b' →
  (ab_status b' ∈ [ApprovalStatus.PENDING; ApprovalStatus.APPROVED] → ab_intent_hash b' = current) ∧
  (ab_intent_hash b = current → b' = b) ∧
  (ab_status b ∉ [ApprovalStatus.PENDING; ApprovalStatus.APPROVED] → b' = b) ∧
  ab_intent_hash b' = ab_intent_hash b.
Proof.
  intros E. apply reconcile_Ok in E as [_ [[-> Hor]|(-> & Hne & Hin)]]; split_and!; try done; [by destruct Hor|].
  by intros H%py_in_true.
Qed.

(** ** The life of a handoff *)

Section handoffs.
Context `{Rfc8785} `{BracketedHosts}.

Lemma with_handoff_same h : with_handoff h (ph_status h) (ph_opened_at h) (ph_handoff_hash h) = h.
Proof. by destruct h. Qed.

(** A handoff is constructed when its checks pass and keep it. *)
Definition constructed (h : PaymentHandoff) : Prop := PaymentHandoff_check h = Ok h.

Lemma handoff_check_Ok h h' :
  PaymentHandoff_check h = Ok h' ↔
  check_authorization h = Ok () ∧ check_opening h = Ok () ∧
  ∃ hash, content_hash (handoff_payload h) = Ok hash ∧
    (ph_handoff_hash h = "" ∨ ph_handoff_hash h = hash) ∧ h' = with_handoff h (ph_status h) (ph_opened_at h) hash.
Proof.
  unfold PaymentHandoff_check. split.
  - intros ([] & Ha & E)%bind_Ok. apply bind_Ok in E as ([] & Ho & E).
    apply bind_Ok in E as (hash & [Hh Hg]%bind_hash_Ok & [= <-]). split_and!; [done..|]. exists hash. naive_solver.
  - intros (-> & -> & hash & Hh & Hg & ->). cbn [mbind result_bind].
    assert (bind_hash (handoff_payload h) (ph_handoff_hash h) "handoff_hash"
      "handoff_hash does not match the canonical payload" = Ok hash) as ->; [|done].
    apply bind_hash_Ok. split; [done|]. destruct Hg as [?|E]; [auto|]. right. split; [done|].
    by eapply content_hash_is_hash.
Qed.

Lemma check_constructs h h' : PaymentHandoff_check h = Ok h' → constructed h'.
Proof.
  intros (Ha & Ho & hash & Hh & _ & ->)%handoff_check_Ok. apply handoff_check_Ok.
  split_and!; [done..|]. exists hash. split_and!; [done|by right|by destruct h].
Qed.

Lemma constructed_iff h :
  constructed h ↔
  check_authorization h = Ok () ∧ check_opening h = Ok () ∧ content_hash (handoff_payload h) = Ok (ph_handoff_hash h).
Proof.
  unfold constructed. rewrite handoff_check_Ok. split.
  - intros (Ha & Ho & hash & Hh & _ & E). split_and!; [done..|]. by rewrite E.
  - intros (Ha & Ho & Hh). split_and!; [done..|]. eexists. split_and!; [done|by right|].
    by rewrite with_handoff_same.
Qed.

Lemma authorization_aware h : check_authorization h = Ok () → is_aware (ph_expires_at h) = true.
Proof.
  unfold check_authorization, invalid_when. intros E. do 6 apply bind_Ok in E as (? & _ & E).
  apply bind_Ok in E as (? & _ & E). by apply bind_Ok in E as (? & Ha%require_aware_Ok & _).
Qed.

(** When a constructed handoff may be moved to [target] at [at_]. *)
Definition may_move (h : PaymentHandoff) (target : PaymentHandoffStatus.t) (at_ : datetime) : Prop :=
  is_aware at_ = true ∧ ph_status h = PaymentHandoffStatus.READY ∧ target ≠ PaymentHandoffStatus.READY ∧
  (target = PaymentHandoffStatus.OPENED → instant at_ < instant (ph_expires_at h)).

Definition moved (h : PaymentHandoff) (target : PaymentHandoffStatus.t) (at_ : datetime) : PaymentHandoff :=
  with_handoff h target (if bool_decide (target = PaymentHandoffStatus.OPENED) then Some at_ else None)
    (ph_handoff_hash h).

Lemma ready_unopened h :
  check_opening h = Ok () → ph_status h = PaymentHandoffStatus.READY → ph_opened_at h = None.
Proof.
  unfold check_opening, invalid_when. intros (? & _ & E)%bind_Ok Hs. rewrite Hs in E. cbn in E.
  by apply raise_if_Ok in E; destruct (ph_opened_at h).
Qed.

Lemma handoff_allowed_iff s t :
  t ∈ PaymentHandoffTransitionService._allowed s ↔
  s = PaymentHandoffStatus.READY ∧ t ≠ PaymentHandoffStatus.READY.
Proof. rewrite <- py_in_true. destruct s, t; cbn; naive_solver. Qed.

Lemma moved_constructed h target at_ : constructed h → may_move h target at_ → constructed (moved h target at_).
Proof.
  intros (Ha & Ho & Hh)%constructed_iff (Hat & Hs & Hne & Hexp). apply constructed_iff.
  split_and!; [done| |done]. unfold check_opening, moved, invalid_when. cbn.
  case_bool_decide as Ht; cbn; [|done].
  rewrite (proj2 (require_aware_Ok _ _ ()) Hat). cbn [mbind result_bind].
  rewrite dt_le_aware by (by try apply authorization_aware). cbn [mbind result_bind].
  rewrite (proj2 (Z.leb_gt _ _)); [done|auto].
Qed.

Lemma handoff_transition_cases h target at_ :
  constructed h →
  match PaymentHandoffTransitionService.transition h target at_ with
  | Ok h' => may_move h target at_ ∧ h' = moved h target at_
  | Raise e => ¬ may_move h target at_ ∧ is_domain_validation_error e = true
  end.
Proof.
  intros Hc. pose proof Hc as (Ha & Ho & _)%constructed_iff. unfold PaymentHandoffTransitionService.transition.
  unfold require_aware, may_move. destruct (is_aware at_) eqn:Hat; cbn [negb raise_if mbind result_bind]; [|naive_solver].
  destruct (py_in target _) eqn:Hin; cbn [negb raise_if mbind result_bind].
  - apply py_in_true, handoff_allowed_iff in Hin as [Hs Hne].
    assert (may_move h target at_ → PaymentHandoff_check (moved h target at_) = Ok (moved h target at_)) as Hm
      by by apply moved_constructed.
    unfold moved, may_move in *. rewrite (ready_unopened h Ho Hs). case_bool_decide as Ht.
    + rewrite dt_le_aware by (by try apply authorization_aware). cbn [mbind result_bind].
      destruct (Z.leb_spec (instant (ph_expires_at h)) (instant at_)); cbn [raise_if mbind result_bind].
      * split; [|done]. intros (_ & _ & _ & Hlt). specialize (Hlt Ht). lia.
      * rewrite Hm by done. done.
    + rewrite Hm by done. done.
  - apply py_in_false in Hin. rewrite handoff_allowed_iff in Hin. naive_solver.
Qed.

(** A constructed handoff moves exactly when it is READY, to another
    status, and opens only before it expires; the result differs from it only
    in the status and the time of opening, and every refusal is a domain
    error. *)
Theorem handoff_transition_exact (h : PaymentHandoff) (target : PaymentHandoffStatus.t) (at_ : datetime) :
  constructed h →
  match PaymentHandoffTransitionService.transition h target at_ with
  | Ok h' => may_move h target at_ ∧ h' = moved h target at_
  | Raise e => ¬ may_move h target at_ ∧ is_domain_validation_error e = true
  end.
Proof. apply handoff_transition_cases. Qed.

Definition handoff_step (h h' : PaymentHandoff) : Prop :=
  ∃ target at_, PaymentHandoffTransitionService.transition h target at_ = Ok h'.

Lemma handoff_step_moved h h' :
  constructed h → handoff_step h h' → ∃ target at_, may_move h target at_ ∧ h' = moved h target at_.
Proof.
  intros Hc (target & at_ & E). pose proof (handoff_transition_cases h target at_ Hc) as Hm.
  rewrite E in Hm. eauto.
Qed.

(** C17: a handoff is used once.  Whatever happens to a constructed handoff, its
    authorisation and its hash stay those it was created with, it stays
    constructed, at most one transition ever succeeds, and if it is open it
    was opened before it expired. *)
Theorem handoff_lifecycle (h0 h : PaymentHandoff) :
  constructed h0 → rtc handoff_step h0 h →
  constructed h ∧ handoff_payload h = handoff_payload h0 ∧ ph_handoff_hash h = ph_handoff_hash h0 ∧
  (h = h0 ∨ handoff_step h0 h ∧ ∀ h', ¬ handoff_step h h') ∧
  (ph_status h = PaymentHandoffStatus.OPENED →
     ∃ d, ph_opened_at h = Some d ∧ is_aware d = true ∧ instant d < instant (ph_expires_at h)).
Proof.
  intros Hc Hreach. assert (constructed h ∧ handoff_payload h = handoff_payload h0 ∧
    ph_handoff_hash h = ph_handoff_hash h0 ∧
    (h = h0 ∨ handoff_step h0 h ∧ ∀ h', ¬ handoff_step h h')) as (Hch & Hp & Hh & Hor).
  { destruct Hreach as [h|h0 h1 h Hstep Hrest]; [by split_and!; try left|].
    destruct (handoff_step_moved _ _ Hc Hstep) as (t & d & Hm & ->).
    assert (constructed (moved h0 t d)) as Hc1 by by apply moved_constructed.
    assert (∀ h', ¬ handoff_step (moved h0 t d) h') as Hend.
    { intros h' (t' & d' & (_ & Hs & _) & _)%(handoff_step_moved _ _ Hc1). by destruct Hm as (_ & _ & ? & _). }
    apply rtc_inv in Hrest as [<-|(h2 & Hs & _)]; [|by destruct (Hend h2)].
    split_and!; [done..|by right]. }
  split_and!; try done. intros Hs. apply constructed_iff in Hch as (Ha & Ho & _).
  unfold check_opening, invalid_when in Ho. apply bind_Ok in Ho as (? & Hw & E). rewrite Hs in E.
  destruct (ph_opened_at h) as [d|]; [|done]. apply require_aware_Ok in Hw. cbn in E.
  rewrite dt_le_aware in E by (by try apply authorization_aware). exists d. split_and!; [done..|].
  apply bind_Ok in E as (? & [= <-] & Hlt%raise_if_Ok). lia.
Qed.
End handoffs.
