(* ===== verification/Exchange.v ===== *)
(** * The two-party exchange: [domain/bilateral_exchange.py]

    A buyer and a seller send commands to a coordinator, which advances a state
    and releases to each party a projection of what both may see.  Pydantic's
    field constraints are part of the construction of a command.  An agreement
    is shown to need both parties, in the one order the protocol allows, and
    what is released to hold no field of a private plane at any depth. *)
From S2P Require Import Prelude PyText PyNumber PyTime Enums Money Sha256 Hashing DomainModels.

Local Open Scope string_scope.
Local Open Scope Z_scope.

(** ** Enumerations *)

Module ExchangeParty.
Inductive t := BUYER | SELLER | SYSTEM.
#[global] Instance eq_dec : EqDecision t.
Proof. solve_decision. Defined.
Definition value (p : t) : string :=
  match p with BUYER => "BUYER" | SELLER => "SELLER" | SYSTEM => "SYSTEM" end.
End ExchangeParty.

Module ExchangeState.
Inductive t :=
| CREATED | REQUIREMENT_RELEASED | EVIDENCE_RELEASED | OFFERED | COUNTERED
| AGREED_PENDING_APPROVAL | APPROVED_FOR_HANDOFF | REJECTED | EXPIRED.
#[global] Instance eq_dec : EqDecision t.
Proof. solve_decision. Defined.
Definition value (s : t) : string :=
  match s with
  | CREATED => "CREATED" | REQUIREMENT_RELEASED => "REQUIREMENT_RELEASED"
  | EVIDENCE_RELEASED => "EVIDENCE_RELEASED" | OFFERED => "OFFERED" | COUNTERED => "COUNTERED"
  | AGREED_PENDING_APPROVAL => "AGREED_PENDING_APPROVAL"
  | APPROVED_FOR_HANDOFF => "APPROVED_FOR_HANDOFF" | REJECTED => "REJECTED" | EXPIRED => "EXPIRED"
  end.
End ExchangeState.

(** The literals of [PartyCommand.command_type]. *)
Module CommandType.
Inductive t :=
| RELEASE_REQUIREMENT | PUBLISH_EVIDENCE | PROPOSE_OFFER | COUNTER_OFFER | ACCEPT_OFFER
| ACCEPT_COUNTER | APPROVE_HANDOFF | REJECT | EXPIRE.
#[global] Instance eq_dec : EqDecision t.
Proof. solve_decision. Defined.
End CommandType.

(** ** Private fields *)

Definition _PRIVATE_PARTS : list string :=
  ["buyer_private"; "seller_private"; "hidden_budget"; "reservation_value"; "seller_floor";
   "private_notes"; "private_source"].

Definition private_text (parts : list string) (normalized : string) : bool :=
  existsb (λ part, str_contains part normalized) parts.

Definition has_private (value : PyVal) : bool :=
  some_key (λ key, private_text _PRIVATE_PARTS (casefold key)) value.

Definition _reject_private_fields (value : PyVal) : result unit :=
  raise_if (has_private value) (ValueError "party command contains a private-plane field").

(** ** Commands *)

Record PartyCommand := mkPartyCommand {
  pc_id : string;
  pc_case_id : string;
  pc_party : ExchangeParty.t;
  pc_actor_id : string;
  pc_command_type : CommandType.t;
  pc_expected_version : Z;
  pc_idempotency_key : string;
  pc_payload : PyVal
}.

Definition _COMMAND_OWNERS (c : CommandType.t) : ExchangeParty.t :=
  match c with
  | CommandType.RELEASE_REQUIREMENT | CommandType.PROPOSE_OFFER | CommandType.ACCEPT_COUNTER =>
      ExchangeParty.BUYER
  | CommandType.PUBLISH_EVIDENCE | CommandType.COUNTER_OFFER | CommandType.ACCEPT_OFFER =>
      ExchangeParty.SELLER
  | CommandType.APPROVE_HANDOFF | CommandType.REJECT | CommandType.EXPIRE => ExchangeParty.SYSTEM
  end.

(** [Field(min_length=1, max_length=n)] *)
Definition length_within (n : nat) (s : string) : bool :=
  (1 <=? length (chars s))%nat && (length (chars s) <=? n)%nat.
(** [dict[str, Any]] *)
Definition is_string_dict (v : PyVal) : bool :=
  match v with
  | VDict l => forallb (λ p : dict_key * PyVal, match p.1 with KStr _ => true | KOther _ => false end) l
  | _ => false
  end.

(** The construction of a command: its fields, then [validate_owner]. *)
Definition PartyCommand_check (c : PartyCommand) : result PartyCommand :=
  _ ← raise_if (negb (length_within 64 (pc_id c) && length_within 64 (pc_case_id c) &&
                      length_within 100 (pc_actor_id c) && (1 <=? pc_expected_version c) &&
                      length_within 128 (pc_idempotency_key c) && is_string_dict (pc_payload c)))
        (ValueError "PartyCommand");
  _ ← raise_if (negb (bool_decide (pc_party c = _COMMAND_OWNERS (pc_command_type c))))
        (ValueError "party does not own this command type");
  _ ← _reject_private_fields (pc_payload c);
  Ok c.

(** ** The coordinator *)

Record CoordinatorState := mkCoordinatorState {
  cs_case_id : string;
  cs_state : ExchangeState.t;
  cs_version : Z;
  cs_requirement : option PyVal;
  cs_evidence : option PyVal;
  cs_current_offer : option PyVal;
  cs_approval : option PyVal;
  cs_last_command_id : option string
}.

Definition new_case (case_id : string) : CoordinatorState :=
  mkCoordinatorState case_id ExchangeState.CREATED 1 None None None None None.

Record PartyProjection := mkPartyProjection {
  pp_case_id : string;
  pp_party : ExchangeParty.t;
  pp_state : ExchangeState.t;
  pp_version : Z;
  pp_released : PyVal;
  pp_source_command_id : string;
  pp_projection_hash : string
}.

Record CompiledTransition := mkCompiledTransition {
  ct_previous_state : ExchangeState.t;
  ct_next_state : CoordinatorState;
  ct_buyer_projection : PartyProjection;
  ct_seller_projection : PartyProjection
}.

Definition _TRANSITIONS (s : ExchangeState.t) (c : CommandType.t) : option ExchangeState.t :=
  match s, c with
  | ExchangeState.CREATED, CommandType.RELEASE_REQUIREMENT => Some ExchangeState.REQUIREMENT_RELEASED
  | ExchangeState.REQUIREMENT_RELEASED, CommandType.PUBLISH_EVIDENCE => Some ExchangeState.EVIDENCE_RELEASED
  | ExchangeState.EVIDENCE_RELEASED, CommandType.PROPOSE_OFFER => Some ExchangeState.OFFERED
  | ExchangeState.OFFERED, CommandType.COUNTER_OFFER => Some ExchangeState.COUNTERED
  | ExchangeState.OFFERED, CommandType.ACCEPT_OFFER => Some ExchangeState.AGREED_PENDING_APPROVAL
  | ExchangeState.COUNTERED, CommandType.ACCEPT_COUNTER => Some ExchangeState.AGREED_PENDING_APPROVAL
  | ExchangeState.AGREED_PENDING_APPROVAL, CommandType.APPROVE_HANDOFF =>
      Some ExchangeState.APPROVED_FOR_HANDOFF
  | _, _ => None
  end.

(** What a command changes, on top of the state, the version and the last
    command. *)
Definition changes (s : CoordinatorState) (c : PartyCommand) (target : ExchangeState.t) : CoordinatorState :=
  let set (t : list CommandType.t) (old : option PyVal) : option PyVal :=
    if py_in (pc_command_type c) t then Some (pc_payload c) else old in
  mkCoordinatorState (cs_case_id s) target (cs_version s + 1)
    (set [CommandType.RELEASE_REQUIREMENT] (cs_requirement s))
    (set [CommandType.PUBLISH_EVIDENCE] (cs_evidence s))
    (set [CommandType.PROPOSE_OFFER; CommandType.COUNTER_OFFER] (cs_current_offer s))
    (set [CommandType.APPROVE_HANDOFF] (cs_approval s))
    (Some (pc_id c)).

Definition optional_entry (key : string) (o : option PyVal) : list (string * PyVal) :=
  match o with Some v => [(key, v)] | None => [] end.

(** The dictionary [released]. *)
Definition released (s : CoordinatorState) : PyVal :=
  dict (optional_entry "requirement" (cs_requirement s) ++ optional_entry "evidence" (cs_evidence s) ++
        optional_entry "current_offer" (cs_current_offer s) ++ optional_entry "approval" (cs_approval s))%list.

Definition target_of (s : ExchangeState.t) (c : CommandType.t) : option ExchangeState.t :=
  if py_in c [CommandType.REJECT; CommandType.EXPIRE]
  then Some (if bool_decide (c = CommandType.REJECT) then ExchangeState.REJECTED else ExchangeState.EXPIRED)
  else _TRANSITIONS s c.

(** [rfc8785.dumps] of a plain value: the text, or the error it raises. *)
Class RawJson := dumps_raw : PyVal → result string.

Section exchange.
Context `{RawJson}.

Definition projection_payload (s : CoordinatorState) (party : ExchangeParty.t) (command_id : string) : PyVal :=
  dict [("case_id", VStr (cs_case_id s)); ("party", VStr (ExchangeParty.value party));
        ("state", VStr (ExchangeState.value (cs_state s))); ("version", VInt (cs_version s));
        ("released", released s); ("source_command_id", VStr command_id)].

Definition _projection (s : CoordinatorState) (party : ExchangeParty.t) (command_id : string)
  : result PartyProjection :=
  text ← dumps_raw (projection_payload s party command_id);
  Ok (mkPartyProjection (cs_case_id s) party (cs_state s) (cs_version s) (released s) command_id
        ("sha256:" ++ sha256_hex text)).

Definition compile_party_command (s : CoordinatorState) (c : PartyCommand) : result CompiledTransition :=
  _ ← raise_if (negb (bool_decide (pc_case_id c = cs_case_id s)))
        (ExchangeConflict "command targets another exchange case");
  _ ← raise_if (negb (bool_decide (pc_expected_version c = cs_version s)))
        (ExchangeConflict "command expected a stale coordinator version");
  match target_of (cs_state s) (pc_command_type c) with
  | None => Raise (ExchangeConflict "command is invalid for the current exchange state")
  | Some target =>
      let next_state := changes s c target in
      buyer ← _projection next_state ExchangeParty.BUYER (pc_id c);
      seller ← _projection next_state ExchangeParty.SELLER (pc_id c);
      Ok (mkCompiledTransition (cs_state s) next_state buyer seller)
  end.

(** ** The life of a case *)

(** [s] accepts the constructed command [c] and becomes [s']. *)
Definition accepts (s : CoordinatorState) (c : PartyCommand) (s' : CoordinatorState) : Prop :=
  PartyCommand_check c = Ok c ∧ ct_next_state <$> compile_party_command s c = Ok s'.

Inductive exchange_run (s : CoordinatorState) : list PartyCommand → CoordinatorState → Prop :=
| run_start : exchange_run s [] s
| run_step l c s1 s2 : exchange_run s l s1 → accepts s1 c s2 → exchange_run s (l ++ [c]) s2.

Lemma command_check_Ok c c' :
  PartyCommand_check c = Ok c' →
  pc_party c = _COMMAND_OWNERS (pc_command_type c) ∧ has_private (pc_payload c) = false.
Proof.
  unfold PartyCommand_check, _reject_private_fields. intros (? & _ & E)%bind_Ok.
  apply bind_Ok in E as (? & Ho%raise_if_Ok%negb_false_iff%bool_decide_eq_true & E).
  by apply bind_Ok in E as (? & Hp%raise_if_Ok & _).
Qed.

Lemma command_check_id c c' : PartyCommand_check c = Ok c' → c' = c.
Proof.
  unfold PartyCommand_check. intros (? & _ & E)%bind_Ok. apply bind_Ok in E as (? & _ & E).
  by apply bind_Ok in E as (? & _ & [= ->]).
Qed.

Lemma compile_Ok s c t :
  compile_party_command s c = Ok t →
  pc_case_id c = cs_case_id s ∧ pc_expected_version c = cs_version s ∧ ct_previous_state t = cs_state s ∧
  (∃ target, target_of (cs_state s) (pc_command_type c) = Some target ∧ ct_next_state t = changes s c target) ∧
  _projection (ct_next_state t) ExchangeParty.BUYER (pc_id c) = Ok (ct_buyer_projection t) ∧
  _projection (ct_next_state t) ExchangeParty.SELLER (pc_id c) = Ok (ct_seller_projection t).
Proof.
  unfold compile_party_command. intros (? & Hc%raise_if_Ok%negb_false_iff%bool_decide_eq_true & E)%bind_Ok.
  apply bind_Ok in E as (? & Hv%raise_if_Ok%negb_false_iff%bool_decide_eq_true & E).
  destruct (target_of _ _) as [target|]; [|done].
  apply bind_Ok in E as (b & Hb & E). apply bind_Ok in E as (k & Hk & [= <-]). split_and!; try done. by exists target.
Qed.

Lemma accepts_Ok s c s' :
  accepts s c s' →
  pc_party c = _COMMAND_OWNERS (pc_command_type c) ∧ has_private (pc_payload c) = false ∧
  pc_expected_version c = cs_version s ∧
  ∃ target, target_of (cs_state s) (pc_command_type c) = Some target ∧ s' = changes s c target.
Proof.
  intros [[Ho Hp]%command_check_Ok (t & Ht & ->)%fmap_Ok].
  apply compile_Ok in Ht as (_ & Hv & _ & Hn & _). by split_and!.
Qed.
End exchange.

(** ** Agreements need both parties *)

(** The commands of [l] up to an offer, and what [s] holds of them. *)
Record opened (r e : PartyCommand) (s : CoordinatorState) : Prop := {
  op_requirement : pc_party r = ExchangeParty.BUYER ∧ cs_requirement s = Some (pc_payload r);
  op_evidence : pc_party e = ExchangeParty.SELLER ∧ cs_evidence s = Some (pc_payload e)
}.

(** One party made the offer on the table and the other accepted it. *)
Record agreed (p a : PartyCommand) (s : CoordinatorState) : Prop := {
  ag_offer : cs_current_offer s = Some (pc_payload p);
  ag_accepts : pc_command_type a ∈ [CommandType.ACCEPT_OFFER; CommandType.ACCEPT_COUNTER];
  ag_parties : pc_party p = ExchangeParty.BUYER ∧ pc_party a = ExchangeParty.SELLER ∨
               pc_party p = ExchangeParty.SELLER ∧ pc_party a = ExchangeParty.BUYER
}.

(** Which commands lead to which state. *)
Definition course (s : CoordinatorState) (l : list PartyCommand) : Prop :=
  match cs_state s with
  | ExchangeState.CREATED => l = [] ∧ cs_approval s = None
  | ExchangeState.REQUIREMENT_RELEASED =>
      ∃ r, l = [r] ∧ pc_party r = ExchangeParty.BUYER ∧ cs_requirement s = Some (pc_payload r) ∧
        cs_approval s = None
  | ExchangeState.EVIDENCE_RELEASED => ∃ r e, l = [r; e] ∧ opened r e s ∧ cs_approval s = None
  | ExchangeState.OFFERED =>
      ∃ r e p, l = [r; e; p] ∧ opened r e s ∧ pc_party p = ExchangeParty.BUYER ∧
        cs_current_offer s = Some (pc_payload p) ∧ cs_approval s = None
  | ExchangeState.COUNTERED =>
      ∃ r e o p, l = [r; e; o; p] ∧ opened r e s ∧ pc_party p = ExchangeParty.SELLER ∧
        cs_current_offer s = Some (pc_payload p) ∧ cs_approval s = None
  | ExchangeState.AGREED_PENDING_APPROVAL =>
      ∃ r e mid p a, l = (r :: e :: mid ++ [p; a])%list ∧ opened r e s ∧ agreed p a s ∧ cs_approval s = None
  | ExchangeState.APPROVED_FOR_HANDOFF =>
      ∃ r e mid p a g, l = (r :: e :: mid ++ [p; a; g])%list ∧ opened r e s ∧ agreed p a s ∧
        pc_party g = ExchangeParty.SYSTEM ∧ cs_approval s = Some (pc_payload g)
  | ExchangeState.REJECTED | ExchangeState.EXPIRED => True
  end.

(** The records of a changed state, for a command whose type is known. *)
Ltac opened_now Ec :=
  split; cbn [changes cs_requirement cs_evidence]; rewrite Ec; cbn.
Ltac agreed_now Ec :=
  split; cbn [changes cs_current_offer]; rewrite ?Ec; cbn.

Lemma course_step s l c target :
  pc_party c = _COMMAND_OWNERS (pc_command_type c) → target_of (cs_state s) (pc_command_type c) = Some target →
  course s l → course (changes s c target) (l ++ [c])%list.
Proof.
  intros Hp Ht Hc. unfold course in *. cbn [changes cs_state cs_requirement cs_evidence cs_current_offer cs_approval].
  destruct (cs_state s) eqn:Es; destruct (pc_command_type c) eqn:Ec; cbn in Ht; try discriminate Ht;
    injection Ht as <-; try exact I; cbn; cbn in Hp.
  - destruct Hc as [-> Ha]. by exists c.
  - destruct Hc as (r & -> & Hr & Er & Ha). exists r, c. split_and!; try done. by opened_now Ec.
  - destruct Hc as (r & e & -> & [Hr He] & Ha). exists r, e, c. split_and!; try done. by opened_now Ec.
  - destruct Hc as (r & e & p & -> & [Hr He] & Hpp & Eo & Ha). exists r, e, p, c. split_and!; try done.
    by opened_now Ec.
  - destruct Hc as (r & e & p & -> & [Hr He] & Hpp & Eo & Ha). exists r, e, [], p, c.
    split_and!; try done; [by opened_now Ec|]. agreed_now Ec; [done|by apply py_in_true|by left].
  - destruct Hc as (r & e & o & p & -> & [Hr He] & Hpp & Eo & Ha). exists r, e, [o], p, c.
    split_and!; try done; [by opened_now Ec|]. agreed_now Ec; [done|by apply py_in_true|by right].
  - destruct Hc as (r & e & mid & p & a & -> & [Hr He] & [Ho Hacc Hpar] & Ha). exists r, e, mid, p, a, c.
    split_and!; try done; [cbn; by rewrite <- app_assoc|by opened_now Ec|by agreed_now Ec].
Qed.

Section exchange_properties.
Context `{RawJson}.

Lemma run_course id l s : exchange_run (new_case id) l s → course s l.
Proof.
  induction 1 as [|l c s1 s2 _ IH Hacc]; [done|].
  apply accepts_Ok in Hacc as (Hp & _ & _ & target & Ht & ->). by apply course_step.
Qed.

(** C6: nobody agrees alone.  When a case that started fresh is agreed or
    approved, the buyer released the requirement, the seller the evidence, and
    the offer the state holds is exactly the payload of one party's last offer,
    accepted by the other party in the next command; an approved case was then
    approved by the system, and nothing else happened. *)
Theorem agreement_needs_both_parties (id : string) (l : list PartyCommand) (s : CoordinatorState) :
  exchange_run (new_case id) l s →
  cs_state s ∈ [ExchangeState.AGREED_PENDING_APPROVAL; ExchangeState.APPROVED_FOR_HANDOFF] →
  ∃ r e mid p a rest, l = (r :: e :: mid ++ p :: a :: rest)%list ∧ opened r e s ∧ agreed p a s ∧
    (cs_state s = ExchangeState.AGREED_PENDING_APPROVAL → rest = [] ∧ cs_approval s = None) ∧
    (cs_state s = ExchangeState.APPROVED_FOR_HANDOFF →
       ∃ g, rest = [g] ∧ pc_party g = ExchangeParty.SYSTEM ∧ cs_approval s = Some (pc_payload g)).
Proof.
  intros Hc%run_course Hs%py_in_true. unfold course in Hc.
  destruct (cs_state s) eqn:Es; try discriminate Hs.
  - destruct Hc as (r & e & mid & p & a & -> & Ho & Ha & Hn). exists r, e, mid, p, a, []. by split_and!.
  - destruct Hc as (r & e & mid & p & a & g & -> & Ho & Ha & Hg & Hn). exists r, e, mid, p, a, [g].
    split_and!; try done. intros _. by exists g.
Qed.

(** ** Versions *)

Lemma run_versions s l s' :
  exchange_run s l s' →
  cs_version s' = cs_version s + Z.of_nat (length l) ∧
  (∀ i c, l !! i = Some c → pc_expected_version c = cs_version s + Z.of_nat i).
Proof.
  induction 1 as [|l c s1 s2 _ [IHv IHl] Hacc]; [split; [cbn; lia|done]|].
  apply accepts_Ok in Hacc as (_ & _ & Hv & target & _ & ->). rewrite length_app. cbn. split; [lia|].
  intros i d [Hi|[Hge Hi]]%lookup_app_Some; [by apply IHl|].
  apply list_lookup_singleton_Some in Hi as [Ei <-]. rewrite Hv, IHv. lia.
Qed.

(** C21: a version is used once.  The commands a case accepts expect its versions
    one after the other, so of two commands that expect the same version at
    most one is ever accepted, and one that was accepted cannot be replayed. *)
Theorem version_used_once (s s' : CoordinatorState) (l : list PartyCommand) (c : PartyCommand) :
  exchange_run s l s' →
  cs_version s' = cs_version s + Z.of_nat (length l) ∧
  (∀ i d, l !! i = Some d → pc_expected_version d = cs_version s + Z.of_nat i) ∧
  (c ∈ l → ∀ t, compile_party_command s' c ≠ Ok t).
Proof.
  intros Hrun. destruct (run_versions _ _ _ Hrun) as [Hv Hl]. split_and!; [done..|].
  intros [i Hi]%list_elem_of_lookup t (_ & Hc & _)%compile_Ok. rewrite (Hl _ _ Hi), Hv in Hc.
  apply lookup_lt_Some in Hi. lia.
Qed.

(** ** Disclosure *)

Definition clean (o : option PyVal) : Prop := ∀ v, o = Some v → has_private v = false.

Record clean_state (s : CoordinatorState) : Prop := {
  cl_requirement : clean (cs_requirement s);
  cl_evidence : clean (cs_evidence s);
  cl_offer : clean (cs_current_offer s);
  cl_approval : clean (cs_approval s)
}.

Lemma changes_clean s c target :
  has_private (pc_payload c) = false → clean_state s → clean_state (changes s c target).
Proof.
  intros Hp [H1 H2 H3 H4].
  split; cbn [changes cs_requirement cs_evidence cs_current_offer cs_approval];
    (destruct (py_in _ _); [by intros v [= <-]|done]).
Qed.

Lemma run_clean id l s : exchange_run (new_case id) l s → clean_state s.
Proof.
  induction 1 as [|l c s1 s2 _ IH Hacc]; [by split|].
  apply accepts_Ok in Hacc as (_ & Hp & _ & target & _ & ->). by apply changes_clean.
Qed.

Lemma released_clean s : clean_state s → has_private (released s) = false.
Proof.
  intros [H1 H2 H3 H4]. unfold has_private, released. cbn [dict some_key].
  apply existsb_false. intros [k v] ([k' v'] & [= -> ->] & Hin)%list_elem_of_fmap. cbn [fst snd key_text].
  rewrite !elem_of_app in Hin. unfold optional_entry in Hin.
  destruct Hin as [Hin|[Hin|[Hin|Hin]]]; case_match eqn:Eo; try (by apply not_elem_of_nil in Hin);
    apply list_elem_of_singleton in Hin as [= -> ->]; apply orb_false_iff; (split; [vm_compute; reflexivity|]).
  - by apply H1.
  - by apply H2.
  - by apply H3.
  - by apply H4.
Qed.

(** C22: a projection releases only what was committed and nothing private.
    After any run of a fresh case, the next command releases to both parties
    the same content, exactly the requirement, evidence, offer and approval of
    the new state, in which no key at any depth names a private field. *)
Theorem projections_public (id : string) (l : list PartyCommand) (s : CoordinatorState) (c : PartyCommand)
    (t : CompiledTransition) :
  exchange_run (new_case id) l s → PartyCommand_check c = Ok c → compile_party_command s c = Ok t →
  pp_released (ct_buyer_projection t) = released (ct_next_state t) ∧
  pp_released (ct_seller_projection t) = released (ct_next_state t) ∧
  has_private (released (ct_next_state t)) = false ∧
  pp_party (ct_buyer_projection t) = ExchangeParty.BUYER ∧ pp_party (ct_seller_projection t) = ExchangeParty.SELLER.
Proof.
  intros Hs%run_clean [_ Hp]%command_check_Ok (_ & _ & _ & (target & _ & En) & Hb & Hk)%compile_Ok.
  unfold _projection in Hb, Hk. apply bind_Ok in Hb as (tb & _ & [= Eb]). apply bind_Ok in Hk as (tk & _ & [= Ek]).
  rewrite <- Eb, <- Ek. cbn. split_and!; try done. apply released_clean. rewrite En. by apply changes_clean.
Qed.
End exchange_properties.
