(* ===== verification/Publication.v ===== *)
(** * Publication boundaries: [domain/publication.py]

    A brief or a pack is published by copying allowlisted paths of a private
    document.  What is published is shown to be part of the source, to hold
    every allowlisted value the source has, and to name no denied field at any
    depth; the checks fail exactly when the allowlist or a copied section
    names one. *)
From S2P Require Import Prelude PyText PyNumber PyTime Money Hashing DomainModels.

Local Open Scope string_scope.
Local Open Scope Z_scope.

(** ** Denied fields *)

Definition DEFAULT_REQUIREMENT_BRIEF_ALLOWLIST : list string :=
  ["schema_version"; "requirement_brief_id"; "request_id"; "version"; "visibility"; "category_id";
   "jtbd_id"; "intent"; "desired_outcome"; "desired_outcome.metric"; "desired_outcome.target";
   "desired_outcome.operator"; "desired_outcome.checkpoint_days"; "seat_count"; "deadline"; "region";
   "currency"; "meeting_platforms"; "required_capabilities"; "workflow_requirements";
   "privacy_requirements"; "privacy_requirements.customer_training_allowed";
   "privacy_requirements.residency"; "privacy_requirements.retention";
   "privacy_requirements.recording_notice_required"; "privacy_requirements.source_links_required";
   "identity_requirements"; "integration_requirements"; "implementation_constraints";
   "disclosed_stack_interfaces"].

Definition DEFAULT_PACK_PUBLICATION_ALLOWLIST : list string :=
  ["schema_version"; "pack_id"; "version"; "status"; "seller_id"; "product_id"; "offer_ids";
   "category_ids"; "jtbd_ids"; "identity"; "jobs_and_segments"; "capabilities"; "requirements";
   "compatibility"; "security_privacy"; "deployment"; "commercial"; "contract"; "facts"; "fit_rules";
   "anti_fit_rules"; "dependency_rules"; "positioning_angles"; "claims"; "fulfillment_spec";
   "merchant_chain"; "operations"; "learning_policy"; "published_at"; "supersedes_version";
   "content_hash"].

Definition _DENIED_SEGMENTS : list string :=
  ["organization_name"; "organization_id"; "company_name"; "company_identity"; "buyer_identity";
   "hidden_budget"; "hidden_maximum"; "maximum_budget"; "budget_envelope"; "payer_identity"; "employee";
   "employees"; "contacts"; "contact_details"; "email"; "phone"; "private_failures";
   "prior_private_failures"; "competing_bids"; "competing_offers"; "competitor_list";
   "unrestricted_stackfile"; "raw_buyer_passport"; "roadmap_notes"; "negotiation_bounds"; "seller_floor";
   "fulfillment_credentials"; "provider_credentials"; "source_material"; "compilation_history"].

Definition _DENIED_MARKERS : list string :=
  ["secret"; "password"; "credential"; "dynamic_cvv"; "hidden_budget"; "hidden_maximum";
   "budget_envelope"; "roadmap"; "negotiation_bound"; "seller_floor"; "service_account";
   "private_failure"; "competing_bid"; "competing_offer"; "competitor_list"; "source_material";
   "compilation_history"; "unpublished_constraint"].

Definition _is_denied_segment (value : string) : bool :=
  let lowered := lower value in
  py_in lowered _DENIED_SEGMENTS || existsb (λ marker, str_contains marker lowered) _DENIED_MARKERS.

Definition key_path (prefix key : string) : string :=
  if is_empty prefix then key else prefix ++ "." ++ key.
Definition index_path (prefix : string) (i : Z) : string := prefix ++ "[" ++ str_int i ++ "]".

(** [forbidden_paths(payload, prefix)], in the order they are found. *)
Fixpoint forbidden_paths (payload : PyVal) (prefix : string) : list string :=
  match payload with
  | VDict l =>
      mjoin (List.map (λ p : dict_key * PyVal,
        let path := key_path prefix (key_text p.1) in
        ((if _is_denied_segment (lower (key_text p.1)) then [path] else []) ++ forbidden_paths p.2 path)%list) l)
  | VList l =>
      (fix items (i : Z) (l : list PyVal) : list string :=
         match l with
         | [] => []
         | v :: l => (forbidden_paths v (index_path prefix i) ++ items (i + 1) l)%list
         end) 0 l
  | _ => []
  end.

Definition assert_public_payload (payload : PyVal) : result unit :=
  match forbidden_paths payload "" with
  | [] => Ok ()
  | paths => Raise (DomainValidationError ("publication payload contains denied fields: " ++ join ", " paths))
  end.

(** ** Copying paths *)

Definition entry_get (key : string) (l : list (dict_key * PyVal)) : option PyVal :=
  snd <$> find (λ p : dict_key * PyVal, bool_decide (p.1 = KStr key)) l.

(** [d[key] = value]: in place when the key is there, else at the end. *)
Fixpoint entry_set (key : string) (value : PyVal) (l : list (dict_key * PyVal)) : list (dict_key * PyVal) :=
  match l with
  | [] => [(KStr key, value)]
  | p :: l => if bool_decide (p.1 = KStr key) then (p.1, value) :: l else p :: entry_set key value l
  end.

(** The value at a path, when every step of it is a mapping with the key. *)
Fixpoint value_at (source : PyVal) (segments : list string) : option PyVal :=
  match segments with
  | [] => Some source
  | segment :: segments =>
      match source with
      | VDict l => match entry_get segment l with Some v => value_at v segments | None => None end
      | _ => None
      end
  end.

(** Descends with [setdefault(segment, {})] and sets the last segment; what is
    not a dictionary has no [setdefault]. *)
Fixpoint put_at (target : PyVal) (segments : list string) (value : PyVal) : result PyVal :=
  match segments with
  | [] => Raise TypeError
  | [segment] =>
      match target with VDict l => Ok (VDict (entry_set segment value l)) | _ => Raise TypeError end
  | segment :: segments =>
      match target with
      | VDict l =>
          inner ← put_at (default (VDict []) (entry_get segment l)) segments value;
          Ok (VDict (entry_set segment inner l))
      | _ => Raise TypeError
      end
  end.

(** [_copy_path(source, target, path)]: the target after the call; [deepcopy]
    makes an equal value. *)
Definition _copy_path (source target : PyVal) (path : string) : result PyVal :=
  let segments := split "."%char path in
  match value_at source segments with None => Ok target | Some v => put_at target segments v end.

Definition copy_step (source output : PyVal) (path : string) : result PyVal :=
  _ ← raise_if (existsb _is_denied_segment (split "."%char path))
        (DomainValidationError ("allowlist contains prohibited field: " ++ path));
  _copy_path source output path.

Definition _allowlisted_copy (source : PyVal) (allowed_paths : list string) : result PyVal :=
  output ← foldM (copy_step source) (VDict []) (sorted_set allowed_paths);
  _ ← assert_public_payload output;
  Ok output.

(** [allowlist=None] stands for the default argument. *)
Definition sanitize_requirement_brief (purchase_brief : PyVal) (allowlist : option (list string)) : result PyVal :=
  _allowlisted_copy purchase_brief (default DEFAULT_REQUIREMENT_BRIEF_ALLOWLIST allowlist).

Definition publish_seil_pack (product_passport : PyVal) (allowlist : option (list string)) : result PyVal :=
  _allowlisted_copy product_passport (default DEFAULT_PACK_PUBLICATION_ALLOWLIST allowlist).

(** ** What is published *)

(** [v] is [w] with entries of its dictionaries left out. *)
Inductive within : PyVal → PyVal → Prop :=
| within_same v : within v v
| within_dict l k :
    (∀ key v, (key, v) ∈ l → ∃ w, (key, w) ∈ k ∧ within v w) → within (VDict l) (VDict k).

(** Every dictionary in [v] has each key once, as in Python. *)
Fixpoint dict_wf (v : PyVal) : Prop :=
  match v with
  | VDict l => NoDup l.*1 ∧
      (fix all (l : list (dict_key * PyVal)) : Prop :=
         match l with [] => True | p :: l => dict_wf p.2 ∧ all l end) l
  | VList l =>
      (fix all (l : list PyVal) : Prop := match l with [] => True | v :: l => dict_wf v ∧ all l end) l
  | _ => True
  end.

Lemma dict_wf_entry l key v : dict_wf (VDict l) → (key, v) ∈ l → dict_wf v.
Proof.
  intros [_ Hall] Hin. induction l as [|p l IH]; [by apply not_elem_of_nil in Hin|].
  destruct Hall as [Hp Hall]. apply elem_of_cons in Hin as [<-|Hin]; [done|by apply IH].
Qed.

Lemma dict_wf_unique l key v w : dict_wf (VDict l) → (key, v) ∈ l → (key, w) ∈ l → v = w.
Proof.
  intros [Hnd _] Hv Hw. by assert ((key, v) = (key, w)) as [= ->] by by apply (NoDup_fmap_inj fst l).
Qed.

Lemma entry_get_elem key l v : entry_get key l = Some v → (KStr key, v) ∈ l.
Proof.
  unfold entry_get. destruct (find _ l) as [[k w]|] eqn:E; [|done]. cbn. intros [= ->].
  apply find_some in E as [Hin%list_elem_of_In Hk%bool_decide_eq_true]. cbn in Hk. by subst.
Qed.

Lemma entry_set_elem key value l p : p ∈ entry_set key value l → p = (KStr key, value) ∨ p ∈ l.
Proof.
  induction l as [|[k v] l IH]; cbn; [set_solver|]. case_bool_decide as E; [subst; set_solver|]. set_solver.
Qed.

Lemma entry_get_set key other value l :
  entry_get other (entry_set key value l) = if bool_decide (other = key) then Some value else entry_get other l.
Proof.
  unfold entry_get. induction l as [|[k v] l IH]; cbn.
  { destruct (decide (other = key)) as [->|]; [by rewrite !bool_decide_eq_true_2|].
    by rewrite !bool_decide_eq_false_2 by congruence. }
  destruct (decide (k = KStr key)) as [->|]; cbn.
  - rewrite bool_decide_eq_true_2 by done. cbn. destruct (decide (other = key)) as [->|];
      [by rewrite !bool_decide_eq_true_2|]. by rewrite !bool_decide_eq_false_2 by congruence.
  - rewrite (bool_decide_eq_false_2 (k = KStr key)) by done. cbn.
    destruct (decide (k = KStr other)) as [->|]; cbn; [|by rewrite (bool_decide_eq_false_2 (k = KStr other))].
    rewrite !bool_decide_eq_true_2 by done. by rewrite bool_decide_eq_false_2 by congruence.
Qed.

Lemma entry_set_same key value l : entry_get key l = Some value → entry_set key value l = l.
Proof.
  unfold entry_get. induction l as [|[k v] l IH]; cbn; [done|]. case_bool_decide; cbn; [by intros [= ->]|].
  intros E. by rewrite IH.
Qed.

(** Copying a value of the source keeps the target inside the source, and never
    fails. *)
Lemma put_within segments : ∀ source target value,
  dict_wf source → segments ≠ [] → within target source → value_at source segments = Some value →
  ∃ target', put_at target segments value = Ok target' ∧ within target' source.
Proof.
  induction segments as [|s segments IH]; intros source target value Hwf Hne Hin Hv; [done|].
  cbn [value_at] in Hv. destruct source as [| | | | | | | |k|]; try done.
  destruct (entry_get s k) as [w|] eqn:Ew; [|done]. apply entry_get_elem in Ew as Hw.
  assert (∃ l, target = VDict l ∧ ∀ key v, (key, v) ∈ l → ∃ w, (key, w) ∈ k ∧ within v w) as (l & -> & Hl).
  { inversion Hin as [|? ? Hl]; subst; [|eauto]. exists k. split; [done|].
    intros key v Hkv. exists v. split; [done|apply within_same]. }
  assert (∀ inner, within inner w → within (VDict (entry_set s inner l)) (VDict k)) as Hset.
  { intros inner Hi. apply within_dict. intros key v [[= -> ->]|Hkv]%entry_set_elem; eauto. }
  destruct segments as [|s' segments].
  - injection Hv as ->. eexists. split; [done|]. apply Hset, within_same.
  - destruct (IH w (default (VDict []) (entry_get s l)) value) as (inner & Hput & Hi); try done.
    + by eapply dict_wf_entry.
    + destruct (entry_get s l) as [x|] eqn:Ex; cbn.
      * apply entry_get_elem, Hl in Ex as (w' & Hw' & Hx). by rewrite (dict_wf_unique k (KStr s) w w').
      * cbn [value_at] in Hv. destruct w; try done. apply within_dict. by intros ? ? ?%not_elem_of_nil.
    + cbn [put_at] in *. rewrite Hput. cbn [mbind result_bind]. eexists. split; [done|by apply Hset].
Qed.

Lemma put_cons s segments target value target' :
  segments ≠ [] → put_at target (s :: segments) value = Ok target' →
  ∃ l inner, target = VDict l ∧ put_at (default (VDict []) (entry_get s l)) segments value = Ok inner ∧
    target' = VDict (entry_set s inner l).
Proof.
  destruct segments as [|s' segments]; [done|]. intros _. cbn [put_at]. destruct target as [| | | | | | | |l|]; try done.
  intros (inner & Hput & [= <-])%bind_Ok. by exists l, inner.
Qed.

Lemma put_gets segments : ∀ target value target',
  put_at target segments value = Ok target' → value_at target' segments = Some value.
Proof.
  induction segments as [|s [|s' segments] IH]; intros target value target' E; [done| |].
  - cbn in E. destruct target; try done. injection E as <-. cbn [value_at].
    rewrite entry_get_set. by rewrite bool_decide_eq_true_2.
  - apply put_cons in E as (l & inner & -> & Hput & ->); [|done].
    change (match entry_get s (entry_set s inner l) with Some v => value_at v (s' :: segments) | None => None end
      = Some value). rewrite entry_get_set, bool_decide_eq_true_2 by done. by eapply IH.
Qed.

(** A value already copied stays. *)
Lemma put_keeps segments : ∀ source target value target' path v,
  value_at source segments = Some value → put_at target segments value = Ok target' →
  value_at source path = Some v → value_at target path = Some v → value_at target' path = Some v.
Proof.
  induction segments as [|s [|s' segments] IH]; intros source target value target' path v Hs Hput Hp Ht; [done| |].
  - cbn in Hput, Hs. destruct target as [| | | | | | | |l|]; try done. injection Hput as <-.
    destruct source as [| | | | | | | |k|]; try done. destruct (entry_get s k) as [w|] eqn:Ew; [|done].
    injection Hs as ->. destruct path as [|t path].
    + cbn in *. injection Hp as <-. injection Ht as ->. by rewrite entry_set_same.
    + cbn [value_at] in *. rewrite entry_get_set. case_bool_decide as E; [|done]. subst t. by rewrite Ew in Hp.
  - apply put_cons in Hput as (l & inner & -> & Hput & ->); [|done].
    remember (s' :: segments) as rest eqn:Er. cbn [value_at] in Hs.
    destruct source as [| | | | | | | |k|]; try done. destruct (entry_get s k) as [w|] eqn:Ew; [|done].
    destruct path as [|t path].
    + cbn in *. injection Hp as <-. injection Ht as ->. rewrite Ew in Hput. cbn in Hput.
      pose proof (IH w w value inner [] w Hs Hput eq_refl eq_refl) as [= ->]. by rewrite entry_set_same.
    + cbn [value_at] in *. rewrite entry_get_set. case_bool_decide as E; [|done]. subst t. rewrite Ew in Hp.
      destruct (entry_get s l) as [x|] eqn:Ex; [|done]. cbn in Hput. by eapply (IH w x).
Qed.

Definition denied_key (key : string) : bool := _is_denied_segment (lower key).

Lemma mjoin_nil {A} (l : list (list A)) : mjoin l = [] ↔ ∀ x, x ∈ l → x = [].
Proof.
  induction l as [|x l IH]; cbn; [set_solver|]. rewrite app_nil, IH. set_solver.
Qed.

Lemma forbidden_nil v : ∀ prefix, forbidden_paths v prefix = [] ↔ some_key denied_key v = false.
Proof.
  induction v as [| | | | | | |l IH|l IH|] using value_ind; intros prefix; try done.
  - cbn [forbidden_paths some_key]. rewrite existsb_false. generalize 0 as i.
    induction l as [|v l IHl]; intros i; [set_solver|].
    rewrite app_nil, IH, IHl by set_solver. set_solver.
  - cbn [forbidden_paths some_key]. rewrite mjoin_nil, existsb_false. setoid_rewrite list_elem_of_fmap.
    split.
    + intros Hall [k v] Hin. pose proof (Hall _ (ex_intro _ (k, v) (conj eq_refl Hin))) as [Hk Hv]%app_nil.
      cbn [fst snd] in *. apply (IH k v Hin) in Hv. rewrite Hv, orb_false_r. unfold denied_key.
      by destruct (_is_denied_segment _).
    + intros Hall x ([k v] & -> & Hin). pose proof (Hall _ Hin) as [Hk Hv]%orb_false_iff. cbn [fst snd] in *.
      unfold denied_key in Hk. rewrite Hk. by apply (IH k v Hin).
Qed.

Lemma some_key_within bad v : ∀ w, within v w → some_key bad v = true → some_key bad w = true.
Proof.
  induction v as [| | | | | | |l IH|l IH|] using value_ind; intros w Hin Hk; inversion Hin as [|? k Hl]; subst; try done.
  cbn [some_key] in Hk |- *. apply existsb_Exists in Hk as ([key x] & Hx & Hk). destruct (Hl _ _ Hx) as (y & Hy & Hxy).
  apply existsb_Exists. exists (key, y). split; [done|]. cbn [fst snd] in *.
  apply orb_true_iff in Hk as [->|Hk]; [done|]. rewrite (IH key x Hx y Hxy Hk). apply orb_true_r.
Qed.

Definition entries (v : PyVal) : list (dict_key * PyVal) := match v with VDict l => l | _ => [] end.

(** The first step of an allowlisted path. *)
Definition allowed_head (paths : list string) (key : dict_key) : Prop :=
  ∃ path s rest, path ∈ paths ∧ split "."%char path = s :: rest ∧ key = KStr s.

Lemma split_not_nil sep s : split sep s ≠ [].
Proof.
  unfold split. generalize (@nil ascii) as cur. induction (chars s) as [|c l IH]; intros cur; cbn; [done|].
  case_bool_decide; [done|apply IH].
Qed.

Lemma put_heads segments target value target' key v :
  put_at target segments value = Ok target' → (key, v) ∈ entries target' →
  (∃ s rest, segments = s :: rest ∧ key = KStr s) ∨ (key, v) ∈ entries target.
Proof.
  intros E Hin. destruct segments as [|s [|s' rest]]; [done| |].
  - cbn in E. destruct target; try done. injection E as <-.
    apply entry_set_elem in Hin as [[= -> ->]|Hin]; [left; eauto|by right].
  - apply put_cons in E as (l & inner & -> & _ & ->); [|done].
    apply entry_set_elem in Hin as [[= -> ->]|Hin]; [left; eauto|by right].
Qed.

(** What copying [paths] one after the other gives. *)
Record copied (source : PyVal) (paths : list string) (out : PyVal) : Prop := {
  cp_within : within out source;
  cp_allowed path : path ∈ paths → existsb _is_denied_segment (split "."%char path) = false;
  cp_complete path v :
    path ∈ paths → value_at source (split "."%char path) = Some v → value_at out (split "."%char path) = Some v;
  cp_heads key v : (key, v) ∈ entries out → allowed_head paths key
}.

Lemma copied_mono source paths paths' out :
  (∀ path, path ∈ paths ↔ path ∈ paths') → copied source paths out → copied source paths' out.
Proof.
  intros Hp [H1 H2 H3 H4]. split; [done|intros path ?; apply H2; by apply Hp|intros path v ?; apply H3; by apply Hp|].
  intros key v Hin. destruct (H4 key v Hin) as (path & s & rest & ? & ?). exists path, s, rest. by rewrite <- Hp.
Qed.

Lemma copy_step_copied source paths out path :
  dict_wf source → copied source paths out →
  match copy_step source out path with
  | Ok out' => copied source (paths ++ [path])%list out'
  | Raise e => is_domain_validation_error e = true ∧ existsb _is_denied_segment (split "."%char path) = true
  end.
Proof.
  intros Hwf [Hin Hal Hco Hhe]. unfold copy_step.
  destruct (existsb _is_denied_segment (split "."%char path)) eqn:Ed; cbn [raise_if mbind result_bind]; [done|].
  assert (∀ p, p ∈ (paths ++ [path])%list → existsb _is_denied_segment (split "."%char p) = false) as Hal'
    by (intros p [?| ->%list_elem_of_singleton]%elem_of_app; auto).
  unfold _copy_path. destruct (value_at source (split "."%char path)) as [v|] eqn:Ev.
  - destruct (put_within _ source out v Hwf (split_not_nil _ _) Hin Ev) as (out' & Hput & Hin'). rewrite Hput.
    split; [done|done| |].
    + intros p w [Hp| ->%list_elem_of_singleton]%elem_of_app Hw; [apply (put_keeps _ _ _ _ _ _ w Ev Hput Hw); by apply Hco|].
      rewrite Ev in Hw. injection Hw as <-. by eapply put_gets.
    + intros key w Hk. destruct (put_heads _ _ _ _ _ _ Hput Hk) as [(s & rest & Es & ->)|Hk'].
      * exists path, s, rest. split_and!; [set_solver|done..].
      * destruct (Hhe _ _ Hk') as (p & s & rest & Hp & Hp'). exists p, s, rest. destruct Hp' as [Es ->]. split_and!; [set_solver|exact Es|reflexivity].
  - split; [done|done| |].
    + intros p w [Hp| ->%list_elem_of_singleton]%elem_of_app Hw; [auto|]. by rewrite Ev in Hw.
    + intros key w Hk. destruct (Hhe _ _ Hk) as (p & s & rest & Hp & Hp'). exists p, s, rest. destruct Hp' as [Es ->]. split_and!; [set_solver|exact Es|reflexivity].
Qed.

Lemma copy_all source l : ∀ paths out,
  dict_wf source → copied source paths out →
  match foldM (copy_step source) out l with
  | Ok out' => copied source (paths ++ l)%list out'
  | Raise e => is_domain_validation_error e = true ∧
      ∃ path, path ∈ l ∧ existsb _is_denied_segment (split "."%char path) = true
  end.
Proof.
  induction l as [|path l IH]; intros paths out Hwf Hc; cbn [foldM]; [by rewrite app_nil_r|].
  pose proof (copy_step_copied source paths out path Hwf Hc) as Hs.
  destruct (copy_step source out path) as [out1|e]; cbn [mbind result_bind].
  - specialize (IH _ out1 Hwf Hs). rewrite <- app_assoc in IH. destruct (foldM _ out1 l) as [out2|e]; [done|].
    destruct IH as (He & p & Hp & Hd). split; [done|]. exists p. split; [set_solver|done].
  - destruct Hs as [He Hd]. split; [done|]. exists path. split; [set_solver|done].
Qed.

(** C8: publication is a safe projection.  A published document is the source
    with entries left out, has every allowlisted value the source has, starts
    only with allowlisted fields and names no denied field at any depth;
    publishing fails, with a domain error, only when the allowlist or the
    source names a denied field. *)
Theorem publication_safe (source : PyVal) (allowed : list string) :
  dict_wf source → (∃ l, source = VDict l) →
  match _allowlisted_copy source allowed with
  | Ok out => copied source allowed out ∧ some_key denied_key out = false
  | Raise e => is_domain_validation_error e = true ∧
      ((∃ path, path ∈ allowed ∧ existsb _is_denied_segment (split "."%char path) = true) ∨
       some_key denied_key source = true)
  end.
Proof.
  intros Hwf [k ->]. unfold _allowlisted_copy.
  assert (copied (VDict k) [] (VDict [])) as H0.
  { split; [apply within_dict; by intros ? ? ?%not_elem_of_nil|by intros p ?%not_elem_of_nil
      |by intros p v ?%not_elem_of_nil|by intros key v ?%not_elem_of_nil]. }
  pose proof (copy_all (VDict k) (sorted_set allowed) [] (VDict []) Hwf H0) as Hall.
  destruct (foldM _ _ _) as [out|e]; cbn [mbind result_bind].
  - unfold assert_public_payload. pose proof (forbidden_nil out "") as Hf.
    destruct (forbidden_paths out "") as [|x l]; cbn [mbind result_bind].
    + split; [|by apply Hf]. eapply copied_mono; [|exact Hall]. intros p. apply elem_of_sorted_set.
    + split; [done|]. right. destruct Hall as [Hw _ _ _]. apply (some_key_within _ _ _ Hw).
      destruct (some_key denied_key out); [done|]. discriminate (proj2 Hf eq_refl).
  - destruct Hall as (He & p & Hp & Hd). split; [done|]. left. exists p.
    split; [|done]. by rewrite elem_of_sorted_set in Hp.
Qed.

(** ** A published brief *)

Definition ex_brief : PyVal :=
  dict [("category_id", VStr "meetings"); ("organization_id", VStr "org_private");
        ("desired_outcome", dict [("metric", VStr "hours"); ("internal_note", VStr "for us")])].

Lemma publication_safe_witness :
  ∃ out, _allowlisted_copy ex_brief DEFAULT_REQUIREMENT_BRIEF_ALLOWLIST = Ok out ∧
    some_key denied_key ex_brief = true ∧ some_key denied_key out = false ∧
    value_at out ["category_id"] = Some (VStr "meetings").
Proof.
  assert (dict_wf ex_brief) as Hwf.
  { cbn. split_and!; try exact I; apply all_distinct_NoDup; vm_compute; reflexivity. }
  pose proof (publication_safe ex_brief DEFAULT_REQUIREMENT_BRIEF_ALLOWLIST Hwf (ex_intro _ _ eq_refl)) as H.
  destruct (_allowlisted_copy ex_brief DEFAULT_REQUIREMENT_BRIEF_ALLOWLIST) as [out|e] eqn:E.
  - exists out. split_and!; [reflexivity|vm_compute; reflexivity|exact (proj2 H)|].
    apply (cp_complete _ _ _ (proj1 H) "category_id"); [apply py_in_true|]; vm_compute; reflexivity.
  - exfalso. assert (is_ok (_allowlisted_copy ex_brief DEFAULT_REQUIREMENT_BRIEF_ALLOWLIST) = true) as Hok
      by (vm_compute; reflexivity). rewrite E in Hok. discriminate Hok.
Defined.

(** A dictionary that is allowlisted is copied whole: its fields that are not
    allowlisted themselves are published with it. *)
Example nested_fields_published :
  (λ out, value_at out ["desired_outcome"; "internal_note"]) <$> sanitize_requirement_brief ex_brief None
  = Ok (Some (VStr "for us")).
Proof. vm_compute. reflexivity. Qed.
