(* ===== verification/Contracts.v ===== *)
(** * Disclosure and offer contracts: [domain/exchange_contracts.py]

    Release manifests, envelopes, receipts, offers, approvals and payment
    handoffs of the two-party exchange: what their construction checks, the
    hashes that bind them, and their operations.  Pydantic's field constraints
    are part of the construction; it reports every violation as a
    [ValidationError], which is a [ValueError] like the errors raised here. *)
From S2P Require Import Prelude PyText PyNumber PyTime Enums Money Hashing DomainModels Exchange.

Local Open Scope string_scope.
Local Open Scope Z_scope.

(** ** Enumerations *)

Module ReleaseStatus.
Inductive t := ACTIVE | REVOKED.
#[global] Instance eq_dec : EqDecision t.
Proof. solve_decision. Defined.
Definition value (s : t) : string := match s with ACTIVE => "ACTIVE" | REVOKED => "REVOKED" end.
End ReleaseStatus.

Module OfferApprovalStatus.
Inductive t := PENDING | APPROVED | REJECTED | REVOKED | SUPERSEDED.
#[global] Instance eq_dec : EqDecision t.
Proof. solve_decision. Defined.
Definition value (s : t) : string :=
  match s with
  | PENDING => "PENDING" | APPROVED => "APPROVED" | REJECTED => "REJECTED" | REVOKED => "REVOKED"
  | SUPERSEDED => "SUPERSEDED"
  end.
End OfferApprovalStatus.

Module ExchangeHandoffStatus.
Inductive t := READY | OPENED | EXPIRED | CANCELLED.
#[global] Instance eq_dec : EqDecision t.
Proof. solve_decision. Defined.
Definition value (s : t) : string :=
  match s with
  | READY => "READY" | OPENED => "OPENED" | EXPIRED => "EXPIRED" | CANCELLED => "CANCELLED"
  end.
End ExchangeHandoffStatus.

Module Transformation.
Inductive t := IDENTITY | LOWERCASE | REDACT.
#[global] Instance eq_dec : EqDecision t.
Proof. solve_decision. Defined.
Definition value (s : t) : string :=
  match s with IDENTITY => "IDENTITY" | LOWERCASE => "LOWERCASE" | REDACT => "REDACT" end.
End Transformation.

(** ** Shared checks *)

Definition is_empty_list {A} (l : list A) : bool := match l with [] => true | _ => false end.

Definition value_error_when (c : bool) (message : string) : result unit := raise_if c (ValueError message).
Definition violation_when (c : bool) (message : string) : result unit := raise_if c (ContractViolation message).

Definition _require_aware (value : datetime) (name : string) : result unit :=
  value_error_when (negb (is_aware value)) (name ++ " must include a timezone").

Definition _participant (value : ExchangeParty.t) (name : string) : result unit :=
  value_error_when (bool_decide (value = ExchangeParty.SYSTEM)) (name ++ " must be BUYER or SELLER").

Definition private_markers : list string :=
  ["hidden_budget"; "reservation_value"; "seller_floor"; "private_note"; "private_source"; "buyer_private";
   "seller_private"].

Definition _private_key (key : string) : bool :=
  private_text private_markers (replace_char "-"%char "_"%char (casefold key)).

Definition _assert_public_tree (value : PyVal) : result unit :=
  violation_when (some_key _private_key value) "private-plane data cannot enter an exchange contract".

(** The field constraints of pydantic that a model declares. *)
Definition fields_ok (name : string) (constraints : list bool) : result unit :=
  value_error_when (negb (forallb id constraints)) name.

(** The number of cents of a decimal that has at most two decimal places. *)
Definition cents_of (d : Decimal) : option Z :=
  match d with
  | DFinite c e =>
      if -2 <=? e then Some (c * 10 ^ (e + 2))
      else if c mod 10 ^ (-2 - e) =? 0 then Some (c / 10 ^ (-2 - e)) else None
  | _ => None
  end.
(** [Field(ge=Decimal("0"), max_digits=20, decimal_places=2)] *)
Definition is_price (d : Decimal) : bool :=
  match cents_of d with Some n => (0 <=? n) && (n <? 10 ^ 20) | None => false end.

Definition party_value (p : ExchangeParty.t) : PyVal := VStr (ExchangeParty.value p).

(** ** Release manifests *)

Record ReleaseManifest := mkReleaseManifest {
  rm_manifest_id : string;
  rm_case_id : string;
  rm_owner : ExchangeParty.t;
  rm_recipient : ExchangeParty.t;
  rm_purpose : string;
  rm_fields : list string;
  rm_transformations : list (string * Transformation.t);
  rm_source_versions : list (string * Z);
  rm_expires_at : datetime;
  rm_approval_id : string;
  rm_approved_payload_hash : string;
  rm_status : ReleaseStatus.t;
  rm_manifest_hash : string
}.

Definition approval_entries (m : ReleaseManifest) : list (string * PyVal) :=
  [("case_id", VStr (rm_case_id m)); ("owner", party_value (rm_owner m));
   ("recipient", party_value (rm_recipient m)); ("purpose", VStr (rm_purpose m));
   ("fields", vstrs (rm_fields m));
   ("transformations", dict ((λ p, (p.1, VStr (Transformation.value p.2))) <$> rm_transformations m));
   ("source_versions", dict ((λ p, (p.1, VInt p.2)) <$> rm_source_versions m));
   ("expires_at", VDatetime (rm_expires_at m))].
Definition approval_payload (m : ReleaseManifest) : PyVal := dict (approval_entries m).

Definition manifest_payload (m : ReleaseManifest) : PyVal :=
  dict ([("schema_version", VStr "release-manifest.v1"); ("manifest_id", VStr (rm_manifest_id m))] ++
        approval_entries m ++
        [("approval_id", VStr (rm_approval_id m));
         ("approved_payload_hash", VStr (rm_approved_payload_hash m));
         ("status", VStr (ReleaseStatus.value (rm_status m)))])%list.

Definition with_manifest (m : ReleaseManifest) (status : ReleaseStatus.t) (hash : string) : ReleaseManifest :=
  mkReleaseManifest (rm_manifest_id m) (rm_case_id m) (rm_owner m) (rm_recipient m) (rm_purpose m)
    (rm_fields m) (rm_transformations m) (rm_source_versions m) (rm_expires_at m) (rm_approval_id m)
    (rm_approved_payload_hash m) status hash.

Section contracts.
Context `{Rfc8785}.

(** [object.__setattr__(self, hash_field, expected)] after comparing a hash
    that was given. *)
Definition seal (payload : PyVal) (given mismatch : string) : result string :=
  expected ← content_hash payload;
  _ ← value_error_when (negb (is_empty given) && negb (bool_decide (given = expected))) mismatch;
  Ok expected.

Definition ReleaseManifest_check (m : ReleaseManifest) : result ReleaseManifest :=
  _ ← fields_ok "ReleaseManifest"
        [length_within 64 (rm_manifest_id m); length_within 64 (rm_case_id m); length_within 240 (rm_purpose m);
         negb (bool_decide (rm_fields m = [])); negb (bool_decide (rm_source_versions m = []));
         length_within 64 (rm_approval_id m); is_hash (rm_approved_payload_hash m)];
  _ ← _participant (rm_owner m) "owner";
  _ ← _participant (rm_recipient m) "recipient";
  _ ← value_error_when (bool_decide (rm_owner m = rm_recipient m))
        "release recipient must be the other exchange party";
  _ ← _require_aware (rm_expires_at m) "expires_at";
  _ ← value_error_when (negb (all_distinct (rm_fields m))) "release fields must be unique";
  _ ← value_error_when (existsb (λ f, is_empty f || str_contains "." f || _private_key f) (rm_fields m))
        "release fields must be safe top-level field names";
  _ ← value_error_when (existsb (λ f, negb (py_in f (rm_fields m))) (rm_transformations m).*1)
        "transformations may reference only released fields";
  _ ← value_error_when (existsb (λ version, version <? 1) (rm_source_versions m).*2)
        "source versions must be positive";
  approved ← content_hash (approval_payload m);
  _ ← value_error_when (negb (bool_decide (rm_approved_payload_hash m = approved)))
        "release approval does not bind the exact disclosure payload";
  hash ← seal (manifest_payload m) (rm_manifest_hash m) "manifest_hash does not match the canonical manifest";
  Ok (with_manifest m (rm_status m) hash).

(** The value of one released field. *)
Definition transform_field (m : ReleaseManifest) (field : string) (value : PyVal) : result PyVal :=
  match dict_get field (rm_transformations m) with
  | Some Transformation.LOWERCASE =>
      match value with
      | VStr s => Ok (VStr (lower s))
      | _ => Raise (ContractViolation "LOWERCASE transformation requires text")
      end
  | Some Transformation.REDACT => Ok (VStr "[redacted]")
  | Some Transformation.IDENTITY | None => Ok value
  end.

(** [manifest.release(source, now=now)] on a dictionary with text keys. *)
Definition release (m : ReleaseManifest) (source : list (string * PyVal)) (now : datetime)
  : result (list (string * PyVal)) :=
  _ ← _require_aware now "now";
  _ ← violation_when (negb (bool_decide (rm_status m = ReleaseStatus.ACTIVE)))
        "release authorization has been revoked";
  expired ← dt_le (rm_expires_at m) now;
  _ ← violation_when expired "release authorization has expired";
  let missing := sorted_set (List.filter (λ f, is_none (dict_get f source)) (rm_fields m)) in
  _ ← violation_when (negb (bool_decide (missing = [])))
        ("release source is missing approved fields: [" ++
           join ", " ((λ f, "'" ++ f ++ "'") <$> missing) ++ "]");
  selected ← mapM (λ field,
      match dict_get field source with
      | None => Raise (KeyError field)
      | Some value => v ← transform_field m field value; Ok (field, v)
      end) (rm_fields m);
  _ ← _assert_public_tree (dict selected);
  Ok selected.

Definition revoke (m : ReleaseManifest) : result ReleaseManifest :=
  if bool_decide (rm_status m = ReleaseStatus.REVOKED) then Ok m
  else ReleaseManifest_check (with_manifest m ReleaseStatus.REVOKED "").
End contracts.

(** What a field becomes: itself, its lower case or a mark. *)
Definition released_as (m : ReleaseManifest) (field : string) (original value : PyVal) : Prop :=
  match dict_get field (rm_transformations m) with
  | Some Transformation.LOWERCASE => ∃ s, original = VStr s ∧ value = VStr (lower s)
  | Some Transformation.REDACT => value = VStr "[redacted]"
  | Some Transformation.IDENTITY | None => value = original
  end.

Lemma transform_field_Ok m field original value :
  transform_field m field original = Ok value → released_as m field original value.
Proof.
  unfold transform_field, released_as. destruct (dict_get _ _) as [[]|]; [naive_solver| |naive_solver..].
  destruct original; try done. intros [= <-]. eauto.
Qed.

(** C19: a release discloses exactly what was authorised.  When a manifest
    releases a source, the manifest is active and not expired; the released
    keys are its fields, in their order; each value is the source's own, in
    lower case or redacted where the manifest says so; and no key at any depth
    names a private plane. *)
Theorem release_discloses_fields `{Rfc8785} (m : ReleaseManifest) (source selected : list (string * PyVal)) (now : datetime) :
  release m source now = Ok selected →
  rm_status m = ReleaseStatus.ACTIVE ∧ is_aware now = true ∧ dt_le (rm_expires_at m) now = Ok false ∧
  selected.*1 = rm_fields m ∧
  (∀ field value, (field, value) ∈ selected →
     ∃ original, dict_get field source = Some original ∧ released_as m field original value) ∧
  some_key _private_key (dict selected) = false.
Proof.
  unfold release, violation_when, _require_aware, value_error_when, _assert_public_tree.
  intros (? & Ha%raise_if_Ok%negb_false_iff & E)%bind_Ok.
  apply bind_Ok in E as (? & Hs%raise_if_Ok%negb_false_iff%bool_decide_eq_true & E).
  apply bind_Ok in E as (expired & Hx & E). apply bind_Ok in E as (? & ->%raise_if_Ok & E).
  apply bind_Ok in E as (? & _ & E). apply bind_Ok in E as (l & Hm%mapM_Ok & E).
  apply bind_Ok in E as (? & Hp%raise_if_Ok & [= ->]). split_and!; try done.
  - induction Hm as [|f [f' v] fs l Hf _ IH]; [done|]. cbn. rewrite IH.
    + destruct (dict_get f source) as [o|]; [|done]. apply bind_Ok in Hf as (v' & _ & [= -> _]). done.
    + unfold violation_when in Hp. clear -Hp. cbn in Hp |- *. by apply orb_false_iff in Hp as [_ Hp].
  - intros field value Hin. clear Hp. induction Hm as [|f [f' v] fs l Hf _ IH]; [by apply not_elem_of_nil in Hin|].
    apply elem_of_cons in Hin as [[= -> ->]|Hin]; [|by apply IH].
    destruct (dict_get f source) as [o|] eqn:Eo; [|done]. apply bind_Ok in Hf as (v' & Hv & [= -> ->]).
    exists o. split; [done|]. by apply transform_field_Ok.
Qed.

(** ** Envelopes and receipts *)

Record ExchangeEnvelope := mkExchangeEnvelope {
  xe_envelope_id : string;
  xe_case_id : string;
  xe_sender : ExchangeParty.t;
  xe_recipient : ExchangeParty.t;
  xe_sequence : Z;
  xe_causation_id : string;
  xe_manifest_hash : string;
  xe_payload : PyVal;
  xe_expires_at : datetime;
  xe_payload_hash : string
}.

Definition envelope_payload (e : ExchangeEnvelope) : PyVal :=
  dict [("schema_version", VStr "exchange-envelope.v1"); ("envelope_id", VStr (xe_envelope_id e));
        ("case_id", VStr (xe_case_id e)); ("sender", party_value (xe_sender e));
        ("recipient", party_value (xe_recipient e)); ("sequence", VInt (xe_sequence e));
        ("causation_id", VStr (xe_causation_id e)); ("manifest_hash", VStr (xe_manifest_hash e));
        ("payload", xe_payload e); ("expires_at", VDatetime (xe_expires_at e))].

Definition ExchangeEnvelope_check `{Rfc8785} (e : ExchangeEnvelope) : result ExchangeEnvelope :=
  _ ← fields_ok "ExchangeEnvelope"
        [length_within 64 (xe_envelope_id e); length_within 64 (xe_case_id e); 1 <=? xe_sequence e;
         length_within 64 (xe_causation_id e); is_hash (xe_manifest_hash e); is_string_dict (xe_payload e)];
  _ ← _participant (xe_sender e) "sender";
  _ ← _participant (xe_recipient e) "recipient";
  _ ← value_error_when (bool_decide (xe_sender e = xe_recipient e)) "exchange envelope must cross parties";
  _ ← _require_aware (xe_expires_at e) "expires_at";
  _ ← _assert_public_tree (xe_payload e);
  hash ← seal (envelope_payload e) (xe_payload_hash e) "payload_hash does not match the exchange envelope";
  Ok (mkExchangeEnvelope (xe_envelope_id e) (xe_case_id e) (xe_sender e) (xe_recipient e) (xe_sequence e)
        (xe_causation_id e) (xe_manifest_hash e) (xe_payload e) (xe_expires_at e) hash).

Record ExchangeReceipt := mkExchangeReceipt {
  xr_receipt_id : string;
  xr_envelope_id : string;
  xr_case_id : string;
  xr_recipient : ExchangeParty.t;
  xr_envelope_hash : string;
  xr_received_at : datetime
}.

Definition ExchangeReceipt_check (r : ExchangeReceipt) : result ExchangeReceipt :=
  _ ← fields_ok "ExchangeReceipt"
        [length_within 64 (xr_receipt_id r); length_within 64 (xr_envelope_id r);
         length_within 64 (xr_case_id r); is_hash (xr_envelope_hash r)];
  _ ← _participant (xr_recipient r) "recipient";
  _ ← _require_aware (xr_received_at r) "received_at";
  Ok r.

(** ** Offers *)

Record OfferLine := mkOfferLine {
  ol_item_id : string;
  ol_description : string;
  ol_quantity : Z;
  ol_unit_price : Decimal
}.

Definition line_ok (l : OfferLine) : bool :=
  length_within 64 (ol_item_id l) && length_within 240 (ol_description l) && (1 <=? ol_quantity l) &&
  is_price (ol_unit_price l).

(** [self.unit_price * self.quantity]: the exact product, rounded to the
    context, whose exponents a huge quantity may leave. *)
Definition dec_mul_int (d : Decimal) (n : Z) : result Decimal :=
  dec_finish (match d with DFinite c e => DFinite (c * n) e | _ => d end).
Definition subtotal (l : OfferLine) : result Decimal := dec_mul_int (ol_unit_price l) (ol_quantity l).

Record OfferVersion := mkOfferVersion {
  ov_offer_id : string;
  ov_case_id : string;
  ov_version : Z;
  ov_proposer : ExchangeParty.t;
  ov_recipient : ExchangeParty.t;
  ov_predecessor_hash : option string;
  ov_changed_terms : list string;
  ov_rationale : string;
  ov_currency : string;
  ov_lines : list OfferLine;
  ov_total : Decimal;
  ov_expires_at : datetime;
  ov_requirement_hash : string;
  ov_evidence_hash : string;
  ov_approval_status : OfferApprovalStatus.t;
  ov_offer_hash : string
}.

Definition line_payload (l : OfferLine) : PyVal :=
  dict [("item_id", VStr (ol_item_id l)); ("description", VStr (ol_description l));
        ("quantity", VInt (ol_quantity l)); ("unit_price", VDecimal (ol_unit_price l))].

(** The approval lifecycle is not part of the identity of the terms. *)
Definition offer_payload (o : OfferVersion) : PyVal :=
  dict [("schema_version", VStr "offer.v1"); ("offer_id", VStr (ov_offer_id o));
        ("case_id", VStr (ov_case_id o)); ("version", VInt (ov_version o));
        ("proposer", party_value (ov_proposer o)); ("recipient", party_value (ov_recipient o));
        ("predecessor_hash", vopt VStr (ov_predecessor_hash o)); ("changed_terms", vstrs (ov_changed_terms o));
        ("rationale", VStr (ov_rationale o)); ("currency", VStr (ov_currency o));
        ("lines", VList (line_payload <$> ov_lines o)); ("total", VDecimal (ov_total o));
        ("expires_at", VDatetime (ov_expires_at o)); ("requirement_hash", VStr (ov_requirement_hash o));
        ("evidence_hash", VStr (ov_evidence_hash o))].

Definition with_offer (o : OfferVersion) (status : OfferApprovalStatus.t) (hash : string) : OfferVersion :=
  mkOfferVersion (ov_offer_id o) (ov_case_id o) (ov_version o) (ov_proposer o) (ov_recipient o)
    (ov_predecessor_hash o) (ov_changed_terms o) (ov_rationale o) (ov_currency o) (ov_lines o) (ov_total o)
    (ov_expires_at o) (ov_requirement_hash o) (ov_evidence_hash o) status hash.

(** [a or b]: the second condition is not read when the first holds. *)
Definition or_else (a b : result bool) : result bool :=
  match a with Ok true => Ok true | Ok false => b | Raise e => Raise e end.

(** [^[A-Z]{3}$] *)
Definition currency_code (s : string) : bool := (length (chars s) =? 3)%nat && forallb is_upper (chars s).

(** [sum((line.subtotal for line in lines), Decimal("0"))] *)
Definition add_line (acc : Decimal) (l : OfferLine) : result Decimal :=
  amount ← subtotal l; dec_finish (dec_sum acc amount).
Definition lines_total (lines : list OfferLine) : result Decimal := foldM add_line (DFinite 0 0) lines.

Section offers.
Context `{Rfc8785}.

Definition OfferVersion_check (o : OfferVersion) : result OfferVersion :=
  _ ← fields_ok "OfferVersion"
        [length_within 64 (ov_offer_id o); length_within 64 (ov_case_id o); 1 <=? ov_version o;
         from_option is_hash true (ov_predecessor_hash o); length_within 1000 (ov_rationale o);
         currency_code (ov_currency o); negb (is_empty_list (ov_lines o)); forallb line_ok (ov_lines o);
         is_price (ov_total o); is_hash (ov_requirement_hash o); is_hash (ov_evidence_hash o)];
  _ ← _participant (ov_proposer o) "proposer";
  _ ← _participant (ov_recipient o) "recipient";
  _ ← value_error_when (bool_decide (ov_proposer o = ov_recipient o))
        "offer recipient must be the other exchange party";
  _ ← _require_aware (ov_expires_at o) "expires_at";
  _ ← value_error_when ((ov_version o =? 1) && negb (is_none (ov_predecessor_hash o)))
        "initial offer cannot have a predecessor";
  _ ← value_error_when ((1 <? ov_version o) && is_none (ov_predecessor_hash o))
        "counteroffer must bind its predecessor";
  _ ← value_error_when ((1 <? ov_version o) && is_empty_list (ov_changed_terms o))
        "counteroffer must name changed terms";
  _ ← value_error_when (negb (all_distinct (ov_changed_terms o))) "changed terms must be unique";
  _ ← value_error_when (negb (all_distinct (ol_item_id <$> ov_lines o))) "offer line item ids must be unique";
  total ← lines_total (ov_lines o);
  _ ← value_error_when (negb (dec_eqb total (ov_total o)))
        "offer total does not equal line-item arithmetic";
  hash ← seal (offer_payload o) (ov_offer_hash o) "offer_hash does not match the canonical offer";
  Ok (with_offer o (ov_approval_status o) hash).

Definition assert_actionable (o : OfferVersion) (actor : ExchangeParty.t) (now : datetime) : result unit :=
  _ ← _require_aware now "now";
  _ ← violation_when (negb (bool_decide (actor = ov_recipient o)))
        "only the current recipient may accept this offer";
  expired ← dt_le (ov_expires_at o) now;
  _ ← violation_when expired "offer has expired";
  violation_when (negb (bool_decide (ov_approval_status o = OfferApprovalStatus.PENDING))) "offer is not pending".

(** ** Approvals *)

Record OfferApproval := mkOfferApproval {
  oa_approval_id : string;
  oa_case_id : string;
  oa_offer_hash : string;
  oa_approver_id : string;
  oa_approved_at : datetime;
  oa_expires_at : datetime
}.

Definition OfferApproval_check (a : OfferApproval) : result OfferApproval :=
  _ ← fields_ok "OfferApproval"
        [length_within 64 (oa_approval_id a); length_within 64 (oa_case_id a); is_hash (oa_offer_hash a);
         length_within 100 (oa_approver_id a)];
  _ ← _require_aware (oa_approved_at a) "approved_at";
  _ ← _require_aware (oa_expires_at a) "expires_at";
  late ← dt_le (oa_expires_at a) (oa_approved_at a);
  _ ← value_error_when late "offer approval must expire after approval";
  Ok a.

Definition authorize (a : OfferApproval) (o : OfferVersion) (now : datetime) : result OfferVersion :=
  _ ← _require_aware now "now";
  _ ← violation_when (negb (bool_decide (oa_case_id a = ov_case_id o)) ||
                      negb (bool_decide (oa_offer_hash a = ov_offer_hash o)))
        "approval does not bind the current exact offer";
  late ← or_else (dt_le (oa_expires_at a) now) (dt_le (ov_expires_at o) now);
  _ ← violation_when late "offer or approval has expired";
  _ ← violation_when (negb (bool_decide (ov_approval_status o = OfferApprovalStatus.PENDING)))
        "offer is not pending approval";
  OfferVersion_check (with_offer o OfferApprovalStatus.APPROVED "").
End offers.

(** ** Payment handoffs *)

Record ExchangePaymentHandoff := mkExchangePaymentHandoff {
  xh_handoff_id : string;
  xh_case_id : string;
  xh_offer_hash : string;
  xh_approval_hash : string;
  xh_destination_url : string;
  xh_recipient : string;
  xh_amount : Decimal;
  xh_currency : string;
  xh_reference : string;
  xh_created_at : datetime;
  xh_expires_at : datetime;
  xh_status : ExchangeHandoffStatus.t;
  xh_opened_at : option datetime;
  xh_handoff_hash : string
}.

Definition exchange_handoff_payload (h : ExchangePaymentHandoff) : PyVal :=
  dict [("schema_version", VStr "exchange-handoff.v1"); ("handoff_id", VStr (xh_handoff_id h));
        ("case_id", VStr (xh_case_id h)); ("offer_hash", VStr (xh_offer_hash h));
        ("approval_hash", VStr (xh_approval_hash h)); ("destination_url", VStr (xh_destination_url h));
        ("recipient", VStr (xh_recipient h)); ("amount", VDecimal (xh_amount h));
        ("currency", VStr (xh_currency h)); ("reference", VStr (xh_reference h));
        ("created_at", VDatetime (xh_created_at h)); ("expires_at", VDatetime (xh_expires_at h))].

Definition with_exchange_handoff (h : ExchangePaymentHandoff) (status : ExchangeHandoffStatus.t)
    (opened_at : option datetime) (hash : string) : ExchangePaymentHandoff :=
  mkExchangePaymentHandoff (xh_handoff_id h) (xh_case_id h) (xh_offer_hash h) (xh_approval_hash h)
    (xh_destination_url h) (xh_recipient h) (xh_amount h) (xh_currency h) (xh_reference h) (xh_created_at h)
    (xh_expires_at h) status opened_at hash.

Section exchange_handoffs.
Context `{Rfc8785} `{BracketedHosts}.

Definition ExchangePaymentHandoff_check (h : ExchangePaymentHandoff) : result ExchangePaymentHandoff :=
  _ ← fields_ok "ExchangePaymentHandoff"
        [length_within 64 (xh_handoff_id h); length_within 64 (xh_case_id h); is_hash (xh_offer_hash h);
         is_hash (xh_approval_hash h); length_within 2000 (xh_destination_url h);
         length_within 200 (xh_recipient h); is_price (xh_amount h); currency_code (xh_currency h);
         length_within 160 (xh_reference h)];
  destination ← urlsplit (xh_destination_url h);
  _ ← value_error_when (negb (destination_ok destination))
        "exchange handoff destination must be HTTPS without credentials or fragment";
  _ ← _require_aware (xh_created_at h) "created_at";
  _ ← _require_aware (xh_expires_at h) "expires_at";
  late ← dt_le (xh_expires_at h) (xh_created_at h);
  _ ← value_error_when late "exchange handoff must expire after creation";
  _ ← match xh_opened_at h with Some d => _require_aware d "opened_at" | None => Ok () end;
  _ ← value_error_when (bool_decide (xh_status h = ExchangeHandoffStatus.OPENED) && is_none (xh_opened_at h))
        "opened exchange handoff requires opened_at";
  _ ← value_error_when (negb (bool_decide (xh_status h = ExchangeHandoffStatus.OPENED)) &&
                        negb (is_none (xh_opened_at h)))
        "only an opened exchange handoff may have opened_at";
  hash ← seal (exchange_handoff_payload h) (xh_handoff_hash h)
           "handoff_hash does not match the canonical exchange handoff";
  Ok (with_exchange_handoff h (xh_status h) (xh_opened_at h) hash).

(** [handoff.open(now=now)] *)
Definition open_ (h : ExchangePaymentHandoff) (now : datetime) : result ExchangePaymentHandoff :=
  _ ← _require_aware now "now";
  if bool_decide (xh_status h = ExchangeHandoffStatus.OPENED) then Ok h else
  closed ← (if negb (bool_decide (xh_status h = ExchangeHandoffStatus.READY)) then Ok true
            else dt_le (xh_expires_at h) now);
  _ ← violation_when closed "exchange handoff is not openable";
  ExchangePaymentHandoff_check (with_exchange_handoff h ExchangeHandoffStatus.OPENED (Some now) "").
End exchange_handoffs.

(** ** Counteroffers *)

(** Equality of models compares their fields; numbers by value. *)
Definition line_eqb (a b : OfferLine) : bool :=
  bool_decide (ol_item_id a = ol_item_id b) && bool_decide (ol_description a = ol_description b) &&
  (ol_quantity a =? ol_quantity b) && dec_eqb (ol_unit_price a) (ol_unit_price b).
Fixpoint lines_eqb (l k : list OfferLine) : bool :=
  match l, k with
  | [], [] => true
  | a :: l, b :: k => line_eqb a b && lines_eqb l k
  | _, _ => false
  end.

(** The terms that differ. *)
Definition actual_changes (previous current : OfferVersion) : list string :=
  ((if bool_decide (ov_currency previous = ov_currency current) then [] else ["currency"]) ++
   (if lines_eqb (ov_lines previous) (ov_lines current) then [] else ["lines"]) ++
   (if dec_eqb (ov_total previous) (ov_total current) then [] else ["total"]) ++
   (if bool_decide (ov_requirement_hash previous = ov_requirement_hash current) then []
    else ["requirement_hash"]) ++
   (if bool_decide (ov_evidence_hash previous = ov_evidence_hash current) then [] else ["evidence_hash"]))%list.

(** [set(a) == set(b)] *)
Definition same_set (a b : list string) : bool := forallb (λ x, py_in x b) a && forallb (λ x, py_in x a) b.

Definition validate_counteroffer (previous current : OfferVersion) : result unit :=
  _ ← violation_when (negb (bool_decide (ov_case_id current = ov_case_id previous)) ||
                      negb (bool_decide (ov_offer_id current = ov_offer_id previous)))
        "counteroffer targets another negotiation";
  _ ← violation_when (negb (ov_version current =? ov_version previous + 1))
        "counteroffer version is not sequential";
  _ ← violation_when (negb (bool_decide (ov_predecessor_hash current = Some (ov_offer_hash previous))))
        "counteroffer does not bind the current offer";
  _ ← violation_when (negb (bool_decide (ov_proposer current = ov_recipient previous)) ||
                      negb (bool_decide (ov_recipient current = ov_proposer previous)))
        "counteroffer parties do not alternate";
  violation_when (negb (same_set (ov_changed_terms current) (actual_changes previous current)))
    "changed_terms does not exactly describe the counteroffer".

(** ** Prices are added exactly *)

Lemma scaled_le a i b j m :
  m <= i → m <= j → (scaled a i <= scaled b j)%Q ↔ a * 10 ^ (i - m) <= b * 10 ^ (j - m).
Proof.
  intros Hi Hj. rewrite <- (Z.sub_add m i) at 1. rewrite <- (Z.sub_add m j) at 1.
  rewrite (Z.add_comm (i - m) m), (Z.add_comm (j - m) m), <- !scaled_shift by lia.
  rewrite Qle_alt, scaled_compare. destruct (Z.compare_spec (a * 10 ^ (i - m)) (b * 10 ^ (j - m))); naive_solver lia.
Qed.

(** [d] is [n] cents, or too much for the 28 digits of the context. *)
Definition worth (d : Decimal) (n : Z) : Prop :=
  ∃ c e, d = DFinite c e ∧ 0 <= n < max_cents ∧ (scaled c e == scaled n (-2))%Q.
Definition huge (d : Decimal) : Prop := ∃ c e, d = DFinite c e ∧ (scaled 1 26 <= scaled c e)%Q.
Definition worth_or_huge (d : Decimal) (n : Z) : Prop := worth d n ∨ huge d ∧ max_cents <= n.

Lemma fix_worth c e n : 0 <= n < max_cents → (scaled c e == scaled n (-2))%Q → worth (dec_fix (DFinite c e)) n.
Proof.
  intros Hn E. destruct (cents_coef c e n E) as [Hhi Hlo]. destruct (Z.le_gt_cases (-2) e) as [He|He].
  - specialize (Hhi He). assert (0 < 10 ^ (e + 2)) by (apply Z.pow_pos_nonneg; lia).
    rewrite dec_fix_exact; [by exists c, e|]. apply ndigits_le; [unfold dec_prec; lia|].
    unfold max_cents, dec_prec in *. nia.
  - rewrite (Hlo He). destruct (dec_fix_multiple n (-2 - e) e) as (c' & e' & -> & _ & Ev); [done|lia|].
    exists c', e'. split_and!; [done|lia..|]. rewrite Ev. by replace (e + (-2 - e)) with (-2) by lia.
Qed.

Lemma huge_digits c e : (scaled 1 26 <= scaled c e)%Q → 0 < c ∧ 27 <= ndigits c + e.
Proof.
  intros H. rewrite (scaled_le _ _ _ _ (Z.min 26 e)) in H by lia. set (k := Z.min 26 e) in *.
  pose proof (Z.pow_pos_nonneg 10 (26 - k)). assert (0 < 10 ^ (e - k)) by (apply Z.pow_pos_nonneg; lia).
  assert (0 < c) as Hc by nia. split; [done|]. apply Z.nlt_ge. intros Hlt.
  pose proof (ndigits_spec c ltac:(lia)) as [_ Hhi]. rewrite Z.abs_eq in Hhi by lia. pose proof (ndigits_pos c).
  assert (10 ^ (ndigits c) * 10 ^ (e - k) <= 10 ^ (26 - k)); [|nia].
  rewrite <- Z.pow_add_r by lia. apply Z.pow_le_mono_r; lia.
Qed.

Lemma fix_huge c e : (scaled 1 26 <= scaled c e)%Q → huge (dec_fix (DFinite c e)).
Proof.
  intros H. destruct (huge_digits c e H) as [Hc Hd].
  unfold dec_fix. destruct (Z.leb_spec (ndigits c) dec_prec) as [|Hn]; [by exists c, e|].
  pose proof (ndigits_spec c ltac:(lia)) as [Hlo Hhi]. rewrite Z.abs_eq in * by lia.
  set (s := ndigits c - dec_prec). assert (-1 <= e + s) as Hes by (unfold s, dec_prec; lia).
  assert (10 ^ 27 <= round_coef c s) as Hc'.
  { unfold round_coef. rewrite Z.sgn_pos, Z.abs_eq by lia.
    transitivity (c / 10 ^ s); [|rewrite Z.mul_1_l; apply div_half_even_lower].
    assert (0 < 10 ^ s) by (apply Z.pow_pos_nonneg; lia). apply Z.div_le_lower_bound; [done|].
    rewrite <- Z.pow_add_r by lia. etransitivity; [|exact Hlo]. apply Z.pow_le_mono_r; unfold s, dec_prec; lia. }
  destruct (Z.leb_spec (ndigits (round_coef c s)) dec_prec) as [|Hn'].
  - eexists _, _. split; [done|]. apply (scaled_le _ _ _ _ (-1)); [lia..|].
    assert (0 < 10 ^ (e + s - -1)) by (apply Z.pow_pos_nonneg; lia). nia.
  - pose proof (ndigits_spec (round_coef c s) ltac:(lia)) as [Hlo' _]. rewrite Z.abs_eq in Hlo' by lia.
    assert (10 ^ 28 <= round_coef c s).
    { etransitivity; [|exact Hlo']. apply Z.pow_le_mono_r; unfold dec_prec in *; lia. }
    assert (10 ^ 27 <= round_coef c s / 10) by (apply Z.div_le_lower_bound; lia).
    eexists _, _. split; [done|]. apply (scaled_le _ _ _ _ (-1)); [lia..|].
    assert (0 < 10 ^ (e + s + 1 - -1)) by (apply Z.pow_pos_nonneg; lia). nia.
Qed.

Lemma fix_worth_or_huge c e n : 0 <= n → (scaled c e == scaled n (-2))%Q → worth_or_huge (dec_fix (DFinite c e)) n.
Proof.
  intros Hn E. destruct (Z.lt_ge_cases n max_cents) as [Hlt|Hge]; [left; by apply fix_worth|].
  right. split; [|done]. apply fix_huge. rewrite E. apply (scaled_le _ _ _ _ (-2)); [lia..|].
  rewrite Z.mul_1_l. change (-2 - -2) with 0. rewrite Z.pow_0_r. unfold max_cents in Hge. change (26 - -2) with 28. lia.
Qed.

(** What the context makes of an exact result of [n] cents. *)
Lemma finish_worth_or_huge c e n d :
  0 <= n → (scaled c e == scaled n (-2))%Q → dec_finish (DFinite c e) = Ok d → worth_or_huge d n.
Proof.
  intros Hn E H. destruct (Z.eq_dec c 0) as [->|Hc].
  - injection H as <-. assert (n = 0) as -> by (apply (scaled_zero_iff n (-2)); rewrite <- E; by apply scaled_zero_iff).
    left. eexists 0, _. split_and!; [done|lia|done|]. rewrite (proj2 (scaled_zero_iff 0 (-2))) by done. by apply scaled_zero_iff.
  - pose proof (cents_digits c e n Hc E). pose proof (ndigits_pos n).
    rewrite (dec_finish_Ok_fix c e d) by (done || (unfold dec_emax; lia)). by apply fix_worth_or_huge.
Qed.

(** ... and of one beyond the amounts. *)
Lemma finish_huge c e d : (scaled 1 26 <= scaled c e)%Q → dec_finish (DFinite c e) = Ok d → huge d.
Proof.
  intros H Hd. destruct (huge_digits c e H) as [Hc He].
  rewrite (dec_finish_Ok_fix c e d); [by apply fix_huge|lia|unfold dec_emax; lia|done].
Qed.

Lemma worth_nonneg d n : worth_or_huge d n → (0 <= dec_value d)%Q ∧ ∃ c e, d = DFinite c e.
Proof.
  intros [(c & e & -> & Hn & E)|[(c & e & -> & H) _]]; (split; [|eauto]); cbn.
  - rewrite E. apply scaled_nonneg. lia.
  - apply (Qle_trans _ (scaled 1 26)); [by apply scaled_nonneg|done].
Qed.

Lemma add_exact c1 e1 c2 e2 :
  ∃ c e, dec_sum (DFinite c1 e1) (DFinite c2 e2) = DFinite c e ∧
    (scaled c e == scaled c1 e1 + scaled c2 e2)%Q.
Proof.
  unfold dec_sum. set (k := Z.min e1 e2). eexists _, _. split; [done|].
  rewrite <- scaled_add, !scaled_shift by (unfold k; lia).
  replace (k + (e1 - k)) with e1 by lia. by replace (k + (e2 - k)) with e2 by lia.
Qed.

Lemma add_worth a m b n d :
  worth_or_huge a m → worth_or_huge b n → 0 <= m → 0 <= n → dec_finish (dec_sum a b) = Ok d →
  worth_or_huge d (m + n).
Proof.
  intros Ha Hb Hm Hn Hd. pose proof (worth_nonneg a m Ha) as [Pa (c1 & e1 & ->)].
  pose proof (worth_nonneg b n Hb) as [Pb (c2 & e2 & ->)]. cbn in Pa, Pb.
  destruct (add_exact c1 e1 c2 e2) as (c & e & Ex & E). rewrite Ex in Hd.
  assert ((scaled 1 26 <= scaled c1 e1)%Q ∨ (scaled 1 26 <= scaled c2 e2)%Q →
    max_cents <= m + n → worth_or_huge d (m + n)) as Hbig.
  { intros Hor Hge. right. split; [|done]. apply (finish_huge c e); [|done]. rewrite E. destruct Hor as [H|H].
    - rewrite <- (Qplus_0_r (scaled 1 26)). by apply Qplus_le_compat.
    - rewrite <- (Qplus_0_l (scaled 1 26)). by apply Qplus_le_compat. }
  destruct Ha as [(? & ? & [= <- <-] & _ & Ea)|[(? & ? & [= <- <-] & Ha) Hma]]; [|apply Hbig; [by left|lia]].
  destruct Hb as [(? & ? & [= <- <-] & _ & Eb)|[(? & ? & [= <- <-] & Hb) Hmb]]; [|apply Hbig; [by right|lia]].
  apply (finish_worth_or_huge c e); [lia| |done]. by rewrite E, Ea, Eb, scaled_add.
Qed.

Lemma cents_of_value d n : cents_of d = Some n → ∃ c e, d = DFinite c e ∧ (scaled c e == scaled n (-2))%Q.
Proof.
  destruct d as [c e| |]; cbn [cents_of]; try done. destruct (Z.leb_spec (-2) e) as [He|He].
  - intros [= <-]. exists c, e. split; [done|]. by apply scaled_lift.
  - destruct (Z.eqb_spec (c mod 10 ^ (-2 - e)) 0) as [Hm|]; [|done]. intros [= <-]. exists c, e. split; [done|].
    assert (0 < 10 ^ (-2 - e)) by (apply Z.pow_pos_nonneg; lia).
    pose proof (Z.div_mod c (10 ^ (-2 - e)) ltac:(lia)) as E. rewrite Hm, Z.add_0_r, Z.mul_comm in E.
    rewrite E at 1. rewrite scaled_shift by lia. by replace (e + (-2 - e)) with (-2) by lia.
Qed.

Lemma is_price_cents d : is_price d = true → ∃ n, cents_of d = Some n ∧ 0 <= n < 10 ^ 20.
Proof. unfold is_price. destruct (cents_of d) as [n|]; [|done]. intros H. exists n. split; [done|lia]. Qed.

Lemma scaled_mul c n e : (scaled (c * n) e == inject_Z n * scaled c e)%Q.
Proof. unfold scaled. rewrite inject_Z_mult. ring. Qed.

(** The cents of a line. *)
Definition line_cents (l : OfferLine) : Z := default 0 (cents_of (ol_unit_price l)) * ol_quantity l.
(** The exact total of the lines. *)
Definition lines_value (lines : list OfferLine) : Q :=
  foldr (λ l acc, (inject_Z (ol_quantity l) * dec_value (ol_unit_price l) + acc)%Q) 0%Q lines.

Lemma line_ok_cents l :
  line_ok l = true →
  0 <= line_cents l ∧ (inject_Z (ol_quantity l) * dec_value (ol_unit_price l) == scaled (line_cents l) (-2))%Q ∧
  ∀ s, subtotal l = Ok s → worth_or_huge s (line_cents l).
Proof.
  unfold line_ok, line_cents, subtotal. intros [[_ Hq]%andb_true_iff (n & En & Hn)%is_price_cents]%andb_true_iff.
  rewrite En. cbn [default]. destruct (cents_of_value _ _ En) as (c & e & -> & Ev). cbn [dec_value].
  apply Z.leb_le in Hq. split_and!; [cbn; nia| |].
  - cbn. by rewrite Ev, scaled_mul.
  - intros s. apply finish_worth_or_huge; [cbn; nia|]. cbn. by rewrite !scaled_mul, Ev.
Qed.

Lemma lines_total_from lines acc m total :
  0 <= m → worth_or_huge acc m → forallb line_ok lines = true → foldM add_line acc lines = Ok total →
  ∃ n, 0 <= n ∧ (scaled m (-2) + lines_value lines == scaled n (-2))%Q ∧ worth_or_huge total n.
Proof.
  revert acc m. induction lines as [|l lines IH]; intros acc m Hm Hacc Hall H.
  { injection H as <-. exists m. split_and!; [done|cbn; ring|done]. }
  cbn in Hall. apply andb_true_iff in Hall as [Hl Hall]. destruct (line_ok_cents l Hl) as (Hc & Ev & Hs).
  cbn [foldM] in H. apply bind_Ok in H as (acc' & (s & Es & Ha)%bind_Ok & H).
  destruct (IH acc' (m + line_cents l)) as (n & Hn & E & Hw); [lia| |done|done|].
  { apply (add_worth acc m s (line_cents l)); [done|by apply Hs|done|done|done]. }
  exists n. split_and!; [done| |done]. rewrite <- E. cbn [lines_value foldr]. fold (lines_value lines).
  rewrite Ev, <- (scaled_add m). ring.
Qed.

Lemma lines_total_worth lines total :
  forallb line_ok lines = true → lines_total lines = Ok total →
  ∃ n, 0 <= n ∧ (lines_value lines == scaled n (-2))%Q ∧ worth_or_huge total n.
Proof.
  intros Hall H. destruct (lines_total_from lines (DFinite 0 0) 0 total) as (n & Hn & E & Hw); [lia| |done|done|].
  { left. exists 0, 0. split_and!; [done|lia|unfold max_cents; lia|]. unfold scaled. ring. }
  exists n. split_and!; [done| |done]. rewrite <- E. assert (scaled 0 (-2) == 0)%Q as -> by (unfold scaled; ring). ring.
Qed.

Section offer_facts.
Context `{Rfc8785}.

Lemma seal_Ok payload given mismatch h :
  seal payload given mismatch = Ok h ↔ content_hash payload = Ok h ∧ (given = "" ∨ given = h).
Proof.
  unfold seal, value_error_when. split.
  - intros (x & Hx & E)%bind_Ok. apply bind_Ok in E as ([] & Hg%raise_if_Ok & [= <-]).
    split; [done|]. apply andb_false_iff in Hg as [Hg|Hg]; apply negb_false_iff in Hg.
    + left. by apply bool_decide_eq_true in Hg.
    + right. by apply bool_decide_eq_true in Hg.
  - intros [-> Hg]. cbn [mbind result_bind].
    assert (negb (is_empty given) && negb (bool_decide (given = h)) = false) as ->; [|done].
    destruct Hg as [->| ->]; [done|]. rewrite bool_decide_eq_true_2 by done. apply andb_false_r.
Qed.

Lemma seal_is_hash payload given mismatch h : seal payload given mismatch = Ok h → is_hash h = true.
Proof. intros [E _]%seal_Ok. by eapply content_hash_is_hash. Qed.

(** What a constructed offer is. *)
Record offer_wf (o : OfferVersion) : Prop := {
  ow_version : 1 <= ov_version o;
  ow_first : ov_version o = 1 → ov_predecessor_hash o = None;
  ow_parties : ov_proposer o ≠ ExchangeParty.SYSTEM ∧ ov_recipient o ≠ ExchangeParty.SYSTEM ∧
               ov_proposer o ≠ ov_recipient o;
  ow_lines : forallb line_ok (ov_lines o) = true;
  ow_price : is_price (ov_total o) = true;
  ow_currency : currency_code (ov_currency o) = true;
  ow_aware : is_aware (ov_expires_at o) = true;
  ow_total : ∃ total, lines_total (ov_lines o) = Ok total ∧ dec_eqb total (ov_total o) = true;
  ow_hash : content_hash (offer_payload o) = Ok (ov_offer_hash o)
}.

Lemma offer_check_wf o o' :
  OfferVersion_check o = Ok o' →
  offer_wf o' ∧ offer_payload o' = offer_payload o ∧ ov_approval_status o' = ov_approval_status o ∧
  (ov_offer_hash o = "" ∨ ov_offer_hash o = ov_offer_hash o') ∧ o' = with_offer o (ov_approval_status o) (ov_offer_hash o').
Proof.
  unfold OfferVersion_check, fields_ok, value_error_when, _participant, _require_aware.
  intros (? & Hf%raise_if_Ok%negb_false_iff & E)%bind_Ok.
  apply bind_Ok in E as (? & Hp%raise_if_Ok%bool_decide_eq_false & E).
  apply bind_Ok in E as (? & Hr%raise_if_Ok%bool_decide_eq_false & E).
  apply bind_Ok in E as (? & Hpr%raise_if_Ok%bool_decide_eq_false & E).
  apply bind_Ok in E as (? & Ha%raise_if_Ok%negb_false_iff & E).
  apply bind_Ok in E as (? & Hfirst%raise_if_Ok & E).
  do 4 apply bind_Ok in E as (? & _ & E).
  apply bind_Ok in E as (total & Htotal & E).
  apply bind_Ok in E as (? & Ht%raise_if_Ok%negb_false_iff & E).
  apply bind_Ok in E as (h & [Hh Hg]%seal_Ok & [= <-]).
  cbn [forallb id] in Hf. rewrite !andb_true_iff in Hf.
  destruct Hf as (_ & _ & Hv & _ & _ & Hc & _ & Hl & Hpx & _).
  split_and!; try done. split; try done; cbn; [lia| |by exists total].
  intros Hv1. rewrite Hv1 in Hfirst. cbn in Hfirst. apply negb_false_iff in Hfirst. by apply is_none_true.
Qed.

Lemma offer_wf_total o : offer_wf o → (dec_value (ov_total o) == lines_value (ov_lines o))%Q.
Proof.
  intros Hwf. destruct (ow_total _ Hwf) as (total & Htotal & Heq).
  destruct (lines_total_worth _ _ (ow_lines _ Hwf) Htotal) as (n & Hn & -> & Hw).
  destruct (is_price_cents _ (ow_price _ Hwf)) as (t & Et & Ht). destruct (cents_of_value _ _ Et) as (c & e & E & Ev).
  rewrite E in Heq |- *. cbn.
  destruct Hw as [(c' & e' & -> & _ & Ew)|[(c' & e' & -> & Hbig) _]]; apply dec_eqb_finite in Heq.
  - by rewrite <- Heq.
  - exfalso. rewrite Heq, Ev in Hbig. rewrite (scaled_le _ _ _ _ (-2)) in Hbig by lia.
    change (26 - -2) with 28 in Hbig. change (-2 - -2) with 0 in Hbig. lia.
Qed.

(** C20: the total of an offer is exact.  The sum of the lines is computed in a
    context of 28 digits that rounds, yet a constructed offer's total is
    exactly the sum of quantity times unit price: a sum that was rounded is too
    large to be a total. *)
Theorem offer_total_exact (o o' : OfferVersion) :
  OfferVersion_check o = Ok o' → (dec_value (ov_total o') == lines_value (ov_lines o'))%Q.
Proof. intros [Hwf _]%offer_check_wf. by apply offer_wf_total. Qed.
End offer_facts.
