(* ===== verification/Tables.v ===== *)
(** * Tables and transactions

    A table is the list of its rows; an insert checks the primary key and the
    unique constraints of the table and raises when one is violated.  A body
    run in a transaction reads and writes a store; when it raises, the caller
    keeps the store it had.  Rows are locked by [FOR UPDATE] and transactions
    are serialisable, so a history of the store is a sequence of bodies. *)
From S2P Require Import Prelude PyText.

Local Open Scope Z_scope.

(** ** The transaction monad *)

Definition tx (S A : Type) : Type := S → result (A * S).

#[export] Instance tx_ret S : MRet (tx S) := λ A a s, Ok (a, s).
#[export] Instance tx_bind S : MBind (tx S) := λ A B f m s,
  match m s with Ok (a, s') => f a s' | Raise e => Raise e end.

(** A computation that does not touch the store. *)
Definition lift {S A} (m : result A) : tx S A := λ s, match m with Ok a => Ok (a, s) | Raise e => Raise e end.
Definition read {S A} (f : S → A) : tx S A := λ s, Ok (f s, s).
Definition write {S} (f : S → S) : tx S unit := λ s, Ok ((), f s).

Definition raise_tx {S A} (e : exn) : tx S A := λ _, Raise e.
Definition raise_when {S} (c : bool) (e : exn) : tx S unit := lift (raise_if c e).

(** [async with database.transaction(...)]: the store after the body, or the
    store before it and the error. *)
Definition commit {S A} (body : tx S A) (s : S) : result A * S :=
  match body s with Ok (a, s') => (Ok a, s') | Raise e => (Raise e, s) end.

(** ** Tables *)

(** [session.add(row)] and [flush()]; [clash] says that two rows violate the
    primary key or a unique constraint. *)
Definition insert_row {R} (clash : R → R → bool) (row : R) (rows : list R) : result (list R) :=
  if existsb (clash row) rows then Raise IntegrityError else Ok (rows ++ [row])%list.

Definition update_rows {R} (where_ : R → bool) (set : R → R) (rows : list R) : list R :=
  List.map (λ r, if where_ r then set r else r) rows.

(** [select(...).where(...)] with a single row wanted. *)
Definition select_one {R} (where_ : R → bool) (rows : list R) : option R := find where_ rows.

(** [order_by(key.desc()).limit(1)] *)
Definition select_latest {R} (key : R → Z) (where_ : R → bool) (rows : list R) : option R :=
  match List.filter where_ rows with [] => None | r :: l => Some (max_by key r l) end.

(** ** Facts *)

Section tx_facts.
Context {S : Type}.

Lemma tx_bind_Ok {A B} (m : tx S A) (f : A → tx S B) s b s' :
  (m ≫= f) s = Ok (b, s') ↔ ∃ a s1, m s = Ok (a, s1) ∧ f a s1 = Ok (b, s').
Proof.
  unfold mbind, tx_bind. destruct (m s) as [[a s1]|]; split; [eauto|by intros (? & ? & [= <- <-] & ?)|done|].
  by intros (? & ? & ? & _).
Qed.

Lemma lift_Ok {A} (m : result A) (s : S) a s' : lift m s = Ok (a, s') ↔ m = Ok a ∧ s' = s.
Proof. unfold lift. destruct m; naive_solver. Qed.

Lemma read_Ok {A} (f : S → A) (s : S) a s' : read f s = Ok (a, s') ↔ a = f s ∧ s' = s.
Proof. unfold read. naive_solver. Qed.

Lemma write_Ok (f : S → S) (s : S) u s' : write f s = Ok (u, s') ↔ s' = f s.
Proof. unfold write. destruct u. naive_solver. Qed.

Lemma ret_Ok {A} (a : A) (s : S) b s' : (mret a : tx S A) s = Ok (b, s') ↔ b = a ∧ s' = s.
Proof. unfold mret, tx_ret. naive_solver. Qed.

Lemma raise_when_Ok c e (s : S) u s' : raise_when c e s = Ok (u, s') ↔ c = false ∧ s' = s.
Proof. unfold raise_when. rewrite lift_Ok, raise_if_Ok. done. Qed.
End tx_facts.

(** Inverts the steps of a transaction that succeeded. *)
Ltac inv_tx :=
  repeat match goal with
  | H : mbind _ _ _ = Ok (_, _) |- _ =>
      let a := fresh "a" in let s := fresh "s" in let E := fresh "E" in
      apply tx_bind_Ok in H as (a & s & E & H)
  | H : lift _ _ = Ok (_, _) |- _ => apply lift_Ok in H as [H ->]
  | H : read _ _ = Ok (_, _) |- _ => apply read_Ok in H as [-> ->]
  | H : write _ _ = Ok (_, _) |- _ => apply write_Ok in H as ->
  | H : raise_when _ _ _ = Ok (_, _) |- _ => apply raise_when_Ok in H as [H ->]
  | H : mret _ _ = Ok (_, _) |- _ => apply ret_Ok in H as [-> ->]
  | H : raise_tx _ _ = Ok _ |- _ => discriminate H
  end.

Lemma insert_row_Ok {R} (clash : R → R → bool) row rows rows' :
  insert_row clash row rows = Ok rows' ↔ rows' = (rows ++ [row])%list ∧ ∀ r, r ∈ rows → clash row r = false.
Proof.
  unfold insert_row. destruct (existsb (clash row) rows) eqn:E.
  - split; [done|]. intros [_ Hn]. apply existsb_Exists in E as (r & Hr & Hc). by rewrite Hn in Hc.
  - split; [intros [= <-]; split; [done|by apply existsb_false]|by intros [-> _]].
Qed.

Lemma select_one_Some {R} (where_ : R → bool) rows r : select_one where_ rows = Some r → r ∈ rows ∧ where_ r = true.
Proof. intros [Hr%list_elem_of_In ?]%find_some. done. Qed.

Lemma select_one_None {R} (where_ : R → bool) rows : select_one where_ rows = None ↔ ∀ r, r ∈ rows → where_ r = false.
Proof.
  unfold select_one. induction rows as [|r rows IH]; cbn; [set_solver|].
  destruct (where_ r) eqn:E; [|rewrite IH; set_solver]. split; [done|]. intros Hn. rewrite Hn in E by set_solver. done.
Qed.

Lemma select_latest_Some {R} (key : R → Z) where_ rows r :
  select_latest key where_ rows = Some r →
  r ∈ rows ∧ where_ r = true ∧ ∀ r', r' ∈ rows → where_ r' = true → key r' <= key r.
Proof.
  unfold select_latest. destruct (List.filter where_ rows) as [|x l] eqn:E; [done|]. intros [= <-].
  assert (∀ y, y ∈ x :: l ↔ y ∈ rows ∧ where_ y = true) as Hl by (intros y; rewrite <- E; apply elem_of_lfilter).
  assert (max_by key x l ∈ x :: l) as Hm by (destruct (max_by_elem key x l) as [->|]; set_solver).
  apply Hl in Hm as [Hin Hw]. split_and!; [done..|]. intros y Hy Hwy.
  assert (y ∈ x :: l) as Hyl by by apply Hl.
  pose proof (max_by_ge key x l y ltac:(set_solver)) as Hge. unfold key_le in Hge.
  by apply Z_le_iff.
Qed.

Lemma select_latest_None {R} (key : R → Z) where_ rows :
  select_latest key where_ rows = None ↔ ∀ r, r ∈ rows → where_ r = false.
Proof.
  unfold select_latest. destruct (List.filter where_ rows) as [|x l] eqn:E.
  - split; [|done]. intros _ r Hr. destruct (where_ r) eqn:Ew; [|done].
    assert (r ∈ List.filter where_ rows) as Hin by by apply elem_of_lfilter. rewrite E in Hin. set_solver.
  - split; [done|]. intros Hn. assert (x ∈ List.filter where_ rows) as [Hx Hw]%elem_of_lfilter by (rewrite E; set_solver).
    by rewrite Hn in Hw.
Qed.

Lemma elem_of_update_rows {R} (where_ : R → bool) set rows r :
  r ∈ update_rows where_ set rows ↔ ∃ r0, r0 ∈ rows ∧ r = if where_ r0 then set r0 else r0.
Proof.
  unfold update_rows. change (List.map ?f rows) with (f <$> rows). rewrite list_elem_of_fmap. naive_solver.
Qed.

Lemma filter_update {R} (p w : R → bool) f rows :
  (∀ r, p (f r) = p r) → List.filter p (update_rows w f rows) = update_rows w f (List.filter p rows).
Proof.
  intros Hp. induction rows as [|r rows IH]; [done|]. cbn [update_rows List.map List.filter].
  assert (p (if w r then f r else r) = p r) as -> by (destruct (w r); [apply Hp|done]).
  destruct (p r); cbn; [f_equal|]; apply IH.
Qed.

Lemma update_rows_none {R} (w : R → bool) f rows : (∀ r, r ∈ rows → w r = false) → update_rows w f rows = rows.
Proof.
  intros Hw. induction rows as [|r rows IH]; [done|]. cbn. rewrite Hw by set_solver. f_equal. apply IH. set_solver.
Qed.
