(* ===== verification/Database.v ===== *)
(** * Units of work: [persistence/database.py]

    The validation of tenants, transactions that are retried when the database
    reports a serialisation failure, and requests as sequences of transactions
    between which other transactions may commit. *)
From S2P Require Import Prelude PyText Tables.

Local Open Scope string_scope.
Local Open Scope Z_scope.

(** ** Tenants *)

(** [[A-Za-z0-9_-]{1,48}\Z] *)
Definition tenant_char (c : ascii) : bool := is_alnum c || bool_decide (c ∈ ["_"; "-"]%char).
Definition is_organization_id (s : string) : bool :=
  forallb tenant_char (chars s) && (1 <=? length (chars s))%nat && (length (chars s) <=? 48)%nat.

Definition _validated_organization_id (organization_id : string) : result string :=
  _ ← raise_if (negb (is_organization_id organization_id))
        (ValueError "organization_id must contain 1-48 ASCII letters, digits, underscores, or hyphens");
  Ok organization_id.

(** [async with database.transaction(organization_id)]: the body of a valid
    tenant, committed as a whole or not at all. *)
Definition transaction {S A} (organization_id : string) (body : tx S A) (s : S) : result A * S :=
  commit (_ ← lift (_validated_organization_id organization_id); body) s.

(** [organization_ids(limit=...)] on the rows of the directory of tenants. *)
Definition organization_ids (limit : Z) (rows : list string) : result (list string) :=
  _ ← raise_if ((limit <? 1) || (10000 <? limit)) (ValueError "organization limit must be between 1 and 10000");
  mapM _validated_organization_id (take (Z.to_nat limit) (sorted_set rows)).

(** ** Errors of the driver *)

(** An error object: its own attributes and the errors it refers to. *)
Record error_object := mkErrorObject {
  eo_sqlstate : option string;
  eo_pgcode : option string;
  eo_orig : option nat;
  eo_cause : option nat;
  eo_context : option nat
}.

(** [current.__cause__ or current.__context__], unless [orig] is an error. *)
Definition next_error (e : error_object) : option nat :=
  match eo_orig e with
  | Some n => Some n
  | None => match eo_cause e with Some n => Some n | None => eo_context e end
  end.

(** [_sqlstate(error)]: the objects are the entries of [heap]; those visited
    are not visited again, so as many rounds as there are objects suffice. *)
Fixpoint sqlstate_walk (fuel : nat) (heap : list error_object) (seen : list nat) (current : option nat)
  : option string :=
  match fuel, current with
  | S fuel, Some n =>
      match heap !! n with
      | Some e =>
          if bool_decide (n ∈ seen) then None else
          match eo_sqlstate e, eo_pgcode e with
          | Some state, _ | None, Some state => Some state
          | None, None => sqlstate_walk fuel heap (n :: seen) (next_error e)
          end
      | None => None
      end
  | _, _ => None
  end.
Definition _sqlstate (heap : list error_object) (error : nat) : option string :=
  sqlstate_walk (S (length heap)) heap [] (Some error).

Lemma sqlstate_walk_fuel fuel heap seen current :
  NoDup seen → (∀ n, n ∈ seen → n < length heap)%nat → (length heap < fuel + length seen)%nat →
  sqlstate_walk fuel heap seen current = sqlstate_walk (S fuel) heap seen current.
Proof.
  revert seen current. induction fuel as [|fuel IH]; intros seen current Hn Hin Hf.
  - exfalso. assert (length seen ≤ length (seq 0 (length heap)))%nat as Hle.
    { apply submseteq_length, NoDup_submseteq; [done|]. intros n Hn'. apply elem_of_seq. specialize (Hin n Hn'). lia. }
    rewrite length_seq in Hle. lia.
  - cbn [sqlstate_walk]. destruct current as [n|]; [|done]. destruct (heap !! n) as [e|] eqn:E; [|done].
    case_bool_decide as Hs; [done|]. destruct (eo_sqlstate e), (eo_pgcode e); try done.
    apply IH; [by constructor| |cbn; lia]. intros m [->|Hm]%elem_of_cons; [|by apply Hin].
    by eapply lookup_lt_Some.
Qed.

(** ** Retries *)

(** [run_retryable(organization_id, work, max_attempts=...)].  [attempt] runs
    one transaction with the unit of work on the world it finds; only a
    [DBAPIError] with the state 40001 is retried.  The pause between two
    attempts is [retry_delay] and its jitter. *)
Definition serialization_failure (e : exn) : bool :=
  match e with DBAPIError state => bool_decide (state = Some "40001") | _ => false end.

Fixpoint retry_loop {W A} (budget : nat) (n max_attempts : Z) (attempt : W → result A * W) (w : W) : result A * W :=
  match budget with
  | O => (Raise AssertionError, w)
  | S budget =>
      match attempt w with
      | (Ok a, w) => (Ok a, w)
      | (Raise e, w) =>
          if negb (serialization_failure e) then (Raise e, w)
          else if n =? max_attempts then (Raise (RetryExhausted max_attempts), w)
          else retry_loop budget (n + 1) max_attempts attempt w
      end
  end.

Definition run_retryable {W A} (organization_id : string) (max_attempts : Z) (attempt : W → result A * W) (w : W)
  : result A * W :=
  match (_ ← raise_if (max_attempts <? 1) (ValueError "max_attempts must be at least 1");
         _validated_organization_id organization_id) with
  | Raise e => (Raise e, w)
  | Ok _ => retry_loop (Z.to_nat max_attempts) 1 max_attempts attempt w
  end.

(** The delay before the next attempt, without its jitter. *)
Definition retry_delay (base : Q) (attempt : Z) : Q := (base * inject_Z (2 ^ (attempt - 1)))%Q.

Section retries.
Context {W A : Type} (attempt : W → result A * W).

(** The world after [k] attempts, and how the next one ends there. *)
Fixpoint after (k : nat) (w : W) : W := match k with O => w | S k => after k (attempt w).2 end.
Definition outcome (k : nat) (w : W) : result A := (attempt (after k w)).1.

Definition fails_serially (r : result A) : Prop := ∃ e, r = Raise e ∧ serialization_failure e = true.

Lemma retry_loop_spec budget n max_attempts w :
  n + Z.of_nat budget = max_attempts + 1 → (0 < budget)%nat →
  ∃ k, (k < budget)%nat ∧ (∀ i, (i < k)%nat → fails_serially (outcome i w)) ∧
    (retry_loop budget n max_attempts attempt w).2 = after (S k) w ∧
    (¬ fails_serially (outcome k w) ∧ (retry_loop budget n max_attempts attempt w).1 = outcome k w ∨
     S k = budget ∧ fails_serially (outcome k w) ∧
       (retry_loop budget n max_attempts attempt w).1 = Raise (RetryExhausted max_attempts)).
Proof.
  revert n w. induction budget as [|budget IH]; intros n w Hn Hl; [lia|].
  assert (outcome 0 w = (attempt w).1) as E0 by done. assert (after 1 w = (attempt w).2) as E1 by done.
  cbn [retry_loop]. destruct (attempt w) as [[a|e] w1] eqn:E; cbn [fst snd] in E0, E1.
  { exists 0%nat. rewrite E0, E1. split_and!; [lia|lia|done|]. left. split; [|done]. by intros (e & ? & _). }
  destruct (serialization_failure e) eqn:Es; cbn [negb].
  - destruct (Z.eqb_spec n max_attempts) as [->|Hne].
    + exists 0%nat. rewrite E0, E1. split_and!; [lia|lia|done|]. right. split_and!; [lia|by exists e|done].
    + destruct (IH (n + 1) w1 ltac:(lia) ltac:(lia)) as (k & Hk & Hf & Hw & Hout). exists (S k).
      assert (∀ i, outcome (S i) w = outcome i w1) as Eout by (intros i; unfold outcome; cbn; by rewrite E).
      split_and!; [lia| |by rewrite Hw; cbn; rewrite E|rewrite Eout; destruct Hout as [?|(? & ? & ?)]; [by left|right]; split_and!; [lia|done..]].
      intros [|i] Hi; [rewrite E0; by exists e|]. rewrite Eout. apply Hf. lia.
  - exists 0%nat. rewrite E0, E1. split_and!; [lia|lia|done|]. left. split; [|done]. intros (e' & [= <-] & ?). congruence.
Qed.
End retries.

(** C18: retries are bounded.  With a valid
    tenant and bound, the unit of work is run [k] times, at least once and at
    most [max_attempts] times, each time on the world the attempt before left
    and nothing else; every attempt but the last failed with the state 40001;
    the answer is the last attempt's own outcome when that is anything else,
    and [RetryExhausted] when [max_attempts] attempts failed so.  The assertion
    after the loop is never reached; with another bound or tenant nothing is
    run. *)
Theorem retries_are_bounded {W A} (organization_id : string) (max_attempts : Z) (attempt : W → result A * W) (w : W) :
  let '(r, w') := run_retryable organization_id max_attempts attempt w in
  if (1 <=? max_attempts) && is_organization_id organization_id then
    ∃ k, 1 <= Z.of_nat (S k) <= max_attempts ∧ w' = after attempt (S k) w ∧
      (∀ i, (i < k)%nat → fails_serially (outcome attempt i w)) ∧
      (¬ fails_serially (outcome attempt k w) ∧ r = outcome attempt k w ∨
       Z.of_nat (S k) = max_attempts ∧ fails_serially (outcome attempt k w) ∧ r = Raise (RetryExhausted max_attempts))
  else w' = w ∧ ∃ message, r = Raise (ValueError message).
Proof.
  unfold run_retryable, _validated_organization_id. destruct (Z.ltb_spec max_attempts 1) as [Hm|Hm].
  { rewrite (proj2 (Z.leb_gt _ _)) by lia. cbn. eauto. }
  rewrite (proj2 (Z.leb_le _ _)) by lia. cbn [raise_if mbind result_bind andb].
  destruct (is_organization_id organization_id); cbn [negb raise_if mbind result_bind]; [|eauto].
  destruct (retry_loop_spec attempt (Z.to_nat max_attempts) 1 max_attempts w ltac:(lia) ltac:(lia)) as (k & Hk & Hf & Hw & Hout).
  destruct (retry_loop _ _ _ _ _) as [r w']. cbn [fst snd] in *. exists k. split_and!; [lia..|done|done|].
  destruct Hout as [?|(? & ? & ?)]; [by left|right]. split_and!; [lia|done..].
Qed.

(** Two attempts fail, the third succeeds: three runs are counted. *)
Example third_attempt :
  run_retryable "org_1" 5 (λ n : nat, (if (n =? 2)%nat then Ok "done" else Raise (DBAPIError (Some "40001")), S n)) 0%nat =
  (Ok "done", 3%nat).
Proof. reflexivity. Qed.

(** ** Requests *)

(** A request runs transactions one after the other, each on the store it
    finds, and ends with a value or an error.  Errors outside a transaction
    leave the store. *)
Inductive prog (S A : Type) : Type :=
| Return (r : result A)
| Transaction {T : Type} (organization_id : string) (body : tx S T) (k : result T → prog S A).
Arguments Return {S A} r.
Arguments Transaction {S A T} organization_id body k.

#[export] Instance prog_ret S : MRet (prog S) := λ A a, Return (Ok a).
#[export] Instance prog_bind S : MBind (prog S) := λ A B f,
  fix bind m :=
    match m with
    | Return (Ok a) => f a
    | Return (Raise e) => Return (Raise e)
    | Transaction org body k => Transaction org body (λ r, bind (k r))
    end.

(** A computation without a transaction, and one transaction. *)
Definition pure {S A} (m : result A) : prog S A := Return m.
Definition in_transaction {S A} (organization_id : string) (body : tx S A) : prog S A :=
  Transaction organization_id body Return.
(** [except ...: raise f(error)] *)
Fixpoint rethrow {S A} (f : exn → exn) (m : prog S A) : prog S A :=
  match m with
  | Return (Ok a) => Return (Ok a)
  | Return (Raise e) => Return (Raise (f e))
  | Transaction org body k => Transaction org body (λ r, rethrow f (k r))
  end.

(** A request alone. *)
Fixpoint run_alone {S A} (m : prog S A) (s : S) : result A * S :=
  match m with
  | Return r => (r, s)
  | Transaction org body k => let '(r, s') := transaction org body s in run_alone (k r) s'
  end.

(** A request among others: before each of its transactions, and after its
    last, the others may take steps. *)
Fixpoint runs {S A} (others : S → S → Prop) (m : prog S A) (s : S) (a : result A) (s' : S) : Prop :=
  match m with
  | Return r => a = r ∧ rtc others s s'
  | Transaction org body k =>
      ∃ s1 r s2, rtc others s s1 ∧ transaction org body s1 = (r, s2) ∧ runs others (k r) s2 a s'
  end.

Section runs.
Context {S : Type} (others : S → S → Prop).

Lemma run_alone_runs {A} (m : prog S A) s : runs others m s (run_alone m s).1 (run_alone m s).2.
Proof.
  revert s. induction m as [r|T org body k IH]; intros s; [by split|]. cbn.
  destruct (transaction org body s) as [r s'] eqn:E. by exists s, r, s'.
Qed.

(** A property of the store that the others and every transaction of the
    request keep holds whenever the request ends. *)
Fixpoint keeps {A} (P : S → Prop) (m : prog S A) : Prop :=
  match m with
  | Return _ => True
  | Transaction org body k =>
      (∀ s a s', P s → body s = Ok (a, s') → P s') ∧ ∀ r, keeps P (k r)
  end.

Lemma transaction_keeps {A} (P : S → Prop) org (body : tx S A) s r s' :
  (∀ s a s', P s → body s = Ok (a, s') → P s') → P s → transaction org body s = (r, s') → P s'.
Proof.
  intros Hb Hs. unfold transaction, commit, mbind, tx_bind, lift.
  destruct (_validated_organization_id org); [|by intros [= _ <-]].
  destruct (body s) as [[b s2]|] eqn:E; intros [= _ <-]; [by eapply Hb|done].
Qed.

Lemma others_keep (P : S → Prop) s s' : (∀ x y, others x y → P x → P y) → rtc others s s' → P s → P s'.
Proof. intros Ho. induction 1 as [|x y z Hxy _ IH]; [done|]. intros Hx. by apply IH, (Ho x). Qed.

Lemma runs_keeps {A} (P : S → Prop) (m : prog S A) s r s' :
  (∀ x y, others x y → P x → P y) → keeps P m → runs others m s r s' → P s → P s'.
Proof.
  intros Ho. revert s. induction m as [x|T org body k IH]; intros s Hk Hr Hs.
  - destruct Hr as [_ Hr]. by eapply others_keep.
  - destruct Hr as (s1 & x & s2 & Ho1 & Et & Hr), Hk as [Hb Hk]. apply (IH x s2); [apply Hk|done|].
    eapply transaction_keeps; [exact Hb| |exact Et]. by eapply others_keep.
Qed.

Lemma runs_before {A} (m : prog S A) s s1 r s' : rtc others s s1 → runs others m s1 r s' → runs others m s r s'.
Proof.
  intros Ho. destruct m as [x|T org body k]; [intros [-> ?]; split; [done|by etrans]|].
  intros (s2 & y & s3 & Ho2 & ? & ?). exists s2, y, s3. split; [by etrans|done].
Qed.

(** How a request that succeeded ran. *)
Lemma runs_bind {A B} (m : prog S A) (f : A → prog S B) s b s' :
  runs others (m ≫= f) s (Ok b) s' ↔ ∃ a s1, runs others m s (Ok a) s1 ∧ runs others (f a) s1 (Ok b) s'.
Proof.
  revert s. induction m as [[a|e]|T org body k IH]; intros s; cbn.
  - split; [intros Hr; exists a, s; split; [by split|done]|].
    intros (a' & s1 & [[= ->] Ho] & Hr). by eapply runs_before.
  - split; [by intros [? _]|]. by intros (a & s1 & [? _] & _).
  - split.
    + intros (s1 & r & s2 & Ho & Et & (a & s3 & H1 & H2)%IH). exists a, s3. split; [by exists s1, r, s2|done].
    + intros (a & s3 & (s1 & r & s2 & Ho & Et & H1) & H2). exists s1, r, s2. split_and!; [done..|].
      apply IH. by exists a, s3.
Qed.

Lemma runs_rethrow {A} f (m : prog S A) s a s' :
  runs others (rethrow f m) s (Ok a) s' ↔ runs others m s (Ok a) s'.
Proof.
  revert s. induction m as [[x|e]|T org body k IH]; intros s; cbn; [done|naive_solver|].
  split; intros (s1 & r & s2 & ? & ? & ?%IH); by exists s1, r, s2.
Qed.

Lemma runs_pure {A} (m : result A) s a s' : runs others (pure m) s (Ok a) s' ↔ m = Ok a ∧ rtc others s s'.
Proof. cbn. naive_solver. Qed.

Lemma runs_transaction {A} org (body : tx S A) s a s' :
  runs others (in_transaction org body) s (Ok a) s' ↔
  ∃ s1 s2, rtc others s s1 ∧ is_organization_id org = true ∧ body s1 = Ok (a, s2) ∧ rtc others s2 s'.
Proof.
  cbn. unfold transaction, commit, _validated_organization_id. split.
  - intros (s1 & r & s2 & Ho & Et & <- & Ho'). exists s1, s2. unfold mbind, tx_bind, lift in Et.
    destruct (is_organization_id org); cbn in Et; [|by injection Et].
    destruct (body s1) as [[b s3]|]; [|by injection Et]. injection Et as <- <-. done.
  - intros (s1 & s2 & Ho & Hv & Eb & Ho'). exists s1, (Ok a), s2. split_and!; try done.
    unfold mbind, tx_bind, lift. rewrite Hv. cbn. by rewrite Eb.
Qed.

Lemma keeps_bind {A B} (P : S → Prop) (m : prog S A) (f : A → prog S B) :
  keeps P m → (∀ a, keeps P (f a)) → keeps P (m ≫= f).
Proof.
  intros Hm Hf. induction m as [[a|e]|T org body k IH]; cbn; [apply Hf|done|].
  destruct Hm as [Hb Hk]. split; [done|]. intros r. apply IH, Hk.
Qed.

Lemma keeps_rethrow {A} (P : S → Prop) f (m : prog S A) : keeps P m → keeps P (rethrow f m).
Proof.
  intros Hm. induction m as [[a|e]|T org body k IH]; cbn; [done..|].
  destruct Hm as [Hb Hk]. split; [done|]. intros r. apply IH, Hk.
Qed.

(** One transaction of a request, whatever the earlier ones ended with. *)
Fixpoint ran {A} (m : prog S A) (s s' : S) : Prop :=
  match m with
  | Return _ => False
  | Transaction org body k => (∃ r, transaction org body s = (r, s')) ∨ ∃ r, ran (k r) s s'
  end.

(** Every transaction of a request is in a relation where an invariant holds. *)
Fixpoint within {A} (I : S → Prop) (R : S → S → Prop) (m : prog S A) : Prop :=
  match m with
  | Return _ => True
  | Transaction org body k => (∀ s a s', I s → body s = Ok (a, s') → R s s') ∧ ∀ r, within I R (k r)
  end.

Lemma transaction_within {A} (R : S → S → Prop) org (body : tx S A) s r s' :
  R s s → (∀ a s', body s = Ok (a, s') → R s s') → transaction org body s = (r, s') → R s s'.
Proof.
  intros Hr Hb. unfold transaction, commit, mbind, tx_bind, lift.
  destruct (_validated_organization_id org); [|by intros [= _ <-]].
  destruct (body s) as [[b s2]|] eqn:E; intros [= _ <-]; [by eapply Hb|done].
Qed.

Lemma within_ran {A} (I : S → Prop) (R : S → S → Prop) (m : prog S A) s s' :
  Reflexive R → within I R m → I s → ran m s s' → R s s'.
Proof.
  intros Hr. induction m as [r|T org body k IH]; [done|]. intros [Hb Hk] Hs [(r & Et)|(r & Ht)].
  - eapply transaction_within; [apply Hr| |exact Et]. intros a s2. by apply Hb.
  - by eapply IH.
Qed.

Lemma within_bind {A B} (I : S → Prop) R (m : prog S A) (f : A → prog S B) :
  within I R m → (∀ a, within I R (f a)) → within I R (m ≫= f).
Proof.
  intros Hm Hf. induction m as [[a|e]|T org body k IH]; cbn; [apply Hf|done|].
  destruct Hm as [Hb Hk]. split; [done|]. intros r. apply IH, Hk.
Qed.

Lemma within_transaction {A} (I : S → Prop) R org (body : tx S A) :
  (∀ s a s', I s → body s = Ok (a, s') → R s s') → within I R (in_transaction org body).
Proof. by split. Qed.

Lemma run_alone_steps {A} (m : prog S A) s : (∀ x y, ran m x y → others x y) → rtc others s (run_alone m s).2.
Proof.
  revert s. induction m as [r|T org body k IH]; intros s Hm; [done|]. cbn.
  destruct (transaction org body s) as [r s1] eqn:E. eapply rtc_l; [apply Hm; left; by exists r|].
  apply IH. intros x y Hxy. apply Hm. right. by exists r.
Qed.

(** A request run among others takes its own steps and theirs. *)
Lemma runs_steps {A} (m : prog S A) s a s' :
  (∀ x y, ran m x y → others x y) → runs others m s a s' → rtc others s s'.
Proof.
  revert s. induction m as [r|T org body k IH]; intros s Hm Hr; [by destruct Hr as [_ ?]|].
  destruct Hr as (s1 & r & s2 & Ho & Et & Hr). etrans; [exact Ho|]. eapply rtc_l; [apply Hm; left; by exists r|].
  eapply (IH r); [|exact Hr]. intros x y Hxy. apply Hm. right. by exists r.
Qed.
End runs.
