(* ===== verification/PyJson.v ===== *)
(** * JSON text: Python's [json.dumps]

    The compact text of a value that holds no floats, with sorted keys and
    escapes for everything outside printable ASCII, as the queue bodies are
    written. *)
From S2P Require Import Prelude PyText PyNumber Hashing.

Local Open Scope string_scope.
Local Open Scope Z_scope.

Definition quote : ascii := ascii_of_nat 34.
Definition backslash : ascii := ascii_of_nat 92.

Definition hex_digit (n : Z) : ascii := nth (Z.to_nat n) (chars "0123456789abcdef") "0"%char.

(** The escape of one character. *)
Definition json_char (c : ascii) : list ascii :=
  let n := Z.of_nat (nat_of_ascii c) in
  if n =? 34 then [backslash; quote] else
  if n =? 92 then [backslash; backslash] else
  if n =? 10 then [backslash; "n"%char] else
  if n =? 13 then [backslash; "r"%char] else
  if n =? 9 then [backslash; "t"%char] else
  if n =? 8 then [backslash; "b"%char] else
  if n =? 12 then [backslash; "f"%char] else
  if (32 <=? n) && (n <=? 126) then [c]
  else (backslash :: chars "u00" ++ [hex_digit (n / 16); hex_digit (n mod 16)])%list.

Definition json_string (s : string) : list ascii := (quote :: (chars s ≫= json_char) ++ [quote])%list.

(** [separator.join(items)] on lists of characters. *)
Fixpoint join_chars (separator : list ascii) (items : list (list ascii)) : list ascii :=
  match items with
  | [] => []
  | [x] => x
  | x :: items => (x ++ separator ++ join_chars separator items)%list
  end.

(** [json.dumps(value, sort_keys=True, separators=(",", ":"))] *)
Fixpoint json_chars (value : Json) : list ascii :=
  match value with
  | JNull => chars "null"
  | JBool b => chars (if b then "true" else "false")
  | JStr s => json_string s
  | JInt n => chars (str_int n)
  | JList l => ("["%char :: join_chars [","%char] (json_chars <$> l) ++ ["]"%char])%list
  | JObj l =>
      ("{"%char :: join_chars [","%char]
          (sorted_by fst ((λ p, (p.1, json_string p.1 ++ ":"%char :: json_chars p.2)) <$> l)).*2 ++ ["}"%char])%list
  end.
Definition json_dumps (value : Json) : string := of_chars (json_chars value).

Example json_dumps_sorted :
  json_dumps (JObj [("b", JInt 2); ("a", JList [JNull; JBool true; JStr "x"])]) =
  of_chars (concat [chars "{"; quote :: chars "a"; quote :: chars ":[null,true,"; quote :: chars "x"; quote :: chars "],";
                    quote :: chars "b"; quote :: chars ":2}"])%list.
Proof. vm_compute. reflexivity. Qed.
