(* ===== verification/Outbox.v ===== *)
(** * The outbox: [sira_worker/outbox_dispatcher.py] and [integrations/aws_services.py]

    Events written with the transactions they belong to are sent to a queue
    and then marked.  The queue is the list of the messages it accepted; the
    client is a third party: given what was sent before, it answers with the
    identity of a delivery or fails.  The state is kept when an error is
    raised, since every transaction commits on its own. *)
From S2P Require Import Prelude PyText PyNumber PyTime Sha256 Hashing PyJson Tables Database.

Local Open Scope string_scope.
Local Open Scope Z_scope.

(** ** Rows and envelopes *)

Record OutboxEvent := mkOutboxEvent {
  oe_id : string;
  oe_organization_id : string;
  oe_aggregate_type : string;
  oe_aggregate_id : string;
  oe_event_type : string;
  oe_event_key : string;
  oe_payload : Json;
  oe_occurred_at : datetime;
  oe_published_at : option datetime
}.

Record OutboxEnvelope := mkOutboxEnvelope {
  en_id : string;
  en_organization_id : string;
  en_aggregate_type : string;
  en_aggregate_id : string;
  en_event_type : string;
  en_event_key : string;
  en_payload : Json;
  en_occurred_at : string
}.

(** The checks of the construction; its pattern is the one of the tenants. *)
Definition OutboxEnvelope_check (e : OutboxEnvelope) : result OutboxEnvelope :=
  _ ← raise_if (negb (is_organization_id (en_organization_id e))) (ValueError "organization_id is invalid");
  _ ← raise_if (existsb (λ value, is_empty (strip value))
        [en_id e; en_aggregate_type e; en_aggregate_id e; en_event_type e; en_event_key e; en_occurred_at e])
        (ValueError "outbox envelope fields must not be empty");
  Ok e.

Definition body (e : OutboxEnvelope) : string :=
  json_dumps (JObj
    [("schema_version", JInt 1); ("message_id", JStr (en_id e)); ("organization_id", JStr (en_organization_id e));
     ("aggregate_type", JStr (en_aggregate_type e)); ("aggregate_id", JStr (en_aggregate_id e));
     ("event_type", JStr (en_event_type e)); ("event_key", JStr (en_event_key e)); ("payload", en_payload e);
     ("occurred_at", JStr (en_occurred_at e))]).

(** ** The queue *)

Record QueueMessage := mkQueueMessage {
  qm_body : string;
  qm_group_id : string;
  qm_deduplication_id : string;
  qm_event_type : string;
  qm_body_sha256 : string
}.

(** [client.send_message]: the message and sequence identities, or an error. *)
Class SqsClient := send_message : list QueueMessage → QueueMessage → result (string * string).

Record PublishedMessage := mkPublishedMessage {
  pm_message_id : string;
  pm_sequence_number : string;
  pm_body_sha256 : string
}.

Definition _MAX_QUEUE_BODY_BYTES : Z := 256 * 1024.

Record outbox := mkOutbox { ob_events : list OutboxEvent; ob_sent : list QueueMessage }.

(** A computation on the outbox that keeps the state when it raises. *)
Definition io (A : Type) : Type := outbox → result A * outbox.
#[export] Instance io_ret : MRet io := λ A a w, (Ok a, w).
#[export] Instance io_bind : MBind io := λ A B f m w,
  match m w with (Ok a, w') => f a w' | (Raise e, w') => (Raise e, w') end.
Definition io_lift {A} (m : result A) : io A := λ w, (m, w).
Lemma io_bind_run {A B} (m : io A) (f : A → io B) w :
  (m ≫= f) w = match m w with (Ok a, w') => f a w' | (Raise e, w') => (Raise e, w') end.
Proof. done. Qed.

Definition message_of (e : OutboxEnvelope) : QueueMessage :=
  mkQueueMessage (body e) (en_organization_id e) (sha256_hex (en_event_key e)) (en_event_type e)
    (sha256_hex (body e)).

Section dispatch.
Context `{SqsClient}.

(** A message the client answered for was accepted. *)
Definition send (m : QueueMessage) : io (string * string) := λ w,
  match send_message (ob_sent w) m with
  | Ok r => (Ok r, mkOutbox (ob_events w) (ob_sent w ++ [m]))
  | Raise e => (Raise e, w)
  end.

Definition publish (e : OutboxEnvelope) : io PublishedMessage :=
  _ ← io_lift (raise_if (_MAX_QUEUE_BODY_BYTES <? Z.of_nat (length (chars (body e))))
        (ValueError "outbox envelope exceeds the conservative 256 KiB queue limit"));
  response ← send (message_of e);
  _ ← io_lift (raise_if (is_empty response.1 || is_empty response.2)
        (RuntimeError "SQS FIFO response omitted delivery identity"));
  mret (mkPublishedMessage response.1 response.2 ("sha256:" ++ sha256_hex (body e))).

(** ** Loading and marking *)

(** [value.astimezone(UTC).isoformat()]: the zone is written out. *)
Definition isoformat_utc (d : datetime) : string :=
  of_chars (removelast (chars (isoformat_z (instant d))) ++ chars "+00:00")%list.

Definition envelope_of (e : OutboxEvent) : OutboxEnvelope :=
  mkOutboxEnvelope (oe_id e) (oe_organization_id e) (oe_aggregate_type e) (oe_aggregate_id e) (oe_event_type e)
    (oe_event_key e) (oe_payload e) (isoformat_utc (oe_occurred_at e)).

Definition unpublished (organization_id : string) (event_types : list string) (e : OutboxEvent) : bool :=
  bool_decide (oe_organization_id e = organization_id) && bool_decide (oe_published_at e = None) &&
  (bool_decide (event_types = []) || py_in (oe_event_type e) event_types).

(** [order_by(occurred_at, id).limit(limit)] *)
Definition next_events (organization_id : string) (limit : Z) (event_types : list string)
    (events : list OutboxEvent) : list OutboxEvent :=
  take (Z.to_nat limit)
    (sorted_by (λ e, (instant (oe_occurred_at e), oe_id e)) (List.filter (unpublished organization_id event_types) events)).

(** An absent or empty set of event types selects every type. *)
Definition load_unpublished (organization_id : string) (limit : Z) (event_types : list string)
  : io (list OutboxEnvelope) := λ w,
  (_ ← raise_if ((limit <? 1) || (100 <? limit)) (ValueError "outbox batch limit must be between 1 and 100");
   _ ← _validated_organization_id organization_id;
   mapM (λ e, OutboxEnvelope_check (envelope_of e)) (next_events organization_id limit event_types (ob_events w)), w).

Definition with_published (e : OutboxEvent) (published_at : datetime) : OutboxEvent :=
  mkOutboxEvent (oe_id e) (oe_organization_id e) (oe_aggregate_type e) (oe_aggregate_id e) (oe_event_type e)
    (oe_event_key e) (oe_payload e) (oe_occurred_at e) (Some published_at).

Definition markable (envelope : OutboxEnvelope) (e : OutboxEvent) : bool :=
  bool_decide (oe_organization_id e = en_organization_id envelope) && bool_decide (oe_id e = en_id envelope) &&
  bool_decide (oe_event_key e = en_event_key envelope) && bool_decide (oe_published_at e = None).

(** [UPDATE ... WHERE ... RETURNING id] in a transaction of the tenant. *)
Definition mark_published (envelope : OutboxEnvelope) (published_at : datetime) : io bool := λ w,
  match _validated_organization_id (en_organization_id envelope) with
  | Ok _ =>
      (Ok (existsb (markable envelope) (ob_events w)),
       mkOutbox (update_rows (markable envelope) (λ e, with_published e published_at) (ob_events w)) (ob_sent w))
  | Raise e => (Raise e, w)
  end.

Record DispatchResult := mkDispatchResult { dr_attempted : Z; dr_published : Z; dr_event_ids : list string }.

(** The loop over the loaded envelopes; [clock n] is the time read after the
    [n]th delivery. *)
Fixpoint dispatch_each (clock : nat → datetime) (envelopes : list OutboxEnvelope) (published : list string)
  : io (list string) :=
  match envelopes with
  | [] => mret published
  | e :: envelopes =>
      _ ← publish e;
      marked ← mark_published e (clock 0%nat);
      dispatch_each (λ n, clock (S n)) envelopes (if marked : bool then published ++ [en_id e] else published)%list
  end.

Definition dispatch_batch (clock : nat → datetime) (organization_id : string) (limit : Z) (event_types : list string)
  : io DispatchResult :=
  envelopes ← load_unpublished organization_id limit event_types;
  published ← dispatch_each clock envelopes [];
  mret (mkDispatchResult (Z.of_nat (length envelopes)) (Z.of_nat (length published)) published).
End dispatch.

(** ** The table of events *)

Lemma with_published_id e d : oe_id (with_published e d) = oe_id e.
Proof. done. Qed.
Lemma with_published_envelope e d : envelope_of (with_published e d) = envelope_of e.
Proof. done. Qed.

Lemma marked_fields w d (events : list OutboxEvent) :
  envelope_of <$> update_rows w (λ e, with_published e d) events = envelope_of <$> events.
Proof. induction events as [|e events IH]; [done|]. cbn. rewrite <- IH. by destruct (w e). Qed.

Lemma marked_ids w d (events : list OutboxEvent) :
  oe_id <$> update_rows w (λ e, with_published e d) events = oe_id <$> events.
Proof. induction events as [|e events IH]; [done|]. cbn. rewrite <- IH. by destruct (w e). Qed.

Lemma event_by_id (events : list OutboxEvent) x y :
  NoDup (oe_id <$> events) → x ∈ events → y ∈ events → oe_id x = oe_id y → x = y.
Proof.
  intros Hn [i Hi]%list_elem_of_lookup [j Hj]%list_elem_of_lookup E.
  assert (i = j) as ->; [|congruence].
  apply (NoDup_lookup _ _ _ (oe_id x) Hn); rewrite list_lookup_fmap, ?Hi, ?Hj; cbn; congruence.
Qed.

Lemma markable_spec e x :
  markable (envelope_of e) x = true ↔
  oe_organization_id x = oe_organization_id e ∧ oe_id x = oe_id e ∧ oe_event_key x = oe_event_key e ∧
  oe_published_at x = None.
Proof. unfold markable. rewrite !andb_true_iff, !bool_decide_eq_true. naive_solver. Qed.

Lemma unpublished_spec org types e :
  unpublished org types e = true →
  oe_organization_id e = org ∧ oe_published_at e = None.
Proof. unfold unpublished. rewrite !andb_true_iff, !bool_decide_eq_true. naive_solver. Qed.

Lemma unpublished_marked org types e d : unpublished org types (with_published e d) = false.
Proof. unfold unpublished. cbn. by rewrite andb_false_r. Qed.

(** Marking an event takes it, and nothing else, from the unpublished ones. *)
Lemma mark_takes org types d e (events : list OutboxEvent) :
  NoDup (oe_id <$> events) → e ∈ events → unpublished org types e = true →
  List.filter (unpublished org types) events ≡ₚ
  e :: List.filter (unpublished org types) (update_rows (markable (envelope_of e)) (λ x, with_published x d) events).
Proof.
  intros Hn He Hu. induction events as [|x events IH]; [set_solver|].
  cbn [fmap list_fmap] in Hn. apply NoDup_cons in Hn as [Hx Hn]. cbn [update_rows List.map List.filter].
  destruct (markable (envelope_of e) x) eqn:Em.
  - apply markable_spec in Em as (_ & Eid & _). assert (x = e) as ->.
    { apply elem_of_cons in He as [->|He]; [done|]. exfalso. apply Hx. rewrite Eid. apply list_elem_of_fmap. by exists e. }
    rewrite Hu, unpublished_marked. constructor. fold (update_rows (markable (envelope_of e)) (λ x, with_published x d) events).
    rewrite update_rows_none; [done|]. intros y Hy. apply not_true_iff_false. intros (_ & Ey & _)%markable_spec.
    apply Hx. rewrite <- Ey. apply list_elem_of_fmap. by exists y.
  - apply elem_of_cons in He as [->|He].
    + apply unpublished_spec in Hu as [_ Hp]. exfalso. apply not_true_iff_false in Em. apply Em, markable_spec. done.
    + specialize (IH Hn He). destruct (unpublished org types x); [|exact IH]. rewrite IH. constructor.
Qed.

(** ** What is marked was sent *)

(** Events have distinct ids, and a published one is in the queue. *)
Record delivered (w : outbox) : Prop := {
  dl_ids : NoDup (oe_id <$> ob_events w);
  dl_sent e : e ∈ ob_events w → oe_published_at e ≠ None → message_of (envelope_of e) ∈ ob_sent w
}.

(** The queue only grows, and an event changes only by being marked. *)
Record extends (w w' : outbox) : Prop := {
  ex_events : envelope_of <$> ob_events w' = envelope_of <$> ob_events w;
  ex_sent : ob_sent w `prefix_of` ob_sent w'
}.

#[export] Instance extends_preorder : PreOrder extends.
Proof.
  split; [by split|]. intros w1 w2 w3 [E1 P1] [E2 P2]. split; [congruence|by trans (ob_sent w2)].
Qed.

Lemma envelopes_ids (l k : list OutboxEvent) : envelope_of <$> l = envelope_of <$> k → oe_id <$> l = oe_id <$> k.
Proof.
  intros E. apply (f_equal (fmap en_id)) in E. rewrite <- !list_fmap_compose in E. exact E.
Qed.

Section dispatch_facts.
Context `{SqsClient}.

Lemma publish_cases e w :
  match publish e w with
  | (Ok _, w') => ob_events w' = ob_events w ∧ ob_sent w' = (ob_sent w ++ [message_of e])%list
  | (Raise _, w') => extends w w' ∧ ob_events w' = ob_events w
  end.
Proof.
  unfold publish, mbind, io_bind, io_lift, send, mret, io_ret. destruct (raise_if _ _); [|by repeat split].
  destruct (send_message _ _) as [r|]; [|by repeat split]. destruct (raise_if _ _); [done|].
  repeat split. cbn. by apply prefix_app_r.
Qed.

Lemma publish_extends e w : extends w (publish e w).2.
Proof.
  pose proof (publish_cases e w) as Hp. destruct (publish e w) as [[]w']; cbn; [|apply Hp].
  destruct Hp as [E1 E2]. split; [by rewrite E1|]. rewrite E2. by apply prefix_app_r.
Qed.

Lemma publish_delivered e w : delivered w → delivered (publish e w).2.
Proof.
  intros [Hn Hs]. pose proof (publish_cases e w) as Hp. destruct (publish e w) as [[]w']; cbn in *.
  - destruct Hp as [E1 E2]. split; rewrite E1, ?E2; [done|]. intros x Hx Hm. rewrite elem_of_app. left. by apply Hs.
  - destruct Hp as [[_ [l El]] E1]. split; rewrite E1, ?El; [done|]. intros x Hx Hm. rewrite elem_of_app. left. by apply Hs.
Qed.

Lemma mark_delivered e d w :
  delivered w → e ∈ ob_events w → message_of (envelope_of e) ∈ ob_sent w →
  delivered (mark_published (envelope_of e) d w).2 ∧ extends w (mark_published (envelope_of e) d w).2.
Proof.
  intros [Hn Hs] He Hm. unfold mark_published. destruct (_validated_organization_id _); cbn; [|by repeat split].
  split; [|by split; [apply marked_fields|]]. split; cbn; [by rewrite marked_ids|].
  intros x (y & Hy & ->)%elem_of_update_rows. destruct (markable (envelope_of e) y) eqn:Em; [|by apply Hs].
  intros _. apply markable_spec in Em as (_ & Ei & _). assert (y = e) as -> by by apply (event_by_id (ob_events w)).
  by rewrite with_published_envelope.
Qed.

(** An envelope that was loaded is the envelope of an event still there. *)
Lemma extends_event w w' e :
  extends w w' → e ∈ ob_events w → ∃ e', e' ∈ ob_events w' ∧ envelope_of e' = envelope_of e.
Proof.
  intros [E _] He. assert (envelope_of e ∈ envelope_of <$> ob_events w') as Hin by (rewrite E; apply list_elem_of_fmap; eauto).
  apply list_elem_of_fmap in Hin as (e' & ? & ?). eauto.
Qed.

Lemma dispatch_each_delivered clock envelopes acc w :
  delivered w → (∀ en, en ∈ envelopes → ∃ e, e ∈ ob_events w ∧ envelope_of e = en) →
  delivered (dispatch_each clock envelopes acc w).2 ∧ extends w (dispatch_each clock envelopes acc w).2.
Proof.
  revert clock acc w. induction envelopes as [|en envelopes IH]; intros clock acc w Hd Hen; [by split|].
  cbn [dispatch_each]. rewrite io_bind_run.
  pose proof (publish_cases en w) as Hp. pose proof (publish_delivered en w Hd) as Hd1.
  pose proof (publish_extends en w) as Hx1. destruct (publish en w) as [[pm|ex] w1]; cbn in Hd1, Hx1; [|by split].
  destruct Hp as [E1 E2]. destruct (Hen en) as (e & He & <-); [set_solver|]. rewrite <- E1 in He.
  destruct (mark_delivered e (clock 0%nat) w1) as [Hd2 Hx2]; [done..|rewrite E2; set_solver|].
  rewrite io_bind_run. destruct (mark_published _ _ w1) as [[m|ex] w2]; cbn in Hd2, Hx2; [|by split; [done|trans w1]].
  destruct (IH (λ n, clock (S n)) (if m then acc ++ [en_id (envelope_of e)] else acc)%list w2) as [Hd3 Hx3]; [done| |].
  - intros en' Hen'. destruct (Hen en') as (e' & He' & <-); [set_solver|].
    apply (extends_event w); [by trans w1|done].
  - split; [done|]. trans w1; [done|]. by trans w2.
Qed.

Lemma load_Ok org limit types w envelopes w' :
  load_unpublished org limit types w = (Ok envelopes, w') →
  w' = w ∧ (1 <= limit <= 100) ∧ envelopes = envelope_of <$> next_events org limit types (ob_events w).
Proof.
  unfold load_unpublished. intros [= E <-]. split; [done|].
  apply bind_Ok in E as (? & Hl%raise_if_Ok & E). apply bind_Ok in E as (? & _ & E). split; [lia|].
  apply mapM_Ok in E. induction E as [|e en l k He _ IH]; [done|]. cbn. rewrite <- IH. f_equal.
  unfold OutboxEnvelope_check in He. apply bind_Ok in He as (? & _ & He). by apply bind_Ok in He as (? & _ & [= <-]).
Qed.

Lemma next_events_in org limit types events e :
  e ∈ next_events org limit types events → e ∈ events ∧ unpublished org types e = true.
Proof. unfold next_events. intros (i & He%list_elem_of_lookup_2 & _)%elem_of_take.
  rewrite elem_of_sorted_by in He. by apply elem_of_lfilter. Qed.

(** C10: an event is marked only after the queue accepted it.  Whatever the
    client does, and whether the batch ends or an error stops it half way, the
    queue afterwards still begins with what it held, no event has changed
    except by being marked, and every marked event's message is in the queue:
    no event is lost. *)
Theorem marked_events_were_sent (clock : nat → datetime) (org : string) (limit : Z) (types : list string)
    (w : outbox) :
  delivered w → delivered (dispatch_batch clock org limit types w).2 ∧
    extends w (dispatch_batch clock org limit types w).2.
Proof.
  intros Hd. unfold dispatch_batch. rewrite io_bind_run.
  destruct (load_unpublished org limit types w) as [[envelopes|e] w1] eqn:El; [|by injection El as _ <-].
  apply load_Ok in El as (-> & _ & ->).
  destruct (dispatch_each_delivered clock (envelope_of <$> next_events org limit types (ob_events w)) [] w) as [Hd2 Hx2]; [done| |].
  { intros en (e & -> & [He _]%next_events_in)%list_elem_of_fmap. eauto. }
  rewrite io_bind_run. by destruct (dispatch_each _ _ _ _) as [[l|e] w2].
Qed.
End dispatch_facts.

(** ** The backlog drains in order *)

Lemma elem_of_drop {A} n (x : A) (l : list A) : x ∈ drop n l → x ∈ l.
Proof. intros [i Hi]%list_elem_of_lookup. rewrite lookup_drop in Hi. by eapply list_elem_of_lookup_2. Qed.

Section drain.
Context `{SqsClient} (org : string) (types : list string).

(** The events that wait, in the order they are sent. *)
Definition backlog (w : outbox) : list OutboxEvent :=
  sorted_by (λ e, (instant (oe_occurred_at e), oe_id e)) (List.filter (unpublished org types) (ob_events w)).

(** The queue answers every message with a delivery identity. *)
Definition responsive : Prop :=
  ∀ sent m, ∃ a b, send_message sent m = Ok (a, b) ∧ is_empty a = false ∧ is_empty b = false.

(** The envelope of an event is valid and fits the queue. *)
Definition deliverable (e : OutboxEvent) : Prop :=
  OutboxEnvelope_check (envelope_of e) = Ok (envelope_of e) ∧
  Z.of_nat (length (chars (body (envelope_of e)))) <= _MAX_QUEUE_BODY_BYTES.

Lemma publish_deliverable e w :
  responsive → deliverable e →
  ∃ pm, publish (envelope_of e) w = (Ok pm, mkOutbox (ob_events w) (ob_sent w ++ [message_of (envelope_of e)])).
Proof.
  intros Hr [_ Hs]. unfold publish. rewrite io_bind_run. unfold io_lift.
  destruct (Z.ltb_spec _MAX_QUEUE_BODY_BYTES (Z.of_nat (length (chars (body (envelope_of e)))))) as [|_]; [lia|].
  cbn [raise_if]. rewrite io_bind_run. unfold send. destruct (Hr (ob_sent w) (message_of (envelope_of e))) as (a & b & -> & Ha & Hb).
  rewrite io_bind_run. cbn [fst snd]. rewrite Ha, Hb. cbn. eauto.
Qed.

Lemma mark_deliverable e d w :
  deliverable e → e ∈ ob_events w → oe_published_at e = None →
  mark_published (envelope_of e) d w =
    (Ok true, mkOutbox (update_rows (markable (envelope_of e)) (λ x, with_published x d) (ob_events w)) (ob_sent w)).
Proof.
  intros [Hc _] He Hp. unfold mark_published.
  unfold OutboxEnvelope_check in Hc. apply bind_Ok in Hc as (? & Ho%raise_if_Ok%negb_false_iff & _).
  unfold _validated_organization_id. rewrite Ho. cbn. do 2 f_equal.
  apply existsb_exists. exists e. split; [by apply list_elem_of_In|]. by apply markable_spec.
Qed.

Lemma dispatch_each_all clock es acc w :
  responsive → NoDup (oe_id <$> ob_events w) → NoDup (oe_id <$> es) →
  (∀ e, e ∈ es → e ∈ ob_events w ∧ unpublished org types e = true ∧ deliverable e) →
  ∃ w', dispatch_each clock (envelope_of <$> es) acc w = (Ok (acc ++ (oe_id <$> es))%list, w') ∧
    ob_sent w' = (ob_sent w ++ (message_of ∘ envelope_of <$> es))%list ∧
    List.filter (unpublished org types) (ob_events w) ≡ₚ es ++ List.filter (unpublished org types) (ob_events w') ∧
    oe_id <$> ob_events w' = oe_id <$> ob_events w.
Proof.
  intros Hr. revert clock acc w. induction es as [|e es IH]; intros clock acc w Hn Hes Hall.
  - exists w. cbn. by rewrite !app_nil_r.
  - destruct (Hall e (list_elem_of_here _ _)) as (He & Hu & Hd). apply NoDup_cons in Hes as [Hne Hes].
    destruct (unpublished_spec _ _ _ Hu) as [_ Hp].
    cbn [fmap list_fmap dispatch_each]. rewrite io_bind_run.
    destruct (publish_deliverable e w Hr Hd) as [pm ->]. rewrite io_bind_run, mark_deliverable by done. cbn [ob_events ob_sent].
    set (rows := update_rows _ _ _).
    destruct (IH (λ n, clock (S n)) (acc ++ [oe_id e])%list (mkOutbox rows (ob_sent w ++ [message_of (envelope_of e)])))
      as (w' & E & Es & Ep & Ei); [cbn; unfold rows; by rewrite marked_ids|done| |].
    + intros x Hx. destruct (Hall x (list_elem_of_further _ _ _ Hx)) as (Hx1 & Hx2 & Hx3). split_and!; [|done..]. cbn.
      apply elem_of_update_rows. exists x. split; [done|]. destruct (markable (envelope_of e) x) eqn:Em; [|done].
      exfalso. apply markable_spec in Em as (_ & Ei & _). apply Hne. rewrite <- Ei. apply list_elem_of_fmap. by exists x.
    + exists w'. cbn in Es, Ep, Ei. split_and!.
      * cbn [en_id envelope_of]. rewrite E, <- app_assoc. done.
      * rewrite Es, <- app_assoc. done.
      * rewrite (mark_takes org types (clock 0%nat) e (ob_events w)) by done. fold rows. rewrite Ep. done.
      * rewrite Ei. unfold rows. by rewrite marked_ids.
Qed.

Lemma backlog_take_drop n (w w' : outbox) :
  NoDup (oe_id <$> ob_events w) →
  List.filter (unpublished org types) (ob_events w) ≡ₚ
    take n (backlog w) ++ List.filter (unpublished org types) (ob_events w') →
  backlog w' = drop n (backlog w).
Proof.
  intros Hn Hp. set (key := λ e, (instant (oe_occurred_at e), oe_id e)).
  assert (List.filter (unpublished org types) (ob_events w') ≡ₚ drop n (backlog w)) as Hq.
  { apply (Permutation_app_inv_l (take n (backlog w))). rewrite take_drop, <- Hp. unfold backlog. by rewrite sorted_by_perm. }
  assert (StronglySorted (key_le key) (drop n (backlog w))) as Hs.
  { pose proof (sorted_by_sorted key (List.filter (unpublished org types) (ob_events w))) as Hs.
    change (sorted_by key (List.filter (unpublished org types) (ob_events w))) with (backlog w) in Hs. rewrite <- (take_drop n (backlog w)) in Hs. exact (StronglySorted_app_1_r _ _ _ Hs). }
  rewrite <- (sorted_by_id key _ Hs). apply sorted_by_unique; [apply _| |exact Hq].
  intros x y Hx Hy [= _ E]%py_cmp_eq. rewrite Hq in Hx, Hy.
  assert (∀ z, z ∈ drop n (backlog w) → z ∈ ob_events w) as Hin.
  { intros z Hz%elem_of_drop. unfold backlog in Hz. rewrite elem_of_sorted_by in Hz.
    by apply elem_of_lfilter in Hz as [? _]. }
  apply (event_by_id (ob_events w)); auto.
Qed.

(** One batch sends the next [limit] events of the backlog and takes them out
    of it. *)
Lemma dispatch_drains clock limit w :
  responsive → NoDup (oe_id <$> ob_events w) → is_organization_id org = true → 1 <= limit <= 100 →
  (∀ e, e ∈ backlog w → deliverable e) →
  let es := take (Z.to_nat limit) (backlog w) in
  ∃ w', dispatch_batch clock org limit types w =
      (Ok (mkDispatchResult (Z.of_nat (length es)) (Z.of_nat (length es)) (oe_id <$> es)), w') ∧
    ob_sent w' = (ob_sent w ++ (message_of ∘ envelope_of <$> es))%list ∧
    backlog w' = drop (Z.to_nat limit) (backlog w) ∧ oe_id <$> ob_events w' = oe_id <$> ob_events w.
Proof.
  intros Hr Hn Ho Hl Hd es. assert (∀ e, e ∈ es → e ∈ backlog w) as Hes
    by (intros e (i & He%list_elem_of_lookup_2 & _)%elem_of_take; done).
  assert (∀ e, e ∈ es → e ∈ ob_events w ∧ unpublished org types e = true ∧ deliverable e) as Hall.
  { intros e He%Hes. pose proof (Hd e He). unfold backlog in He. rewrite elem_of_sorted_by in He.
    by apply elem_of_lfilter in He as [? ?]. }
  assert (load_unpublished org limit types w = (Ok (envelope_of <$> es), w)) as El.
  { unfold load_unpublished. replace ((limit <? 1) || (100 <? limit)) with false by lia.
    unfold _validated_organization_id. rewrite Ho. cbn [negb raise_if mbind result_bind]. f_equal.
    apply mapM_Ok. unfold next_events. fold (backlog w) es. clear -Hall. induction es as [|e es IH]; [constructor|].
    constructor; [apply (Hall e), list_elem_of_here|]. apply IH. intros x Hx. by apply Hall, list_elem_of_further. }
  destruct (dispatch_each_all clock es [] w Hr Hn) as (w' & E & Es & Ep & Ei); [|done|].
  { unfold es, backlog. apply (sublist_NoDup _ (oe_id <$> sorted_by (λ e, (instant (oe_occurred_at e), oe_id e))
      (List.filter (unpublished org types) (ob_events w)))).
    - rewrite sorted_by_perm. revert Hn. generalize (ob_events w). intros l. induction l as [|x l IH]; [done|].
      cbn. intros [Hx Hn]%NoDup_cons. destruct (unpublished org types x); [|by apply IH]. cbn.
      apply NoDup_cons. split; [|by apply IH]. intros (y & Ey & [Hy _]%elem_of_lfilter)%list_elem_of_fmap.
      apply Hx. rewrite Ey. apply list_elem_of_fmap. eauto.
    - apply fmap_sublist, sublist_take. }
  exists w'. split_and!; [|done| |done].
  - unfold dispatch_batch. rewrite io_bind_run, El. rewrite io_bind_run, E. cbn. unfold mret, io_ret.
    do 2 f_equal. by rewrite !length_fmap.
  - by apply (backlog_take_drop (Z.to_nat limit) w w').
Qed.

(** [k] rounds of the dispatcher's loop over one tenant. *)
Fixpoint dispatch_rounds (clock : nat → nat → datetime) (limit : Z) (k : nat) (w : outbox) : outbox :=
  match k with
  | O => w
  | S k => dispatch_rounds (λ n, clock (S n)) limit k (dispatch_batch (clock O) org limit types w).2
  end.

Lemma rounds_drain clock limit k w :
  responsive → NoDup (oe_id <$> ob_events w) → is_organization_id org = true → 1 <= limit <= 100 →
  (∀ e, e ∈ backlog w → deliverable e) →
  ob_sent (dispatch_rounds clock limit k w) =
    (ob_sent w ++ (message_of ∘ envelope_of <$> take (k * Z.to_nat limit) (backlog w)))%list ∧
  backlog (dispatch_rounds clock limit k w) = drop (k * Z.to_nat limit) (backlog w).
Proof.
  intros Hr. revert clock w. induction k as [|k IH]; intros clock w Hn Ho Hl Hd.
  - cbn. by rewrite app_nil_r.
  - destruct (dispatch_drains (clock O) limit w Hr Hn Ho Hl Hd) as (w' & E & Es & Eb & Ei).
    cbn [dispatch_rounds]. rewrite E. cbn [snd].
    destruct (IH (λ n, clock (S n)) w') as [Hs Hb]; [by rewrite Ei|done|done| |].
    { intros e. rewrite Eb. intros He%elem_of_drop. by apply Hd. }
    rewrite Hs, Hb, Es, Eb, drop_drop. split; [|done]. rewrite <- app_assoc, <- fmap_app. do 2 f_equal.
    rewrite take_take_drop. done.
Qed.

(** C9: the backlog drains, in order.  When the queue answers and the waiting
    events are deliverable, rounds of batches send every waiting event of the
    tenant exactly once, in the order in which they occurred, and after enough
    rounds none is left. *)
Theorem backlog_is_delivered (clock : nat → nat → datetime) (limit : Z) (k : nat) (w : outbox) :
  responsive → delivered w → is_organization_id org = true → 1 <= limit <= 100 →
  (∀ e, e ∈ backlog w → deliverable e) → (length (backlog w) <= k * Z.to_nat limit)%nat →
  ob_sent (dispatch_rounds clock limit k w) = (ob_sent w ++ (message_of ∘ envelope_of <$> backlog w))%list ∧
  (∀ e, e ∈ ob_events (dispatch_rounds clock limit k w) → unpublished org types e = false).
Proof.
  intros Hr [Hn _] Ho Hl Hd Hk. destruct (rounds_drain clock limit k w Hr Hn Ho Hl Hd) as [Es Eb].
  rewrite take_ge in Es by done. rewrite drop_ge in Eb by done. split; [done|]. intros e He.
  destruct (unpublished org types e) eqn:Eu; [|done].
  assert (e ∈ backlog (dispatch_rounds clock limit k w)) as Hin; [|rewrite Eb in Hin; by apply not_elem_of_nil in Hin].
  unfold backlog. rewrite elem_of_sorted_by. by apply elem_of_lfilter.
Qed.

(** An event that cannot be sent stops its batch, every time: it and the
    events behind it stay. *)
Lemma poison_event_blocks clock limit w e l :
  backlog w = e :: l → is_organization_id org = true → 1 <= limit <= 100 →
  _MAX_QUEUE_BODY_BYTES < Z.of_nat (length (chars (body (envelope_of e)))) →
  ∃ error, dispatch_batch clock org limit types w = (Raise error, w).
Proof.
  intros Eb Ho Hl Hbig. unfold dispatch_batch. rewrite io_bind_run.
  destruct (load_unpublished org limit types w) as [[envelopes|error] w1] eqn:El; [|injection El as _ <-; eauto].
  apply load_Ok in El as (-> & _ & ->). unfold next_events. fold (backlog w). rewrite Eb.
  destruct (Z.to_nat limit) as [|n] eqn:En; [lia|]. cbn [take fmap list_fmap dispatch_each].
  rewrite io_bind_run, io_bind_run. unfold publish. rewrite io_bind_run. unfold io_lift.
  apply Z.ltb_lt in Hbig. rewrite Hbig. cbn [raise_if]. eauto.
Qed.
End drain.
