(* ===== verification/BilateralRepo.v ===== *)
(** * Persistence of the exchange: [persistence/bilateral_repository.py]

    The tables of the exchange with the unique constraints of
    [persistence/models.py], and the repository's operations as transactions
    on them.  A JSON column that holds a dumped model is the model: pydantic's
    [model_validate] of [model_dump(mode="json")] gives it back.  The text it
    writes for a time is a parameter; identifiers drawn at random are
    arguments. *)
From S2P Require Import Prelude PyText PyNumber PyTime Enums Money Hashing DomainModels Exchange Contracts Tables.

Local Open Scope string_scope.
Local Open Scope Z_scope.

(** The text pydantic writes for a time in JSON. *)
Class JsonTime := json_time : datetime → string.

(** ** Rows *)

Record CaseRow := mkCaseRow {
  kc_id : string;
  kc_organization_id : string;
  kc_seller_organization_id : string;
  kc_state : ExchangeState.t;
  kc_version : Z;
  kc_coordinator_state : CoordinatorState;
  kc_state_hash : string;
  kc_last_command_id : option string
}.

Record CommandRow := mkCommandRow {
  km_id : string;
  km_organization_id : string;
  km_case_id : string;
  km_party : ExchangeParty.t;
  km_actor_id : string;
  km_command_type : CommandType.t;
  km_expected_version : Z;
  km_idempotency_key : string;
  km_payload : PyVal;
  km_payload_hash : string;
  km_status : string
}.

Record TransitionRow := mkTransitionRow {
  kt_id : string;
  kt_organization_id : string;
  kt_case_id : string;
  kt_sequence : Z;
  kt_command_id : string;
  kt_command_organization_id : string;
  kt_previous_state : ExchangeState.t;
  kt_next_state : ExchangeState.t;
  kt_transition_hash : string
}.

Record ProjectionRow := mkProjectionRow {
  kp_id : string;
  kp_organization_id : string;
  kp_case_id : string;
  kp_party : ExchangeParty.t;
  kp_version : Z;
  kp_state : ExchangeState.t;
  kp_released : PyVal;
  kp_source_command_id : string;
  kp_projection_hash : string
}.

Record ManifestRow := mkManifestRow {
  kr_id : string;
  kr_organization_id : string;
  kr_case_id : string;
  kr_owner_party : ExchangeParty.t;
  kr_recipient_party : ExchangeParty.t;
  kr_payload : ReleaseManifest;
  kr_status : ReleaseStatus.t;
  kr_expires_at : datetime;
  kr_manifest_hash : string
}.

Record EnvelopeRow := mkEnvelopeRow {
  ke_id : string;
  ke_organization_id : string;
  ke_case_id : string;
  ke_sender_party : ExchangeParty.t;
  ke_recipient_party : ExchangeParty.t;
  ke_sequence : Z;
  ke_causation_id : string;
  ke_manifest_hash : string;
  ke_payload : PyVal;
  ke_payload_hash : string;
  ke_expires_at : datetime
}.

Record ReceiptRow := mkReceiptRow {
  kx_id : string;
  kx_organization_id : string;
  kx_envelope_id : string;
  kx_case_id : string;
  kx_recipient_party : ExchangeParty.t;
  kx_envelope_hash : string;
  kx_received_at : datetime
}.

Record OfferRow := mkOfferRow {
  ko_id : string;
  ko_organization_id : string;
  ko_case_id : string;
  ko_version : Z;
  ko_proposer_party : ExchangeParty.t;
  ko_recipient_party : ExchangeParty.t;
  ko_predecessor_hash : option string;
  ko_terms : OfferVersion;
  ko_offer_hash : string;
  ko_approval_status : OfferApprovalStatus.t;
  ko_expires_at : datetime
}.

Record ApprovalRow := mkApprovalRow {
  ka_id : string;
  ka_organization_id : string;
  ka_case_id : string;
  ka_offer_hash : string;
  ka_approver_id : string;
  ka_approved_at : datetime;
  ka_expires_at : datetime;
  ka_approval_hash : string
}.

Record HandoffRow := mkHandoffRow {
  kh_id : string;
  kh_organization_id : string;
  kh_case_id : string;
  kh_offer_hash : string;
  kh_approval_hash : string;
  kh_handoff_hash : string;
  kh_destination_url : string;
  kh_recipient : string;
  kh_amount : Decimal;
  kh_currency : string;
  kh_reference : string;
  kh_status : ExchangeHandoffStatus.t;
  kh_expires_at : datetime;
  kh_opened_at : option datetime;
  kh_created_at : datetime
}.

(** ** Primary keys and unique constraints *)

Definition case_clash (a b : CaseRow) : bool := bool_decide (kc_id a = kc_id b).
Definition command_clash (a b : CommandRow) : bool :=
  bool_decide (km_id a = km_id b) ||
  bool_decide ((km_organization_id a, km_party a, km_idempotency_key a) =
               (km_organization_id b, km_party b, km_idempotency_key b)).
Definition transition_clash (a b : TransitionRow) : bool :=
  bool_decide (kt_id a = kt_id b) ||
  bool_decide ((kt_organization_id a, kt_case_id a, kt_sequence a) =
               (kt_organization_id b, kt_case_id b, kt_sequence b)) ||
  bool_decide ((kt_organization_id a, kt_case_id a, kt_command_id a) =
               (kt_organization_id b, kt_case_id b, kt_command_id b)).
Definition projection_clash (a b : ProjectionRow) : bool :=
  bool_decide (kp_id a = kp_id b) ||
  bool_decide ((kp_organization_id a, kp_case_id a, kp_party a, kp_version a) =
               (kp_organization_id b, kp_case_id b, kp_party b, kp_version b)) ||
  bool_decide ((kp_organization_id a, kp_projection_hash a) = (kp_organization_id b, kp_projection_hash b)).
Definition manifest_clash (a b : ManifestRow) : bool :=
  bool_decide (kr_id a = kr_id b) ||
  bool_decide ((kr_organization_id a, kr_manifest_hash a) = (kr_organization_id b, kr_manifest_hash b)).
Definition envelope_clash (a b : EnvelopeRow) : bool :=
  bool_decide (ke_id a = ke_id b) ||
  bool_decide ((ke_organization_id a, ke_case_id a, ke_sender_party a, ke_sequence a) =
               (ke_organization_id b, ke_case_id b, ke_sender_party b, ke_sequence b)) ||
  bool_decide ((ke_organization_id a, ke_payload_hash a) = (ke_organization_id b, ke_payload_hash b)).
Definition receipt_clash (a b : ReceiptRow) : bool :=
  bool_decide (kx_id a = kx_id b) ||
  bool_decide ((kx_organization_id a, kx_envelope_id a) = (kx_organization_id b, kx_envelope_id b)).
Definition offer_clash (a b : OfferRow) : bool :=
  bool_decide (ko_id a = ko_id b) ||
  bool_decide ((ko_organization_id a, ko_case_id a, ko_version a) =
               (ko_organization_id b, ko_case_id b, ko_version b)) ||
  bool_decide ((ko_organization_id a, ko_offer_hash a) = (ko_organization_id b, ko_offer_hash b)).
Definition approval_clash (a b : ApprovalRow) : bool :=
  bool_decide (ka_id a = ka_id b) ||
  bool_decide ((ka_organization_id a, ka_case_id a, ka_offer_hash a) =
               (ka_organization_id b, ka_case_id b, ka_offer_hash b)) ||
  bool_decide ((ka_organization_id a, ka_approval_hash a) = (ka_organization_id b, ka_approval_hash b)).
Definition handoff_clash (a b : HandoffRow) : bool :=
  bool_decide (kh_id a = kh_id b) ||
  bool_decide ((kh_organization_id a, kh_case_id a, kh_offer_hash a) =
               (kh_organization_id b, kh_case_id b, kh_offer_hash b)) ||
  bool_decide ((kh_organization_id a, kh_handoff_hash a) = (kh_organization_id b, kh_handoff_hash b)).

(** ** The store *)

Record exchange_store := mkExchangeStore {
  xs_cases : list CaseRow;
  xs_commands : list CommandRow;
  xs_transitions : list TransitionRow;
  xs_projections : list ProjectionRow;
  xs_manifests : list ManifestRow;
  xs_envelopes : list EnvelopeRow;
  xs_receipts : list ReceiptRow;
  xs_offers : list OfferRow;
  xs_approvals : list ApprovalRow;
  xs_handoffs : list HandoffRow
}.

Definition empty_store : exchange_store := mkExchangeStore [] [] [] [] [] [] [] [] [] [].

Definition set_cases (f : list CaseRow) (s : exchange_store) : exchange_store :=
  mkExchangeStore f (xs_commands s) (xs_transitions s) (xs_projections s) (xs_manifests s) (xs_envelopes s)
    (xs_receipts s) (xs_offers s) (xs_approvals s) (xs_handoffs s).
Definition set_commands (f : list CommandRow) (s : exchange_store) : exchange_store :=
  mkExchangeStore (xs_cases s) f (xs_transitions s) (xs_projections s) (xs_manifests s) (xs_envelopes s)
    (xs_receipts s) (xs_offers s) (xs_approvals s) (xs_handoffs s).
Definition set_transitions (f : list TransitionRow) (s : exchange_store) : exchange_store :=
  mkExchangeStore (xs_cases s) (xs_commands s) f (xs_projections s) (xs_manifests s) (xs_envelopes s)
    (xs_receipts s) (xs_offers s) (xs_approvals s) (xs_handoffs s).
Definition set_projections (f : list ProjectionRow) (s : exchange_store) : exchange_store :=
  mkExchangeStore (xs_cases s) (xs_commands s) (xs_transitions s) f (xs_manifests s) (xs_envelopes s)
    (xs_receipts s) (xs_offers s) (xs_approvals s) (xs_handoffs s).
Definition set_manifests (f : list ManifestRow) (s : exchange_store) : exchange_store :=
  mkExchangeStore (xs_cases s) (xs_commands s) (xs_transitions s) (xs_projections s) f (xs_envelopes s)
    (xs_receipts s) (xs_offers s) (xs_approvals s) (xs_handoffs s).
Definition set_envelopes (f : list EnvelopeRow) (s : exchange_store) : exchange_store :=
  mkExchangeStore (xs_cases s) (xs_commands s) (xs_transitions s) (xs_projections s) (xs_manifests s) f
    (xs_receipts s) (xs_offers s) (xs_approvals s) (xs_handoffs s).
Definition set_receipts (f : list ReceiptRow) (s : exchange_store) : exchange_store :=
  mkExchangeStore (xs_cases s) (xs_commands s) (xs_transitions s) (xs_projections s) (xs_manifests s)
    (xs_envelopes s) f (xs_offers s) (xs_approvals s) (xs_handoffs s).
Definition set_offers (f : list OfferRow) (s : exchange_store) : exchange_store :=
  mkExchangeStore (xs_cases s) (xs_commands s) (xs_transitions s) (xs_projections s) (xs_manifests s)
    (xs_envelopes s) (xs_receipts s) f (xs_approvals s) (xs_handoffs s).
Definition set_approvals (f : list ApprovalRow) (s : exchange_store) : exchange_store :=
  mkExchangeStore (xs_cases s) (xs_commands s) (xs_transitions s) (xs_projections s) (xs_manifests s)
    (xs_envelopes s) (xs_receipts s) (xs_offers s) f (xs_handoffs s).
Definition set_handoffs (f : list HandoffRow) (s : exchange_store) : exchange_store :=
  mkExchangeStore (xs_cases s) (xs_commands s) (xs_transitions s) (xs_projections s) (xs_manifests s)
    (xs_envelopes s) (xs_receipts s) (xs_offers s) (xs_approvals s) f.

Notation txs := (tx exchange_store).

(** [session.add(record)] and [flush()] on a table of the store. *)
Definition add_row {R} (table : exchange_store → list R) (set : list R → exchange_store → exchange_store)
    (clash : R → R → bool) (row : R) : txs unit := λ s,
  match insert_row clash row (table s) with Ok rows => Ok ((), set rows s) | Raise e => Raise e end.

Definition conflict_when (c : bool) (message : string) : txs unit := raise_when c (PersistenceConflict message).

#[local] Notation "a ≟ b" := (bool_decide (a = b)) (at level 70).

(** [if expiry.tzinfo is None: expiry = expiry.replace(tzinfo=UTC)] *)
Definition assume_utc (d : datetime) : datetime :=
  if is_aware d then d else mkDatetime (dt_local d) (Some 0).

(** [state.model_dump(mode="json")] *)
Definition coordinator_json (c : CoordinatorState) : PyVal :=
  dict [("case_id", VStr (cs_case_id c)); ("state", VStr (ExchangeState.value (cs_state c)));
        ("version", VInt (cs_version c)); ("requirement", vopt id (cs_requirement c));
        ("evidence", vopt id (cs_evidence c)); ("current_offer", vopt id (cs_current_offer c));
        ("approval", vopt id (cs_approval c)); ("last_command_id", vopt VStr (cs_last_command_id c))].

(** [f"{offer.offer_id}:v{offer.version}"] *)
Definition offer_row_id (o : OfferVersion) : string := ov_offer_id o ++ ":v" ++ str_int (ov_version o).

Section repository.
Context `{Rfc8785} `{RawJson} `{BracketedHosts} `{JsonTime}.

(** [approval.model_dump(mode="json")] *)
Definition approval_json (a : OfferApproval) : PyVal :=
  dict [("approval_id", VStr (oa_approval_id a)); ("case_id", VStr (oa_case_id a));
        ("offer_hash", VStr (oa_offer_hash a)); ("approver_id", VStr (oa_approver_id a));
        ("approved_at", VStr (json_time (oa_approved_at a))); ("expires_at", VStr (json_time (oa_expires_at a)))].

Section tenant.
Context (organization_id : string).

(** ** Cases and commands *)

Definition create_case (case_id seller_organization_id : string) : txs CaseRow :=
  existing ← read (λ s, select_one (λ r, kc_id r ≟ case_id) (xs_cases s));
  match existing with
  | Some r =>
      _ ← conflict_when (negb (kc_organization_id r ≟ organization_id))
            "exchange case belongs to another buyer tenant";
      mret r
  | None =>
      let state := new_case case_id in
      hash ← lift (content_hash (coordinator_json state));
      let record := mkCaseRow case_id organization_id seller_organization_id (cs_state state)
                      (cs_version state) state hash None in
      _ ← add_row xs_cases set_cases case_clash record;
      mret record
  end.

Definition append_command (c : PartyCommand) : txs CommandRow :=
  existing ← read (λ s, select_one (λ r, (km_organization_id r ≟ organization_id) &&
    (km_party r ≟ pc_party c) && (km_idempotency_key r ≟ pc_idempotency_key c)) (xs_commands s));
  payload_hash ← lift (content_hash (pc_payload c));
  match existing with
  | Some r =>
      _ ← conflict_when (negb (km_payload_hash r ≟ payload_hash) || negb (km_command_type r ≟ pc_command_type c))
            "party command idempotency key was reused";
      mret r
  | None =>
      let record := mkCommandRow (pc_id c) organization_id (pc_case_id c) (pc_party c) (pc_actor_id c)
        (pc_command_type c) (pc_expected_version c) (pc_idempotency_key c) (pc_payload c) payload_hash "PENDING" in
      _ ← add_row xs_commands set_commands command_clash record;
      mret record
  end.

(** Locking a row orders the transactions; it reads the same row. *)
Definition get_case (case_id : string) : txs CaseRow :=
  record ← read (λ s, select_one (λ r, (kc_organization_id r ≟ organization_id) && (kc_id r ≟ case_id)) (xs_cases s));
  match record with
  | None => raise_tx (RecordNotFound "bilateral exchange case was not found")
  | Some r => mret r
  end.

Definition case_transitions (case_id : string) (s : exchange_store) : list TransitionRow :=
  List.filter (λ r, (kt_organization_id r ≟ organization_id) && (kt_case_id r ≟ case_id)) (xs_transitions s).

(** [coalesce(max(sequence), 0)] *)
Definition last_sequence (l : list TransitionRow) : Z :=
  match kt_sequence <$> l with [] => 0 | n :: ns => foldl Z.max n ns end.

(** The row after a command was compiled. *)
Definition advanced (r : CaseRow) (compiled : CompiledTransition) (hash command_id : string) : CaseRow :=
  let next := ct_next_state compiled in
  mkCaseRow (kc_id r) (kc_organization_id r) (kc_seller_organization_id r) (cs_state next) (cs_version next)
    next hash (Some command_id).

(** [transition_id] is [new_id("btrans")]. *)
Definition apply_command (exchange : CaseRow) (c : PartyCommand) (command_organization_id transition_id : string)
  : txs CompiledTransition :=
  existing ← read (λ s, select_one (λ r, kt_command_id r ≟ pc_id c) (case_transitions (kc_id exchange) s));
  _ ← conflict_when (negb (is_none existing)) "party command was already applied";
  compiled ← lift (compile_party_command (kc_coordinator_state exchange) c);
  last ← read (λ s, last_sequence (case_transitions (kc_id exchange) s));
  let sequence := last + 1 in
  let next_state := cs_state (ct_next_state compiled) in
  state_hash ← lift (content_hash (coordinator_json (ct_next_state compiled)));
  transition_hash ← lift (content_hash (dict
    [("case_id", VStr (kc_id exchange)); ("sequence", VInt sequence); ("command_id", VStr (pc_id c));
     ("command_organization_id", VStr command_organization_id);
     ("previous_state", VStr (ExchangeState.value (ct_previous_state compiled)));
     ("next_state", VStr (ExchangeState.value next_state)); ("state_hash", VStr state_hash)]));
  _ ← add_row xs_transitions set_transitions transition_clash
        (mkTransitionRow transition_id organization_id (kc_id exchange) sequence (pc_id c)
           command_organization_id (ct_previous_state compiled) next_state transition_hash);
  _ ← write (λ s, set_cases (update_rows (λ r, kc_id r ≟ kc_id exchange)
        (λ r, advanced r compiled state_hash (pc_id c)) (xs_cases s)) s);
  mret compiled.

(** ** Projections *)

Definition publish_projection (p : PartyProjection) (projection_id : string) : txs ProjectionRow :=
  existing ← read (λ s, select_one (λ r, (kp_organization_id r ≟ organization_id) &&
    (kp_case_id r ≟ pp_case_id p) && (kp_party r ≟ pp_party p) && (kp_version r =? pp_version p))
    (xs_projections s));
  match existing with
  | Some r =>
      _ ← conflict_when (negb (kp_projection_hash r ≟ pp_projection_hash p))
            "projection version already has another payload";
      mret r
  | None =>
      let record := mkProjectionRow projection_id organization_id (pp_case_id p) (pp_party p) (pp_version p)
        (pp_state p) (pp_released p) (pp_source_command_id p) (pp_projection_hash p) in
      _ ← add_row xs_projections set_projections projection_clash record;
      mret record
  end.

Definition latest_projection (case_id : string) (party : ExchangeParty.t) : txs ProjectionRow :=
  record ← read (λ s, select_latest kp_version (λ r, (kp_organization_id r ≟ organization_id) &&
    (kp_case_id r ≟ case_id) && (kp_party r ≟ party)) (xs_projections s));
  match record with
  | None => raise_tx (RecordNotFound "party projection was not found")
  | Some r => mret r
  end.

(** ** Disclosure *)

Definition store_release_manifest (m : ReleaseManifest) : txs ManifestRow :=
  existing ← read (λ s, select_one (λ r, kr_id r ≟ rm_manifest_id m) (xs_manifests s));
  match existing with
  | Some r =>
      _ ← conflict_when (negb (kr_organization_id r ≟ organization_id) ||
                         negb (kr_manifest_hash r ≟ rm_manifest_hash m)) "release manifest id was reused";
      mret r
  | None =>
      let record := mkManifestRow (rm_manifest_id m) organization_id (rm_case_id m) (rm_owner m)
        (rm_recipient m) m (rm_status m) (rm_expires_at m) (rm_manifest_hash m) in
      _ ← add_row xs_manifests set_manifests manifest_clash record;
      mret record
  end.

(** The envelope stays inside the authorisation of its manifest. *)
Definition envelope_authorized (m : ManifestRow) (e : ExchangeEnvelope) : result bool :=
  late ← dt_le (assume_utc (kr_expires_at m)) (xe_expires_at e);
  Ok ((kr_case_id m ≟ xe_case_id e) && (kr_owner_party m ≟ xe_sender e) &&
      (kr_recipient_party m ≟ xe_recipient e) && (kr_status m ≟ ReleaseStatus.ACTIVE) && negb late).

Definition store_envelope (e : ExchangeEnvelope) : txs EnvelopeRow :=
  existing ← read (λ s, select_one (λ r, ke_id r ≟ xe_envelope_id e) (xs_envelopes s));
  match existing with
  | Some r =>
      _ ← conflict_when (negb (ke_organization_id r ≟ organization_id) ||
                         negb (ke_payload_hash r ≟ xe_payload_hash e)) "exchange envelope id was reused";
      mret r
  | None =>
      manifest ← read (λ s, select_one (λ r, (kr_organization_id r ≟ organization_id) &&
        (kr_manifest_hash r ≟ xe_manifest_hash e)) (xs_manifests s));
      match manifest with
      | None => raise_tx (RecordNotFound "release manifest was not found")
      | Some m =>
          authorized ← lift (envelope_authorized m e);
          _ ← conflict_when (negb authorized) "envelope exceeds its release authorization";
          let record := mkEnvelopeRow (xe_envelope_id e) organization_id (xe_case_id e) (xe_sender e)
            (xe_recipient e) (xe_sequence e) (xe_causation_id e) (xe_manifest_hash e) (xe_payload e)
            (xe_payload_hash e) (xe_expires_at e) in
          _ ← add_row xs_envelopes set_envelopes envelope_clash record;
          mret record
      end
  end.

Definition acknowledge_envelope (x : ExchangeReceipt) : txs ReceiptRow :=
  existing ← read (λ s, select_one (λ r, (kx_organization_id r ≟ organization_id) &&
    (kx_envelope_id r ≟ xr_envelope_id x)) (xs_receipts s));
  match existing with
  | Some r =>
      _ ← conflict_when (negb (kx_envelope_hash r ≟ xr_envelope_hash x) ||
                         negb (kx_recipient_party r ≟ xr_recipient x))
            "exchange receipt conflicts with prior acknowledgement";
      mret r
  | None =>
      envelope ← read (λ s, select_one (λ r, ke_id r ≟ xr_envelope_id x) (xs_envelopes s));
      match envelope with
      | None => raise_tx (RecordNotFound "exchange envelope was not found")
      | Some e =>
          _ ← raise_when (negb (ke_organization_id e ≟ organization_id))
                (RecordNotFound "exchange envelope was not found");
          _ ← conflict_when (negb (ke_case_id e ≟ xr_case_id x) || negb (ke_recipient_party e ≟ xr_recipient x) ||
                             negb (ke_payload_hash e ≟ xr_envelope_hash x))
                "receipt does not bind the received envelope";
          let record := mkReceiptRow (xr_receipt_id x) organization_id (xr_envelope_id x) (xr_case_id x)
            (xr_recipient x) (xr_envelope_hash x) (xr_received_at x) in
          _ ← add_row xs_receipts set_receipts receipt_clash record;
          mret record
      end
  end.

(** ** Offers and approvals *)

Definition with_approval_status (r : OfferRow) (status : OfferApprovalStatus.t) : OfferRow :=
  mkOfferRow (ko_id r) (ko_organization_id r) (ko_case_id r) (ko_version r) (ko_proposer_party r)
    (ko_recipient_party r) (ko_predecessor_hash r) (ko_terms r) (ko_offer_hash r) status (ko_expires_at r).

Definition set_offer_status (id : string) (status : OfferApprovalStatus.t) : txs unit :=
  write (λ s, set_offers (update_rows (λ r, ko_id r ≟ id) (λ r, with_approval_status r status) (xs_offers s)) s).

Definition latest_offer (case_id : string) (s : exchange_store) : option OfferRow :=
  select_latest ko_version (λ r, (ko_organization_id r ≟ organization_id) && (ko_case_id r ≟ case_id))
    (xs_offers s).

(** [except ValueError as error: raise PersistenceConflict(str(error))] *)
Definition as_conflict (m : result unit) : result unit :=
  match m with
  | Raise (ContractViolation message) => Raise (PersistenceConflict message)
  | _ => m
  end.

Definition store_offer (o : OfferVersion) : txs OfferRow :=
  existing ← read (λ s, select_one (λ r, (ko_organization_id r ≟ organization_id) &&
    (ko_offer_hash r ≟ ov_offer_hash o)) (xs_offers s));
  match existing with
  | Some r => mret r
  | None =>
      latest ← read (latest_offer (ov_case_id o));
      _ ← match latest with
          | None => conflict_when (negb (ov_version o =? 1)) "negotiation must begin with offer version 1"
          | Some l =>
              previous ← lift (OfferVersion_check (ko_terms l));
              _ ← lift (as_conflict (validate_counteroffer previous o));
              _ ← conflict_when (ko_approval_status l ≟ OfferApprovalStatus.APPROVED)
                    "an approved offer cannot be countered";
              set_offer_status (ko_id l) OfferApprovalStatus.SUPERSEDED
          end;
      let record := mkOfferRow (offer_row_id o) organization_id (ov_case_id o) (ov_version o) (ov_proposer o)
        (ov_recipient o) (ov_predecessor_hash o) o (ov_offer_hash o) (ov_approval_status o) (ov_expires_at o) in
      _ ← add_row xs_offers set_offers offer_clash record;
      mret record
  end.

Definition approve_offer (a : OfferApproval) (now : datetime) : txs ApprovalRow :=
  existing ← read (λ s, select_one (λ r, (ka_organization_id r ≟ organization_id) &&
    (ka_case_id r ≟ oa_case_id a) && (ka_offer_hash r ≟ oa_offer_hash a)) (xs_approvals s));
  match existing with
  | Some r => mret r
  | None =>
      latest ← read (latest_offer (oa_case_id a));
      match latest with
      | None => raise_tx (RecordNotFound "offer was not found")
      | Some l =>
          offer ← lift (OfferVersion_check (ko_terms l));
          _ ← lift (authorize a offer now);
          hash ← lift (content_hash (approval_json a));
          let record := mkApprovalRow (oa_approval_id a) organization_id (oa_case_id a) (oa_offer_hash a)
            (oa_approver_id a) (oa_approved_at a) (oa_expires_at a) hash in
          _ ← add_row xs_approvals set_approvals approval_clash record;
          _ ← set_offer_status (ko_id l) OfferApprovalStatus.APPROVED;
          mret record
      end
  end.

(** ** Handoffs *)

Definition store_handoff (h : ExchangePaymentHandoff) : txs HandoffRow :=
  existing ← read (λ s, select_one (λ r, (kh_organization_id r ≟ organization_id) &&
    (kh_case_id r ≟ xh_case_id h) && (kh_offer_hash r ≟ xh_offer_hash h)) (xs_handoffs s));
  match existing with
  | Some r =>
      _ ← conflict_when (negb (kh_handoff_hash r ≟ xh_handoff_hash h))
            "approved offer is bound to another handoff";
      mret r
  | None =>
      let record := mkHandoffRow (xh_handoff_id h) organization_id (xh_case_id h) (xh_offer_hash h)
        (xh_approval_hash h) (xh_handoff_hash h) (xh_destination_url h) (xh_recipient h) (xh_amount h)
        (xh_currency h) (xh_reference h) (xh_status h) (xh_expires_at h) (xh_opened_at h) (xh_created_at h) in
      _ ← add_row xs_handoffs set_handoffs handoff_clash record;
      mret record
  end.

(** The handoff a row stands for, as [open_handoff] rebuilds it. *)
Definition handoff_of_row (r : HandoffRow) : ExchangePaymentHandoff :=
  mkExchangePaymentHandoff (kh_id r) (kh_case_id r) (kh_offer_hash r) (kh_approval_hash r)
    (kh_destination_url r) (kh_recipient r) (kh_amount r) (kh_currency r) (kh_reference r)
    (assume_utc (kh_created_at r)) (assume_utc (kh_expires_at r)) (kh_status r)
    (assume_utc <$> kh_opened_at r) (kh_handoff_hash r).

Definition with_opening (r : HandoffRow) (h : ExchangePaymentHandoff) : HandoffRow :=
  mkHandoffRow (kh_id r) (kh_organization_id r) (kh_case_id r) (kh_offer_hash r) (kh_approval_hash r)
    (kh_handoff_hash r) (kh_destination_url r) (kh_recipient r) (kh_amount r) (kh_currency r)
    (kh_reference r) (xh_status h) (kh_expires_at r) (xh_opened_at h) (kh_created_at r).

Definition open_handoff (handoff_id expected_hash : string) (now : datetime) : txs HandoffRow :=
  record ← read (λ s, select_one (λ r, (kh_organization_id r ≟ organization_id) && (kh_id r ≟ handoff_id))
    (xs_handoffs s));
  match record with
  | None => raise_tx (RecordNotFound "exchange handoff was not found")
  | Some r =>
      _ ← conflict_when (negb (kh_handoff_hash r ≟ expected_hash)) "exchange handoff hash does not match";
      current ← lift (ExchangePaymentHandoff_check (handoff_of_row r));
      opened ← lift (open_ current now);
      _ ← write (λ s, set_handoffs (update_rows (λ x, kh_id x ≟ kh_id r) (λ x, with_opening x opened)
            (xs_handoffs s)) s);
      mret (with_opening r opened)
  end.
End tenant.
End repository.
