(* ===== verification/BilateralHistory.v ===== *)
(** * Histories of the exchange's store

    The operations of [BilateralRepo] are the steps of a store.  The store's
    cases and transitions are shown to refine a ledger in which every case is
    the list of the commands it accepted, and its offers to be negotiations in
    which each offer answers the one before. *)
From S2P Require Import Prelude PyText PyNumber PyTime Enums Money Hashing DomainModels Exchange Contracts Tables.
From S2P Require Import BilateralRepo.

Local Open Scope string_scope.
Local Open Scope Z_scope.

#[local] Notation "a ≟ b" := (bool_decide (a = b)) (at level 70).

(** ** Tables *)

Lemma add_row_Ok {R} (table : exchange_store → list R) set clash row s u s' :
  add_row table set clash row s = Ok (u, s') ↔
  s' = set (table s ++ [row])%list s ∧ ∀ r, r ∈ table s → clash row r = false.
Proof.
  unfold add_row. destruct (insert_row _ _ _) as [rows|] eqn:E.
  - apply insert_row_Ok in E as [-> Hc]. destruct u. split; [intros [= <-]; done|by intros [-> _]].
  - split; [done|]. intros [_ Hc]. assert (insert_row clash row (table s) = Ok (table s ++ [row])%list) as E'
      by by apply insert_row_Ok. by rewrite E' in E.
Qed.

(** The steps of the repository are inverted by their reads and inserts. *)
Ltac inv_repo :=
  repeat (progress inv_tx ||
  match goal with
  | H : (match ?m with _ => _ end) _ = Ok (_, _) |- _ => destruct m eqn:?
  | H : add_row _ _ _ _ _ = Ok (_, _) |- _ => apply add_row_Ok in H as [-> ?]
  | H : conflict_when _ _ _ = Ok (_, _) |- _ => unfold conflict_when in H
  end).

(** ** Steps *)

Section steps.
Context `{Rfc8785} `{RawJson} `{BracketedHosts} `{JsonTime}.

(** One operation, of any tenant.  Commands and offers are constructed, offers
    pending, and a command is applied to a row of the tenant, as the session
    holds it. *)
Inductive exchange_step (s s' : exchange_store) : Prop :=
| step_create org case_id seller r : create_case org case_id seller s = Ok (r, s') → exchange_step s s'
| step_append org c r : PartyCommand_check c = Ok c → append_command org c s = Ok (r, s') → exchange_step s s'
| step_apply org exchange c command_org transition_id t :
    PartyCommand_check c = Ok c → exchange ∈ xs_cases s → kc_organization_id exchange = org →
    apply_command org exchange c command_org transition_id s = Ok (t, s') → exchange_step s s'
| step_project org p projection_id r : publish_projection org p projection_id s = Ok (r, s') → exchange_step s s'
| step_manifest org m r : store_release_manifest org m s = Ok (r, s') → exchange_step s s'
| step_envelope org e r : store_envelope org e s = Ok (r, s') → exchange_step s s'
| step_receipt org x r : acknowledge_envelope org x s = Ok (r, s') → exchange_step s s'
| step_offer org o r :
    OfferVersion_check o = Ok o → ov_approval_status o = OfferApprovalStatus.PENDING →
    store_offer org o s = Ok (r, s') → exchange_step s s'
| step_approve org a now r : approve_offer org a now s = Ok (r, s') → exchange_step s s'
| step_handoff org h r : store_handoff org h s = Ok (r, s') → exchange_step s s'
| step_open org handoff_id hash now r : open_handoff org handoff_id hash now s = Ok (r, s') → exchange_step s s'.

Definition reachable (s : exchange_store) : Prop := rtc exchange_step empty_store s.

(** What an operation leaves alone. *)
Definition same_cases (s s' : exchange_store) : Prop :=
  xs_cases s' = xs_cases s ∧ xs_transitions s' = xs_transitions s.
Definition same_offers (s s' : exchange_store) : Prop :=
  xs_offers s' = xs_offers s ∧ xs_approvals s' = xs_approvals s.

Ltac frame := intros; inv_repo; by repeat split.

Lemma create_case_offers org id seller r s s' : create_case org id seller s = Ok (r, s') → same_offers s s'.
Proof. unfold create_case. frame. Qed.
Lemma append_command_frame org c r s s' :
  append_command org c s = Ok (r, s') → same_cases s s' ∧ same_offers s s'.
Proof. unfold append_command. frame. Qed.
Lemma publish_projection_frame org p id r s s' :
  publish_projection org p id s = Ok (r, s') → same_cases s s' ∧ same_offers s s'.
Proof. unfold publish_projection. frame. Qed.
Lemma store_release_manifest_frame org m r s s' :
  store_release_manifest org m s = Ok (r, s') → same_cases s s' ∧ same_offers s s'.
Proof. unfold store_release_manifest. frame. Qed.
Lemma store_envelope_frame org e r s s' :
  store_envelope org e s = Ok (r, s') → same_cases s s' ∧ same_offers s s'.
Proof. unfold store_envelope. frame. Qed.
Lemma acknowledge_envelope_frame org x r s s' :
  acknowledge_envelope org x s = Ok (r, s') → same_cases s s' ∧ same_offers s s'.
Proof. unfold acknowledge_envelope. frame. Qed.
Lemma store_offer_cases org o r s s' : store_offer org o s = Ok (r, s') → same_cases s s'.
Proof. unfold store_offer, set_offer_status. frame. Qed.
Lemma approve_offer_cases org a now r s s' : approve_offer org a now s = Ok (r, s') → same_cases s s'.
Proof. unfold approve_offer, set_offer_status. frame. Qed.
Lemma store_handoff_frame org h r s s' :
  store_handoff org h s = Ok (r, s') → same_cases s s' ∧ same_offers s s'.
Proof. unfold store_handoff. frame. Qed.
Lemma open_handoff_frame org id hash now r s s' :
  open_handoff org id hash now s = Ok (r, s') → same_cases s s' ∧ same_offers s s'.
Proof. unfold open_handoff. frame. Qed.
Lemma apply_offers org exchange c corg tid t s s' :
  apply_command org exchange c corg tid s = Ok (t, s') → same_offers s s'.
Proof. unfold apply_command. frame. Qed.
End steps.

(** ** The ledger *)

(** What a case is, apart from how it is stored: its parties and the commands
    it accepted. *)
Record case_log := mkCaseLog {
  cl_buyer : string;
  cl_seller : string;
  cl_commands : list PartyCommand;
  cl_coordinator : CoordinatorState
}.

Definition log_opened (buyer seller case_id : string) : case_log := mkCaseLog buyer seller [] (new_case case_id).
Definition log_advanced (g : case_log) (c : PartyCommand) (st : CoordinatorState) : case_log :=
  mkCaseLog (cl_buyer g) (cl_seller g) (cl_commands g ++ [c]) st.

(** The transitions a log leaves, numbered from [n]. *)
Fixpoint trail (n : Z) (st : CoordinatorState) (l : list PartyCommand)
  : list (Z * string * ExchangeState.t * ExchangeState.t) :=
  match l with
  | [] => []
  | c :: l =>
      match target_of (cs_state st) (pc_command_type c) with
      | Some target => (n, pc_id c, cs_state st, target) :: trail (n + 1) (changes st c target) l
      | None => []
      end
  end.

Definition trail_entry (r : TransitionRow) : Z * string * ExchangeState.t * ExchangeState.t :=
  (kt_sequence r, kt_command_id r, kt_previous_state r, kt_next_state r).

Section ledger.
Context `{Rfc8785} `{RawJson} `{BracketedHosts} `{JsonTime}.

(** A case is opened once; it advances by a command its state accepts and that
    it has not seen. *)
Inductive ledger_step (L : gmap string case_log) : gmap string case_log → Prop :=
| ledger_open case_id buyer seller :
    L !! case_id = None → ledger_step L (<[case_id := log_opened buyer seller case_id]> L)
| ledger_advance case_id g c st :
    L !! case_id = Some g → accepts (cl_coordinator g) c st → pc_id c ∉ pc_id <$> cl_commands g →
    ledger_step L (<[case_id := log_advanced g c st]> L).

(** The row of a case. *)
Definition log_row (case_id : string) (g : case_log) (hash : string) : CaseRow :=
  mkCaseRow case_id (cl_buyer g) (cl_seller g) (cs_state (cl_coordinator g)) (cs_version (cl_coordinator g))
    (cl_coordinator g) hash (pc_id <$> last (cl_commands g)).

Definition rows_of_case (case_id : string) (s : exchange_store) : list CaseRow :=
  List.filter (λ r, kc_id r ≟ case_id) (xs_cases s).

(** The store holds exactly the ledger: one row per case, whose hash is the
    hash of its state, and the transitions of each case in their order. *)
Record represents (s : exchange_store) (L : gmap string case_log) : Prop := {
  rp_absent case_id : L !! case_id = None → rows_of_case case_id s = [];
  rp_row case_id g : L !! case_id = Some g →
    ∃ hash, content_hash (coordinator_json (cl_coordinator g)) = Ok hash ∧
      rows_of_case case_id s = [log_row case_id g hash];
  rp_run case_id g : L !! case_id = Some g → exchange_run (new_case case_id) (cl_commands g) (cl_coordinator g);
  rp_trail case_id g : L !! case_id = Some g →
    trail_entry <$> case_transitions (cl_buyer g) case_id s = trail 1 (new_case case_id) (cl_commands g);
  rp_known t : t ∈ xs_transitions s → is_Some (L !! kt_case_id t)
}.

Lemma represents_empty : represents empty_store ∅.
Proof. split; try done; intros *; rewrite ?lookup_empty; try done. set_solver. Qed.

Lemma represents_frame s s' L : same_cases s s' → represents s L → represents s' L.
Proof.
  intros [E1 E2] [Ha Hr Hn Ht Hk]. unfold rows_of_case, case_transitions in *.
  split; intros *; unfold rows_of_case, case_transitions; rewrite ?E1, ?E2; eauto.
Qed.

(** *** Trails *)

Lemma trail_app st l st' n k :
  exchange_run st l st' → trail n st (l ++ k) = (trail n st l ++ trail (n + Z.of_nat (length l)) st' k)%list.
Proof.
  intros Hrun. revert k. induction Hrun as [|l c s1 s2 Hrun IH Hacc]; intros k.
  - cbn. by rewrite Z.add_0_r.
  - rewrite <- app_assoc, (IH [c]), (IH ([c] ++ k)%list), <- app_assoc. f_equal.
    apply accepts_Ok in Hacc as (_ & _ & _ & target & Ht & ->). cbn. rewrite Ht. cbn. do 2 f_equal.
    rewrite length_app. cbn. lia.
Qed.

Lemma trail_sequences st l st' :
  exchange_run st l st' → (λ x, x.1.1.1) <$> trail 1 st l = seqZ 1 (Z.of_nat (length l)).
Proof.
  induction 1 as [|l c s1 s2 Hrun IH Hacc]; [done|]. rewrite (trail_app _ _ _ _ _ Hrun), fmap_app, IH.
  apply accepts_Ok in Hacc as (_ & _ & _ & target & Ht & ->). cbn [trail]. rewrite Ht. cbn.
  rewrite length_app. cbn. rewrite Nat2Z.inj_add, seqZ_app by lia. done.
Qed.

Lemma trail_commands st l st' : exchange_run st l st' → (λ x, x.1.1.2) <$> trail 1 st l = pc_id <$> l.
Proof.
  induction 1 as [|l c s1 s2 Hrun IH Hacc]; [done|]. rewrite (trail_app _ _ _ _ _ Hrun), !fmap_app, IH.
  apply accepts_Ok in Hacc as (_ & _ & _ & target & Ht & ->). cbn [trail]. by rewrite Ht.
Qed.

Lemma foldl_max_seqZ a b n :
  a <= b → foldl Z.max a (seqZ (b + 1) (Z.of_nat n)) = if (n =? 0)%nat then a else b + Z.of_nat n.
Proof.
  revert a b. induction n as [|n IH]; intros a b Ha; [done|].
  rewrite seqZ_cons by lia. cbn [foldl]. replace (Z.succ (b + 1)) with (b + 1 + 1) by lia.
  replace (Z.pred (Z.of_nat (S n))) with (Z.of_nat n) by lia. rewrite IH by lia.
  destruct (Nat.eqb_spec n 0), (Nat.eqb_spec (S n) 0); lia.
Qed.

Lemma last_sequence_trail l n : kt_sequence <$> l = seqZ 1 (Z.of_nat n) → last_sequence l = Z.of_nat n.
Proof.
  intros E. unfold last_sequence. rewrite E. destruct n as [|n]; [done|]. rewrite seqZ_cons by lia.
  replace (Z.pred (Z.of_nat (S n))) with (Z.of_nat n) by lia. change (Z.succ 1) with (1 + 1).
  rewrite foldl_max_seqZ by lia. destruct (Nat.eqb_spec n 0); lia.
Qed.

Lemma trail_entries_sequence (l : list TransitionRow) : (λ x, x.1.1.1) <$> (trail_entry <$> l) = kt_sequence <$> l.
Proof. by rewrite <- list_fmap_compose. Qed.
Lemma trail_entries_command (l : list TransitionRow) : (λ x, x.1.1.2) <$> (trail_entry <$> l) = kt_command_id <$> l.
Proof. by rewrite <- list_fmap_compose. Qed.

(** *** Opening a case *)

Lemma rows_of_case_absent case_id s :
  select_one (λ r, kc_id r ≟ case_id) (xs_cases s) = None → rows_of_case case_id s = [].
Proof.
  rewrite select_one_None. intros Hn. unfold rows_of_case. destruct (List.filter _ _) as [|r l] eqn:E; [done|].
  assert (r ∈ List.filter (λ r, kc_id r ≟ case_id) (xs_cases s)) as [Hr Hw]%elem_of_lfilter by (rewrite E; set_solver).
  by rewrite Hn in Hw.
Qed.

Lemma represents_None s L case_id : represents s L → rows_of_case case_id s = [] → L !! case_id = None.
Proof.
  intros Hrep E. destruct (L !! case_id) as [g|] eqn:EL; [|done].
  destruct (rp_row _ _ Hrep _ _ EL) as (hash & _ & E'). congruence.
Qed.

Lemma case_transitions_absent s L org case_id :
  represents s L → L !! case_id = None → case_transitions org case_id s = [].
Proof.
  intros Hrep EL. unfold case_transitions. destruct (List.filter _ _) as [|t l] eqn:E; [done|].
  assert (t ∈ List.filter (λ r, (kt_organization_id r ≟ org) && (kt_case_id r ≟ case_id)) (xs_transitions s))
    as [Ht [_ Hw%bool_decide_eq_true]%andb_true_iff]%elem_of_lfilter by (rewrite E; set_solver).
  destruct (rp_known _ _ Hrep _ Ht) as [g Hg]. congruence.
Qed.

Lemma create_case_refines org case_id seller r s s' L :
  create_case org case_id seller s = Ok (r, s') → represents s L →
  s' = s ∨ ∃ L', ledger_step L L' ∧ represents s' L'.
Proof.
  unfold create_case. intros E Hrep. inv_repo; [by left|]. right.
  match goal with Hs : select_one _ _ = None |- _ => apply rows_of_case_absent in Hs as Habs end.
  pose proof (represents_None _ _ _ Hrep Habs) as EL.
  pose proof (case_transitions_absent _ _ org _ Hrep EL) as Htr. eexists. split; [by apply (ledger_open L case_id org seller)|].
  destruct Hrep as [Ha Hr Hn Ht Hk]. split.
  - intros id [Hne ?]%lookup_insert_None. unfold rows_of_case. cbn [set_cases xs_cases].
    rewrite List.filter_app. cbn. rewrite bool_decide_eq_false_2 by done. rewrite app_nil_r. by apply Ha.
  - intros id g [[<- <-]|[Hne Hg]]%lookup_insert_Some.
    + eexists. split; [done|]. unfold rows_of_case in *. cbn [set_cases xs_cases].
      rewrite List.filter_app, Habs. cbn. by rewrite bool_decide_eq_true_2.
    + destruct (Hr _ _ Hg) as (h & Hh & Hrow). exists h. split; [done|]. unfold rows_of_case in *.
      cbn [set_cases xs_cases]. rewrite List.filter_app, Hrow. cbn. by rewrite bool_decide_eq_false_2.
  - intros id g [[<- <-]|[Hne Hg]]%lookup_insert_Some; [apply run_start|by apply Hn].
  - intros id g [[<- <-]|[Hne Hg]]%lookup_insert_Some; [|by apply Ht].
    unfold case_transitions in Htr |- *. cbn. by rewrite Htr.
  - intros t Htt. destruct (Hk t Htt) as [g Hg]. destruct (decide (kt_case_id t = case_id)) as [->|Hne];
      [rewrite lookup_insert_eq|rewrite lookup_insert_ne by done]; eauto.
Qed.

(** *** Advancing a case *)

Lemma get_case_Ok org case_id s r s' :
  get_case org case_id s = Ok (r, s') →
  s' = s ∧ r ∈ xs_cases s ∧ kc_organization_id r = org ∧ kc_id r = case_id.
Proof.
  unfold get_case. intros E. inv_repo. match goal with Hs : select_one _ _ = Some _ |- _ =>
    apply select_one_Some in Hs as [Hin [Ho Hi]%andb_true_iff] end.
  apply bool_decide_eq_true in Ho, Hi. done.
Qed.

Lemma represents_row s L r :
  represents s L → r ∈ xs_cases s →
  ∃ g hash, L !! kc_id r = Some g ∧ content_hash (coordinator_json (cl_coordinator g)) = Ok hash ∧
    rows_of_case (kc_id r) s = [r] ∧ r = log_row (kc_id r) g hash.
Proof.
  intros Hrep Hin. assert (r ∈ rows_of_case (kc_id r) s) as Hrow.
  { apply elem_of_lfilter. split; [done|]. by apply bool_decide_eq_true_2. }
  destruct (L !! kc_id r) as [g|] eqn:EL.
  - destruct (rp_row _ _ Hrep _ _ EL) as (hash & Hh & E). rewrite E in Hrow.
    apply list_elem_of_singleton in Hrow as Er. exists g, hash. split_and!; [done|done| |done]. by rewrite E, <- Er.
  - rewrite (rp_absent _ _ Hrep _ EL) in Hrow. set_solver.
Qed.

Lemma accepts_compile st c t :
  PartyCommand_check c = Ok c → compile_party_command st c = Ok t → accepts st c (ct_next_state t).
Proof. intros Hc Ht. split; [done|]. by rewrite Ht. Qed.

(** The store after a command was applied. *)
Lemma apply_command_Ok org r c corg tid t s s' :
  apply_command org r c corg tid s = Ok (t, s') →
  (∀ x, x ∈ case_transitions org (kc_id r) s → kt_command_id x ≠ pc_id c) ∧
  compile_party_command (kc_coordinator_state r) c = Ok t ∧
  ∃ hash thash, content_hash (coordinator_json (ct_next_state t)) = Ok hash ∧
    xs_cases s' = update_rows (λ x, kc_id x ≟ kc_id r) (λ x, advanced x t hash (pc_id c)) (xs_cases s) ∧
    xs_transitions s' = (xs_transitions s ++
      [mkTransitionRow tid org (kc_id r) (last_sequence (case_transitions org (kc_id r) s) + 1) (pc_id c) corg
         (ct_previous_state t) (cs_state (ct_next_state t)) thash])%list.
Proof.
  unfold apply_command. intros E. inv_repo.
  match goal with Hs : negb (is_none (select_one _ _)) = false |- _ =>
    apply negb_false_iff, is_none_true in Hs; pose proof (proj1 (select_one_None _ _) Hs) as Hnew end.
  split; [|split; [done|by eexists _, _]].
  intros x Hx Heq. apply Hnew in Hx. by rewrite bool_decide_eq_true_2 in Hx.
Qed.

Lemma rows_of_case_update case_id case_id' f s cases :
  (∀ r, kc_id (f r) = kc_id r) → cases = update_rows (λ x, kc_id x ≟ case_id) f (xs_cases s) →
  List.filter (λ r, kc_id r ≟ case_id') cases = if case_id ≟ case_id' then f <$> rows_of_case case_id' s
                                               else rows_of_case case_id' s.
Proof.
  intros Hf ->. rewrite filter_update by (intros r; by rewrite Hf). fold (rows_of_case case_id' s).
  assert (∀ x, x ∈ rows_of_case case_id' s → kc_id x = case_id') as Hid
    by (intros x [_ ?%bool_decide_eq_true]%elem_of_lfilter; done).
  case_bool_decide as Heq.
  - unfold update_rows. apply List.map_ext_in. intros x Hx%list_elem_of_In%Hid. rewrite bool_decide_eq_true_2; congruence.
  - apply update_rows_none. intros x Hx%Hid. apply bool_decide_eq_false_2. congruence.
Qed.

Lemma log_advanced_row case_id g hash r t hash' c :
  r = log_row case_id g hash →
  advanced r t hash' (pc_id c) = log_row case_id (log_advanced g c (ct_next_state t)) hash'.
Proof. intros ->. unfold advanced, log_row. cbn. by rewrite last_snoc. Qed.

Lemma case_transitions_snoc org case_id s s' x :
  xs_transitions s' = (xs_transitions s ++ [x])%list →
  case_transitions org case_id s' = (case_transitions org case_id s ++
    if (kt_organization_id x ≟ org) && (kt_case_id x ≟ case_id) then [x] else [])%list.
Proof. intros E. unfold case_transitions. by rewrite E, List.filter_app. Qed.

Lemma apply_command_refines org r c corg tid t s s' L :
  PartyCommand_check c = Ok c → r ∈ xs_cases s → kc_organization_id r = org →
  apply_command org r c corg tid s = Ok (t, s') →
  represents s L → ∃ L', ledger_step L L' ∧ represents s' L'.
Proof.
  intros Hc Hr Ho E Hrep.
  destruct (represents_row _ _ _ Hrep Hr) as (g & hash & HL & _ & Hrow & Er).
  apply apply_command_Ok in E as (Hnew & Hcomp & hash' & thash & Hh' & Ecases & Etrans).
  assert (kc_coordinator_state r = cl_coordinator g) as Est by (rewrite Er; done). rewrite Est in Hcomp.
  assert (org = cl_buyer g) as Eorg by (rewrite <- Ho, Er; done).
  pose proof (accepts_compile _ _ _ Hc Hcomp) as Hacc.
  pose proof (rp_run _ _ Hrep _ _ HL) as Hrun. pose proof (rp_trail _ _ Hrep _ _ HL) as Htr.
  pose proof (f_equal (fmap (λ x, x.1.1.2)) Htr) as Hids. rewrite trail_entries_command, (trail_commands _ _ _ Hrun) in Hids.
  pose proof (f_equal (fmap (λ x, x.1.1.1)) Htr) as Hseq.
  rewrite trail_entries_sequence, (trail_sequences _ _ _ Hrun) in Hseq. apply last_sequence_trail in Hseq.
  eexists. split.
  { apply (ledger_advance L (kc_id r) g c _ HL Hacc). rewrite <- Hids. intros (x & Ex & Hx)%list_elem_of_fmap.
    rewrite <- Eorg in Hx. by apply (Hnew x Hx). }
  pose proof (λ id, rows_of_case_update _ id (λ x, advanced x t hash' (pc_id c)) s _ (λ r, eq_refl) Ecases) as Hrows.
  split.
  - intros id [Hne ?]%lookup_insert_None. unfold rows_of_case. rewrite Hrows.
    rewrite (rp_absent _ _ Hrep) by done. by case_bool_decide.
  - intros id k [[<- <-]|[Hne Hk]]%lookup_insert_Some; unfold rows_of_case; rewrite Hrows.
    + exists hash'. split; [done|]. rewrite bool_decide_eq_true_2, Hrow by done. cbn. f_equal.
      by apply (log_advanced_row _ _ hash).
    + rewrite bool_decide_eq_false_2 by done. by apply (rp_row _ _ Hrep).
  - intros id k [[<- <-]|[Hne Hk]]%lookup_insert_Some; [|by apply (rp_run _ _ Hrep)].
    by apply (run_step _ _ _ _ _ Hrun).
  - intros id k [[<- <-]|[Hne Hk]]%lookup_insert_Some; rewrite (case_transitions_snoc _ _ _ _ _ Etrans); cbn.
    + rewrite (bool_decide_eq_true_2 (org = _)), (bool_decide_eq_true_2 (kc_id r = _)) by done. cbn.
      rewrite fmap_app, Htr, (trail_app _ _ _ _ _ Hrun). f_equal. unfold trail_entry. cbn.
      apply compile_Ok in Hcomp as (_ & _ & -> & (target & Ht & ->) & _). rewrite Ht, Eorg, Hseq. cbn.
      by rewrite Z.add_comm.
    + rewrite (bool_decide_eq_false_2 (kc_id r = _)) by done. rewrite andb_false_r, app_nil_r.
      by apply (rp_trail _ _ Hrep).
  - intros x. rewrite Etrans, elem_of_app. intros [Hx| ->%list_elem_of_singleton]; cbn.
    + destruct (rp_known _ _ Hrep _ Hx) as [k Hk].
      destruct (decide (kt_case_id x = kc_id r)) as [->|Hne]; [rewrite lookup_insert_eq|rewrite lookup_insert_ne by done]; eauto.
    + rewrite lookup_insert_eq. eauto.
Qed.

Lemma step_refines s s' L :
  exchange_step s s' → represents s L → ∃ L', rtc ledger_step L L' ∧ represents s' L'.
Proof.
  intros Hstep Hrep.
  assert (same_cases s s' → ∃ L', rtc ledger_step L L' ∧ represents s' L') as Hsame.
  { intros Hs. exists L. split; [done|]. by apply (represents_frame s). }
  destruct Hstep as [org id seller r E|org c r Hc E|org x c corg tid t Hc Hx Ho E|org p id r E|org m r E|org e r E|org x r E
    |org o r Ho Hp E|org a now r E|org h r E|org id hash now r E].
  - destruct (create_case_refines _ _ _ _ _ _ L E Hrep) as [->|(L' & HL & Hr)]; [by exists L|].
    exists L'. split; [by apply rtc_once|done].
  - apply Hsame. by apply append_command_frame in E as [? _].
  - destruct (apply_command_refines _ _ _ _ _ _ _ _ L Hc Hx Ho E Hrep) as (L' & HL & Hr).
    exists L'. split; [by apply rtc_once|done].
  - apply Hsame. by apply publish_projection_frame in E as [? _].
  - apply Hsame. by apply store_release_manifest_frame in E as [? _].
  - apply Hsame. by apply store_envelope_frame in E as [? _].
  - apply Hsame. by apply acknowledge_envelope_frame in E as [? _].
  - apply Hsame. by eapply store_offer_cases.
  - apply Hsame. by eapply approve_offer_cases.
  - apply Hsame. by apply store_handoff_frame in E as [? _].
  - apply Hsame. by apply open_handoff_frame in E as [? _].
Qed.

Lemma reachable_refines s : reachable s → ∃ L, rtc ledger_step ∅ L ∧ represents s L.
Proof.
  unfold reachable. revert s.
  match goal with |- ∀ p, rtc _ _ _ → @?P p => apply (rtc_ind_r P empty_store) end.
  - exists ∅. split; [done|apply represents_empty].
  - intros s s' _ Hstep (L & HL & Hrep). destruct (step_refines _ _ _ Hstep Hrep) as (L' & HL' & Hrep').
    exists L'. split; [by etrans|done].
Qed.

(** C4: the store refines the ledger.  Whatever operations ran, in whatever
    order and for whatever tenants, the cases and transitions in the store are
    those of a history of the ledger: every case has one row, holding the state
    its accepted commands lead to from a fresh case, with the hash of that
    state, and its transitions are exactly those commands, numbered from one,
    none applied twice. *)
Theorem store_refines_ledger (s : exchange_store) :
  reachable s → ∃ L, rtc ledger_step ∅ L ∧ represents s L.
Proof. apply reachable_refines. Qed.
End ledger.

(** ** Negotiations *)

Section negotiations.
Context `{Rfc8785} `{RawJson} `{BracketedHosts} `{JsonTime}.

(** Offers that answer each other: the first has version one, and each later
    one is a valid counteroffer to the one before, which was still pending. *)
Inductive linked : list OfferVersion → Prop :=
| linked_first o :
    OfferVersion_check o = Ok o → ov_approval_status o = OfferApprovalStatus.PENDING → ov_version o = 1 → linked [o]
| linked_counter l p o :
    linked (l ++ [p]) → OfferVersion_check o = Ok o → ov_approval_status o = OfferApprovalStatus.PENDING →
    validate_counteroffer p o = Ok () → linked (l ++ [p; o]).

Definition offer_row (org : string) (status : OfferApprovalStatus.t) (o : OfferVersion) : OfferRow :=
  mkOfferRow (offer_row_id o) org (ov_case_id o) (ov_version o) (ov_proposer o) (ov_recipient o)
    (ov_predecessor_hash o) o (ov_offer_hash o) status (ov_expires_at o).

Definition case_offers (org case_id : string) (s : exchange_store) : list OfferRow :=
  List.filter (λ r, (ko_organization_id r ≟ org) && (ko_case_id r ≟ case_id)) (xs_offers s).
Definition case_approvals (org case_id : string) (s : exchange_store) : list ApprovalRow :=
  List.filter (λ r, (ka_organization_id r ≟ org) && (ka_case_id r ≟ case_id)) (xs_approvals s).

(** The rows of a negotiation: all but the last offer are superseded. *)
Definition offer_rows (org : string) (earlier : list OfferVersion) (status : OfferApprovalStatus.t)
    (current : OfferVersion) : list OfferRow :=
  (offer_row org OfferApprovalStatus.SUPERSEDED <$> earlier) ++ [offer_row org status current].

(** What the rows of one case of one tenant may be: nothing yet; or a
    negotiation whose last offer is pending, without an approval; or one whose
    last offer is approved, by exactly one approval, of its hash. *)
Inductive negotiation (org case_id : string) : list OfferRow → list ApprovalRow → Prop :=
| neg_none : negotiation org case_id [] []
| neg_pending earlier current :
    linked (earlier ++ [current]) → ov_case_id current = case_id →
    negotiation org case_id (offer_rows org earlier OfferApprovalStatus.PENDING current) []
| neg_approved earlier current a :
    linked (earlier ++ [current]) → ov_case_id current = case_id → ka_offer_hash a = ov_offer_hash current →
    negotiation org case_id (offer_rows org earlier OfferApprovalStatus.APPROVED current) [a].

(** *** Linked offers *)

Lemma linked_last l p : linked (l ++ [p]) →
  OfferVersion_check p = Ok p ∧ ov_approval_status p = OfferApprovalStatus.PENDING.
Proof.
  inversion 1 as [o Hc Hp Hv E|l' p' o Hl Hc Hp Hv E].
  - destruct l as [|? [|]]; simplify_eq/=; done.
  - change ([p'; o]) with ([p'] ++ [o])%list in E. rewrite app_assoc in E. by apply app_inj_tail in E as [_ ->].
Qed.

Lemma seqZ_snoc n : seqZ 1 (Z.of_nat (S n)) = (seqZ 1 (Z.of_nat n) ++ [Z.of_nat (S n)])%list.
Proof.
  rewrite Nat2Z.inj_succ, <- Z.add_1_r, seqZ_app by lia. f_equal.
  assert (∀ a, seqZ a 1 = [a]) as -> by (intros a; rewrite seqZ_cons by lia; done). f_equal. lia.
Qed.

Lemma counter_sequential p o :
  validate_counteroffer p o = Ok () → ov_case_id o = ov_case_id p ∧ ov_version o = ov_version p + 1.
Proof.
  unfold validate_counteroffer, violation_when. intros (? & [Hc _]%raise_if_Ok%orb_false_iff & E)%bind_Ok.
  apply bind_Ok in E as (? & Hs%raise_if_Ok%negb_false_iff%Z.eqb_eq & _).
  by apply negb_false_iff, bool_decide_eq_true in Hc.
Qed.

Lemma linked_versions l : linked l → ov_version <$> l = seqZ 1 (Z.of_nat (length l)).
Proof.
  induction 1 as [o _ _ Hv|l p o Hl IH _ _ [_ Hv]%counter_sequential]; [cbn; by rewrite Hv|].
  rewrite fmap_app, length_app in IH |- *. cbn [fmap list_fmap length] in IH |- *.
  rewrite Nat.add_1_r, seqZ_snoc in IH. apply app_inj_tail in IH as [-> IH].
  replace (length l + 2)%nat with (S (S (length l))) by lia. rewrite !(seqZ_snoc (S _)), seqZ_snoc, <- app_assoc.
  cbn. f_equal. f_equal; [done|]. f_equal. lia.
Qed.

(** *** The current offer *)

Record negotiations (s : exchange_store) : Prop := {
  ns_ids : NoDup (ko_id <$> xs_offers s);
  ns_cases org case_id : negotiation org case_id (case_offers org case_id s) (case_approvals org case_id s)
}.

Lemma latest_offer_rows org case_id s earlier status current :
  linked (earlier ++ [current]) → case_offers org case_id s = offer_rows org earlier status current →
  latest_offer org case_id s = Some (offer_row org status current).
Proof.
  intros Hl%linked_versions E. unfold latest_offer. destruct (select_latest _ _ _) as [r|] eqn:El.
  - apply select_latest_Some in El as (Hr & Hw & Hmax). f_equal.
    assert (∀ x, x ∈ offer_rows org earlier status current → ko_version x <= ko_version r) as Hge.
    { intros x. rewrite <- E. intros [? ?]%elem_of_lfilter. by apply Hmax. }
    assert (r ∈ offer_rows org earlier status current) as Hin by (rewrite <- E; by apply elem_of_lfilter).
    unfold offer_rows in *. rewrite elem_of_app, list_elem_of_singleton in Hin. destruct Hin as [Hin|]; [|done].
    apply list_elem_of_fmap in Hin as (o & -> & [i Hi]%list_elem_of_lookup). exfalso.
    specialize (Hge (offer_row org status current)). rewrite elem_of_app, list_elem_of_singleton in Hge.
    specialize (Hge (or_intror eq_refl)). cbn in Hge. pose proof (lookup_lt_Some _ _ _ Hi) as Hlt.
    rewrite fmap_app, length_app, Nat.add_1_r, seqZ_snoc in Hl. apply app_inj_tail in Hl as [Hl Hc].
    assert (Some (ov_version o) = Some (1 + Z.of_nat i)) as [= Hv]; [|lia].
    rewrite <- (lookup_seqZ_lt 1 (Z.of_nat (length earlier))) by lia. rewrite <- Hl, list_lookup_fmap, Hi. done.
  - rewrite select_latest_None in El. exfalso.
    assert (offer_row org status current ∈ case_offers org case_id s) as [Hin Hw]%elem_of_lfilter
      by (rewrite E; unfold offer_rows; set_solver).
    by rewrite El in Hw.
Qed.

Lemma offers_by_id s x y : negotiations s → x ∈ xs_offers s → y ∈ xs_offers s → ko_id x = ko_id y → x = y.
Proof.
  intros [Hn _] [i Hi]%list_elem_of_lookup [j Hj]%list_elem_of_lookup E.
  assert (i = j) as ->; [|congruence]. apply (NoDup_lookup _ _ _ (ko_id x) Hn); rewrite list_lookup_fmap, ?Hi, ?Hj; cbn;
    congruence.
Qed.

Lemma case_offers_update org case_id org' case_id' s earlier l status :
  negotiations s → case_offers org case_id s = (earlier ++ [l])%list →
  List.filter (λ r, (ko_organization_id r ≟ org') && (ko_case_id r ≟ case_id'))
    (update_rows (λ r, ko_id r ≟ ko_id l) (λ r, with_approval_status r status) (xs_offers s)) =
  if (org ≟ org') && (case_id ≟ case_id') then (earlier ++ [with_approval_status l status])%list
  else case_offers org' case_id' s.
Proof.
  intros Hs E. rewrite filter_update by done. fold (case_offers org' case_id' s).
  assert (∀ o i x, x ∈ case_offers o i s → x ∈ xs_offers s ∧ ko_organization_id x = o ∧ ko_case_id x = i) as Hin.
  { intros o i x [Hx [Ho%bool_decide_eq_true Hi%bool_decide_eq_true]%andb_true_iff]%elem_of_lfilter. done. }
  destruct (Hin org case_id l) as (Hl & Ho & Hi); [rewrite E; set_solver|].
  destruct ((org ≟ org') && (case_id ≟ case_id')) eqn:Eb.
  - apply andb_true_iff in Eb as [->%bool_decide_eq_true ->%bool_decide_eq_true]. rewrite E.
    unfold update_rows. rewrite List.map_app. cbn. rewrite bool_decide_eq_true_2 by done. f_equal.
    apply update_rows_none. intros x Hx. apply bool_decide_eq_false_2. intros Eid.
    assert (x = l) as ->.
    { apply (offers_by_id s); [done| |done..]. apply (Hin org' case_id'). rewrite E. set_solver. }
    assert (NoDup (earlier ++ [l])) as Hnd.
    { rewrite <- E. unfold case_offers. apply NoDup_ListNoDup, List.NoDup_filter, NoDup_ListNoDup.
      by apply (NoDup_fmap_1 ko_id), Hs. }
    apply NoDup_app in Hnd as (_ & Hnd & _). apply (Hnd l Hx). set_solver.
  - apply update_rows_none. intros x Hx. apply bool_decide_eq_false_2. intros Eid.
    destruct (Hin _ _ _ Hx) as (Hx' & Hox & Hix). assert (x = l) as -> by by apply (offers_by_id s).
    rewrite <- Ho, <- Hi, Hox, Hix, !bool_decide_eq_true_2 in Eb by done. done.
Qed.

Lemma update_ids w status (l : list OfferRow) : ko_id <$> update_rows w (λ r, with_approval_status r status) l = ko_id <$> l.
Proof. induction l as [|r l IH]; [done|]. cbn. rewrite <- IH. by destruct (w r). Qed.

Lemma clash_free_id (l : list OfferRow) r : (∀ x, x ∈ l → offer_clash r x = false) → ko_id r ∉ ko_id <$> l.
Proof.
  intros Hc (x & Ex & Hx)%list_elem_of_fmap. apply Hc in Hx. unfold offer_clash in Hx.
  rewrite !orb_false_iff in Hx. destruct Hx as [[Hx%bool_decide_eq_false _] _]. done.
Qed.

(** The offers and approvals of a case after a row was added. *)
Lemma case_offers_snoc org case_id l x :
  List.filter (λ r, (ko_organization_id r ≟ org) && (ko_case_id r ≟ case_id)) (l ++ [x]) =
  (List.filter (λ r, (ko_organization_id r ≟ org) && (ko_case_id r ≟ case_id)) l ++
   if (ko_organization_id x ≟ org) && (ko_case_id x ≟ case_id) then [x] else [])%list.
Proof. by rewrite List.filter_app. Qed.

Lemma no_rows org case_id s :
  latest_offer org case_id s = None → case_offers org case_id s = [].
Proof.
  unfold latest_offer, select_latest, case_offers. by destruct (List.filter _ _).
Qed.

(** *** Offers and approvals keep negotiations *)

Definition with_status_at (id : string) (status : OfferApprovalStatus.t) (rows : list OfferRow) : list OfferRow :=
  update_rows (λ r, ko_id r ≟ id) (λ r, with_approval_status r status) rows.

Lemma as_conflict_Ok m u : as_conflict m = Ok u ↔ m = Ok ().
Proof. destruct m as [[]|[]], u; naive_solver. Qed.

Lemma store_offer_Ok org o r s s' :
  store_offer org o s = Ok (r, s') →
  s' = s ∨
  ∃ offers, xs_offers s' = (offers ++ [offer_row org (ov_approval_status o) o])%list ∧
    xs_approvals s' = xs_approvals s ∧
    (∀ x, x ∈ offers → offer_clash (offer_row org (ov_approval_status o) o) x = false) ∧
    (latest_offer org (ov_case_id o) s = None ∧ ov_version o = 1 ∧ offers = xs_offers s ∨
     ∃ l previous, latest_offer org (ov_case_id o) s = Some l ∧ OfferVersion_check (ko_terms l) = Ok previous ∧
       validate_counteroffer previous o = Ok () ∧ ko_approval_status l ≠ OfferApprovalStatus.APPROVED ∧
       offers = with_status_at (ko_id l) OfferApprovalStatus.SUPERSEDED (xs_offers s)).
Proof.
  unfold store_offer, set_offer_status. intros E. inv_repo; [by left| |]; right; eexists; (split; [done|]); split_and!; try done.
  - right. eexists _, _. split; [done|]. split; [done|]. split_and!; [by eapply as_conflict_Ok| |done].
    match goal with Ha : bool_decide (_ = OfferApprovalStatus.APPROVED) = false |- _ =>
      apply bool_decide_eq_false in Ha; exact Ha end.
  - left. split_and!; [done| |done].
    match goal with Hv : negb _ = false |- _ => by apply negb_false_iff, Z.eqb_eq in Hv end.
Qed.

Lemma approve_offer_Ok org a now r s s' :
  approve_offer org a now s = Ok (r, s') →
  s' = s ∧ (∃ x, x ∈ case_approvals org (oa_case_id a) s) ∨
  ∃ l offer approved row, latest_offer org (oa_case_id a) s = Some l ∧ OfferVersion_check (ko_terms l) = Ok offer ∧
    authorize a offer now = Ok approved ∧
    ka_organization_id row = org ∧ ka_case_id row = oa_case_id a ∧ ka_offer_hash row = oa_offer_hash a ∧
    (∀ x, x ∈ xs_approvals s → ka_organization_id x = org → ka_case_id x = oa_case_id a →
       ka_offer_hash x ≠ oa_offer_hash a) ∧
    xs_approvals s' = (xs_approvals s ++ [row])%list ∧
    xs_offers s' = with_status_at (ko_id l) OfferApprovalStatus.APPROVED (xs_offers s).
Proof.
  unfold approve_offer, set_offer_status. intros E. inv_repo.
  { left. split; [done|]. match goal with Hs : select_one _ _ = Some ?x |- _ => apply select_one_Some in Hs as [Hin Hw]; exists x end.
    apply andb_true_iff in Hw as [Hw _]. by apply elem_of_lfilter. }
  right.
  do 3 eexists. eexists (mkApprovalRow _ _ _ _ _ _ _ _). split_and!; try done.
  intros x Hx Ho Hc Hh. match goal with Hs : select_one _ _ = None |- _ => rewrite select_one_None in Hs;
    specialize (Hs x Hx); rewrite Ho, Hc, Hh, !bool_decide_eq_true_2 in Hs by done; done end.
Qed.

Lemma offer_row_superseded org status o status' :
  with_approval_status (offer_row org status o) status' = offer_row org status' o.
Proof. done. Qed.

(** A new offer is added to the rows of its case. *)
Lemma negotiations_add s s' org o offers :
  xs_offers s' = (offers ++ [offer_row org OfferApprovalStatus.PENDING o])%list →
  (∀ x, x ∈ offers → offer_clash (offer_row org OfferApprovalStatus.PENDING o) x = false) →
  ko_id <$> offers = ko_id <$> xs_offers s → negotiations s →
  (∀ org' case_id', (org' ≠ org ∨ case_id' ≠ ov_case_id o) →
     List.filter (λ r, (ko_organization_id r ≟ org') && (ko_case_id r ≟ case_id')) offers = case_offers org' case_id' s) →
  xs_approvals s' = xs_approvals s →
  negotiation org (ov_case_id o)
    (List.filter (λ r, (ko_organization_id r ≟ org) && (ko_case_id r ≟ ov_case_id o)) offers ++
     [offer_row org OfferApprovalStatus.PENDING o]) (case_approvals org (ov_case_id o) s) →
  negotiations s'.
Proof.
  intros Eo Hclash Eids [Hids Hneg] Hoth Ea Hnew. split.
  - rewrite Eo, fmap_app. apply NoDup_app. split_and!; [by rewrite Eids| |apply NoDup_singleton].
    intros id Hid Hx. apply list_elem_of_singleton in Hx as ->. by apply clash_free_id in Hclash.
  - intros org' case_id'. unfold case_offers, case_approvals. rewrite Eo, Ea, case_offers_snoc. cbn.
    fold (case_approvals org' case_id' s). destruct (decide (org' = org ∧ case_id' = ov_case_id o)) as [[-> ->]|Hne].
    + by rewrite !bool_decide_eq_true_2 by done.
    + assert ((org ≟ org') && (ov_case_id o ≟ case_id') = false) as -> by
        (apply andb_false_iff; rewrite !bool_decide_eq_false; destruct (decide (org' = org)); naive_solver).
      rewrite app_nil_r, Hoth; [apply Hneg|]. destruct (decide (org' = org)); naive_solver.
Qed.

Lemma store_offer_negotiations org o r s s' :
  OfferVersion_check o = Ok o → ov_approval_status o = OfferApprovalStatus.PENDING →
  store_offer org o s = Ok (r, s') → negotiations s → negotiations s'.
Proof.
  intros Hck Hpend [->|(offers & Eo & Ea & Hclash & Hcase)]%store_offer_Ok Hs; [done|]. rewrite Hpend in *.
  destruct Hcase as [(Hnone & Hv & ->)|(l & previous & Hlast & Hprev & Hval & Hst & ->)].
  - apply (negotiations_add s s' org o (xs_offers s)); try done. fold (case_offers org (ov_case_id o) s).
    pose proof (ns_cases _ Hs org (ov_case_id o)) as Hneg. rewrite (no_rows _ _ _ Hnone) in Hneg |- *.
    inversion Hneg as [|earlier c _ _ E|earlier c ap _ _ _ E]; [|by destruct earlier..].
    apply (neg_pending _ _ [] o); [by apply linked_first|done].
  - pose proof (ns_cases _ Hs org (ov_case_id o)) as Hneg.
    inversion Hneg as [E Eap|earlier c Hl Hc E Eap|earlier c ap Hl Hc Hh E Eap].
    + unfold latest_offer, select_latest in Hlast. fold (case_offers org (ov_case_id o) s) in Hlast. by rewrite <- E in Hlast.
    + rewrite (latest_offer_rows _ _ _ _ _ _ Hl (eq_sym E)) in Hlast. injection Hlast as <-.
      destruct (linked_last _ _ Hl) as [Hcur _]. cbn in Hprev. rewrite Hcur in Hprev. injection Hprev as <-.
      pose proof (λ o' c', case_offers_update _ _ o' c' _ _ _ OfferApprovalStatus.SUPERSEDED Hs (eq_sym E)) as Hupd.
      apply (negotiations_add s s' org o _ Eo Hclash (update_ids _ _ _) Hs); [|done|].
      * intros org' case_id' Hne. unfold with_status_at. rewrite Hupd.
        by destruct (bool_decide_reflect (org = org')), (bool_decide_reflect (ov_case_id o = case_id')); destruct Hne.
      * unfold with_status_at. rewrite Hupd, !bool_decide_eq_true_2 by done. cbn [andb]. rewrite <- Eap.
        rewrite offer_row_superseded.
        change [offer_row org OfferApprovalStatus.SUPERSEDED c] with (offer_row org OfferApprovalStatus.SUPERSEDED <$> [c]).
        rewrite <- fmap_app. apply neg_pending; [|done]. rewrite <- app_assoc. by apply linked_counter.
    + rewrite (latest_offer_rows _ _ _ _ _ _ Hl (eq_sym E)) in Hlast. by injection Hlast as <-.
Qed.

Lemma authorize_Ok a o now o' :
  authorize a o now = Ok o' →
  oa_case_id a = ov_case_id o ∧ oa_offer_hash a = ov_offer_hash o ∧ is_aware now = true ∧
  dt_le (oa_expires_at a) now = Ok false ∧ dt_le (ov_expires_at o) now = Ok false ∧
  ov_approval_status o = OfferApprovalStatus.PENDING.
Proof.
  unfold authorize, violation_when, _require_aware, value_error_when. intros (? & Ha%raise_if_Ok%negb_false_iff & E)%bind_Ok.
  apply bind_Ok in E as (? & [Hc Hh]%raise_if_Ok%orb_false_iff & E). apply bind_Ok in E as (late & El & E).
  apply bind_Ok in E as (? & ->%raise_if_Ok & E). apply bind_Ok in E as (? & Hp%raise_if_Ok & _).
  apply negb_false_iff, bool_decide_eq_true in Hc, Hh, Hp. unfold or_else in El.
  destruct (dt_le (oa_expires_at a) now) as [[]|]; [done| |done]. by split_and!.
Qed.

Lemma approve_offer_negotiations org a now r s s' :
  approve_offer org a now s = Ok (r, s') → negotiations s → negotiations s'.
Proof.
  intros [[-> _]|(l & offer & approved & row & Hlast & Hck & Hauth & Ho & Hc & Hh & Hnew & Ea & Eo)]%approve_offer_Ok Hs; [done|].
  apply authorize_Ok in Hauth as (Hac & Hah & _).
  pose proof (ns_cases _ Hs org (oa_case_id a)) as Hneg.
  inversion Hneg as [E Eap|earlier c Hl Hcase E Eap|earlier c ap Hl Hcase Hhap E Eap].
  { unfold latest_offer, select_latest in Hlast. fold (case_offers org (oa_case_id a) s) in Hlast. by rewrite <- E in Hlast. }
  - rewrite (latest_offer_rows _ _ _ _ _ _ Hl (eq_sym E)) in Hlast. injection Hlast as <-.
    destruct (linked_last _ _ Hl) as [Hcur _]. cbn in Hck. rewrite Hcur in Hck. injection Hck as <-.
    pose proof (λ o' c', case_offers_update _ _ o' c' _ _ _ OfferApprovalStatus.APPROVED Hs (eq_sym E)) as Hupd.
    split.
    + rewrite Eo. unfold with_status_at. rewrite update_ids. apply Hs.
    + intros org' case_id'. unfold case_offers, case_approvals. rewrite Eo, Ea. unfold with_status_at.
      rewrite Hupd, List.filter_app. fold (case_approvals org' case_id' s). cbn. rewrite Ho, Hc.
      destruct ((org ≟ org') && (oa_case_id a ≟ case_id')) eqn:Eb.
      * apply andb_true_iff in Eb as [<-%bool_decide_eq_true <-%bool_decide_eq_true].
        rewrite <- Eap, offer_row_superseded. apply (neg_approved _ _ earlier c row); [done..|congruence].
      * rewrite app_nil_r. apply Hs.
  - exfalso. assert (ap ∈ case_approvals org (oa_case_id a) s) as [Hin Hw]%elem_of_lfilter by (rewrite <- Eap; set_solver).
    apply andb_true_iff in Hw as [Ho'%bool_decide_eq_true Hc'%bool_decide_eq_true].
    rewrite (latest_offer_rows _ _ _ _ _ _ Hl (eq_sym E)) in Hlast. injection Hlast as <-.
    destruct (linked_last _ _ Hl) as [Hcur _]. cbn in Hck. rewrite Hcur in Hck. injection Hck as <-.
    apply (Hnew ap Hin Ho' Hc'). congruence.
Qed.

(** *** What an operation does to the offers of each case *)

Lemma latest_offer_in org case_id s l :
  latest_offer org case_id s = Some l → l ∈ case_offers org case_id s.
Proof. intros (Hl & Hw & _)%select_latest_Some. by apply elem_of_lfilter. Qed.

Lemma offers_with_status_at org case_id s l status org' case_id' :
  negotiations s → latest_offer org case_id s = Some l →
  ∃ earlier, case_offers org case_id s = (earlier ++ [l])%list ∧
    List.filter (λ r, (ko_organization_id r ≟ org') && (ko_case_id r ≟ case_id')) (with_status_at (ko_id l) status (xs_offers s)) =
    if (org ≟ org') && (case_id ≟ case_id') then (earlier ++ [with_approval_status l status])%list
    else case_offers org' case_id' s.
Proof.
  intros Hs Hl. pose proof (ns_cases _ Hs org case_id) as Hneg. pose proof (latest_offer_in _ _ _ _ Hl) as Hin.
  inversion Hneg as [E Eap|earlier c Hlk Hc E Eap|earlier c ap Hlk Hc Hh E Eap].
  - rewrite <- E in Hin. by apply not_elem_of_nil in Hin.
  - rewrite (latest_offer_rows _ _ _ _ _ _ Hlk (eq_sym E)) in Hl. injection Hl as <-.
    eexists. split; [done|]. by apply (case_offers_update org case_id).
  - rewrite (latest_offer_rows _ _ _ _ _ _ Hlk (eq_sym E)) in Hl. injection Hl as <-.
    eexists. split; [done|]. by apply (case_offers_update org case_id).
Qed.

(** A stored offer is the pending last one of its case; other cases keep their
    offers. *)
Lemma store_offer_rows org o r s s' :
  OfferVersion_check o = Ok o → ov_approval_status o = OfferApprovalStatus.PENDING → negotiations s →
  store_offer org o s = Ok (r, s') →
  s' = s ∨
  (∃ earlier, case_offers org (ov_case_id o) s' = offer_rows org earlier OfferApprovalStatus.PENDING o) ∧
  (∀ org' case_id', org' ≠ org ∨ case_id' ≠ ov_case_id o → case_offers org' case_id' s' = case_offers org' case_id' s) ∧
  (∀ x, x ∈ xs_offers s' → ko_case_id x = ov_case_id o ∧ ko_organization_id x = org ∨
     ∃ y, y ∈ xs_offers s ∧ ko_case_id y = ko_case_id x ∧ ko_organization_id y = ko_organization_id x).
Proof.
  intros Hck Hst Hs E. pose proof (store_offer_negotiations _ _ _ _ _ Hck Hst E Hs) as Hs'.
  apply store_offer_Ok in E as [->|(offers & Eo & _ & _ & Hcase)]; [by left|]. right. rewrite Hst in Eo.
  assert (∀ org' case_id', org' ≠ org ∨ case_id' ≠ ov_case_id o →
    List.filter (λ r, (ko_organization_id r ≟ org') && (ko_case_id r ≟ case_id')) offers = case_offers org' case_id' s) as Hoth.
  { intros org' case_id' Hne. destruct Hcase as [(_ & _ & ->)|(l & prev & Hl & _ & _ & _ & ->)]; [done|].
    destruct (offers_with_status_at _ _ _ _ OfferApprovalStatus.SUPERSEDED org' case_id' Hs Hl) as (earlier & _ & ->).
    assert ((org ≟ org') && (ov_case_id o ≟ case_id') = false) as ->; [|done].
    apply andb_false_iff. rewrite !bool_decide_eq_false. naive_solver. }
  split_and!.
  - pose proof (ns_cases _ Hs' org (ov_case_id o)) as Hneg. unfold case_offers at 1 in Hneg. unfold case_offers.
    rewrite Eo, case_offers_snoc in Hneg |- *. cbn [offer_row ko_organization_id ko_case_id] in Hneg |- *.
    rewrite !bool_decide_eq_true_2 in Hneg |- * by done. cbn [andb] in Hneg |- *.
    inversion Hneg as [E Eap|earlier c Hlk Hc E Eap|earlier c ap Hlk Hc Hh E Eap].
    + by destruct (List.filter _ offers).
    + unfold offer_rows in E |- *. apply app_inj_tail in E as [E Ec]. apply (f_equal ko_terms) in Ec. cbn in Ec. subst c.
      exists earlier. by f_equal.
    + unfold offer_rows in E. by apply app_inj_tail in E as [_ [=]].
  - intros org' case_id' Hne. unfold case_offers at 1. rewrite Eo, case_offers_snoc, Hoth by done. cbn.
    assert ((org ≟ org') && (ov_case_id o ≟ case_id') = false) as ->; [|by rewrite app_nil_r].
    apply andb_false_iff. rewrite !bool_decide_eq_false. naive_solver.
  - intros x. rewrite Eo, elem_of_app. intros [Hx| ->%list_elem_of_singleton]; [right|by left].
    destruct Hcase as [(_ & _ & ->)|(l & prev & Hl & _ & _ & _ & ->)]; [eauto|].
    apply elem_of_update_rows in Hx as (y & Hy & ->). exists y. by case_bool_decide.
Qed.

(** Approving moves the last offer from pending to approved. *)
Lemma approve_offer_rows org a now r s s' earlier current :
  negotiations s → approve_offer org a now s = Ok (r, s') →
  case_offers org (oa_case_id a) s = offer_rows org earlier OfferApprovalStatus.PENDING current →
  case_offers org (oa_case_id a) s' = offer_rows org earlier OfferApprovalStatus.APPROVED current ∧
  (∀ org' case_id', org' ≠ org ∨ case_id' ≠ oa_case_id a → case_offers org' case_id' s' = case_offers org' case_id' s) ∧
  (∀ x, x ∈ xs_offers s' → ∃ y, y ∈ xs_offers s ∧ ko_case_id y = ko_case_id x ∧ ko_organization_id y = ko_organization_id x).
Proof.
  intros Hs E Erows. pose proof (ns_cases _ Hs org (oa_case_id a)) as Hneg. rewrite Erows in Hneg.
  assert (case_approvals org (oa_case_id a) s = []) as Hnone.
  { inversion Hneg as [E1 Eap|e1 c Hlk Hc E1 Eap|e1 c ap Hlk Hc Hh E1 Eap]; [by destruct earlier|done|].
    unfold offer_rows in E1. by apply app_inj_tail in E1 as [_ [=]]. }
  apply approve_offer_Ok in E as [[_ [x Hx]]|(l & offer & approved & row & Hlast & _ & _ & _ & _ & _ & _ & _ & Eo)].
  { rewrite Hnone in Hx. by apply not_elem_of_nil in Hx. }
  pose proof (λ o' c', offers_with_status_at _ _ _ _ OfferApprovalStatus.APPROVED o' c' Hs Hlast) as Hupd.
  split_and!.
  - unfold case_offers. rewrite Eo. destruct (Hupd org (oa_case_id a)) as (e & E & ->).
    rewrite !bool_decide_eq_true_2 by done. cbn [andb]. rewrite Erows in E. unfold offer_rows in E |- *.
    apply app_inj_tail in E as [<- <-]. done.
  - intros org' case_id' Hne. unfold case_offers at 1. rewrite Eo. destruct (Hupd org' case_id') as (e & E & ->).
    assert ((org ≟ org') && (oa_case_id a ≟ case_id') = false) as ->; [|done].
    apply andb_false_iff. rewrite !bool_decide_eq_false. naive_solver.
  - intros x. rewrite Eo. intros (y & Hy & ->)%elem_of_update_rows. exists y. by case_bool_decide.
Qed.

Lemma negotiations_frame s s' : same_offers s s' → negotiations s → negotiations s'.
Proof.
  intros [E1 E2] [Hids Hneg]. split; [by rewrite E1|]. intros *. unfold case_offers, case_approvals. rewrite E1, E2.
  apply Hneg.
Qed.

Lemma step_negotiations s s' : exchange_step s s' → negotiations s → negotiations s'.
Proof.
  intros Hstep Hs. assert (same_offers s s' → negotiations s') as Hsame by (intros; by apply (negotiations_frame s)).
  destruct Hstep as [org id seller r E|org c r Hc E|org x c corg tid t Hc Hx Ho E|org p id r E|org m r E|org e r E|org x r E
    |org o r Ho Hp E|org a now r E|org h r E|org id hash now r E].
  - apply Hsame. by eapply create_case_offers.
  - apply Hsame. by apply append_command_frame in E as [_ ?].
  - apply Hsame. by eapply apply_offers.
  - apply Hsame. by apply publish_projection_frame in E as [_ ?].
  - apply Hsame. by apply store_release_manifest_frame in E as [_ ?].
  - apply Hsame. by apply store_envelope_frame in E as [_ ?].
  - apply Hsame. by apply acknowledge_envelope_frame in E as [_ ?].
  - by eapply store_offer_negotiations.
  - by eapply approve_offer_negotiations.
  - apply Hsame. by apply store_handoff_frame in E as [_ ?].
  - apply Hsame. by apply open_handoff_frame in E as [_ ?].
Qed.

Lemma reachable_negotiations s : reachable s → negotiations s.
Proof.
  unfold reachable. revert s.
  match goal with |- ∀ p, rtc _ _ _ → @?P p => apply (rtc_ind_r P empty_store) end.
  - split; [apply NoDup_nil_2|]. intros. apply neg_none.
  - intros s s' _ Hstep Hs. by eapply step_negotiations.
Qed.

(** C5: a negotiation is a chain, and an approval is of its current offer.
    Whatever operations ran, the offers a tenant holds for a case answer each
    other one by one: versions from one, each a valid counteroffer to the one
    before (its hash, the other party, exactly the changed terms).  All but the
    last are superseded; the last is pending and nothing is approved, or it is
    approved by exactly one approval, which names its hash. *)
Theorem approved_offer_is_current (s : exchange_store) (org case_id : string) :
  reachable s → negotiation org case_id (case_offers org case_id s) (case_approvals org case_id s).
Proof. intros Hs%reachable_negotiations. apply Hs. Qed.
End negotiations.
