(* ===== verification/ExchangeService.v ===== *)
(** * The exchange service: [sira_api/exchange_service.py] and [domain/exchange_route.py]

    What an authenticated buyer or seller can ask of a case: requests that
    decode an opaque route, run the repository's operations in transactions of
    the buyer's and the seller's tenants, and answer with a projection.  The
    cipher of the routes is a third party.  The clock's readings, the drawn
    identifiers and the rows of tables other services write are arguments. *)
From S2P Require Import Prelude PyText PyNumber PyTime Enums Money Hashing DomainModels Exchange Contracts Tables.
From S2P Require Import PyDate Database BilateralRepo.

Local Open Scope string_scope.
Local Open Scope Z_scope.

#[local] Notation "a ≟ b" := (bool_decide (a = b)) (at level 70).

(** ** Routes *)

Record ExchangeRoute := mkExchangeRoute {
  er_case_id : string;
  er_candidate_id : string;
  er_product_id : string;
  er_merchant_name : string;
  er_merchant_url : string;
  er_buyer_organization_id : string;
  er_seller_organization_id : string;
  er_development_guest_organization_id : option string;
  er_expires_at : datetime
}.

Definition ExchangeRoute_check (r : ExchangeRoute) : result ExchangeRoute :=
  _ ← fields_ok "ExchangeRoute"
        [length_within 64 (er_case_id r); length_within 128 (er_candidate_id r);
         length_within 128 (er_product_id r); length_within 200 (er_merchant_name r);
         startswith (er_merchant_url r) "https://"; (length (chars (er_merchant_url r)) <=? 2000)%nat;
         length_within 64 (er_buyer_organization_id r); length_within 64 (er_seller_organization_id r);
         from_option (length_within 64) true (er_development_guest_organization_id r)];
  Ok r.

(** The token of a route, and the fields inside a token when it is one. *)
Class RouteCipher := {
  seal_route : ExchangeRoute → string;
  unseal_route : string → option ExchangeRoute
}.

Section routes.
Context `{RouteCipher}.

Definition encode (route : ExchangeRoute) : string := seal_route route.

Definition decode (token organization_id : string) (now : datetime) : result ExchangeRoute :=
  route ← match unseal_route token with
          | None => Raise (ExchangeRouteError "exchange route is invalid")
          | Some fields =>
              match ExchangeRoute_check fields with
              | Ok route => Ok route
              | Raise _ => Raise (ExchangeRouteError "exchange route is invalid")
              end
          end;
  _ ← _require_aware now "now";
  expired ← dt_le (er_expires_at route) now;
  _ ← raise_if expired (ExchangeRouteError "exchange route has expired");
  _ ← raise_if (negb (py_in organization_id
          ([er_buyer_organization_id route; er_seller_organization_id route] ++
           match er_development_guest_organization_id route with Some o => [o] | None => [] end)))%list
        (ExchangeRouteError "exchange route belongs to another organization");
  Ok route.
End routes.

(** ** Sellers *)

Record SellerPrincipalBinding := mkSellerPrincipalBinding {
  sb_candidate_id : string;
  sb_product_id : string;
  sb_seller_actor_id : string;
  sb_seller_organization_id : string;
  sb_merchant_name : string;
  sb_merchant_url : string
}.

(** [^[A-Za-z0-9_-]{3,128}$] *)
Definition _IDENTIFIER (s : string) : bool :=
  forallb tenant_char (chars s) && (3 <=? length (chars s))%nat && (length (chars s) <=? 128)%nat.

Definition SellerPrincipalBinding_check (b : SellerPrincipalBinding) : result SellerPrincipalBinding :=
  _ ← value_error_when (negb (forallb _IDENTIFIER [sb_candidate_id b; sb_product_id b; sb_seller_actor_id b;
        sb_seller_organization_id b])) "seller binding requires safe identifiers";
  _ ← value_error_when (is_empty (strip (sb_merchant_name b)) || negb (startswith (sb_merchant_url b) "https://"))
        "seller binding requires an HTTPS merchant destination";
  Ok b.

(** The directory of the development fixture. *)
Definition static_directory (bindings : list SellerPrincipalBinding)
  : result (string → option SellerPrincipalBinding) :=
  _ ← value_error_when (negb (all_distinct (sb_candidate_id <$> bindings)))
        "seller directory candidate IDs must be unique";
  Ok (λ candidate_id, find (λ b, sb_candidate_id b ≟ candidate_id) bindings).

(** ** Rows other services write *)

Record BriefRow := mkBriefRow {
  rb_organization_id : string;
  rb_purchase_request_id : string;
  rb_version : Z;
  rb_payload : list (string * PyVal);
  rb_content_hash : string
}.

Record SpanRow := mkSpanRow {
  sp_id : string;
  sp_organization_id : string;
  sp_product_id : string;
  sp_visibility : string;
  sp_source_version_id : string;
  sp_sequence : Z;
  sp_content_hash : string
}.

(** ** Helpers *)

Definition _SELLER_SAFE_FIELDS : list string :=
  ["category_id"; "intent"; "desired_outcome"; "team"; "data_profile"; "hard_requirements"; "preferences";
   "allowed_stack_context"; "seller_questions"].

(** [hash.removeprefix("sha256:")[:n]] *)
Definition short_hash (n : nat) (hash : string) : string :=
  let l := chars hash in of_chars (take n (if startswith hash "sha256:" then drop 7 l else l)).

Record ProjectionView := mkProjectionView {
  pv_case_id : string;
  pv_party : ExchangeParty.t;
  pv_state : ExchangeState.t;
  pv_version : Z;
  pv_released : PyVal;
  pv_projection_hash : string
}.
Definition view_of_row (r : ProjectionRow) : ProjectionView :=
  mkProjectionView (kp_case_id r) (kp_party r) (kp_state r) (kp_version r) (kp_released r) (kp_projection_hash r).
Definition view_of_projection (p : PartyProjection) : ProjectionView :=
  mkProjectionView (pp_case_id p) (pp_party p) (pp_state p) (pp_version p) (pp_released p) (pp_projection_hash p).

Definition seconds_later (d : datetime) (n : Z) : datetime := mkDatetime (dt_local d + n * 1000000) (dt_offset d).

(** [party not in {"BUYER", "SELLER"}], and the enumeration it names. *)
Definition verified_party (party : option string) : option ExchangeParty.t :=
  match party with
  | Some p => if p ≟ "BUYER" then Some ExchangeParty.BUYER else
              if p ≟ "SELLER" then Some ExchangeParty.SELLER else None
  | None => None
  end.

(** [except (PersistenceConflict, RecordNotFound, ValueError)] raises a
    conflict; other errors pass. *)
Definition _api_conflict (e : exn) : exn :=
  match e with
  | PersistenceConflict _ | IdempotencyConflict _ | RecordNotFound _ => ApiProblem "EXCHANGE_CONFLICT" 409
  | _ => if is_value_error e then ApiProblem "EXCHANGE_CONFLICT" 409 else e
  end.

(** The text of a hash a released payload holds.  [str] of any other JSON value
    is no hash, and the construction of the offer rejects it as it rejects the
    empty text. *)
Definition payload_text (key : string) (payload : option PyVal) : string :=
  match payload with
  | Some (VDict l) => match dict_get (KStr key) l with Some (VStr s) => s | _ => "" end
  | _ => ""
  end.

Record ServiceConfig := mkServiceConfig {
  sc_seller_directory : option (string → option SellerPrincipalBinding);
  sc_allow_development_guest_bridge : bool
}.

(** Identifiers drawn by a request. *)
Record FreshIds := mkFreshIds { fi_transition : string; fi_buyer_projection : string; fi_seller_projection : string }.

(** Who asks. *)
Record Caller := mkCaller {
  ca_organization_id : string;
  ca_actor_id : string;
  ca_party : option string;
  ca_guest_identity : bool
}.

Notation req A := (prog exchange_store A).

Section service.
Context `{Rfc8785} `{RawJson} `{BracketedHosts} `{JsonTime} `{RouteCipher} `{IsoFormat}.
Context (config : ServiceConfig).

Definition _stable_id (prefix : string) (parts : list string) : result string :=
  digest ← content_hash (dict [("parts", vstrs parts)]);
  Ok (prefix ++ "_" ++ short_hash 32 digest).

(** ** Authorisation *)

Definition _decode_route (caller : Caller) (case_id route_capability : string) (now : datetime)
  : result (ExchangeRoute * ExchangeParty.t) :=
  match verified_party (ca_party caller) with
  | None => Raise (ApiProblem "VERIFIED_PARTY_REQUIRED" 403)
  | Some party =>
      route ← match decode route_capability (ca_organization_id caller) now with
              | Raise (ExchangeRouteError _) => Raise (ApiProblem "EXCHANGE_ROUTE_INVALID" 403)
              | r => r
              end;
      _ ← raise_if (negb (er_case_id route ≟ case_id)) (ApiProblem "EXCHANGE_ROUTE_MISMATCH" 403);
      let expected := if party ≟ ExchangeParty.BUYER then er_buyer_organization_id route
                      else er_seller_organization_id route in
      let guest_seller_bridge := sc_allow_development_guest_bridge config && ca_guest_identity caller &&
        (party ≟ ExchangeParty.SELLER) &&
        (er_development_guest_organization_id route ≟ Some (ca_organization_id caller)) in
      _ ← raise_if (negb (ca_organization_id caller ≟ expected) && negb guest_seller_bridge)
            (ApiProblem "EXCHANGE_PARTY_MISMATCH" 403);
      Ok (route, party)
  end.

Definition _party_organization (route : ExchangeRoute) (party : ExchangeParty.t) : string :=
  if party ≟ ExchangeParty.BUYER then er_buyer_organization_id route else er_seller_organization_id route.

Definition _publish_compiled (seller_organization_id : string) (compiled : CompiledTransition) (ids : FreshIds)
  : req unit :=
  _ ← in_transaction seller_organization_id
        (publish_projection seller_organization_id (ct_seller_projection compiled) (fi_seller_projection ids));
  mret ().

Definition view_case (caller : Caller) (case_id route_capability : string) (now : datetime) : req ProjectionView :=
  '(route, party) ← pure (_decode_route caller case_id route_capability now);
  let party_organization := _party_organization route party in
  record ← in_transaction party_organization (latest_projection party_organization case_id party);
  mret (view_of_row record).

(** The projection of a command that was applied before; the route is encoded
    and decoded again, at a new reading of the clock. *)
Definition _replayed_projection (caller : Caller) (route : ExchangeRoute) (party : ExchangeParty.t)
    (command_id : string) (now : datetime) : req (option ProjectionView) :=
  applied ← in_transaction (er_buyer_organization_id route)
    (read (λ s, existsb (λ t, (kt_organization_id t ≟ er_buyer_organization_id route) &&
       (kt_case_id t ≟ er_case_id route) && (kt_command_id t ≟ command_id)) (xs_transitions s)));
  if applied : bool then
    view ← view_case (mkCaller (_party_organization route party) (ca_actor_id caller)
                        (Some (ExchangeParty.value party)) false)
             (er_case_id route) (encode route) now;
    mret (Some view)
  else mret None.

(** ** Opening a case *)

(** The seller-safe fields of a brief. *)
Definition safe_source (payload : list (string * PyVal)) : list (string * PyVal) :=
  omap (λ field, (λ v, (field, v)) <$> dict_get field payload) _SELLER_SAFE_FIELDS.

Definition release_purpose : string := "Evaluate fit and respond to the buyer's stated requirements.".

(** The manifest that releases a brief, before its construction. *)
Definition brief_manifest (case_id actor_id : string) (brief : BriefRow) (expires_at : datetime)
  : result ReleaseManifest :=
  let public_source := "reqbrief_" ++ short_hash 16 (rb_content_hash brief) in
  manifest_id ← _stable_id "manifest" [case_id; rb_content_hash brief];
  approval_id ← _stable_id "releaseapproval" [case_id; actor_id];
  let draft := mkReleaseManifest manifest_id case_id ExchangeParty.BUYER ExchangeParty.SELLER release_purpose
    _SELLER_SAFE_FIELDS [] [(public_source, rb_version brief)] expires_at approval_id "" ReleaseStatus.ACTIVE "" in
  approved ← content_hash (approval_payload draft);
  Ok (mkReleaseManifest manifest_id case_id ExchangeParty.BUYER ExchangeParty.SELLER release_purpose
    _SELLER_SAFE_FIELDS [] [(public_source, rb_version brief)] expires_at approval_id approved
    ReleaseStatus.ACTIVE "").

(** The latest brief of the request, and its sharing expiry. *)
Definition shareable_brief (organization_id purchase_request_id : string) (briefs : list BriefRow) (now : datetime)
  : result (BriefRow * datetime * list (string * PyVal)) :=
  match select_latest rb_version (λ r, (rb_organization_id r ≟ organization_id) &&
          (rb_purchase_request_id r ≟ purchase_request_id)) briefs with
  | None => Raise (ApiProblem "REQUIREMENT_BRIEF_MISSING" 409)
  | Some brief =>
      match dict_get "expires_at" (rb_payload brief) with
      | Some (VStr raw_expiry) =>
          expires_at ← fromisoformat raw_expiry;
          expired ← dt_le expires_at (seconds_later now 1);
          _ ← raise_if expired (ApiProblem "REQUIREMENT_BRIEF_EXPIRED" 409);
          let source := safe_source (rb_payload brief) in
          _ ← raise_if (negb (same_set source.*1 _SELLER_SAFE_FIELDS)) (ApiProblem "REQUIREMENT_BRIEF_INCOMPLETE" 409);
          Ok (brief, expires_at, source)
      | _ => Raise (ApiProblem "REQUIREMENT_BRIEF_EXPIRY_MISSING" 409)
      end
  end.

(** What a fresh case releases: manifest, envelope and command. *)
Definition release_of_brief (case_id actor_id idempotency_key : string) (brief : BriefRow) (expires_at : datetime)
    (source : list (string * PyVal)) (now : datetime) : result (ReleaseManifest * ExchangeEnvelope * PartyCommand) :=
  draft ← brief_manifest case_id actor_id brief expires_at;
  manifest ← ReleaseManifest_check draft;
  released ← release manifest source now;
  envelope_id ← _stable_id "envelope" [case_id; rm_manifest_hash manifest];
  envelope ← ExchangeEnvelope_check (mkExchangeEnvelope envelope_id case_id ExchangeParty.BUYER ExchangeParty.SELLER 1
    (rm_approval_id manifest) (rm_manifest_hash manifest) (dict released) (seconds_later expires_at (-1)) "");
  command_id ← _stable_id "command" [case_id; idempotency_key];
  command ← PartyCommand_check (mkPartyCommand command_id case_id ExchangeParty.BUYER actor_id
    CommandType.RELEASE_REQUIREMENT 1 idempotency_key
    (dict [("manifest_hash", VStr (rm_manifest_hash manifest)); ("envelope_hash", VStr (xe_payload_hash envelope));
           ("requirement", dict released)]));
  Ok (manifest, envelope, command).

Record CreatedCase := mkCreatedCase {
  cc_case_id : string;
  cc_route_capability : string;
  cc_expires_at : datetime;
  cc_projection : ProjectionView
}.

(** The transaction of the buyer: the case, the release, the first command. *)
Definition open_case (organization_id actor_id case_id seller_organization_id idempotency_key purchase_request_id : string)
    (briefs : list BriefRow) (now : datetime) (ids : FreshIds)
  : txs (ProjectionRow * datetime * option CompiledTransition) :=
  existing ← create_case organization_id case_id seller_organization_id;
  if 1 <? kc_version existing then
    buyer_projection ← latest_projection organization_id case_id ExchangeParty.BUYER;
    stored ← read (λ s, last (List.filter (λ r, (kr_organization_id r ≟ organization_id) &&
                                                (kr_case_id r ≟ case_id)) (xs_manifests s)));
    match stored with
    | None => raise_tx (ApiProblem "EXCHANGE_RELEASE_MISSING" 409)
    | Some m => mret (buyer_projection, assume_utc (kr_expires_at m), None)
    end
  else
    '(brief, expires_at, source) ← lift (shareable_brief organization_id purchase_request_id briefs now);
    '(manifest, envelope, command) ←
      lift (release_of_brief case_id actor_id idempotency_key brief expires_at source now);
    _ ← store_release_manifest organization_id manifest;
    _ ← store_envelope organization_id envelope;
    _ ← append_command organization_id command;
    compiled ← apply_command organization_id existing command organization_id (fi_transition ids);
    buyer_projection ← publish_projection organization_id (ct_buyer_projection compiled) (fi_buyer_projection ids);
    mret (buyer_projection, expires_at, Some compiled).

Definition create_exchange_case (caller : Caller) (idempotency_key purchase_request_id candidate_id : string)
    (briefs : list BriefRow) (now : datetime) (ids : FreshIds) : req CreatedCase :=
  let organization_id := ca_organization_id caller in
  _ ← pure (raise_if (negb (ca_party caller ≟ Some "BUYER")) (ApiProblem "BUYER_IDENTITY_REQUIRED" 403));
  match (directory ← sc_seller_directory config; directory candidate_id) with
  | None => pure (Raise (ApiProblem "SELLER_ORGANIZATION_BINDING_REQUIRED" 409))
  | Some binding =>
      let seller_organization_id := sb_seller_organization_id binding in
      _ ← pure (raise_if (seller_organization_id ≟ organization_id) (ApiProblem "DISTINCT_SELLER_REQUIRED" 409));
      case_id ← pure (_stable_id "xcase" [organization_id; purchase_request_id; seller_organization_id; idempotency_key]);
      '(buyer_projection, expires_at, compiled) ← in_transaction organization_id
        (open_case organization_id (ca_actor_id caller) case_id seller_organization_id idempotency_key
           purchase_request_id briefs now ids);
      _ ← match compiled with
          | Some compiled => _publish_compiled seller_organization_id compiled ids
          | None => mret ()
          end;
      route ← pure (ExchangeRoute_check (mkExchangeRoute case_id candidate_id (sb_product_id binding)
        (sb_merchant_name binding) (sb_merchant_url binding) organization_id seller_organization_id
        (if sc_allow_development_guest_bridge config && ca_guest_identity caller &&
            startswith organization_id "org_guest_" then Some organization_id else None) expires_at));
      mret (mkCreatedCase case_id (encode route) expires_at (view_of_row buyer_projection))
  end.

(** ** Evidence *)

(** Buyer-safe spans of the product, in the order of their sources, at most 64. *)
Definition published_spans (route : ExchangeRoute) (published_span_ids : list string) (spans : list SpanRow)
  : list SpanRow :=
  take 64 (sorted_by (λ sp, (sp_source_version_id sp, sp_sequence sp))
    (List.filter (λ sp, (sp_organization_id sp ≟ er_seller_organization_id route) &&
        (sp_product_id sp ≟ er_product_id route) && py_in (sp_visibility sp) ["BUYER_SAFE"; "PUBLIC"] &&
        (bool_decide (published_span_ids = []) || py_in (sp_id sp) published_span_ids)) spans)).

Definition evidence_hash (spans : list SpanRow) : result string :=
  content_hash (VList ((λ sp, dict [("span_id", VStr (sp_id sp)); ("source_version_id", VStr (sp_source_version_id sp));
    ("content_hash", VStr (sp_content_hash sp))]) <$> sorted_by sp_id spans)).

(** Applying a command and publishing the buyer's projection. *)
Definition apply_and_publish (buyer command_organization_id : string) (exchange : CaseRow) (command : PartyCommand)
    (ids : FreshIds) : txs CompiledTransition :=
  compiled ← apply_command buyer exchange command command_organization_id (fi_transition ids);
  _ ← publish_projection buyer (ct_buyer_projection compiled) (fi_buyer_projection ids);
  mret compiled.

(** [return _projection(selected)] *)
Definition selected_view (party : ExchangeParty.t) (compiled : CompiledTransition) : ProjectionView :=
  view_of_projection (if party ≟ ExchangeParty.BUYER then ct_buyer_projection compiled
                      else ct_seller_projection compiled).

Definition publish_evidence (caller : Caller) (case_id route_capability idempotency_key : string)
    (expected_version : Z) (summary : string) (published_span_ids : list string) (spans : list SpanRow)
    (now later : datetime) (ids : FreshIds) : req ProjectionView :=
  '(route, party) ← pure (_decode_route caller case_id route_capability now);
  _ ← pure (raise_if (negb (party ≟ ExchangeParty.SELLER)) (ApiProblem "SELLER_IDENTITY_REQUIRED" 403));
  let buyer := er_buyer_organization_id route in
  let seller := er_seller_organization_id route in
  found ← in_transaction seller (mret (published_spans route published_span_ids spans));
  _ ← pure (raise_if (is_empty_list found || (negb (is_empty_list published_span_ids) &&
        negb (length found =? length (sorted_set published_span_ids))%nat))
        (ApiProblem "PUBLISHED_EVIDENCE_REQUIRED" 409));
  hash ← pure (evidence_hash found);
  command_id ← pure (_stable_id "command" [case_id; idempotency_key]);
  command ← pure (PartyCommand_check (mkPartyCommand command_id case_id ExchangeParty.SELLER (ca_actor_id caller)
    CommandType.PUBLISH_EVIDENCE expected_version idempotency_key
    (dict [("evidence_hash", VStr hash); ("summary", VStr summary);
           ("published_span_ids", vstrs published_span_ids)])));
  replayed ← _replayed_projection caller route ExchangeParty.SELLER command_id later;
  match replayed with
  | Some view => mret view
  | None =>
      _ ← in_transaction seller (append_command seller command);
      compiled ← rethrow _api_conflict (in_transaction buyer
        (exchange ← get_case buyer case_id; apply_and_publish buyer seller exchange command ids));
      _ ← _publish_compiled seller compiled ids;
      mret (view_of_projection (ct_seller_projection compiled))
  end.

(** ** Offers *)

(** [offer.model_dump(mode="json")] *)
Definition json_decimal (d : Decimal) : PyVal := VStr (dec_str d).
Definition offer_json (o : OfferVersion) : PyVal :=
  dict [("schema_version", VStr "offer.v1"); ("offer_id", VStr (ov_offer_id o)); ("case_id", VStr (ov_case_id o));
        ("version", VInt (ov_version o)); ("proposer", party_value (ov_proposer o));
        ("recipient", party_value (ov_recipient o)); ("predecessor_hash", vopt VStr (ov_predecessor_hash o));
        ("changed_terms", vstrs (ov_changed_terms o)); ("rationale", VStr (ov_rationale o));
        ("currency", VStr (ov_currency o));
        ("lines", VList ((λ l, dict [("item_id", VStr (ol_item_id l)); ("description", VStr (ol_description l));
            ("quantity", VInt (ol_quantity l)); ("unit_price", json_decimal (ol_unit_price l))]) <$> ov_lines o));
        ("total", json_decimal (ov_total o)); ("expires_at", VStr (json_time (ov_expires_at o)));
        ("requirement_hash", VStr (ov_requirement_hash o)); ("evidence_hash", VStr (ov_evidence_hash o));
        ("approval_status", VStr (OfferApprovalStatus.value (ov_approval_status o)));
        ("offer_hash", VStr (ov_offer_hash o))].

(** The terms a party proposes. *)
Record ProposedTerms := mkProposedTerms {
  pt_currency : string;
  pt_lines : list OfferLine;
  pt_total : Decimal;
  pt_rationale : string;
  pt_changed_terms : list string;
  pt_expires_at : datetime
}.

(** Which command an offer is, with its version and predecessor. *)
Definition offer_kind (state : ExchangeState.t) (party : ExchangeParty.t) (latest : option OfferRow)
  : result (CommandType.t * Z * option string) :=
  match state, party with
  | ExchangeState.EVIDENCE_RELEASED, ExchangeParty.BUYER => Ok (CommandType.PROPOSE_OFFER, 1, None)
  | ExchangeState.OFFERED, ExchangeParty.SELLER =>
      match latest with
      | None => Raise (PersistenceConflict "the current offer is unavailable")
      | Some l => Ok (CommandType.COUNTER_OFFER, ko_version l + 1, Some (ko_offer_hash l))
      end
  | _, _ => Raise (PersistenceConflict "this party cannot propose at the current stage")
  end.

Definition other_party (party : ExchangeParty.t) : ExchangeParty.t :=
  if party ≟ ExchangeParty.BUYER then ExchangeParty.SELLER else ExchangeParty.BUYER.

Definition propose_body (route : ExchangeRoute) (party : ExchangeParty.t) (actor_id case_id command_id idempotency_key : string)
    (expected_version : Z) (terms : ProposedTerms) (ids : FreshIds) : txs CompiledTransition :=
  let buyer := er_buyer_organization_id route in
  exchange ← get_case buyer case_id;
  let state := kc_coordinator_state exchange in
  latest ← read (latest_offer buyer case_id);
  '(command_type, offer_version, predecessor_hash) ← lift (offer_kind (cs_state state) party latest);
  offer_id ← lift (_stable_id "offer" [case_id]);
  offer ← lift (OfferVersion_check (mkOfferVersion offer_id case_id offer_version party (other_party party)
    predecessor_hash (pt_changed_terms terms) (pt_rationale terms) (pt_currency terms) (pt_lines terms)
    (pt_total terms) (pt_expires_at terms) (payload_text "envelope_hash" (cs_requirement state))
    (payload_text "evidence_hash" (cs_evidence state)) OfferApprovalStatus.PENDING ""));
  command ← lift (PartyCommand_check (mkPartyCommand command_id case_id party actor_id command_type expected_version
    idempotency_key (offer_json offer)));
  _ ← store_offer buyer offer;
  _ ← append_command buyer command;
  apply_and_publish buyer (_party_organization route party) exchange command ids.

(** The part of a request after its route was decoded: a replay, or the
    transaction of the buyer's tenant and the projection of the seller's. *)
Definition advance_case (caller : Caller) (route : ExchangeRoute) (party : ExchangeParty.t) (command_id : string)
    (later : datetime) (body : txs CompiledTransition) (ids : FreshIds) : req ProjectionView :=
  replayed ← _replayed_projection caller route party command_id later;
  match replayed with
  | Some view => mret view
  | None =>
      compiled ← rethrow _api_conflict (in_transaction (er_buyer_organization_id route) body);
      _ ← _publish_compiled (er_seller_organization_id route) compiled ids;
      mret (selected_view party compiled)
  end.

Definition propose_offer (caller : Caller) (case_id route_capability idempotency_key : string) (expected_version : Z)
    (terms : ProposedTerms) (now later : datetime) (ids : FreshIds) : req ProjectionView :=
  '(route, party) ← pure (_decode_route caller case_id route_capability now);
  command_id ← pure (_stable_id "command" [case_id; idempotency_key]);
  advance_case caller route party command_id later
    (propose_body route party (ca_actor_id caller) case_id command_id idempotency_key expected_version terms ids) ids.

Definition accept_body (route : ExchangeRoute) (party : ExchangeParty.t) (actor_id case_id command_id idempotency_key : string)
    (expected_version : Z) (offer_hash : string) (clock : datetime) (ids : FreshIds) : txs CompiledTransition :=
  let buyer := er_buyer_organization_id route in
  exchange ← get_case buyer case_id;
  let state := kc_coordinator_state exchange in
  latest ← read (latest_offer buyer case_id);
  match latest with
  | None => raise_tx (PersistenceConflict "the accepted offer is not current")
  | Some l =>
      _ ← conflict_when (negb (ko_offer_hash l ≟ offer_hash)) "the accepted offer is not current";
      offer ← lift (OfferVersion_check (ko_terms l));
      _ ← lift (assert_actionable offer party clock);
      let command_type := if cs_state state ≟ ExchangeState.OFFERED then CommandType.ACCEPT_OFFER
                          else CommandType.ACCEPT_COUNTER in
      command ← lift (PartyCommand_check (mkPartyCommand command_id case_id party actor_id command_type
        expected_version idempotency_key (dict [("offer_hash", VStr offer_hash)])));
      _ ← append_command buyer command;
      apply_and_publish buyer (_party_organization route party) exchange command ids
  end.

Definition accept_offer (caller : Caller) (case_id route_capability idempotency_key : string) (expected_version : Z)
    (offer_hash : string) (now later clock : datetime) (ids : FreshIds) : req ProjectionView :=
  '(route, party) ← pure (_decode_route caller case_id route_capability now);
  command_id ← pure (_stable_id "command" [case_id; idempotency_key]);
  advance_case caller route party command_id later
    (accept_body route party (ca_actor_id caller) case_id command_id idempotency_key expected_version offer_hash clock ids) ids.

(** ** Approval *)

Definition approve_body (organization_id buyer actor_id case_id command_id idempotency_key : string) (expected_version : Z)
    (offer_hash : string) (approval_expires_at now : datetime) (ids : FreshIds) : txs CompiledTransition :=
  exchange ← get_case buyer case_id;
  approval_id ← lift (_stable_id "offerapproval" [case_id; idempotency_key]);
  approval ← lift (OfferApproval_check (mkOfferApproval approval_id case_id offer_hash actor_id now approval_expires_at));
  _ ← BilateralRepo.approve_offer buyer approval now;
  approval_hash ← lift (content_hash (approval_json approval));
  command ← lift (PartyCommand_check (mkPartyCommand command_id case_id ExchangeParty.SYSTEM actor_id
    CommandType.APPROVE_HANDOFF expected_version idempotency_key
    (dict [("offer_hash", VStr offer_hash); ("approval_id", VStr approval_id); ("approval_hash", VStr approval_hash)])));
  _ ← append_command buyer command;
  apply_and_publish buyer organization_id exchange command ids.

Definition approve_exchange_offer (caller : Caller) (case_id route_capability idempotency_key : string)
    (expected_version : Z) (offer_hash : string) (approval_expires_at now clock later : datetime) (ids : FreshIds)
  : req ProjectionView :=
  '(route, party) ← pure (_decode_route caller case_id route_capability now);
  _ ← pure (raise_if (negb (party ≟ ExchangeParty.BUYER)) (ApiProblem "BUYER_APPROVAL_REQUIRED" 403));
  command_id ← pure (_stable_id "command" [case_id; idempotency_key]);
  advance_case caller route ExchangeParty.BUYER command_id later
    (approve_body (ca_organization_id caller) (er_buyer_organization_id route) (ca_actor_id caller) case_id command_id
       idempotency_key expected_version offer_hash approval_expires_at clock ids) ids.

(** ** Handoffs *)

(** [min(a, b)]: the second when it is earlier. *)
Definition dt_min (a b : datetime) : result datetime := lt ← dt_lt b a; Ok (if lt : bool then b else a).

Definition create_handoff_body (route : ExchangeRoute) (case_id : string) (expected_version : Z) (offer_hash : string)
    (now : datetime) : txs HandoffRow :=
  let buyer := er_buyer_organization_id route in
  exchange ← get_case buyer case_id;
  _ ← conflict_when (negb (kc_version exchange =? expected_version) ||
                     negb (kc_state exchange ≟ ExchangeState.APPROVED_FOR_HANDOFF))
        "exchange is not approved at the expected version";
  offer_record ← read (λ s, select_one (λ r, (ko_organization_id r ≟ buyer) && (ko_case_id r ≟ case_id) &&
                                             (ko_offer_hash r ≟ offer_hash)) (xs_offers s));
  approval_record ← read (λ s, select_one (λ r, (ka_organization_id r ≟ buyer) && (ka_case_id r ≟ case_id) &&
                                                (ka_offer_hash r ≟ offer_hash)) (xs_approvals s));
  match offer_record, approval_record with
  | Some offer, Some approval =>
      _ ← conflict_when (negb (ko_approval_status offer ≟ OfferApprovalStatus.APPROVED))
            "the exact offer has no current approval";
      let offer_expiry := assume_utc (ko_expires_at offer) in
      let approval_expiry := assume_utc (ka_expires_at approval) in
      first ← lift (dt_min (seconds_later now (15 * 60)) offer_expiry);
      expires_at ← lift (dt_min first approval_expiry);
      handoff_id ← lift (_stable_id "xhandoff" [case_id; offer_hash]);
      handoff ← lift (ExchangePaymentHandoff_check (mkExchangePaymentHandoff handoff_id case_id offer_hash
        (ka_approval_hash approval) (er_merchant_url route) (er_merchant_name route) (ov_total (ko_terms offer))
        (ov_currency (ko_terms offer)) ("SIRA-" ++ case_id) now expires_at ExchangeHandoffStatus.READY None ""));
      store_handoff buyer handoff
  | _, _ => raise_tx (PersistenceConflict "the exact offer has no current approval")
  end.

Definition create_handoff (caller : Caller) (case_id route_capability : string) (expected_version : Z)
    (offer_hash : string) (now clock : datetime) : req HandoffRow :=
  '(route, party) ← pure (_decode_route caller case_id route_capability now);
  _ ← pure (raise_if (negb (party ≟ ExchangeParty.BUYER)) (ApiProblem "BUYER_HANDOFF_REQUIRED" 403));
  rethrow _api_conflict (in_transaction (er_buyer_organization_id route)
    (create_handoff_body route case_id expected_version offer_hash clock)).

Definition open_exchange_handoff (caller : Caller) (case_id route_capability handoff_id handoff_hash : string)
    (now clock : datetime) : req HandoffRow :=
  '(route, party) ← pure (_decode_route caller case_id route_capability now);
  _ ← pure (raise_if (negb (party ≟ ExchangeParty.BUYER)) (ApiProblem "BUYER_HANDOFF_REQUIRED" 403));
  rethrow _api_conflict (in_transaction (er_buyer_organization_id route)
    (record ← open_handoff (er_buyer_organization_id route) handoff_id handoff_hash clock;
     _ ← conflict_when (negb (kh_case_id record ≟ case_id)) "handoff belongs to another exchange";
     mret record)).
End service.
