(* ===== verification/ExchangeSafety.v ===== *)
(** * What the exchange service guarantees

    Every transaction of the service is a sequence of operations of the
    repository, so the histories of [BilateralHistory] cover it, with any
    interleaving of requests.  On top of them, the offers of a case are shown
    to follow its coordinator, and a payment handoff to bind exactly the terms
    both parties agreed on. *)
From S2P Require Import PyDate.
From S2P Require Import Prelude PyText PyNumber PyTime Enums Money Hashing DomainModels Exchange Contracts Tables.
From S2P Require Import Database BilateralRepo BilateralHistory ExchangeService.

Local Open Scope string_scope.
Local Open Scope Z_scope.

#[local] Notation "a ≟ b" := (bool_decide (a = b)) (at level 70).

Section service_steps.
Context `{Rfc8785} `{RawJson} `{BracketedHosts} `{JsonTime} `{RouteCipher} `{IsoFormat}.

(** One committed transaction of some request.  The hash of an offer covers its
    case and version, so it is taken before the offer is stored only when two
    hashes collide: [collisions] says whether that may happen. *)
Inductive service_step (collisions : bool) (s s' : exchange_store) : Prop :=
| service_open_case org actor case_id seller key request briefs now ids x :
    open_case org actor case_id seller key request briefs now ids s = Ok (x, s') → service_step collisions s s'
| service_evidence buyer seller case_id c ids x :
    PartyCommand_check c = Ok c → pc_command_type c = CommandType.PUBLISH_EVIDENCE →
    (exchange ← get_case buyer case_id; apply_and_publish buyer seller exchange c ids) s = Ok (x, s') →
    service_step collisions s s'
| service_append org c x : PartyCommand_check c = Ok c → append_command org c s = Ok (x, s') → service_step collisions s s'
| service_project org p id x : publish_projection org p id s = Ok (x, s') → service_step collisions s s'
| service_propose route party actor case_id command_id key version terms ids x :
    propose_body route party actor case_id command_id key version terms ids s = Ok (x, s') →
    (collisions = false → xs_offers s' ≠ xs_offers s) → service_step collisions s s'
| service_accept route party actor case_id command_id key version hash clock ids x :
    accept_body route party actor case_id command_id key version hash clock ids s = Ok (x, s') → service_step collisions s s'
| service_approve org buyer actor case_id command_id key version hash expires now ids x :
    approve_body org buyer actor case_id command_id key version hash expires now ids s = Ok (x, s') →
    service_step collisions s s'
| service_handoff route case_id version hash now x :
    create_handoff_body route case_id version hash now s = Ok (x, s') → service_step collisions s s'
| service_open org handoff_id hash now x :
    open_handoff org handoff_id hash now s = Ok (x, s') → service_step collisions s s'.

Definition service_reachable (s : exchange_store) : Prop := rtc (service_step false) empty_store s.

(** ** Transactions are sequences of operations *)

Lemma checked_again c c' : PartyCommand_check c = Ok c' → PartyCommand_check c' = Ok c'.
Proof. intros E. pose proof (command_check_id _ _ E) as ->. done. Qed.

Lemma create_case_row org id seller r s s' :
  create_case org id seller s = Ok (r, s') → r ∈ xs_cases s' ∧ kc_organization_id r = org ∧ kc_id r = id.
Proof.
  unfold create_case. intros E. inv_repo.
  - match goal with Hs : select_one _ _ = Some _ |- _ => apply select_one_Some in Hs as [Hin Hi%bool_decide_eq_true] end.
    match goal with Hn : negb _ = false |- _ => apply negb_false_iff, bool_decide_eq_true in Hn end. done.
  - cbn. split; [|done]. rewrite elem_of_app. right. by apply list_elem_of_singleton.
Qed.

Lemma apply_steps org seller r c ids x s s' :
  PartyCommand_check c = Ok c → r ∈ xs_cases s → kc_organization_id r = org →
  apply_and_publish org seller r c ids s = Ok (x, s') → rtc exchange_step s s'.
Proof.
  intros Hc Hr Ho E. unfold apply_and_publish in E. inv_tx.
  eapply rtc_l; [by eapply step_apply|]. apply rtc_once. by eapply step_project.
Qed.

Lemma same_cases_in s s' r : same_cases s s' → r ∈ xs_cases s → r ∈ xs_cases s'.
Proof. by intros [-> _]. Qed.

Lemma offer_check_again o o' : OfferVersion_check o = Ok o' → OfferVersion_check o' = Ok o'.
Proof.
  intros E. pose proof (offer_check_wf _ _ E) as (Hwf & Hpay & _ & _ & Eo). rewrite Eo in Hwf, Hpay |- *. clear Eo.
  pose proof (ow_hash _ Hwf) as Hh. rewrite Hpay in Hh. cbn [ov_offer_hash with_offer] in Hh.
  unfold OfferVersion_check in E |- *.
  cbn [with_offer ov_offer_id ov_case_id ov_version ov_proposer ov_recipient ov_predecessor_hash ov_changed_terms
    ov_rationale ov_currency ov_lines ov_total ov_expires_at ov_requirement_hash ov_evidence_hash
    ov_approval_status ov_offer_hash].
  do 12 (apply bind_Ok in E as (? & -> & E); cbn [mbind result_bind]).
  assert (seal (offer_payload (with_offer o (ov_approval_status o) (ov_offer_hash o'))) (ov_offer_hash o')
    "offer_hash does not match the canonical offer" = Ok (ov_offer_hash o')) as ->; [|done].
  apply seal_Ok. split; [by rewrite Hpay|by right].
Qed.

Lemma approval_check_id a a' : OfferApproval_check a = Ok a' → a' = a.
Proof.
  unfold OfferApproval_check. intros E. do 5 apply bind_Ok in E as (? & _ & E). by injection E.
Qed.

Lemma release_of_brief_command id actor key brief expires source now m e c :
  release_of_brief id actor key brief expires source now = Ok (m, e, c) →
  PartyCommand_check c = Ok c ∧ pc_command_type c = CommandType.RELEASE_REQUIREMENT.
Proof.
  unfold release_of_brief. intros E. do 6 apply bind_Ok in E as (? & ? & E).
  apply bind_Ok in E as (c' & Hc & [= _ _ <-]). split; [by eapply checked_again|].
  by apply command_check_id in Hc as ->.
Qed.

(** ** The operations of each transaction *)

Lemma open_case_Ok org actor id seller key request briefs now ids x s s' :
  open_case org actor id seller key request briefs now ids s = Ok (x, s') →
  ∃ r s1, create_case org id seller s = Ok (r, s1) ∧
    (s' = s1 ∨ ∃ m mr e er c cr t pr s2 s3 s4 s5,
       PartyCommand_check c = Ok c ∧ pc_command_type c = CommandType.RELEASE_REQUIREMENT ∧
       store_release_manifest org m s1 = Ok (mr, s2) ∧ store_envelope org e s2 = Ok (er, s3) ∧
       append_command org c s3 = Ok (cr, s4) ∧ apply_command org r c org (fi_transition ids) s4 = Ok (t, s5) ∧
       publish_projection org (ct_buyer_projection t) (fi_buyer_projection ids) s5 = Ok (pr, s')).
Proof.
  unfold open_case. intros E. apply tx_bind_Ok in E as (r & s1 & Ec & E). exists r, s1. split; [done|].
  destruct (1 <? kc_version r).
  { left. apply tx_bind_Ok in E as (pr & s2 & Ep & E). unfold latest_projection in Ep. inv_repo; done. }
  right. apply tx_bind_Ok in E as ([[brief expires] source] & s2 & Eb & E). apply lift_Ok in Eb as [_ ->].
  apply tx_bind_Ok in E as ([[m e] c] & s2 & Eb & E). apply lift_Ok in Eb as [[Hc Ht]%release_of_brief_command ->].
  apply tx_bind_Ok in E as (mr & s2 & Em & E). apply tx_bind_Ok in E as (er & s3 & Ee & E).
  apply tx_bind_Ok in E as (cr & s4 & Ea & E). apply tx_bind_Ok in E as (t & s5 & Et & E).
  apply tx_bind_Ok in E as (pr & s6 & Ep & E). inv_tx. exists m, mr, e, er, c, cr, t, pr, s2, s3, s4, s5. done.
Qed.

Lemma propose_body_Ok route party actor id cid key version terms ids x s s' :
  propose_body route party actor id cid key version terms ids s = Ok (x, s') →
  let buyer := er_buyer_organization_id route in
  ∃ r ct v pred o c orow crow s1 s2,
    r ∈ xs_cases s ∧ kc_organization_id r = buyer ∧ kc_id r = id ∧
    offer_kind (cs_state (kc_coordinator_state r)) party (latest_offer buyer id s) = Ok (ct, v, pred) ∧
    OfferVersion_check o = Ok o ∧ ov_approval_status o = OfferApprovalStatus.PENDING ∧ ov_case_id o = id ∧
    ov_proposer o = party ∧ ov_version o = v ∧
    PartyCommand_check c = Ok c ∧ pc_command_type c = ct ∧ pc_payload c = offer_json o ∧
    store_offer buyer o s = Ok (orow, s1) ∧ append_command buyer c s1 = Ok (crow, s2) ∧
    apply_and_publish buyer (_party_organization route party) r c ids s2 = Ok (x, s').
Proof.
  intros E buyer. unfold propose_body in E. apply tx_bind_Ok in E as (r & s1 & Eg & E). apply get_case_Ok in Eg as (-> & Hr & Ho & Hi).
  apply tx_bind_Ok in E as (l & s1 & Er & E). apply read_Ok in Er as [-> ->].
  apply tx_bind_Ok in E as ([[ct v] pred] & s1 & Ek & E). apply lift_Ok in Ek as [Hk ->].
  apply tx_bind_Ok in E as (oid & s1 & Ek & E). apply lift_Ok in Ek as [_ ->].
  apply tx_bind_Ok in E as (o & s1 & Ek & E). apply lift_Ok in Ek as [Hck ->].
  apply tx_bind_Ok in E as (c & s1 & Ek & E). apply lift_Ok in Ek as [Hc ->].
  apply tx_bind_Ok in E as (orow & s1 & Eo & E). apply tx_bind_Ok in E as (crow & s2 & Ec & E).
  pose proof (offer_check_wf _ _ Hck) as (_ & _ & Hst & _ & Eo'). pose proof (command_check_id _ _ Hc) as Ec'.
  exists r, ct, v, pred, o, c, orow, crow, s1, s2. split_and!; try done.
  - by eapply offer_check_again.
  - by rewrite Eo'.
  - by rewrite Eo'.
  - by rewrite Eo'.
  - by eapply checked_again.
  - by rewrite Ec'.
  - by rewrite Ec'.
Qed.

Lemma accept_body_Ok route party actor id cid key version hash clock ids x s s' :
  accept_body route party actor id cid key version hash clock ids s = Ok (x, s') →
  let buyer := er_buyer_organization_id route in
  ∃ r c l o crow s1,
    r ∈ xs_cases s ∧ kc_organization_id r = buyer ∧ kc_id r = id ∧
    latest_offer buyer id s = Some l ∧ ko_offer_hash l = hash ∧ OfferVersion_check (ko_terms l) = Ok o ∧
    assert_actionable o party clock = Ok () ∧
    PartyCommand_check c = Ok c ∧ pc_command_type c ∈ [CommandType.ACCEPT_OFFER; CommandType.ACCEPT_COUNTER] ∧
    append_command buyer c s = Ok (crow, s1) ∧
    apply_and_publish buyer (_party_organization route party) r c ids s1 = Ok (x, s').
Proof.
  intros E buyer. unfold accept_body in E. apply tx_bind_Ok in E as (r & s1 & Eg & E). apply get_case_Ok in Eg as (-> & Hr & Ho & Hi).
  apply tx_bind_Ok in E as (l & s1 & Er & E). apply read_Ok in Er as [-> ->].
  destruct (latest_offer _ _ s) as [l|] eqn:El; [|done].
  apply tx_bind_Ok in E as (u & s1 & Ek & E). apply raise_when_Ok in Ek as [Hh%negb_false_iff%bool_decide_eq_true ->].
  apply tx_bind_Ok in E as (o & s1 & Ek & E). apply lift_Ok in Ek as [Hck ->].
  apply tx_bind_Ok in E as ([] & s1 & Ek & E). apply lift_Ok in Ek as [Hact ->].
  apply tx_bind_Ok in E as (c & s1 & Ek & E). apply lift_Ok in Ek as [Hc ->].
  apply tx_bind_Ok in E as (crow & s1 & Ec & E). pose proof (command_check_id _ _ Hc) as Ec'.
  exists r, c, l, o, crow, s1. split_and!; try done; [by eapply checked_again|].
  rewrite Ec'. cbn. case_bool_decide; [apply list_elem_of_here|apply list_elem_of_further, list_elem_of_here].
Qed.

Lemma approve_body_Ok org buyer actor id cid key version hash expires now ids x s s' :
  approve_body org buyer actor id cid key version hash expires now ids s = Ok (x, s') →
  ∃ r a c arow crow s1 s2,
    r ∈ xs_cases s ∧ kc_organization_id r = buyer ∧ kc_id r = id ∧ oa_case_id a = id ∧ oa_offer_hash a = hash ∧
    BilateralRepo.approve_offer buyer a now s = Ok (arow, s1) ∧
    PartyCommand_check c = Ok c ∧ pc_command_type c = CommandType.APPROVE_HANDOFF ∧
    append_command buyer c s1 = Ok (crow, s2) ∧ apply_and_publish buyer org r c ids s2 = Ok (x, s').
Proof.
  unfold approve_body. intros E. apply tx_bind_Ok in E as (r & s1 & Eg & E). apply get_case_Ok in Eg as (-> & Hr & Ho & Hi).
  apply tx_bind_Ok in E as (aid & s1 & Ek & E). apply lift_Ok in Ek as [_ ->].
  apply tx_bind_Ok in E as (a & s1 & Ek & E). apply lift_Ok in Ek as [Ha%approval_check_id ->].
  apply tx_bind_Ok in E as (arow & s1 & Ea & E).
  apply tx_bind_Ok in E as (h & s2 & Ek & E). apply lift_Ok in Ek as [_ ->].
  apply tx_bind_Ok in E as (c & s2 & Ek & E). apply lift_Ok in Ek as [Hc ->].
  apply tx_bind_Ok in E as (crow & s2 & Ec & E). pose proof (command_check_id _ _ Hc) as Ec'.
  exists r, a, c, arow, crow, s1, s2. split_and!; try done; [by rewrite Ha..| |by rewrite Ec'].
  by eapply checked_again.
Qed.

(** The handoff a transaction stores. *)
Definition handoff_draft (route : ExchangeRoute) (case_id offer_hash handoff_id : string) (offer : OfferRow)
    (approval : ApprovalRow) (now expires_at : datetime) : ExchangePaymentHandoff :=
  mkExchangePaymentHandoff handoff_id case_id offer_hash (ka_approval_hash approval) (er_merchant_url route)
    (er_merchant_name route) (ov_total (ko_terms offer)) (ov_currency (ko_terms offer)) ("SIRA-" ++ case_id) now
    expires_at ExchangeHandoffStatus.READY None "".

Lemma create_handoff_body_Ok route id version hash now x s s' :
  create_handoff_body route id version hash now s = Ok (x, s') →
  let buyer := er_buyer_organization_id route in
  ∃ r o a first expires hid h,
    r ∈ xs_cases s ∧ kc_organization_id r = buyer ∧ kc_id r = id ∧ kc_version r = version ∧
    kc_state r = ExchangeState.APPROVED_FOR_HANDOFF ∧
    o ∈ case_offers buyer id s ∧ ko_offer_hash o = hash ∧ ko_approval_status o = OfferApprovalStatus.APPROVED ∧
    a ∈ case_approvals buyer id s ∧ ka_offer_hash a = hash ∧
    dt_min (seconds_later now (15 * 60)) (assume_utc (ko_expires_at o)) = Ok first ∧
    dt_min first (assume_utc (ka_expires_at a)) = Ok expires ∧
    ExchangePaymentHandoff_check (handoff_draft route id hash hid o a now expires) = Ok h ∧
    store_handoff buyer h s = Ok (x, s').
Proof.
  intros E buyer. unfold create_handoff_body in E. apply tx_bind_Ok in E as (r & s1 & Eg & E).
  apply get_case_Ok in Eg as (-> & Hr & Ho & Hi).
  apply tx_bind_Ok in E as (u & s1 & Ek & E). apply raise_when_Ok in Ek as [[Hv Hs]%orb_false_iff ->].
  apply negb_false_iff in Hv, Hs. apply Z.eqb_eq in Hv. apply bool_decide_eq_true in Hs.
  apply tx_bind_Ok in E as (o & s1 & Er & E). apply read_Ok in Er as [-> ->].
  apply tx_bind_Ok in E as (a & s1 & Er & E). apply read_Ok in Er as [-> ->].
  destruct (select_one _ (xs_offers s)) as [o|] eqn:Eo; [|done].
  destruct (select_one _ (xs_approvals s)) as [a|] eqn:Ea; [|done].
  apply select_one_Some in Eo as [Hoin [How Hoh%bool_decide_eq_true]%andb_true_iff].
  apply select_one_Some in Ea as [Hain [Haw Hah%bool_decide_eq_true]%andb_true_iff].
  apply tx_bind_Ok in E as (u' & s1 & Ek & E). apply raise_when_Ok in Ek as [Hst%negb_false_iff%bool_decide_eq_true ->].
  apply tx_bind_Ok in E as (first & s1 & Ek & E). apply lift_Ok in Ek as [Hf ->].
  apply tx_bind_Ok in E as (expires & s1 & Ek & E). apply lift_Ok in Ek as [He ->].
  apply tx_bind_Ok in E as (hid & s1 & Ek & E). apply lift_Ok in Ek as [_ ->].
  apply tx_bind_Ok in E as (h & s1 & Ek & E). apply lift_Ok in Ek as [Hh ->].
  exists r, o, a, first, expires, hid, h. split_and!; try done; by apply elem_of_lfilter.
Qed.

Lemma step_operations collisions s s' : service_step collisions s s' → rtc exchange_step s s'.
Proof.
  intros [org actor id seller key request briefs now ids x E|buyer seller id c ids x Hc Ht E|org c x Hc E|org p id x E
    |route party actor id cid key version terms ids x E _|route party actor id cid key version hash clock ids x E
    |org buyer actor id cid key version hash expires now ids x E|route id version hash now x E|org id hash now x E].
  - apply open_case_Ok in E as (r & s1 & Ec & E). destruct (create_case_row _ _ _ _ _ _ Ec) as (Hr & Ho & _).
    eapply rtc_l; [by eapply step_create|].
    destruct E as [->|(m & mr & e & er & c & cr & t & pr & s2 & s3 & s4 & s5 & Hc & _ & Em & Ee & Ea & Et & Ep)]; [done|].
    eapply rtc_l; [by eapply step_manifest|]. eapply rtc_l; [by eapply step_envelope|].
    eapply rtc_l; [by eapply step_append|].
    apply store_release_manifest_frame in Em as [Em _]. apply store_envelope_frame in Ee as [Ee _].
    apply append_command_frame in Ea as [Ea _].
    assert (r ∈ xs_cases s4) as Hr4 by (do 3 (eapply same_cases_in; [eassumption|]); done).
    eapply rtc_l; [by eapply step_apply|]. apply rtc_once. by eapply step_project.
  - apply tx_bind_Ok in E as (r & s1 & Eg & E). apply get_case_Ok in Eg as (-> & Hr & Ho & _). by eapply apply_steps.
  - apply rtc_once. by eapply step_append.
  - apply rtc_once. by eapply step_project.
  - apply propose_body_Ok in E as (r & ct & v & pred & o & c & orow & crow & s1 & s2 & Hr & Ho & _ & _ & Hck & Hst & _ & _ & _ & Hc & _ & _ & Eo & Ec & E).
    eapply rtc_l; [by eapply step_offer|]. eapply rtc_l; [by eapply step_append|].
    apply store_offer_cases in Eo. apply append_command_frame in Ec as [Ec _].
    eapply apply_steps; [done| |done|done]. do 2 (eapply same_cases_in; [eassumption|]). done.
  - apply accept_body_Ok in E as (r & c & l & o & crow & s1 & Hr & Ho & _ & _ & _ & _ & _ & Hc & _ & Ec & E).
    eapply rtc_l; [by eapply step_append|]. apply append_command_frame in Ec as [Ec _].
    eapply apply_steps; [done| |done|done]. by eapply same_cases_in.
  - apply approve_body_Ok in E as (r & a & c & arow & crow & s1 & s2 & Hr & Ho & _ & _ & _ & Ea & Hc & _ & Ec & E).
    eapply rtc_l; [by eapply step_approve|]. eapply rtc_l; [by eapply step_append|].
    apply approve_offer_cases in Ea. apply append_command_frame in Ec as [Ec _].
    eapply apply_steps; [done| |done|done]. do 2 (eapply same_cases_in; [eassumption|]). done.
  - apply create_handoff_body_Ok in E as (r & o & a & first & expires' & hid & h & _ & _ & _ & _ & _ & _ & _ & _ & _ & _ & _ & _ & _ & E).
    apply rtc_once. by eapply step_handoff.
  - apply rtc_once. by eapply step_open.
Qed.

Lemma service_reachable_reachable s : service_reachable s → reachable s.
Proof.
  unfold service_reachable. revert s.
  match goal with |- ∀ p, rtc _ _ _ → @?P p => apply (rtc_ind_r P empty_store) end; [by constructor|].
  intros s s' _ Hst IH. unfold reachable in *. etrans; [exact IH|by eapply step_operations].
Qed.

(** ** The offers of a case follow its coordinator *)

(** [offers] is what a case whose coordinator is [st] has negotiated: nothing
    before the first offer, then the offer on the table, and it is approved
    when the coordinator says so. *)
Definition follows (st : CoordinatorState) (offers : list OfferRow) : Prop :=
  match cs_state st with
  | ExchangeState.CREATED | ExchangeState.REQUIREMENT_RELEASED | ExchangeState.EVIDENCE_RELEASED => offers = []
  | ExchangeState.OFFERED | ExchangeState.COUNTERED | ExchangeState.AGREED_PENDING_APPROVAL =>
      ∃ org earlier c, offers = offer_rows org earlier OfferApprovalStatus.PENDING c ∧
        cs_current_offer st = Some (offer_json c)
  | ExchangeState.APPROVED_FOR_HANDOFF =>
      ∃ org earlier c, offers = offer_rows org earlier OfferApprovalStatus.APPROVED c ∧
        cs_current_offer st = Some (offer_json c)
  | ExchangeState.REJECTED | ExchangeState.EXPIRED => False
  end.

Definition row_offers (r : CaseRow) (s : exchange_store) : list OfferRow :=
  case_offers (kc_organization_id r) (kc_id r) s.

Record aligned (s : exchange_store) : Prop := {
  al_case r : r ∈ xs_cases s → follows (kc_coordinator_state r) (row_offers r s);
  al_known o : o ∈ xs_offers s →
    ∃ r, r ∈ xs_cases s ∧ kc_id r = ko_case_id o ∧ kc_organization_id r = ko_organization_id o
}.

Lemma aligned_frame s s' : same_cases s s' → same_offers s s' → aligned s → aligned s'.
Proof.
  intros [Ec _] [Eo _] [Ha Hk]. split.
  - intros r Hr. rewrite Ec in Hr. unfold row_offers, case_offers. rewrite Eo. by apply Ha.
  - intros o Ho. rewrite Eo in Ho. rewrite Ec. by apply Hk.
Qed.

Lemma case_unique s x y : reachable s → x ∈ xs_cases s → y ∈ xs_cases s → kc_id x = kc_id y → x = y.
Proof.
  intros (L & _ & HL)%reachable_refines Hx Hy E.
  destruct (represents_row _ _ _ HL Hx) as (g & h & Hg & _ & Rx & _).
  destruct (represents_row _ _ _ HL Hy) as (g' & h' & Hg' & _ & Ry & _). rewrite E, Ry in Rx. by injection Rx.
Qed.

(** Opening a case without offers. *)
Lemma aligned_create org id seller r s s' :
  create_case org id seller s = Ok (r, s') → aligned s → aligned s'.
Proof.
  intros E [Ha Hk]. unfold create_case in E. inv_repo; [done|].
  match goal with Hs : select_one _ _ = None |- _ => rename Hs into Hnone end. rewrite select_one_None in Hnone.
  split.
  - intros x. cbn. rewrite elem_of_app. intros [Hx| ->%list_elem_of_singleton]; [by apply Ha|].
    unfold row_offers, case_offers. cbn. destruct (List.filter _ (xs_offers s)) as [|o l] eqn:El; [done|]. exfalso.
    assert (o ∈ o :: l) as Ho by apply list_elem_of_here. rewrite <- El in Ho. apply elem_of_lfilter in Ho as [Ho Hw].
    apply andb_true_iff in Hw as [_ Hi%bool_decide_eq_true]. destruct (Hk o Ho) as (y & Hy & Ey & _).
    apply Hnone in Hy. rewrite Ey, Hi, bool_decide_eq_true_2 in Hy by done. done.
  - intros o Ho. destruct (Hk o Ho) as (y & Hy & ?). exists y. cbn. rewrite elem_of_app. by split; [left|].
Qed.

(** Advancing one case: the others and their offers stay. *)
Lemma aligned_advance org seller r c ids x s s' :
  reachable s → r ∈ xs_cases s → kc_organization_id r = org →
  apply_and_publish org seller r c ids s = Ok (x, s') →
  (∀ y, y ∈ xs_cases s → kc_id y ≠ kc_id r → follows (kc_coordinator_state y) (row_offers y s)) →
  (∀ o, o ∈ xs_offers s →
     ∃ r, r ∈ xs_cases s ∧ kc_id r = ko_case_id o ∧ kc_organization_id r = ko_organization_id o) →
  (∀ target, target_of (cs_state (kc_coordinator_state r)) (pc_command_type c) = Some target →
     follows (changes (kc_coordinator_state r) c target) (row_offers r s)) →
  aligned s'.
Proof.
  intros Hs Hr Ho E Hoth Hk Hfol. unfold apply_and_publish in E.
  apply tx_bind_Ok in E as (t & s1 & Et & E). apply tx_bind_Ok in E as (pr & s2 & Ep & E). inv_tx.
  apply publish_projection_frame in Ep as [Ec Eof]. apply (aligned_frame _ _ Ec Eof). clear Ec Eof s2.
  pose proof (apply_offers _ _ _ _ _ _ _ _ Et) as [Eo _].
  apply apply_command_Ok in Et as (_ & Hcomp & h & th & _ & Ecases & _).
  apply compile_Ok in Hcomp as (_ & _ & _ & (target & Htar & En) & _).
  split.
  - intros y. rewrite Ecases. intros (z & Hz & ->)%elem_of_update_rows. unfold row_offers, case_offers. rewrite Eo.
    case_bool_decide as Heq.
    + pose proof (case_unique _ _ _ Hs Hz Hr Heq) as ->. cbn. rewrite En. by apply Hfol.
    + by apply Hoth.
  - intros o. rewrite Eo, Ecases. intros (z & Hz & Ei & Eorg)%Hk.
    eexists. split; [apply elem_of_update_rows; eexists; split; [exact Hz|reflexivity]|]. by case_bool_decide.
Qed.

Lemma follows_app_inj org org' earlier earlier' st st' c c' :
  offer_rows org earlier st c = offer_rows org' earlier' st' c' → c = c' ∧ st = st'.
Proof.
  unfold offer_rows. intros [_ E]%app_inj_tail. split; [by apply (f_equal ko_terms) in E|by injection E].
Qed.

Lemma same_cases_trans s1 s2 s3 : same_cases s1 s2 → same_cases s2 s3 → same_cases s1 s3.
Proof. intros [E1 E2] [E3 E4]. split; congruence. Qed.
Lemma same_offers_trans s1 s2 s3 : same_offers s1 s2 → same_offers s2 s3 → same_offers s1 s3.
Proof. intros [E1 E2] [E3 E4]. split; congruence. Qed.

(** Before a command is applied nothing else changed: the case advances and
    its offers stay what they are. *)
Lemma aligned_apply org seller r c ids x s s' :
  reachable s → aligned s → r ∈ xs_cases s → kc_organization_id r = org →
  apply_and_publish org seller r c ids s = Ok (x, s') →
  (∀ target, target_of (cs_state (kc_coordinator_state r)) (pc_command_type c) = Some target →
     follows (kc_coordinator_state r) (row_offers r s) →
     follows (changes (kc_coordinator_state r) c target) (row_offers r s)) →
  aligned s'.
Proof.
  intros Hs [Ha Hk] Hr Ho E Hfol. apply (aligned_advance org seller r c ids x s s'); try done.
  - intros y Hy _. by apply Ha.
  - intros target Ht. apply Hfol; [done|]. by apply Ha.
Qed.

(** What the commands without offers do. *)
Lemma follows_release st c target offers :
  pc_command_type c ∈ [CommandType.RELEASE_REQUIREMENT; CommandType.PUBLISH_EVIDENCE] →
  target_of (cs_state st) (pc_command_type c) = Some target → follows st offers → follows (changes st c target) offers.
Proof.
  intros Hc%py_in_true Ht. unfold follows, changes. cbn [cs_state cs_current_offer].
  destruct (cs_state st), (pc_command_type c); try discriminate Hc; cbn in Ht; try discriminate Ht; by injection Ht as <-.
Qed.

Lemma follows_accept st c target offers :
  pc_command_type c ∈ [CommandType.ACCEPT_OFFER; CommandType.ACCEPT_COUNTER] →
  target_of (cs_state st) (pc_command_type c) = Some target → follows st offers → follows (changes st c target) offers.
Proof.
  intros Hc%py_in_true Ht. unfold follows, changes. cbn [cs_state cs_current_offer].
  destruct (cs_state st), (pc_command_type c); try discriminate Hc; cbn in Ht; try discriminate Ht; by injection Ht as <-.
Qed.

Lemma follows_approve st c target :
  pc_command_type c = CommandType.APPROVE_HANDOFF →
  target_of (cs_state st) (pc_command_type c) = Some target →
  cs_state st = ExchangeState.AGREED_PENDING_APPROVAL ∧ target = ExchangeState.APPROVED_FOR_HANDOFF.
Proof. intros ->. destruct (cs_state st); cbn; intros Ht; try discriminate Ht; by injection Ht as <-. Qed.

Lemma follows_propose st c party latest ct v pred target org earlier o :
  offer_kind (cs_state st) party latest = Ok (ct, v, pred) → pc_command_type c = ct → pc_payload c = offer_json o →
  target_of (cs_state st) (pc_command_type c) = Some target →
  follows (changes st c target) (offer_rows org earlier OfferApprovalStatus.PENDING o).
Proof.
  intros Hk Hc Hp Ht. unfold follows, changes. cbn [cs_state cs_current_offer]. rewrite Hc in Ht |- *.
  unfold offer_kind in Hk.
  destruct (cs_state st), party; try discriminate Hk.
  - injection Hk as <- _ _. cbn in Ht |- *. injection Ht as <-. rewrite Hp. eauto.
  - destruct latest; [|done]. injection Hk as <- _ _. cbn in Ht |- *. injection Ht as <-. rewrite Hp. eauto.
Qed.

Lemma apply_and_publish_offers org seller r c ids x s s' :
  apply_and_publish org seller r c ids s = Ok (x, s') → same_offers s s'.
Proof.
  unfold apply_and_publish. intros E. apply tx_bind_Ok in E as (t & s3 & Et & E).
  apply tx_bind_Ok in E as (pr & s4 & Ep & E). inv_tx.
  eapply same_offers_trans; [by eapply apply_offers|]. by apply publish_projection_frame in Ep as [_ ?].
Qed.

(** Offers of other cases, and whom the offers belong to. *)
Lemma aligned_others s s' org case_id :
  aligned s → same_cases s s' →
  (∀ o i, o ≠ org ∨ i ≠ case_id → case_offers o i s' = case_offers o i s) →
  ∀ y, y ∈ xs_cases s' → kc_id y ≠ case_id → follows (kc_coordinator_state y) (row_offers y s').
Proof.
  intros [Ha _] [Ec _] Hoth y Hy Hne. rewrite Ec in Hy. unfold row_offers. rewrite Hoth by (by right). by apply Ha.
Qed.

Lemma open_case_aligned org actor id seller key request briefs now ids x s s' :
  reachable s → aligned s → open_case org actor id seller key request briefs now ids s = Ok (x, s') → aligned s'.
Proof.
  intros Hs Hal E.
  apply open_case_Ok in E as (r & s1 & Ec & E). destruct (create_case_row _ _ _ _ _ _ Ec) as (Hr & Ho & _).
  pose proof (aligned_create _ _ _ _ _ _ Ec Hal) as Hal1.
  assert (reachable s1) as Hs1 by (unfold reachable in *; eapply rtc_r; [exact Hs|by eapply step_create]).
  destruct E as [->|(m & mr & e & er & c & cr & t & pr & s2 & s3 & s4 & s5 & Hc & Hct & Em & Ee & Ea & Et & Ep)]; [done|].
  assert (reachable s4) as Hs4.
  { unfold reachable in *. do 3 (eapply rtc_r; [|first [by eapply step_append|by eapply step_envelope|by eapply step_manifest]]). done. }
  apply store_release_manifest_frame in Em as [Em Em']. apply store_envelope_frame in Ee as [Ee Ee'].
  apply append_command_frame in Ea as [Ea Ea'].
  assert (same_cases s1 s4) as Hc14 by (by eapply same_cases_trans, same_cases_trans).
  assert (same_offers s1 s4) as Ho14 by (by eapply same_offers_trans, same_offers_trans).
  pose proof (aligned_frame _ _ Hc14 Ho14 Hal1) as Hal4.
  apply (aligned_apply org org r c ids t s4); try done; [by eapply same_cases_in| |].
  - unfold apply_and_publish. apply tx_bind_Ok. exists t, s5. split; [done|]. apply tx_bind_Ok. exists pr, s'. done.
  - intros target Htar. apply follows_release; [rewrite Hct; apply list_elem_of_here|done].
Qed.

Lemma propose_aligned route party actor id cid key version terms ids x s s' :
  reachable s → aligned s →
  propose_body route party actor id cid key version terms ids s = Ok (x, s') → xs_offers s' ≠ xs_offers s →
  aligned s'.
Proof.
  intros Hs Hal E Hfresh. pose proof (reachable_negotiations _ Hs) as Hneg.
  apply propose_body_Ok in E as (r & ct & v & pred & o & c & orow & crow & s1 & s2 & Hr & Ho & Hi & Hk & Hck & Hst & Hoc & _ & _ & Hc & Hct & Hpay & Eo & Ec & E).
  assert (reachable s2) as Hs2.
  { unfold reachable in *. eapply rtc_r; [|by eapply step_append]. eapply rtc_r; [exact Hs|]. by eapply step_offer. }
  pose proof (append_command_frame _ _ _ _ _ Ec) as [Fc Fo].
  pose proof (store_offer_cases _ _ _ _ _ Eo) as Fc1.
  assert (same_cases s s2) as Hsc by by eapply same_cases_trans.
  destruct (store_offer_rows _ _ _ _ _ Hck Hst Hneg Eo) as [->|([earlier Erows] & Hother & Hknown)].
  { exfalso. apply Hfresh. apply apply_and_publish_offers in E as [-> _]. by destruct Fo as [-> _]. }
  assert (same_offers s1 s2) as [Eo2 _] by done.
  rewrite Hoc, <- Hi in Erows, Hother, Hknown. rewrite <- Hi in Hk.
  eapply (aligned_advance _ _ r c ids x s2); [done|by eapply same_cases_in|done|done| | |].
  - apply (aligned_others s s2 (er_buyer_organization_id route) (kc_id r) Hal Hsc).
    intros o' i Hne. rewrite <- Hother by done. unfold case_offers. by rewrite Eo2.
  - intros y. rewrite Eo2. destruct Hsc as [-> _]. intros [[Ey1 Ey2]|(z & Hz & Ez1 & Ez2)]%Hknown; [exists r; split_and!; congruence|].
    destruct (al_known _ Hal z Hz) as (w & Hw & E1 & E2). exists w. split_and!; congruence.
  - intros target Htar. unfold row_offers. rewrite Ho. unfold case_offers. rewrite Eo2.
    fold (case_offers (er_buyer_organization_id route) (kc_id r) s1). rewrite Erows. by eapply follows_propose.
Qed.

(** An offer is approved for a case whose parties have agreed on it. *)
Lemma approve_agreed org r c ids seller x s s' :
  pc_command_type c = CommandType.APPROVE_HANDOFF → apply_and_publish org seller r c ids s = Ok (x, s') →
  cs_state (kc_coordinator_state r) = ExchangeState.AGREED_PENDING_APPROVAL.
Proof.
  intros Hct E. unfold apply_and_publish in E. apply tx_bind_Ok in E as (t & s3 & Et & _).
  apply apply_command_Ok in Et as (_ & Hcomp & _). apply compile_Ok in Hcomp as (_ & _ & _ & (target & Htar & _) & _).
  by apply follows_approve in Htar as [? _].
Qed.

Lemma follows_agreed r s :
  cs_state (kc_coordinator_state r) = ExchangeState.AGREED_PENDING_APPROVAL →
  follows (kc_coordinator_state r) (row_offers r s) →
  ∃ earlier c, case_offers (kc_organization_id r) (kc_id r) s =
      offer_rows (kc_organization_id r) earlier OfferApprovalStatus.PENDING c ∧
    cs_current_offer (kc_coordinator_state r) = Some (offer_json c).
Proof.
  intros Hst Hfol. unfold follows in Hfol. rewrite Hst in Hfol. destruct Hfol as (org & earlier & c & E & Ec).
  assert (org = kc_organization_id r) as ->; [|by exists earlier, c].
  assert (offer_row org OfferApprovalStatus.PENDING c ∈ row_offers r s) as Hin
    by (rewrite E; unfold offer_rows; rewrite elem_of_app; right; by apply list_elem_of_singleton).
  by apply elem_of_lfilter in Hin as [_ [Hin%bool_decide_eq_true _]%andb_true_iff].
Qed.

Lemma approve_aligned org buyer actor id cid key version hash expires now ids x s s' :
  reachable s → aligned s →
  approve_body org buyer actor id cid key version hash expires now ids s = Ok (x, s') → aligned s'.
Proof.
  intros Hs Hal E. pose proof (reachable_negotiations _ Hs) as Hneg.
  apply approve_body_Ok in E as (r & a & c & arow & crow & s1 & s2 & Hr & Ho & Hi & Hai & _ & Ea & Hc & Hct & Ec & E).
  assert (reachable s2) as Hs2.
  { unfold reachable in *. eapply rtc_r; [|by eapply step_append]. eapply rtc_r; [exact Hs|]. by eapply step_approve. }
  pose proof (append_command_frame _ _ _ _ _ Ec) as [Fc Fo]. pose proof (approve_offer_cases _ _ _ _ _ _ Ea) as Fc1.
  assert (same_cases s s2) as Hsc by by eapply same_cases_trans. assert (same_offers s1 s2) as [Eo2 _] by done.
  pose proof (al_case _ Hal r Hr) as Hfol.
  destruct (follows_agreed r s (approve_agreed _ _ _ _ _ _ _ _ Hct E) Hfol) as (earlier & cur & Erows & Ecur).
  rewrite Ho in Erows.
  assert (oa_case_id a = kc_id r) as Eid by congruence. rewrite <- Eid in Erows.
  destruct (approve_offer_rows _ _ _ _ _ _ _ _ Hneg Ea Erows) as (Erows1 & Hother & Hknown). rewrite Eid in Erows1, Hother.
  eapply (aligned_advance _ _ r c ids x s2); [done|by eapply same_cases_in|done|done| | |].
  - apply (aligned_others s s2 buyer (kc_id r) Hal Hsc).
    intros o' i Hne. rewrite <- Hother by done. unfold case_offers. by rewrite Eo2.
  - intros y. rewrite Eo2. destruct Hsc as [-> _]. intros (z & Hz & Ez1 & Ez2)%Hknown.
    destruct (al_known _ Hal z Hz) as (w & Hw & E1 & E2). exists w. split_and!; congruence.
  - intros target Htar. apply follows_approve in Htar as [_ ->]; [|done]. unfold row_offers. rewrite Ho.
    unfold case_offers. rewrite Eo2. fold (case_offers buyer (kc_id r) s1). rewrite Erows1.
    unfold follows, changes. cbn [cs_state cs_current_offer]. rewrite Hct. cbn. eauto.
Qed.

Lemma step_aligned s s' : reachable s → service_step false s s' → aligned s → aligned s'.
Proof.
  intros Hs Hstep Hal.
  destruct Hstep as [org actor id seller key request briefs now ids x E|buyer seller id c ids x Hc Ht E|org c x Hc E
    |org p id x E|route party actor id cid key version terms ids x E Hfresh|route party actor id cid key version hash clock ids x E
    |org buyer actor id cid key version hash expires now ids x E|route id version hash now x E|org id hash now x E].
  - by eapply open_case_aligned.
  - apply tx_bind_Ok in E as (r & s1 & Eg & E). apply get_case_Ok in Eg as (-> & Hr & Ho & _).
    eapply aligned_apply; try done. intros target Htar. apply follows_release; [|done].
    rewrite Ht. apply list_elem_of_further, list_elem_of_here.
  - apply append_command_frame in E as [? ?]. by eapply aligned_frame.
  - apply publish_projection_frame in E as [? ?]. by eapply aligned_frame.
  - eapply propose_aligned; [done..|by apply Hfresh].
  - apply accept_body_Ok in E as (r & c & l & o & crow & s1 & Hr & Ho & _ & _ & _ & _ & _ & Hc & Hct & Ec & E).
    assert (reachable s1) as Hs1 by (unfold reachable in *; eapply rtc_r; [exact Hs|by eapply step_append]).
    apply append_command_frame in Ec as [Fc Fo].
    eapply (aligned_apply _ _ r c ids x s1); try done; [by eapply aligned_frame|by eapply same_cases_in|].
    intros target Htar. by apply follows_accept.
  - by eapply approve_aligned.
  - apply create_handoff_body_Ok in E as (r & o & a & first & expires' & hid & h & _ & _ & _ & _ & _ & _ & _ & _ & _ & _ & _ & _ & _ & E).
    apply store_handoff_frame in E as [? ?]. by eapply aligned_frame.
  - apply open_handoff_frame in E as [? ?]. by eapply aligned_frame.
Qed.
Lemma service_aligned s : service_reachable s → aligned s.
Proof.
  intros Hs. cut (reachable s ∧ aligned s); [by intros [_ ?]|]. revert s Hs. unfold service_reachable.
  match goal with |- ∀ p, rtc _ _ _ → @?P p => apply (rtc_ind_r P empty_store) end.
  - split; [by constructor|]. split; intros x Hx; by apply not_elem_of_nil in Hx.
  - intros s s' _ Hst [Hr Ha]. split; [|by eapply step_aligned].
    unfold reachable in *. etrans; [exact Hr|by eapply step_operations].
Qed.

(** ** Requests *)

(** Every request that changes the exchange. *)
Inductive exchange_request (config : ServiceConfig) : ∀ {A : Type}, req A → Prop :=
| request_create caller key request candidate briefs now ids :
    exchange_request config (create_exchange_case config caller key request candidate briefs now ids)
| request_view caller case_id route now : exchange_request config (view_case config caller case_id route now)
| request_evidence caller case_id route key version summary span_ids spans now later ids :
    exchange_request config (publish_evidence config caller case_id route key version summary span_ids spans now later ids)
| request_propose caller case_id route key version terms now later ids :
    exchange_request config (propose_offer config caller case_id route key version terms now later ids)
| request_accept caller case_id route key version hash now later clock ids :
    exchange_request config (accept_offer config caller case_id route key version hash now later clock ids)
| request_approve caller case_id route key version hash expires now clock later ids :
    exchange_request config (approve_exchange_offer config caller case_id route key version hash expires now clock later ids)
| request_handoff caller case_id route version hash now clock :
    exchange_request config (create_handoff config caller case_id route version hash now clock)
| request_open caller case_id route handoff_id hash now clock :
    exchange_request config (open_exchange_handoff config caller case_id route handoff_id hash now clock).

Lemma step_reachable s s' : service_step true s s' → reachable s → reachable s'.
Proof. intros Hst Hs. unfold reachable in *. etrans; [exact Hs|by eapply step_operations]. Qed.

Lemma transaction_reachable {A} org (body : txs A) :
  (∀ s a s', body s = Ok (a, s') → service_step true s s' ∨ s' = s) → keeps reachable (in_transaction org body).
Proof.
  intros Hb. split; [|done]. intros s a s' Hs E. destruct (Hb s a s' E) as [Hst| ->]; [|done]. by eapply step_reachable.
Qed.

Lemma view_reachable config caller case_id route now : keeps reachable (view_case config caller case_id route now).
Proof.
  apply keeps_bind; [done|]. intros [r p]. apply keeps_bind; [|done]. apply transaction_reachable. intros s a s' E. right.
  unfold latest_projection in E. inv_repo; done.
Qed.

Lemma replayed_reachable config caller route party cid now :
  keeps reachable (_replayed_projection config caller route party cid now).
Proof.
  apply keeps_bind; [|].
  - apply transaction_reachable. intros s a s' E. right. by inv_tx.
  - intros [|]; [|done]. apply keeps_bind; [apply view_reachable|done].
Qed.

Lemma publish_reachable org t ids : keeps reachable (_publish_compiled org t ids).
Proof.
  apply keeps_bind; [|done]. apply transaction_reachable. intros s a s' E. left. by eapply service_project.
Qed.

Lemma advance_reachable config caller route party cid later (body : txs CompiledTransition) ids :
  (∀ s a s', body s = Ok (a, s') → service_step true s s' ∨ s' = s) →
  keeps reachable (advance_case config caller route party cid later body ids).
Proof.
  intros Hb. apply keeps_bind; [apply replayed_reachable|]. intros [v|]; [done|].
  apply keeps_bind; [apply keeps_rethrow; by apply transaction_reachable|]. intros t.
  apply keeps_bind; [apply publish_reachable|done].
Qed.

Lemma request_reachable config {A} (m : req A) : exchange_request config m → keeps reachable m.
Proof.
  intros [caller key request candidate briefs now ids|caller case_id route now
    |caller case_id route key version summary span_ids spans now later ids|caller case_id route key version terms now later ids
    |caller case_id route key version hash now later clock ids|caller case_id route key version hash expires now clock later ids
    |caller case_id route version hash now clock|caller case_id route handoff_id hash now clock].
  - apply keeps_bind; [done|]. intros _. destruct (mbind _ _) as [binding|]; [|done].
    apply keeps_bind; [done|]. intros _. apply keeps_bind; [done|]. intros case_id. apply keeps_bind.
    { apply transaction_reachable. intros s a s' E. left. by eapply service_open_case. }
    intros [[pr expires] compiled]. apply keeps_bind; [destruct compiled; [apply publish_reachable|done]|]. intros _.
    apply keeps_bind; [done|]. done.
  - apply view_reachable.
  - apply keeps_bind; [done|]. intros [r p]. apply keeps_bind; [done|]. intros _. apply keeps_bind.
    { apply transaction_reachable. intros s a s' E. right. by inv_tx. }
    intros found. do 3 (apply keeps_bind; [done|]; intros ?). 
    destruct (PartyCommand_check _) as [c|] eqn:Ec; [|done]. cbn [pure mbind prog_bind].
    apply keeps_bind; [apply replayed_reachable|]. intros [v|]; [done|].
    pose proof (command_check_id _ _ Ec) as Ec'.
    apply keeps_bind; [apply transaction_reachable; intros s' a' s'' E; left; eapply service_append; [by eapply checked_again|done]|].
    intros _. apply keeps_bind.
    { apply keeps_rethrow, transaction_reachable. intros s a' s' E. left. eapply service_evidence; [by eapply checked_again| |done].
      by rewrite Ec'. }
    intros t. apply keeps_bind; [apply publish_reachable|done].
  - apply keeps_bind; [done|]. intros [r p]. apply keeps_bind; [done|]. intros cid. apply advance_reachable.
    intros s a s' E. left. by eapply service_propose.
  - apply keeps_bind; [done|]. intros [r p]. apply keeps_bind; [done|]. intros cid. apply advance_reachable.
    intros s a s' E. left. by eapply service_accept.
  - apply keeps_bind; [done|]. intros [r p]. apply keeps_bind; [done|]. intros _. apply keeps_bind; [done|]. intros cid.
    apply advance_reachable. intros s a s' E. left. by eapply service_approve.
  - apply keeps_bind; [done|]. intros [r p]. apply keeps_bind; [done|]. intros _.
    apply keeps_rethrow, transaction_reachable. intros s a s' E. left. by eapply service_handoff.
  - apply keeps_bind; [done|]. intros [r p]. apply keeps_bind; [done|]. intros _.
    apply keeps_rethrow, transaction_reachable. intros s a s' E. left.
    apply tx_bind_Ok in E as (x & s1 & E1 & E). inv_repo. by eapply service_open.
Qed.

(** C3: requests make histories, however they interleave.  Run any request of
    the service while other requests commit between its transactions: whether
    it succeeds or fails half way, the store is one that operations of the
    repository lead to, so the ledger and the negotiations hold of it. *)
Theorem requests_keep_history (config : ServiceConfig) {A : Type} (m : req A) (s s' : exchange_store) (r : result A) :
  exchange_request config m → runs (service_step true) m s r s' → reachable s →
  reachable s' ∧ (∃ L, rtc ledger_step ∅ L ∧ represents s' L) ∧ negotiations s'.
Proof.
  intros Hm Hr Hs. assert (reachable s') as Hs'.
  { apply (runs_keeps (service_step true) reachable m s r s'); [|by eapply request_reachable|done..].
    intros x y Hst Hx. by eapply step_reachable. }
  split_and!; [done|by apply reachable_refines|by apply reachable_negotiations].
Qed.

(** ** Payment handoffs *)

Lemma dt_min_le a b m : dt_min a b = Ok m → instant m <= instant a ∧ instant m <= instant b.
Proof.
  unfold dt_min, dt_lt, dt_compare. intros (lt & E & [= <-])%bind_Ok. destruct (Bool.eqb _ _); [|done].
  cbn in E. injection E as <-. destruct (Z.compare_spec (instant b) (instant a)); lia.
Qed.

Lemma seconds_later_instant d n : instant (seconds_later d n) = instant d + n * 1000000.
Proof. unfold instant, seconds_later. cbn. lia. Qed.

(** What the construction of a handoff checks and keeps. *)
Lemma exchange_handoff_check_Ok h h' :
  ExchangePaymentHandoff_check h = Ok h' →
  h' = with_exchange_handoff h (xh_status h) (xh_opened_at h) (xh_handoff_hash h') ∧
  content_hash (exchange_handoff_payload h) = Ok (xh_handoff_hash h') ∧
  (is_aware (xh_created_at h) = true → is_aware (xh_expires_at h) = true → instant (xh_created_at h) < instant (xh_expires_at h)) ∧
  is_aware (xh_created_at h) = true ∧ is_aware (xh_expires_at h) = true.
Proof.
  unfold ExchangePaymentHandoff_check, _require_aware, value_error_when. intros E.
  do 3 apply bind_Ok in E as (? & _ & E).
  apply bind_Ok in E as (? & Hc%raise_if_Ok%negb_false_iff & E). apply bind_Ok in E as (? & He%raise_if_Ok%negb_false_iff & E).
  apply bind_Ok in E as (late & El & E). apply bind_Ok in E as (? & ->%raise_if_Ok & E).
  do 3 apply bind_Ok in E as (? & _ & E). apply bind_Ok in E as (hash & [Hh _]%seal_Ok & [= <-]).
  rewrite dt_le_aware in El by done. injection El as El. split_and!; [done|done|lia|done|done].
Qed.

(** The terms of a handoff: those of an offer that both parties of the case
    agreed on, in the coordinator's record of their commands. *)
Record agreed_terms (case_id hash : string) (c : OfferVersion) : Prop := {
  at_offer : OfferVersion_check c = Ok c ∧ ov_case_id c = case_id ∧ ov_offer_hash c = hash;
  at_agreed : ∃ l st p a, exchange_run (new_case case_id) l st ∧ agreed p a st ∧
    p ∈ l ∧ a ∈ l ∧ pc_payload p = offer_json c
}.

Lemma approved_rows s org case_id o :
  o ∈ case_offers org case_id s → ko_approval_status o = OfferApprovalStatus.APPROVED →
  negotiations s →
  ∃ earlier a, case_offers org case_id s = offer_rows org earlier OfferApprovalStatus.APPROVED (ko_terms o) ∧
    o = offer_row org OfferApprovalStatus.APPROVED (ko_terms o) ∧
    OfferVersion_check (ko_terms o) = Ok (ko_terms o) ∧ ov_case_id (ko_terms o) = case_id ∧
    case_approvals org case_id s = [a] ∧ ka_offer_hash a = ov_offer_hash (ko_terms o).
Proof.
  intros Hin Hst Hs. pose proof (ns_cases _ Hs org case_id) as Hneg.
  inversion Hneg as [E Eap|earlier c Hlk Hc E Eap|earlier c ap Hlk Hc Hh E Eap]; rewrite <- E in Hin.
  - by apply not_elem_of_nil in Hin.
  - unfold offer_rows in Hin. apply elem_of_app in Hin as [(x & -> & _)%list_elem_of_fmap| ->%list_elem_of_singleton]; done.
  - unfold offer_rows in Hin. apply elem_of_app in Hin as [(x & -> & _)%list_elem_of_fmap| ->%list_elem_of_singleton]; [done|].
    cbn. exists earlier, ap. destruct (linked_last _ _ Hlk). done.
Qed.

(** A case approved for its handoff was agreed on by both parties. *)
Lemma approved_case_agreed s r :
  service_reachable s → r ∈ xs_cases s → kc_state r = ExchangeState.APPROVED_FOR_HANDOFF →
  ∃ l st p a, exchange_run (new_case (kc_id r)) l st ∧ agreed p a st ∧ p ∈ l ∧ a ∈ l ∧
    kc_coordinator_state r = st ∧ cs_state st = ExchangeState.APPROVED_FOR_HANDOFF.
Proof.
  intros Hs Hr Hst. destruct (reachable_refines _ (service_reachable_reachable _ Hs)) as (L & _ & HL).
  destruct (represents_row _ _ _ HL Hr) as (g & h & Hg & _ & _ & Er).
  pose proof (rp_run _ _ HL _ _ Hg) as Hrun. pose proof (run_course _ _ _ Hrun) as Hc.
  assert (cs_state (cl_coordinator g) = ExchangeState.APPROVED_FOR_HANDOFF) as Hst' by (rewrite Er in Hst; exact Hst).
  unfold course in Hc. rewrite Hst' in Hc. destruct Hc as (rr & e & mid & p & a & q & El & _ & Hag & _).
  exists (cl_commands g), (cl_coordinator g), p, a. split_and!; try done.
  - rewrite El. set_solver.
  - rewrite El. set_solver.
  - rewrite Er. done.
Qed.

(** *** Stored handoffs keep what they were created with *)

(** A transaction that leaves the table of handoffs alone. *)
Definition stays {A} (m : txs A) : Prop := ∀ s x s', m s = Ok (x, s') → xs_handoffs s' = xs_handoffs s.

Lemma stays_bind {A B} (m : txs A) (f : A → txs B) : stays m → (∀ a, stays (f a)) → stays (m ≫= f).
Proof. intros Hm Hf s x s' (a & s1 & E & E')%tx_bind_Ok. rewrite (Hf _ _ _ _ E'). by apply Hm in E. Qed.
Lemma stays_lift {A} (m : result A) : stays (lift m).
Proof. by intros s x s' [_ ->]%lift_Ok. Qed.
Lemma stays_read {A} (f : exchange_store → A) : stays (read f).
Proof. by intros s x s' [_ ->]%read_Ok. Qed.
Lemma stays_ret {A} (x : A) : stays (mret x).
Proof. by intros s y s' [_ ->]%ret_Ok. Qed.
Lemma stays_write f : (∀ s, xs_handoffs (f s) = xs_handoffs s) → stays (write f).
Proof. intros Hf s x s' ->%write_Ok. apply Hf. Qed.
Lemma stays_add {R} (table : exchange_store → list R) set clash row :
  (∀ l s, xs_handoffs (set l s) = xs_handoffs s) → stays (add_row table set clash row).
Proof. intros Hset s x s' [-> _]%add_row_Ok. apply Hset. Qed.
Lemma stays_raise {A} e : stays (raise_tx e : txs A).
Proof. by intros s x s' E. Qed.

Ltac stays :=
  repeat first
    [ apply stays_lift | apply stays_read | apply stays_ret | apply stays_raise
    | apply stays_add; done | apply stays_write; done | apply stays_bind; [|intros ?]
    | match goal with |- stays (match ?x with _ => _ end) => destruct x end ].

Lemma stays_append org c : stays (append_command org c).
Proof. unfold append_command, conflict_when, raise_when. stays. Qed.
Lemma stays_get org id : stays (get_case org id).
Proof. unfold get_case. stays. Qed.
Lemma stays_project org p id : stays (publish_projection org p id).
Proof. unfold publish_projection, conflict_when, raise_when. stays. Qed.
Lemma stays_apply_command org r c corg id : stays (apply_command org r c corg id).
Proof. unfold apply_command, conflict_when, raise_when. stays. Qed.
Lemma stays_apply org corg r c ids : stays (apply_and_publish org corg r c ids).
Proof. unfold apply_and_publish. pose proof (stays_apply_command org). pose proof (stays_project org). stays; auto. Qed.
Lemma stays_store_offer org o : stays (store_offer org o).
Proof. unfold store_offer, set_offer_status, conflict_when, raise_when. stays. Qed.
Lemma stays_approve_offer org a now : stays (approve_offer org a now).
Proof. unfold approve_offer, set_offer_status, conflict_when, raise_when. stays. Qed.
Lemma stays_create_case org id seller : stays (create_case org id seller).
Proof. unfold create_case, conflict_when, raise_when. stays. Qed.
Lemma stays_manifest org m : stays (store_release_manifest org m).
Proof. unfold store_release_manifest, conflict_when, raise_when. stays. Qed.
Lemma stays_envelope org e : stays (store_envelope org e).
Proof. unfold store_envelope, conflict_when, raise_when. stays. Qed.
Lemma stays_latest_projection org id p : stays (latest_projection org id p).
Proof. unfold latest_projection. stays. Qed.

Lemma stays_open_case org actor id seller key request briefs now ids :
  stays (open_case org actor id seller key request briefs now ids).
Proof.
  unfold open_case.
  repeat first [apply stays_create_case | apply stays_latest_projection | apply stays_manifest | apply stays_envelope
               | apply stays_append | apply stays_apply_command | apply stays_project | progress stays].
Qed.
Lemma stays_propose route party actor id cid key version terms ids :
  stays (propose_body route party actor id cid key version terms ids).
Proof.
  unfold propose_body.
  repeat first [apply stays_get | apply stays_store_offer | apply stays_append | apply stays_apply | progress stays].
Qed.
Lemma stays_accept route party actor id cid key version hash clock ids :
  stays (accept_body route party actor id cid key version hash clock ids).
Proof.
  unfold accept_body, conflict_when, raise_when.
  repeat first [apply stays_get | apply stays_append | apply stays_apply | progress stays].
Qed.
Lemma stays_approve org buyer actor id cid key version hash expires now ids :
  stays (approve_body org buyer actor id cid key version hash expires now ids).
Proof.
  unfold approve_body.
  repeat first [apply stays_get | apply stays_approve_offer | apply stays_append | apply stays_apply | progress stays].
Qed.

(** The hash of a stored handoff is that of its columns; its times are aware. *)
Definition sealed_row (x : HandoffRow) : Prop :=
  is_aware (kh_created_at x) = true ∧ is_aware (kh_expires_at x) = true ∧
  content_hash (exchange_handoff_payload (handoff_of_row x)) = Ok (kh_handoff_hash x).
Definition handoffs_sealed (s : exchange_store) : Prop := ∀ x, x ∈ xs_handoffs s → sealed_row x.

(** The row of a handoff. *)
Definition row_of_handoff (org : string) (h : ExchangePaymentHandoff) : HandoffRow :=
  mkHandoffRow (xh_handoff_id h) org (xh_case_id h) (xh_offer_hash h) (xh_approval_hash h) (xh_handoff_hash h)
    (xh_destination_url h) (xh_recipient h) (xh_amount h) (xh_currency h) (xh_reference h) (xh_status h)
    (xh_expires_at h) (xh_opened_at h) (xh_created_at h).

Lemma handoff_of_row_of org h : is_aware (xh_created_at h) = true → is_aware (xh_expires_at h) = true →
  exchange_handoff_payload (handoff_of_row (row_of_handoff org h)) = exchange_handoff_payload h.
Proof. intros Hc He. unfold exchange_handoff_payload. cbn. unfold assume_utc. by rewrite Hc, He. Qed.

(** [store_handoff] answers with the row of the handoff, or with a row of the
    same tenant, case, offer and hash that was stored before. *)
Lemma store_handoff_Ok org h x s s' : store_handoff org h s = Ok (x, s') →
  x = row_of_handoff org h ∧ xs_handoffs s' = (xs_handoffs s ++ [x])%list ∨
  s' = s ∧ x ∈ xs_handoffs s ∧ kh_organization_id x = org ∧ kh_case_id x = xh_case_id h ∧
    kh_offer_hash x = xh_offer_hash h ∧ kh_handoff_hash x = xh_handoff_hash h.
Proof.
  unfold store_handoff. intros E. inv_repo; [right|by left].
  match goal with Hs : select_one _ _ = Some _ |- _ => apply select_one_Some in Hs as [Hin Hw] end.
  rewrite !andb_true_iff, !bool_decide_eq_true in Hw. destruct Hw as [[Ho Hc] Hf].
  match goal with Hn : negb _ = false |- _ => apply negb_false_iff, bool_decide_eq_true in Hn end. done.
Qed.

Lemma open_handoff_rows org id hash now x s s' y :
  open_handoff org id hash now s = Ok (x, s') → y ∈ xs_handoffs s' →
  y ∈ xs_handoffs s ∨ ∃ r h, r ∈ xs_handoffs s ∧ y = with_opening r h.
Proof.
  unfold open_handoff. intros E Hy. inv_repo. cbn in Hy. unfold update_rows in Hy.
  apply list_elem_of_In, in_map_iff in Hy as (r & <- & Hr%list_elem_of_In).
  case_match; [right; by exists r, a1|by left].
Qed.

Lemma step_sealed collisions s s' : service_step collisions s s' → handoffs_sealed s → handoffs_sealed s'.
Proof.
  intros Hstep Hs y Hy.
  destruct Hstep as [org actor id seller key request briefs now ids x E|buyer seller id c ids x Hc Ht E|org c x Hc E
    |org p id x E|route party actor id cid key version terms ids x E _|route party actor id cid key version hash clock ids x E
    |org buyer actor id cid key version hash expires now ids x E|route id version hash now x E|org id hash now x E].
  - rewrite (stays_open_case _ _ _ _ _ _ _ _ _ _ _ _ E) in Hy. by apply Hs.
  - rewrite (stays_bind _ _ (stays_get _ _) (λ r, stays_apply _ _ r _ _) _ _ _ E) in Hy. by apply Hs.
  - rewrite (stays_append _ _ _ _ _ E) in Hy. by apply Hs.
  - rewrite (stays_project _ _ _ _ _ _ E) in Hy. by apply Hs.
  - rewrite (stays_propose _ _ _ _ _ _ _ _ _ _ _ _ E) in Hy. by apply Hs.
  - rewrite (stays_accept _ _ _ _ _ _ _ _ _ _ _ _ _ E) in Hy. by apply Hs.
  - rewrite (stays_approve _ _ _ _ _ _ _ _ _ _ _ _ _ _ E) in Hy. by apply Hs.
  - apply create_handoff_body_Ok in E as (r & o & a & first & expires & hid & h & _ & _ & _ & _ & _ & _ & _ & _ & _ & _ & _ & _ & Hh & E).
    apply exchange_handoff_check_Ok in Hh as (Eh & Hhh & _ & Hc & He).
    apply store_handoff_Ok in E as [[-> Et]|(-> & _)]; [|by apply Hs].
    rewrite Et in Hy. apply elem_of_app in Hy as [Hy| ->%list_elem_of_singleton]; [by apply Hs|].
    split_and!; [by rewrite Eh..|]. rewrite handoff_of_row_of by (by rewrite Eh). rewrite Eh at 1. exact Hhh.
  - destruct (open_handoff_rows _ _ _ _ _ _ _ _ E Hy) as [?|(r & h & Hr & ->)]; [by apply Hs|]. exact (Hs r Hr).
Qed.

Lemma service_sealed s : service_reachable s → handoffs_sealed s.
Proof.
  unfold service_reachable. revert s.
  match goal with |- ∀ p, rtc _ _ _ → @?P p => apply (rtc_ind_r P empty_store) end.
  - intros x Hx. by apply not_elem_of_nil in Hx.
  - intros s s' _ Hst IH. by eapply step_sealed.
Qed.

(** The columns of a handoff row: the tenant and the case, the terms [c] both
    parties agreed on, the approval [ap] of them, the merchant of the route, and
    a time to use it within fifteen minutes of [clock]. *)
Record carries_terms (route : ExchangeRoute) (case_id hash : string) (c : OfferVersion) (ap : ApprovalRow)
    (clock : datetime) (x : HandoffRow) : Prop := {
  ct_tenant : kh_organization_id x = er_buyer_organization_id route;
  ct_case : kh_case_id x = case_id ∧ kh_reference x = "SIRA-" ++ case_id;
  ct_hashes : kh_offer_hash x = hash ∧ kh_approval_hash x = ka_approval_hash ap;
  ct_amount : kh_amount x = ov_total c ∧ kh_currency x = ov_currency c;
  ct_merchant : kh_destination_url x = er_merchant_url route ∧ kh_recipient x = er_merchant_name route;
  ct_created : kh_created_at x = clock;
  ct_expires : instant clock < instant (kh_expires_at x) <= instant clock + 15 * 60 * 1000000 ∧
    instant (kh_expires_at x) <= instant (assume_utc (ov_expires_at c)) ∧
    instant (kh_expires_at x) <= instant (assume_utc (ka_expires_at ap))
}.

Lemma carries_row route case_id hash hid c ap now expires hashed :
  instant now < instant expires <= instant now + 15 * 60 * 1000000 →
  instant expires <= instant (assume_utc (ov_expires_at c)) → instant expires <= instant (assume_utc (ka_expires_at ap)) →
  carries_terms route case_id hash c ap now (row_of_handoff (er_buyer_organization_id route)
    (with_exchange_handoff (handoff_draft route case_id hash hid
       (offer_row (er_buyer_organization_id route) OfferApprovalStatus.APPROVED c) ap now expires)
       ExchangeHandoffStatus.READY None hashed)).
Proof. by split. Qed.

Lemma assume_utc_aware d : is_aware (assume_utc d) = true.
Proof. unfold assume_utc. by destruct (is_aware d) eqn:E. Qed.
Lemma assume_utc_instant d : instant (assume_utc d) = instant d.
Proof. unfold assume_utc, is_aware, instant. by destruct (dt_offset d) eqn:E; cbn; rewrite ?E; cbn; rewrite ?Z.sub_0_r. Qed.

Lemma handoff_body_binds route case_id version hash now x s s' :
  service_reachable s → create_handoff_body route case_id version hash now s = Ok (x, s') →
  ∃ c ap h, agreed_terms case_id hash c ∧
    case_approvals (er_buyer_organization_id route) case_id s = [ap] ∧ ka_offer_hash ap = hash ∧
    carries_terms route case_id hash c ap now (row_of_handoff (er_buyer_organization_id route) h) ∧
    content_hash (exchange_handoff_payload h) = Ok (xh_handoff_hash h) ∧
    xh_status h = ExchangeHandoffStatus.READY ∧ xh_opened_at h = None ∧
    is_aware (xh_created_at h) = true ∧ is_aware (xh_expires_at h) = true ∧
    store_handoff (er_buyer_organization_id route) h s = Ok (x, s').
Proof.
  intros Hs E. pose proof (service_reachable_reachable _ Hs) as Hr. pose proof (reachable_negotiations _ Hr) as Hneg.
  apply create_handoff_body_Ok in E as (r & o & a & first & expires & hid & h & Hin & Ho & Hi & _ & Hst & Hoin & Hoh & Host & Hain & Hah & Hf & He & Hh & E).
  destruct (approved_rows _ _ _ _ Hoin Host Hneg) as (earlier & ap & Erows & Eo & Hck & Hcase & Eap & Hhash).
  rewrite Eap in Hain. apply list_elem_of_singleton in Hain as ->.
  destruct (approved_case_agreed _ _ Hs Hin Hst) as (l & st & p & ac & Hrun & Hag & Hp & Ha & Est & Hst').
  pose proof (al_case _ (service_aligned _ Hs) r Hin) as Hfol. unfold follows in Hfol. rewrite Est, Hst' in Hfol.
  destruct Hfol as (org & earlier' & c & Erows' & Ecur). unfold row_offers in Erows'. rewrite Ho, Hi, Erows in Erows'.
  apply follows_app_inj in Erows' as [Ec _]. subst c. set (c := ko_terms o) in *.
  apply exchange_handoff_check_Ok in Hh as (Eh & Hhh & Hlt & Hca & Hea). cbn in Hlt.
  apply dt_min_le in Hf as [Hf1 Hf2], He as [He1 He2]. rewrite seconds_later_instant in Hf1. specialize (Hlt Hca Hea).
  exists c, ap, h. assert (ko_offer_hash o = ov_offer_hash c) as Eoh by (by rewrite Eo).
  split_and!; try done; try (rewrite Eh; done).
  { split; [split_and!; congruence|]. exists l, st, p, ac. rewrite Hi in Hrun. split_and!; try done.
    destruct Hag as [Hag _ _]. congruence. }
  rewrite Eh, Eo. apply carries_row; [lia| |lia]. rewrite Eo in Hf2. cbn in Hf2. lia.
Qed.

#[local] Instance datetime_eq_dec : EqDecision datetime.
Proof. solve_decision. Defined.

Lemma same_payload (h h' : ExchangePaymentHandoff) :
  exchange_handoff_payload h = exchange_handoff_payload h' ∨ exchange_handoff_payload h ≠ exchange_handoff_payload h'.
Proof.
  set (columns := λ h, (xh_handoff_id h, xh_case_id h, xh_offer_hash h, xh_approval_hash h, xh_destination_url h,
    xh_recipient h, xh_amount h, xh_currency h, xh_reference h, xh_created_at h, xh_expires_at h)).
  destruct (decide (columns h = columns h')) as [E|Hne]; [left|right].
  - injection E as E1 E2 E3 E4 E5 E6 E7 E8 E9 E10 E11. unfold exchange_handoff_payload. congruence.
  - intros E. apply Hne. unfold exchange_handoff_payload in E. injection E as E1 E2 E3 E4 E5 E6 E7 E8 E9 E10 E11.
    unfold columns. congruence.
Qed.

(** Rows with one payload carry the same terms: whoever opened one of them
    changed only its status. *)
Lemma payload_carries route case_id hash c ap clock h x :
  kh_organization_id x = er_buyer_organization_id route →
  exchange_handoff_payload (handoff_of_row x) = exchange_handoff_payload h →
  is_aware (kh_created_at x) = true → is_aware (kh_expires_at x) = true →
  carries_terms route case_id hash c ap clock (row_of_handoff (er_buyer_organization_id route) h) →
  carries_terms route case_id hash c ap clock x.
Proof.
  intros Ho Ep Hc He [_ [T1 T2] [T3 T4] [T5 T6] [T7 T8] T9 T10]. unfold exchange_handoff_payload in Ep. cbn in *.
  unfold assume_utc in Ep at 1 2. rewrite Hc, He in Ep. injection Ep as E1 E2 E3 E4 E5 E6 E7 E8 E9 E10 E11.
  split; [done|..]; split_and?; congruence || (rewrite E11; apply T10).
Qed.

(** What [store_handoff] answers with is sealed, and carries what the handoff
    carries unless two payloads collide. *)
Lemma stored_sealed org h x s s' : handoffs_sealed s →
  content_hash (exchange_handoff_payload h) = Ok (xh_handoff_hash h) →
  is_aware (xh_created_at h) = true → is_aware (xh_expires_at h) = true →
  store_handoff org h s = Ok (x, s') → sealed_row x.
Proof.
  intros Hs Hh Hc He [[-> _]|(_ & Hx & _)]%store_handoff_Ok; [|by apply Hs].
  split_and!; [done..|]. by rewrite handoff_of_row_of.
Qed.

Lemma stored_carries route case_id hash c ap clock h x s s' : handoffs_sealed s →
  carries_terms route case_id hash c ap clock (row_of_handoff (er_buyer_organization_id route) h) →
  content_hash (exchange_handoff_payload h) = Ok (xh_handoff_hash h) →
  store_handoff (er_buyer_organization_id route) h s = Ok (x, s') →
  carries_terms route case_id hash c ap clock x ∨
  x ∈ xs_handoffs s ∧ ∃ h, carries_terms route case_id hash c ap clock (row_of_handoff (er_buyer_organization_id route) h) ∧
    exchange_handoff_payload h ≠ exchange_handoff_payload (handoff_of_row x) ∧
    content_hash (exchange_handoff_payload h) = content_hash (exchange_handoff_payload (handoff_of_row x)).
Proof.
  intros Hs Hct Hh [[-> _]|(_ & Hx & Ho & _ & _ & Eh)]%store_handoff_Ok; [by left|].
  destruct (Hs x Hx) as (Hc & He & Hhx).
  destruct (same_payload (handoff_of_row x) h) as [Ep|Hne].
  - left. exact (payload_carries _ _ _ _ _ _ _ _ Ho Ep Hc He Hct).
  - right. split; [done|]. exists h. split_and!; [done|congruence|]. by rewrite Hh, Hhx, Eh.
Qed.

(** What a decoded route says of a buyer who calls with it. *)
Lemma decoded_buyer config caller case_id capability now route :
  _decode_route config caller case_id capability now = Ok (route, ExchangeParty.BUYER) →
  decode capability (ca_organization_id caller) now = Ok route ∧ er_case_id route = case_id ∧
  ca_organization_id caller = er_buyer_organization_id route.
Proof.
  unfold _decode_route. destruct (verified_party (ca_party caller)) as [pp|]; [|done]. intros Hd.
  apply bind_Ok in Hd as (rr & Hdd & Hd). apply bind_Ok in Hd as (? & Hc%raise_if_Ok%negb_false_iff%bool_decide_eq_true & Hd).
  apply bind_Ok in Hd as (? & Hm%raise_if_Ok & [= -> ->]).
  split; [destruct (decode _ _ _) as [rr'|e]; [by injection Hdd as ->|by destruct e]|]. split; [done|].
  apply andb_false_iff in Hm as [Hm%negb_false_iff%bool_decide_eq_true|Hm%negb_false_iff]; [exact Hm|].
  rewrite !andb_true_iff in Hm. by destruct Hm as [[_ Hm%bool_decide_eq_true] _].
Qed.

(** C1: a payment handoff binds exactly the terms both parties agreed on.  When
    a request of the buyer answers with a handoff, among any other requests, its
    row has the tenant and the case, the hash of an offer that the coordinator
    recorded as proposed by one party and accepted by the other and that the one
    approval of the case approves, the hash of that approval, that offer's
    amount, which is the exact sum of its lines, and currency, the destination
    and recipient of the route, and an expiry within fifteen minutes, no later
    than the offer's and the approval's; and its hash is that of these columns.
    A row that was stored before is answered again only when its hash is that of
    the handoff just made, so it differs in a column only where two different
    payloads have the same content hash. *)
Theorem handoff_binds_agreed_terms (config : ServiceConfig) (caller : Caller) (case_id capability : string)
    (version : Z) (hash : string) (now clock : datetime) (s s' : exchange_store) (x : HandoffRow) :
  service_reachable s →
  runs (service_step false) (create_handoff config caller case_id capability version hash now clock) s (Ok x) s' →
  ∃ s1 route c ap,
    rtc (service_step false) s s1 ∧ decode capability (ca_organization_id caller) now = Ok route ∧
    er_case_id route = case_id ∧ ca_organization_id caller = er_buyer_organization_id route ∧
    agreed_terms case_id hash c ∧ (dec_value (ov_total c) == lines_value (ov_lines c))%Q ∧
    case_approvals (er_buyer_organization_id route) case_id s1 = [ap] ∧ ka_offer_hash ap = hash ∧ sealed_row x ∧
    (carries_terms route case_id hash c ap clock x ∨
     x ∈ xs_handoffs s1 ∧ ∃ h, carries_terms route case_id hash c ap clock (row_of_handoff (er_buyer_organization_id route) h) ∧
       exchange_handoff_payload h ≠ exchange_handoff_payload (handoff_of_row x) ∧
       content_hash (exchange_handoff_payload h) = content_hash (exchange_handoff_payload (handoff_of_row x))).
Proof.
  intros Hs Hr. unfold create_handoff in Hr.
  apply runs_bind in Hr as ([route party] & s0 & [Hd Ho0]%runs_pure & Hr).
  apply runs_bind in Hr as (u & s0' & [Hp%raise_if_Ok%negb_false_iff%bool_decide_eq_true Ho0']%runs_pure & Hr).
  apply runs_rethrow, runs_transaction in Hr as (s1 & s2 & Ho1 & _ & E & _). subst party.
  assert (rtc (service_step false) s s1) as Hss1 by (etrans; [exact Ho0|]; by etrans).
  assert (service_reachable s1) as Hs1 by (unfold service_reachable in *; by etrans).
  destruct (decoded_buyer _ _ _ _ _ _ Hd) as (Hdec & Hcase & Hcal).
  destruct (handoff_body_binds _ _ _ _ _ _ _ _ Hs1 E) as (c & ap & h & Ht & Hap & Hah & Hct & Hhh & _ & _ & Hc & He & Est).
  pose proof (at_offer _ _ _ Ht) as (Hck & _ & _). pose proof (offer_check_wf _ _ Hck) as [Hwf _].
  pose proof (service_sealed _ Hs1) as Hsealed.
  pose proof (stored_sealed _ _ _ _ _ Hsealed Hhh Hc He Est) as Hx.
  pose proof (stored_carries _ _ _ _ _ _ _ _ _ _ Hsealed Hct Hhh Est) as Hcarries.
  pose proof (offer_wf_total _ Hwf) as Htotal. by exists s1, route, c, ap.
Qed.
End service_steps.
