(* ===== verification/GraphModels.v ===== *)
(** * Decision Graph v1 value objects: [decision_engine/graph_v1_models.py]

    The frozen facts, policies and results the graph reads and writes, one
    [Record] per dataclass.  [X_new] is the constructor with its
    [__post_init__] checks and normalisations; [X_payload] is the dictionary
    that [content_hash] sees. *)
From S2P Require Import Prelude PyText PyNumber PyTime Enums Money Bounds Hashing.

Local Open Scope string_scope.
Local Open Scope Z_scope.

(** ** Values and enumerations *)

Inductive FactValue :=
| FVStr (s : string)
| FVInt (n : Z)
| FVBool (b : bool)
| FVNone
| FVTuple (l : list string).

#[export] Instance FactValue_eq_dec : EqDecision FactValue.
Proof. solve_decision. Defined.

Definition value_payload (v : FactValue) : PyVal :=
  match v with
  | FVStr s => VStr s
  | FVInt n => VInt n
  | FVBool b => VBool b
  | FVNone => VNone
  | FVTuple l => vstrs l
  end.

Module EvidenceState.
Inductive t := ACCEPTABLE | UNKNOWN | STALE | CONFLICT.
#[global] Instance eq_dec : EqDecision t.
Proof. solve_decision. Defined.
Definition value (s : t) : string :=
  match s with
  | ACCEPTABLE => "ACCEPTABLE" | UNKNOWN => "UNKNOWN" | STALE => "STALE" | CONFLICT => "CONFLICT"
  end.
End EvidenceState.

Module GateMode.
Inductive t := REQUIRE_MATCH | BLOCK_ON_MATCH.
#[global] Instance eq_dec : EqDecision t.
Proof. solve_decision. Defined.
Definition value (s : t) : string :=
  match s with REQUIRE_MATCH => "REQUIRE_MATCH" | BLOCK_ON_MATCH => "BLOCK_ON_MATCH" end.
End GateMode.

Module PlanLifecycle.
Inductive t := CANDIDATE | RESOLUTION_PENDING | EXECUTABLE | BLOCKED.
#[global] Instance eq_dec : EqDecision t.
Proof. solve_decision. Defined.
Definition value (s : t) : string :=
  match s with
  | CANDIDATE => "CANDIDATE" | RESOLUTION_PENDING => "RESOLUTION_PENDING"
  | EXECUTABLE => "EXECUTABLE" | BLOCKED => "BLOCKED"
  end.
End PlanLifecycle.

Module NormalizationKind.
Inductive t := BOOLEAN_EQUALS | SET_CONTAINS_ALL | LOWER_IS_BETTER | OUTCOME_RATE.
#[global] Instance eq_dec : EqDecision t.
Proof. solve_decision. Defined.
Definition value (s : t) : string :=
  match s with
  | BOOLEAN_EQUALS => "BOOLEAN_EQUALS" | SET_CONTAINS_ALL => "SET_CONTAINS_ALL"
  | LOWER_IS_BETTER => "LOWER_IS_BETTER" | OUTCOME_RATE => "OUTCOME_RATE"
  end.
End NormalizationKind.

Module CounterfactualOutcome.
Inductive t := WINNER_CHANGED | NO_SMALL_COUNTERFACTUAL_FOUND.
#[global] Instance eq_dec : EqDecision t.
Proof. solve_decision. Defined.
Definition value (s : t) : string :=
  match s with
  | WINNER_CHANGED => "WINNER_CHANGED"
  | NO_SMALL_COUNTERFACTUAL_FOUND => "NO_SMALL_COUNTERFACTUAL_FOUND"
  end.
End CounterfactualOutcome.

(** ** Payload helpers *)

Definition ratio_payload (r : ExactRatio) : PyVal :=
  dict [("numerator", VInt (r_num r)); ("denominator", VInt (r_den r))].
Definition vints (l : list Z) : PyVal := VList (VInt <$> l).
Definition vactions (l : list SolutionAction.t) : PyVal :=
  VList ((λ a, VStr (SolutionAction.value a)) <$> l).
Definition any_empty (l : list string) : bool := existsb is_empty l.
Definition require_ids (l : list string) (field_name : string) : result (list unit) :=
  mapM (λ i, require_id i field_name) l.

(** ** Frozen inputs *)

Record FrozenVersions := mkFrozenVersions {
  fv_request_version : string;
  fv_company_profile_version : string;
  fv_stackfile_version : string;
  fv_registry_version : string;
  fv_pack_set_version : string;
  fv_offer_set_version : string;
  fv_taxonomy_version : string;
  fv_normalization_version : string;
  fv_policy_version : string;
  fv_fx_version : string;
  fv_pipeline_version : string;
  fv_engine_version : string
}.

Definition versions_fields (v : FrozenVersions) : list (string * string) :=
  [("request_version", fv_request_version v); ("company_profile_version", fv_company_profile_version v);
   ("stackfile_version", fv_stackfile_version v); ("registry_version", fv_registry_version v);
   ("pack_set_version", fv_pack_set_version v); ("offer_set_version", fv_offer_set_version v);
   ("taxonomy_version", fv_taxonomy_version v); ("normalization_version", fv_normalization_version v);
   ("policy_version", fv_policy_version v); ("fx_version", fv_fx_version v);
   ("pipeline_version", fv_pipeline_version v); ("engine_version", fv_engine_version v)].

(** [FrozenVersions.__post_init__] on the record of its arguments. *)
Definition FrozenVersions_check (v : FrozenVersions) : result FrozenVersions :=
  _ ← raise_if (any_empty (versions_fields v).*2)
        (DomainValidationError "every Decision Graph input version must be frozen");
  Ok v.

Definition versions_payload (v : FrozenVersions) : PyVal :=
  dict ((λ p, (p.1, VStr p.2)) <$> versions_fields v).

Record FactProvenance := mkFactProvenance {
  fp_provider : string;
  fp_content_id : string;
  fp_source_version_id : string;
  fp_chunk_index : Z;
  fp_retrieved_at : datetime;
  fp_source_mode : string;
  fp_evidence_hash : option string
}.

Definition FactProvenance_check (p : FactProvenance) : result FactProvenance :=
  _ ← raise_if (any_empty [fp_provider p; fp_content_id p; fp_source_version_id p])
        (DomainValidationError "fact provenance requires provider content and version");
  _ ← raise_if ((fp_chunk_index p <? 0) || negb (is_aware (fp_retrieved_at p)))
        (DomainValidationError "fact provenance requires chunk index and timestamp");
  _ ← raise_if (negb (py_in (fp_source_mode p)
          ["PRODUCTION_PROVIDER"; "DEVELOPMENT_FIXTURE"; "MANUAL_INPUT"; "CANONICAL_STACKFILE";
           "SYSTEM_OBSERVATION"]))
        (DomainValidationError "unsupported fact provenance mode");
  _ ← raise_if (match fp_evidence_hash p with
                | Some h => negb (startswith h "sha256:") | None => false end)
        (DomainValidationError "fact provenance evidence hash must be SHA-256");
  Ok p.

Definition provenance_payload (p : FactProvenance) : PyVal :=
  dict [("provider", VStr (fp_provider p)); ("content_id", VStr (fp_content_id p));
        ("source_version_id", VStr (fp_source_version_id p)); ("chunk_index", VInt (fp_chunk_index p));
        ("retrieved_at", VDatetime (fp_retrieved_at p)); ("source_mode", VStr (fp_source_mode p));
        ("evidence_hash", vopt VStr (fp_evidence_hash p))].

Record FrozenFact := mkFrozenFact {
  ff_fact_id : string;
  ff_field : string;
  ff_value : FactValue;
  ff_private : bool;
  ff_version : string;
  ff_asserted_by_role : string;
  ff_authority_level : string;
  ff_authority_rank : Z;
  ff_provenance : option FactProvenance
}.

Definition FrozenFact_check (f : FrozenFact) : result FrozenFact :=
  _ ← require_id (ff_fact_id f) "fact_id";
  _ ← raise_if (any_empty [ff_field f; ff_version f; ff_asserted_by_role f])
        (DomainValidationError "a frozen fact requires field and version");
  _ ← raise_if ((ff_authority_rank f <? 0) || is_empty (ff_authority_level f))
        (DomainValidationError "a frozen fact requires non-negative actor authority");
  Ok f.

(** [FrozenFact.to_hash_payload]: the authority metadata enters only when set. *)
Definition fact_payload (f : FrozenFact) : PyVal :=
  dict ([("fact_id", VStr (ff_fact_id f)); ("field", VStr (ff_field f));
         ("value", value_payload (ff_value f)); ("private", VBool (ff_private f));
         ("version", VStr (ff_version f))] ++
        (if negb (bool_decide (ff_asserted_by_role f = "unknown")) ||
            negb (bool_decide (ff_authority_level f = "UNKNOWN")) ||
            negb (ff_authority_rank f =? 0) || negb (is_none (ff_provenance f))
         then [("asserted_by_role", VStr (ff_asserted_by_role f));
               ("authority_level", VStr (ff_authority_level f));
               ("authority_rank", VInt (ff_authority_rank f));
               ("provenance", vopt provenance_payload (ff_provenance f))]
         else []))%list.

Record ActorConflictResolution := mkActorConflictResolution {
  ar_field : string;
  ar_fact_ids : list string;
  ar_selected_fact_id : string;
  ar_selected_role : string;
  ar_decided_by_role : string;
  ar_strategy : string;
  ar_reason : string
}.

Definition ActorConflictResolution_check (r : ActorConflictResolution) : result ActorConflictResolution :=
  _ ← raise_if (any_empty [ar_field r; ar_selected_role r; ar_decided_by_role r; ar_reason r])
        (DomainValidationError "actor conflict resolution fields are required");
  _ ← raise_if (negb (py_in (ar_strategy r) ["AUTHORITY_PRECEDENCE"; "EXPLICIT_OWNER_DECISION"]))
        (DomainValidationError "unsupported actor conflict resolution strategy");
  let normalized := sorted_set (ar_fact_ids r) in
  _ ← raise_if ((length normalized <? 2)%nat || negb (py_in (ar_selected_fact_id r) normalized))
        (DomainValidationError "actor conflict resolution must select a conflicting fact");
  _ ← require_ids normalized "conflicting_fact_id";
  Ok (mkActorConflictResolution (ar_field r) normalized (ar_selected_fact_id r) (ar_selected_role r)
        (ar_decided_by_role r) (ar_strategy r) (ar_reason r)).

Definition conflict_resolution_payload (r : ActorConflictResolution) : PyVal :=
  dict [("field", VStr (ar_field r)); ("fact_ids", vstrs (ar_fact_ids r));
        ("selected_fact_id", VStr (ar_selected_fact_id r)); ("selected_role", VStr (ar_selected_role r));
        ("decided_by_role", VStr (ar_decided_by_role r)); ("strategy", VStr (ar_strategy r));
        ("reason", VStr (ar_reason r))].

Record ProductFact := mkProductFact {
  pf_field : string;
  pf_value : FactValue;
  pf_evidence_ids : list string;
  pf_component_id : option string
}.

#[export] Instance ProductFact_eq_dec : EqDecision ProductFact.
Proof. solve_decision. Defined.

Definition ProductFact_new (field : string) (value : FactValue) (evidence_ids : list string)
    (component_id : option string) : result ProductFact :=
  _ ← raise_if (is_empty field) (DomainValidationError "a product fact requires a field");
  let ids := sorted_set evidence_ids in
  _ ← require_ids ids "evidence_id";
  _ ← match component_id with Some c => require_id c "fact_component_id" | None => Ok () end;
  Ok (mkProductFact field value ids component_id).

Definition product_fact_payload (f : ProductFact) : PyVal :=
  dict [("field", VStr (pf_field f)); ("value", value_payload (pf_value f));
        ("evidence_ids", vstrs (pf_evidence_ids f)); ("component_id", vopt VStr (pf_component_id f))].

Record EvidenceRecord := mkEvidenceRecord {
  er_evidence_id : string;
  er_record_id : string;
  er_source_class : string;
  er_verification_method : string;
  er_verification_scope : string;
  er_reconstructable : bool;
  er_observed_at_lower : option datetime;
  er_observed_at_upper : option datetime;
  er_disputed : bool;
  er_revoked : bool
}.

Definition EvidenceRecord_check (e : EvidenceRecord) : result EvidenceRecord :=
  _ ← require_id (er_evidence_id e) "evidence_id";
  _ ← require_id (er_record_id e) "record_id";
  _ ← raise_if (any_empty [er_source_class e; er_verification_method e; er_verification_scope e])
        (DomainValidationError "evidence provenance is required");
  _ ← raise_if (negb (Bool.eqb (is_none (er_observed_at_lower e)) (is_none (er_observed_at_upper e))))
        (DomainValidationError "both evidence observed-time bounds are required together");
  _ ← match er_observed_at_lower e, er_observed_at_upper e with
      | Some lower, Some upper =>
          reversed ← dt_lt upper lower;
          raise_if reversed (DomainValidationError "evidence time bounds are reversed")
      | _, _ => Ok ()
      end;
  Ok e.

Definition evidence_payload (e : EvidenceRecord) : PyVal :=
  dict [("evidence_id", VStr (er_evidence_id e)); ("record_id", VStr (er_record_id e));
        ("source_class", VStr (er_source_class e));
        ("verification_method", VStr (er_verification_method e));
        ("verification_scope", VStr (er_verification_scope e));
        ("reconstructable", VBool (er_reconstructable e));
        ("observed_at_lower", vopt VDatetime (er_observed_at_lower e));
        ("observed_at_upper", vopt VDatetime (er_observed_at_upper e));
        ("disputed", VBool (er_disputed e)); ("revoked", VBool (er_revoked e))].

Definition authority_value (a : PackAuthority.t) : string :=
  match a with
  | PackAuthority.SELLER_SEALED => "SELLER_SEALED"
  | PackAuthority.PLATFORM_COMPILED => "PLATFORM_COMPILED"
  | PackAuthority.EXTERNAL_UNSEALED => "EXTERNAL_UNSEALED"
  end.

Record RawCandidateRecord := mkRawCandidateRecord {
  rc_record_id : string;
  rc_pack_id : string;
  rc_pack_version : Z;
  rc_seller_id : string;
  rc_product_id : string;
  rc_edition : string;
  rc_region : string;
  rc_offer_id : string;
  rc_authority : PackAuthority.t;
  rc_available : bool;
  rc_facts : list ProductFact;
  rc_seller_gate_ids : list string;
  rc_aliases : list string;
  rc_category_ids : list string;
  rc_jtbd_ids : list string;
  rc_pack_status : string;
  rc_required_product_ids : list string
}.

Definition RawCandidateRecord_check (r : RawCandidateRecord) : result RawCandidateRecord :=
  _ ← require_id (rc_record_id r) "record_id";
  _ ← require_id (rc_pack_id r) "pack_id";
  _ ← require_id (rc_seller_id r) "seller_id";
  _ ← require_id (rc_product_id r) "product_id";
  _ ← require_id (rc_offer_id r) "offer_id";
  _ ← raise_if ((rc_pack_version r <? 1) || is_empty (rc_edition r) || is_empty (rc_region r))
        (DomainValidationError "candidate identity and positive Pack version are required");
  let categories := sorted_set (rc_category_ids r) in
  let jtbds := sorted_set (rc_jtbd_ids r) in
  let required := sorted_set (rc_required_product_ids r) in
  _ ← raise_if (negb (py_in (rc_pack_status r) ["PUBLISHED"; "REVOKED"; "SUPERSEDED"]))
        (DomainValidationError "unsupported candidate Pack status");
  _ ← require_ids (categories ++ jtbds ++ required)%list "candidate classification or dependency";
  Ok (mkRawCandidateRecord (rc_record_id r) (rc_pack_id r) (rc_pack_version r) (rc_seller_id r)
        (rc_product_id r) (rc_edition r) (rc_region r) (rc_offer_id r) (rc_authority r)
        (rc_available r) (rc_facts r) (sorted_set (rc_seller_gate_ids r)) (sorted_set (rc_aliases r))
        categories jtbds (rc_pack_status r) required).

Definition candidate_payload (r : RawCandidateRecord) : PyVal :=
  dict [("record_id", VStr (rc_record_id r)); ("pack_id", VStr (rc_pack_id r));
        ("pack_version", VInt (rc_pack_version r)); ("seller_id", VStr (rc_seller_id r));
        ("product_id", VStr (rc_product_id r)); ("edition", VStr (rc_edition r));
        ("region", VStr (rc_region r)); ("offer_id", VStr (rc_offer_id r));
        ("authority", VStr (authority_value (rc_authority r))); ("available", VBool (rc_available r));
        ("facts", VList (product_fact_payload <$> rc_facts r));
        ("seller_gate_ids", vstrs (rc_seller_gate_ids r)); ("aliases", vstrs (rc_aliases r));
        ("category_ids", vstrs (rc_category_ids r)); ("jtbd_ids", vstrs (rc_jtbd_ids r));
        ("pack_status", VStr (rc_pack_status r));
        ("required_product_ids", vstrs (rc_required_product_ids r))].

Record CostLineItem := mkCostLineItem {
  cl_line_item_type : string;
  cl_low : Money;
  cl_base : Money;
  cl_high : Money;
  cl_schedule_version : option string
}.

Definition _COST_LINE_TYPES : list string :=
  ["MERCHANT_SUBTOTAL"; "SIRA_TRANSACTION_FEE"; "TAX"; "CONTRACT_COST"; "MIGRATION_COST";
   "IMPLEMENTATION_COST"].

Definition CostLineItem_check (i : CostLineItem) : result CostLineItem :=
  _ ← raise_if (negb (py_in (cl_line_item_type i) _COST_LINE_TYPES))
        (DomainValidationError "unsupported Decision Ledger cost line-item type");
  Ok i.

Definition line_item_payload (i : CostLineItem) : PyVal :=
  dict [("line_item_type", VStr (cl_line_item_type i)); ("low", money_payload (cl_low i));
        ("base", money_payload (cl_base i)); ("high", money_payload (cl_high i));
        ("schedule_version", vopt VStr (cl_schedule_version i))].

Record OfferCost := mkOfferCost {
  oc_offer_id : string;
  oc_low : option Money;
  oc_base : option Money;
  oc_high : option Money;
  oc_horizon_days : Z;
  oc_line_items : list CostLineItem;
  oc_payment_required : bool
}.

Definition is_fee (i : CostLineItem) : bool :=
  bool_decide (cl_line_item_type i = "SIRA_TRANSACTION_FEE").

Definition OfferCost_check (c : OfferCost) : result OfferCost :=
  _ ← require_id (oc_offer_id c) "offer_id";
  _ ← raise_if (oc_horizon_days c <? 1)
        (DomainValidationError "an offer cost requires a positive comparison horizon");
  _ ← raise_if (negb (oc_payment_required c) && existsb is_fee (oc_line_items c))
        (DomainValidationError "a non-payment action cannot contain a transaction fee");
  Ok c.

Definition offer_payload (c : OfferCost) : PyVal :=
  dict [("offer_id", VStr (oc_offer_id c)); ("low", vopt money_payload (oc_low c));
        ("base", vopt money_payload (oc_base c)); ("high", vopt money_payload (oc_high c));
        ("horizon_days", VInt (oc_horizon_days c));
        ("line_items", VList (line_item_payload <$> oc_line_items c));
        ("payment_required", VBool (oc_payment_required c))].

(** ** Identity and recall *)

Record IdentityNormalization := mkIdentityNormalization {
  in_version : string;
  in_aliases : list (string * string)
}.

Definition fold_strip (s : string) : string := strip (casefold s).

Definition IdentityNormalization_check (i : IdentityNormalization) : result IdentityNormalization :=
  _ ← raise_if (is_empty (in_version i))
        (DomainValidationError "identity normalization requires a version");
  let normalized := sorted_by id ((λ p, (fold_strip p.1, fold_strip p.2)) <$> in_aliases i) in
  _ ← raise_if (negb (all_distinct normalized.*1))
        (DomainValidationError "identity aliases must be unique");
  Ok (mkIdentityNormalization (in_version i) normalized).

Definition normalization_payload (i : IdentityNormalization) : PyVal :=
  dict [("version", VStr (in_version i));
        ("aliases", VList ((λ p, vstrs [p.1; p.2]) <$> in_aliases i))].

Record IdentityRecord := mkIdentityRecord {
  ir_canonical_id : string;
  ir_seller_id : string;
  ir_product_id : string;
  ir_edition : string;
  ir_region : string;
  ir_record_ids : list string;
  ir_pack_ids : list string;
  ir_offer_ids : list string
}.

Record IdentityMerge := mkIdentityMerge {
  im_canonical_id : string;
  im_merged_record_id : string;
  im_reasons : list string
}.

Definition merge_payload (m : IdentityMerge) : PyVal :=
  dict [("canonical_id", VStr (im_canonical_id m)); ("merged_record_id", VStr (im_merged_record_id m));
        ("reasons", vstrs (im_reasons m))].

Record RecallExclusion := mkRecallExclusion {
  rx_record_id : string;
  rx_reason_code : string;
  rx_detail : string
}.

Definition RecallExclusion_new (record_id reason_code detail : string) : result RecallExclusion :=
  _ ← require_id record_id "excluded_record_id";
  _ ← raise_if (negb (py_in reason_code
          ["CATEGORY_MISMATCH"; "JTBD_MISMATCH"; "REGION_UNSUPPORTED"; "PACK_REVOKED";
           "PACK_SUPERSEDED"]))
        (DomainValidationError "unsupported recall exclusion reason");
  _ ← raise_if (is_empty detail) (DomainValidationError "recall exclusion requires detail");
  Ok (mkRecallExclusion record_id reason_code detail).

Definition exclusion_payload (x : RecallExclusion) : PyVal :=
  dict [("record_id", VStr (rx_record_id x)); ("reason_code", VStr (rx_reason_code x));
        ("detail", VStr (rx_detail x))].

Record RecallPolicy := mkRecallPolicy {
  rp_category_id : string;
  rp_jtbd_id : string;
  rp_allowed_regions : list string
}.

Definition RecallPolicy_check (p : RecallPolicy) : result RecallPolicy :=
  _ ← require_id (rp_category_id p) "recall_category_id";
  _ ← require_id (rp_jtbd_id p) "recall_jtbd_id";
  let normalized := sorted_set (rp_allowed_regions p) in
  _ ← raise_if (bool_decide (normalized = []))
        (DomainValidationError "recall policy requires an allowed region");
  Ok (mkRecallPolicy (rp_category_id p) (rp_jtbd_id p) normalized).

Definition recall_policy_payload (p : RecallPolicy) : PyVal :=
  dict [("category_id", VStr (rp_category_id p)); ("jtbd_id", VStr (rp_jtbd_id p));
        ("allowed_regions", vstrs (rp_allowed_regions p))].

Record RecallResult := mkRecallResult {
  rr_identities : list IdentityRecord;
  rr_merges : list IdentityMerge;
  rr_representatives : list RawCandidateRecord;
  rr_exclusions : list RecallExclusion;
  rr_raw_record_count : Z
}.

(** ** Evidence *)

Record EvidencePolicy := mkEvidencePolicy {
  ep_field : string;
  ep_allowed_source_classes : list string;
  ep_allowed_verification_methods : list string;
  ep_required_scope : string;
  ep_freshness_sla_seconds : Z
}.

Definition EvidencePolicy_check (p : EvidencePolicy) : result EvidencePolicy :=
  _ ← raise_if (any_empty [ep_field p; ep_required_scope p] || (ep_freshness_sla_seconds p <? 1))
        (DomainValidationError "an evidence policy requires scope and a positive SLA");
  Ok p.

Definition evidence_policy_payload (p : EvidencePolicy) : PyVal :=
  dict [("field", VStr (ep_field p)); ("allowed_source_classes", vstrs (ep_allowed_source_classes p));
        ("allowed_verification_methods", vstrs (ep_allowed_verification_methods p));
        ("required_scope", VStr (ep_required_scope p));
        ("freshness_sla_seconds", VInt (ep_freshness_sla_seconds p))].

Definition age_payload (a : EvidenceAgeBounds) : PyVal :=
  dict [("lower", ratio_payload (ea_lower a)); ("upper", ratio_payload (ea_upper a))].

Record EvidenceAssessment := mkEvidenceAssessment {
  as_evidence_id : string;
  as_record_id : string;
  as_field : string;
  as_source_allowed : bool;
  as_method_allowed : bool;
  as_scope_match : bool;
  as_reconstructable : bool;
  as_freshness_current : option bool;
  as_disputed : bool;
  as_revoked : bool;
  as_state : EvidenceState.t;
  as_reasons : list string;
  as_age_bounds : option EvidenceAgeBounds
}.

Definition assessment_payload (a : EvidenceAssessment) : PyVal :=
  dict [("evidence_id", VStr (as_evidence_id a)); ("record_id", VStr (as_record_id a));
        ("field", VStr (as_field a)); ("source_allowed", VBool (as_source_allowed a));
        ("method_allowed", VBool (as_method_allowed a)); ("scope_match", VBool (as_scope_match a));
        ("reconstructable", VBool (as_reconstructable a));
        ("freshness_current", vopt VBool (as_freshness_current a));
        ("disputed", VBool (as_disputed a)); ("revoked", VBool (as_revoked a));
        ("state", VStr (EvidenceState.value (as_state a))); ("reasons", vstrs (as_reasons a));
        ("age_bounds", vopt age_payload (as_age_bounds a))].

(** ** Gates *)

Record Predicate := mkPredicate {
  p_field : string;
  p_operator : string;
  p_value : FactValue
}.

Definition Predicate_check (p : Predicate) : result Predicate :=
  _ ← raise_if (any_empty [p_field p; p_operator p])
        (DomainValidationError "a gate predicate requires field and operator");
  Ok p.

Definition predicate_payload (p : Predicate) : PyVal :=
  dict [("field", VStr (p_field p)); ("operator", VStr (p_operator p));
        ("value", value_payload (p_value p))].

Record GateRule := mkGateRule {
  g_gate_id : string;
  g_predicates : list Predicate;
  g_mode : GateMode.t;
  g_blocked_status : CandidateStatus.t;
  g_reason_code : string;
  g_source_fact_ids : list string;
  g_applies_to_actions : list SolutionAction.t;
  g_evidence_claim_ids : list string;
  g_permitted_resolution : option string;
  g_overridable : bool
}.

Definition GateRule_check (g : GateRule) : result GateRule :=
  _ ← require_id (g_gate_id g) "gate_id";
  _ ← raise_if (bool_decide (length (g_predicates g) = 0%nat) || is_empty (g_reason_code g))
        (DomainValidationError "a gate requires predicates and a reason");
  Ok (mkGateRule (g_gate_id g) (g_predicates g) (g_mode g) (g_blocked_status g) (g_reason_code g)
        (sorted_set (g_source_fact_ids g)) (g_applies_to_actions g)
        (sorted_set (g_evidence_claim_ids g)) (g_permitted_resolution g) (g_overridable g)).

Definition gate_payload (g : GateRule) : PyVal :=
  dict [("gate_id", VStr (g_gate_id g)); ("predicates", VList (predicate_payload <$> g_predicates g));
        ("mode", VStr (GateMode.value (g_mode g)));
        ("blocked_status", VStr (CandidateStatus.value (g_blocked_status g)));
        ("reason_code", VStr (g_reason_code g)); ("source_fact_ids", vstrs (g_source_fact_ids g));
        ("applies_to_actions", vactions (g_applies_to_actions g));
        ("evidence_claim_ids", vstrs (g_evidence_claim_ids g));
        ("permitted_resolution", vopt VStr (g_permitted_resolution g));
        ("overridable", VBool (g_overridable g))].

Record GateReason := mkGateReason {
  gn_reason_code : string;
  gn_status : CandidateStatus.t;
  gn_detail : string
}.

#[export] Instance GateReason_eq_dec : EqDecision GateReason.
Proof. solve_decision. Defined.

Record GateResult := mkGateResult {
  gr_gate_id : string;
  gr_truth : TruthValue.t;
  gr_reasons : list GateReason;
  gr_evaluated_predicates : list string;
  gr_permitted_resolution : option string
}.

(** ** Preferences and risk *)

Record PreferenceCriterion := mkPreferenceCriterion {
  pc_criterion_id : string;
  pc_field : string;
  pc_weight : Z;
  pc_coverage_weight : Z;
  pc_normalization : NormalizationKind.t;
  pc_expected : FactValue;
  pc_source_fact_ids : list string;
  pc_applies_to_actions : list SolutionAction.t;
  pc_allowed_satisfactions : list ExactRatio;
  pc_lower_is_better_points : list (Z * ExactRatio);
  pc_unknown_upper : option ExactRatio;
  pc_permitted_evidence_resolution : option string;
  pc_neutral_prior : option ExactRatio;
  pc_aggregation : string
}.

(** [tuple(sorted(points))]: two points with one maximum and different
    satisfactions compare the ratios, which have no order. *)
Definition sorted_points (points : list (Z * ExactRatio)) : result (list (Z * ExactRatio)) :=
  if existsb (λ p, existsb (λ q, (p.1 =? q.1) && negb (bool_decide (p.2 = q.2))) points) points
  then Raise TypeError
  else Ok (sorted_by fst points).

Definition in_domain (o : option ExactRatio) (allowed : list ExactRatio) : bool :=
  match o with Some r => py_in r allowed | None => true end.

(** [not 1 <= weight <= 5] *)
Definition bad_weight (w : Z) : bool := negb ((1 <=? w) && (w <=? 5)).

Definition PreferenceCriterion_check (c : PreferenceCriterion) : result PreferenceCriterion :=
  _ ← require_id (pc_criterion_id c) "criterion_id";
  _ ← raise_if (is_empty (pc_field c) || bad_weight (pc_weight c) || bad_weight (pc_coverage_weight c))
        (DomainValidationError "preference and coverage weights must be integers from 1 to 5");
  let allowed := sorted_by ratio_fraction (remove_dups (pc_allowed_satisfactions c)) in
  _ ← raise_if (match allowed, last allowed with
                | first :: _, Some final => py_lt (ratio_fraction first) 0%Q ||
                                            py_lt 1%Q (ratio_fraction final)
                | _, _ => true
                end)
        (DomainValidationError "normalization must declare a finite satisfaction domain");
  _ ← raise_if (negb (py_in (mkRatio 0 1) allowed))
        (DomainValidationError "normalization must define the zero satisfaction bound");
  _ ← raise_if (negb (py_in (pc_aggregation c)
          ["PRIMARY_COMPONENT"; "ALL"; "ANY"; "MIN"; "MAX"; "SUM"; "UNION"]))
        (DomainValidationError "unsupported plan field aggregation");
  _ ← raise_if (negb (in_domain (pc_unknown_upper c) allowed))
        (DomainValidationError "unknown preference bound must be in the declared domain");
  _ ← raise_if (negb (in_domain (pc_neutral_prior c) allowed))
        (DomainValidationError "neutral outcome prior must be in the declared domain");
  _ ← (if bool_decide (pc_normalization c = NormalizationKind.LOWER_IS_BETTER) then
         _ ← raise_if (bool_decide (length (pc_lower_is_better_points c) = 0%nat))
               (DomainValidationError "numeric normalization requires piecewise points");
         raise_if (existsb (λ p, negb (py_in p.2 allowed)) (pc_lower_is_better_points c))
           (DomainValidationError "piecewise values must be in the declared domain")
       else Ok ());
  _ ← raise_if (bool_decide (pc_normalization c = NormalizationKind.SET_CONTAINS_ALL) &&
                match pc_expected c with FVTuple _ => false | _ => true end)
        (DomainValidationError "set normalization requires a finite expected set");
  _ ← raise_if (bool_decide (pc_normalization c = NormalizationKind.OUTCOME_RATE) &&
                is_none (pc_neutral_prior c))
        (DomainValidationError "an outcome preference requires an explicit neutral prior");
  points ← sorted_points (pc_lower_is_better_points c);
  Ok (mkPreferenceCriterion (pc_criterion_id c) (pc_field c) (pc_weight c) (pc_coverage_weight c)
        (pc_normalization c) (pc_expected c) (sorted_set (pc_source_fact_ids c))
        (pc_applies_to_actions c) allowed points (pc_unknown_upper c)
        (pc_permitted_evidence_resolution c) (pc_neutral_prior c) (pc_aggregation c)).

Definition preference_payload (c : PreferenceCriterion) : PyVal :=
  dict [("criterion_id", VStr (pc_criterion_id c)); ("field", VStr (pc_field c));
        ("weight", VInt (pc_weight c)); ("coverage_weight", VInt (pc_coverage_weight c));
        ("normalization", VStr (NormalizationKind.value (pc_normalization c)));
        ("expected", value_payload (pc_expected c)); ("source_fact_ids", vstrs (pc_source_fact_ids c));
        ("applies_to_actions", vactions (pc_applies_to_actions c));
        ("allowed_satisfactions", VList (ratio_payload <$> pc_allowed_satisfactions c));
        ("lower_is_better_points",
          VList ((λ p, VList [VInt p.1; ratio_payload p.2]) <$> pc_lower_is_better_points c));
        ("unknown_upper", vopt ratio_payload (pc_unknown_upper c));
        ("permitted_evidence_resolution", vopt VStr (pc_permitted_evidence_resolution c));
        ("neutral_prior", vopt ratio_payload (pc_neutral_prior c));
        ("aggregation", VStr (pc_aggregation c))].

Record RiskRule := mkRiskRule {
  rk_rule_id : string;
  rk_actions : list SolutionAction.t;
  rk_predicate : option Predicate;
  rk_lower : StackRisk.t;
  rk_base : StackRisk.t;
  rk_upper : StackRisk.t;
  rk_missing_lower : option StackRisk.t;
  rk_missing_base : option StackRisk.t;
  rk_missing_upper : option StackRisk.t
}.

Definition RiskRule_check (r : RiskRule) : result RiskRule :=
  _ ← require_id (rk_rule_id r) "rule_id";
  _ ← raise_if (bool_decide (rk_actions r = []))
        (DomainValidationError "a risk rule requires an action scope");
  _ ← RiskBounds_new (rk_lower r) (rk_base r) (rk_upper r);
  _ ← match rk_missing_lower r, rk_missing_base r, rk_missing_upper r with
      | None, None, None => Ok ()
      | Some lower, Some base, Some upper => _ ← RiskBounds_new lower base upper; Ok ()
      | _, _, _ =>
          Raise (DomainValidationError "a risk missing-input bound requires lower/base/upper")
      end;
  Ok r.

Definition vrisk (r : StackRisk.t) : PyVal := VStr (StackRisk.value r).

Definition risk_rule_payload (r : RiskRule) : PyVal :=
  dict [("rule_id", VStr (rk_rule_id r)); ("actions", vactions (rk_actions r));
        ("predicate", vopt predicate_payload (rk_predicate r)); ("lower", vrisk (rk_lower r));
        ("base", vrisk (rk_base r)); ("upper", vrisk (rk_upper r));
        ("missing_lower", vopt vrisk (rk_missing_lower r));
        ("missing_base", vopt vrisk (rk_missing_base r));
        ("missing_upper", vopt vrisk (rk_missing_upper r))].

(** ** Actions, plans and evaluations *)

Record CurrentActionRecord := mkCurrentActionRecord {
  ca_action_id : string;
  ca_action : SolutionAction.t;
  ca_instance_id : string;
  ca_facts : list ProductFact;
  ca_cost : OfferCost;
  ca_available : bool;
  ca_permitted_resolution : option string
}.

Definition CurrentActionRecord_check (a : CurrentActionRecord) : result CurrentActionRecord :=
  _ ← require_id (ca_action_id a) "action_id";
  _ ← require_id (ca_instance_id a) "instance_id";
  Ok a.

Definition current_action_payload (a : CurrentActionRecord) : PyVal :=
  dict [("action_id", VStr (ca_action_id a)); ("action", VStr (SolutionAction.value (ca_action a)));
        ("instance_id", VStr (ca_instance_id a));
        ("facts", VList (product_fact_payload <$> ca_facts a)); ("cost", offer_payload (ca_cost a));
        ("available", VBool (ca_available a));
        ("permitted_resolution", vopt VStr (ca_permitted_resolution a))].

Record PlanComponent := mkPlanComponent {
  pk_component_id : string;
  pk_source_type : string;
  pk_action : SolutionAction.t
}.

Record ScoreComponent := mkScoreComponent {
  sc_criterion_id : string;
  sc_weight : Z;
  sc_conservative_satisfaction : ExactRatio;
  sc_optimistic_satisfaction : ExactRatio;
  sc_contribution_conservative : ExactRatio;
  sc_contribution_optimistic : ExactRatio;
  sc_evidence_ids : list string;
  sc_evidence_state : EvidenceState.t;
  sc_prior_label : option string
}.

Record HardCoverage := mkHardCoverage { hc_numerator : Z; hc_denominator : Z }.

Definition HardCoverage_new (numerator denominator : Z) : result HardCoverage :=
  _ ← raise_if ((denominator <? 1) || negb ((0 <=? numerator) && (numerator <=? denominator)))
        (DomainValidationError "hard coverage requires 0 <= numerator <= denominator");
  Ok (mkHardCoverage numerator denominator).

Record PlanDimensions := mkPlanDimensions {
  pd_preference : option PreferenceScoreBounds;
  pd_stack_risk : option RiskBounds;
  pd_total_cost : OfferCost;
  pd_coverage : option CoverageBounds;
  pd_age : option EvidenceAgeBounds;
  pd_hard_coverage : HardCoverage;
  pd_universe_coverage : ExactRatio;
  pd_unresolved_count : Z;
  pd_conflicting_count : Z;
  pd_triggered_risk_rule_ids : list string;
  pd_risk_input_hash : string;
  pd_bound_unavailable_reasons : list string
}.

(** The property [ordering_bounds]; it builds [CostBounds], which checks. *)
Definition ordering_bounds (d : PlanDimensions) : result (option OrderingBounds) :=
  match pd_preference d, pd_stack_risk d, oc_low (pd_total_cost d), oc_base (pd_total_cost d),
        oc_high (pd_total_cost d), pd_coverage d, pd_age d, pd_bound_unavailable_reasons d with
  | Some preference, Some risk, Some low, Some base, Some high, Some coverage, Some age, [] =>
      cost ← CostBounds_new low base high;
      Ok (Some (mkOrderingBounds preference risk cost coverage age))
  | _, _, _, _, _, _, _, _ => Ok None
  end.

Record EvaluatedPlan := mkEvaluatedPlan {
  pl_plan_id : string;
  pl_action : SolutionAction.t;
  pl_components : list PlanComponent;
  pl_component_hash : string;
  pl_construction_lifecycle : PlanLifecycle.t;
  pl_lifecycle : PlanLifecycle.t;
  pl_status : CandidateStatus.t;
  pl_primary_reason : option GateReason;
  pl_gate_results : list GateResult;
  pl_score_components : list ScoreComponent;
  pl_dimensions : PlanDimensions;
  pl_stable_action_ids : list string;
  pl_ordering_frontier_member : bool;
  pl_resolution_frontier_member : bool;
  pl_quote_required : bool;
  pl_quote_policy_reason : string;
  pl_permitted_resolution : option string;
  pl_autonomous_execution_allowed : bool
}.

Record EvaluationCoverage := mkEvaluationCoverage {
  ec_raw_record_count : Z;
  ec_pack_candidate_count : Z;
  ec_canonical_product_count : Z;
  ec_duplicate_count : Z;
  ec_generated_solution_plan_count : Z;
  ec_evaluated_solution_plan_count : Z;
  ec_excluded_count : Z;
  ec_statement : string
}.

Definition coverage_payload (c : EvaluationCoverage) : PyVal :=
  dict [("raw_record_count", VInt (ec_raw_record_count c));
        ("pack_candidate_count", VInt (ec_pack_candidate_count c));
        ("canonical_product_count", VInt (ec_canonical_product_count c));
        ("duplicate_count", VInt (ec_duplicate_count c));
        ("generated_solution_plan_count", VInt (ec_generated_solution_plan_count c));
        ("evaluated_solution_plan_count", VInt (ec_evaluated_solution_plan_count c));
        ("excluded_count", VInt (ec_excluded_count c)); ("statement", VStr (ec_statement c))].

Record OutcomeObservation := mkOutcomeObservation {
  oo_subject_id : string;
  oo_criterion_id : string;
  oo_value : ExactRatio;
  oo_evidence_ids : list string;
  oo_source_fact_ids : list string
}.

Definition OutcomeObservation_check (o : OutcomeObservation) : result OutcomeObservation :=
  _ ← require_id (oo_subject_id o) "outcome_subject_id";
  _ ← require_id (oo_criterion_id o) "outcome_criterion_id";
  Ok (mkOutcomeObservation (oo_subject_id o) (oo_criterion_id o) (oo_value o)
        (sorted_set (oo_evidence_ids o)) (sorted_set (oo_source_fact_ids o))).

Definition observation_payload (o : OutcomeObservation) : PyVal :=
  dict [("subject_id", VStr (oo_subject_id o)); ("criterion_id", VStr (oo_criterion_id o));
        ("value", ratio_payload (oo_value o)); ("evidence_ids", vstrs (oo_evidence_ids o));
        ("source_fact_ids", vstrs (oo_source_fact_ids o))].

Record DecisionGraphInput := mkDecisionGraphInput {
  gi_versions : FrozenVersions;
  gi_evaluated_at : datetime;
  gi_buyer_facts : list FrozenFact;
  gi_candidates : list RawCandidateRecord;
  gi_offers : list OfferCost;
  gi_evidence : list EvidenceRecord;
  gi_evidence_policies : list EvidencePolicy;
  gi_gates : list GateRule;
  gi_preferences : list PreferenceCriterion;
  gi_risk_rules : list RiskRule;
  gi_risk_rule_set_complete : bool;
  gi_current_actions : list CurrentActionRecord;
  gi_identity_normalization : IdentityNormalization;
  gi_outcome_values : list OutcomeObservation;
  gi_removed_private_fact_ids : gset string;
  gi_actor_conflict_resolutions : list ActorConflictResolution;
  gi_recall_policy : option RecallPolicy
}.

Definition unique_groups (g : DecisionGraphInput) : list (string * list string) :=
  [("buyer fact", ff_fact_id <$> gi_buyer_facts g); ("candidate record", rc_record_id <$> gi_candidates g);
   ("offer", oc_offer_id <$> gi_offers g); ("evidence", er_evidence_id <$> gi_evidence g);
   ("evidence policy", ep_field <$> gi_evidence_policies g); ("gate", g_gate_id <$> gi_gates g);
   ("preference", pc_criterion_id <$> gi_preferences g); ("risk rule", rk_rule_id <$> gi_risk_rules g);
   ("current action", ca_action_id <$> gi_current_actions g)].

Definition DecisionGraphInput_check (g : DecisionGraphInput) : result DecisionGraphInput :=
  _ ← raise_if (negb (is_aware (gi_evaluated_at g)))
        (DomainValidationError "evaluated_at must be timezone-aware");
  _ ← mapM (λ p, raise_if (negb (all_distinct p.2))
                   (DomainValidationError (p.1 ++ " identifiers must be unique"))) (unique_groups g);
  Ok g.

(** [replace(decision_input, removed_private_fact_ids=...)], which runs the
    checks again. *)
Definition with_removed (g : DecisionGraphInput) (removed : gset string) : result DecisionGraphInput :=
  DecisionGraphInput_check (mkDecisionGraphInput (gi_versions g) (gi_evaluated_at g) (gi_buyer_facts g) (gi_candidates g)
    (gi_offers g) (gi_evidence g) (gi_evidence_policies g) (gi_gates g) (gi_preferences g)
    (gi_risk_rules g) (gi_risk_rule_set_complete g) (gi_current_actions g)
    (gi_identity_normalization g) (gi_outcome_values g) removed (gi_actor_conflict_resolutions g)
    (gi_recall_policy g)).

Record DecisionGraphEvaluation := mkDecisionGraphEvaluation {
  ge_evaluation_id : string;
  ge_generated_at : datetime;
  ge_versions : FrozenVersions;
  ge_evaluated_at : datetime;
  ge_frozen_input_hashes : list (string * string);
  ge_removed_private_fact_ids : list string;
  ge_identity_records : list IdentityRecord;
  ge_identity_merges : list IdentityMerge;
  ge_recall_exclusions : list RecallExclusion;
  ge_evidence_assessments : list EvidenceAssessment;
  ge_plans : list EvaluatedPlan;
  ge_ranked_plan_ids : list string;
  ge_selected_plan_id : option string;
  ge_rank_stability : string;
  ge_ordering_frontier_plan_ids : list string;
  ge_bound_unavailable_plan_ids : list string;
  ge_coverage : EvaluationCoverage;
  ge_evaluation_payload_hash : string
}.

Record CounterfactualRecord := mkCounterfactualRecord {
  cf_outcome : CounterfactualOutcome.t;
  cf_removed_fact_ids : list string;
  cf_alternative_fact_id_sets : list (list string);
  cf_tested_limit : Z;
  cf_before_evaluation_payload_hash : string;
  cf_after_evaluation_payload_hash : option string;
  cf_generic_evaluation_payload_hash : string;
  cf_before_selected_plan_id : option string;
  cf_after_selected_plan_id : option string;
  cf_generic_selected_plan_id : option string;
  cf_changed_gate_ids : list string;
  cf_record_hash : string
}.

Record DecisionGraphDecision := mkDecisionGraphDecision {
  gd_base : DecisionGraphEvaluation;
  gd_generic : DecisionGraphEvaluation;
  gd_counterfactual : CounterfactualRecord;
  gd_decision_hash : string
}.

(** ** What the constructors store *)

Lemma ProductFact_new_Ok field value ids component f :
  ProductFact_new field value ids component = Ok f →
  f = mkProductFact field value (sorted_set ids) component.
Proof. unfold ProductFact_new. intros H. inv_result. done. Qed.

Lemma RawCandidateRecord_check_Ok r r' :
  RawCandidateRecord_check r = Ok r' →
  rc_record_id r' = rc_record_id r ∧ rc_product_id r' = rc_product_id r ∧
  rc_authority r' = rc_authority r ∧ rc_available r' = rc_available r ∧ rc_facts r' = rc_facts r ∧
  rc_seller_gate_ids r' = sorted_set (rc_seller_gate_ids r) ∧
  rc_required_product_ids r' = sorted_set (rc_required_product_ids r).
Proof. unfold RawCandidateRecord_check. intros H. inv_result. by split_and!. Qed.

Lemma RecallExclusion_new_Ok i code detail x :
  RecallExclusion_new i code detail = Ok x → x = mkRecallExclusion i code detail.
Proof. unfold RecallExclusion_new. intros H. inv_result. done. Qed.
