(* ===== verification/Recall.v ===== *)
(** * Recall, deduplication and evidence assessment: [decision_engine/graph_v1_recall.py]

    Aliases are followed to a canonical identity, candidate records with one
    identity collapse into a representative that keeps every fact value and the
    weakest authority, and every decision-material pair of evidence and field
    is assessed once. *)
From S2P Require Import Prelude PyText PyNumber PyTime Enums Money Bounds Hashing GraphModels.

Local Open Scope string_scope.
Local Open Scope Z_scope.

(** ** Canonical names *)

(** The loop of [_canonical]: [fuel] bounds the steps, and each step visits an
    alias that was not visited before. *)
Fixpoint canonical_go (fuel : nat) (aliases : list (string * string)) (visited : list string)
    (current : string) : result string :=
  match dict_get current aliases with
  | None => Ok current
  | Some next =>
      if py_in current visited
      then Raise (ValueError "identity normalization aliases contain a cycle")
      else match fuel with
           | O => Raise RecursionError
           | S fuel => canonical_go fuel aliases (current :: visited) next
           end
  end.

Definition _canonical (value : string) (aliases : list (string * string)) : result string :=
  canonical_go (length aliases) aliases [] (fold_strip value).

Definition identity_key : Type := string * string * string * string.

Definition _identity_key (record : RawCandidateRecord) (aliases : list (string * string))
  : result identity_key :=
  seller ← _canonical (rc_seller_id record) aliases;
  product ← _canonical (rc_product_id record) aliases;
  edition ← _canonical (rc_edition record) aliases;
  region ← _canonical (rc_region record) aliases;
  Ok (seller, product, edition, region).

Definition authority_rank (a : PackAuthority.t) : Z :=
  match a with
  | PackAuthority.SELLER_SEALED => 0
  | PackAuthority.PLATFORM_COMPILED => 1
  | PackAuthority.EXTERNAL_UNSEALED => 2
  end.

(** [max(authorities, key=authority_rank)] of a non-empty group. *)
Definition _authority_floor (first : RawCandidateRecord) (rest : list RawCandidateRecord) : PackAuthority.t :=
  max_by authority_rank (rc_authority first) (rc_authority <$> rest).

(** [digest.split(":", 1)[1][:20]] *)
Definition short_hash (digest : string) : string := of_chars (take 20 (drop 7 (chars digest))).

Definition _recall_exclusion (record : RawCandidateRecord) (decision_input : DecisionGraphInput)
    (aliases : list (string * string)) : result (option RecallExclusion) :=
  let exclude code detail :=
    (x ← RecallExclusion_new (rc_record_id record) code detail; Ok (Some x)) in
  if bool_decide (rc_pack_status record = "REVOKED") then
    exclude "PACK_REVOKED" "Pack version is revoked" else
  if bool_decide (rc_pack_status record = "SUPERSEDED") then
    exclude "PACK_SUPERSEDED" "Pack version is superseded" else
  match gi_recall_policy decision_input with
  | None => Ok None
  | Some policy =>
      if negb (py_in (rp_category_id policy) (rc_category_ids record)) then
        exclude "CATEGORY_MISMATCH" ("Pack does not support category " ++ rp_category_id policy) else
      if negb (py_in (rp_jtbd_id policy) (rc_jtbd_ids record)) then
        exclude "JTBD_MISMATCH" ("Pack does not support JTBD " ++ rp_jtbd_id policy) else
      normalized_region ← _canonical (rc_region record) aliases;
      allowed_regions ← mapM (λ v, _canonical v aliases) (rp_allowed_regions policy);
      if negb (py_in normalized_region allowed_regions) then
        exclude "REGION_UNSUPPORTED"
          ("Pack region " ++ rc_region record ++ " is outside the allowed region set")
      else Ok None
  end.

(** One pass over the records: the exclusions and the keyed records. *)
Fixpoint partition_records (records : list RawCandidateRecord) (decision_input : DecisionGraphInput)
    (aliases : list (string * string))
  : result (list RecallExclusion * list (identity_key * RawCandidateRecord)) :=
  match records with
  | [] => Ok ([], [])
  | record :: records =>
      exclusion ← _recall_exclusion record decision_input aliases;
      match exclusion with
      | Some x =>
          '(excluded, keyed) ← partition_records records decision_input aliases;
          Ok (x :: excluded, keyed)
      | None =>
          key ← _identity_key record aliases;
          '(excluded, keyed) ← partition_records records decision_input aliases;
          Ok (excluded, (key, record) :: keyed)
      end
  end.

Section recall.
Context `{Rfc8785}.

Definition key_payload (key : identity_key) : PyVal :=
  let '(seller, product, edition, region) := key in vstrs [seller; product; edition; region].

Definition _canonical_id (key : identity_key) : result string :=
  digest ← content_hash (key_payload key); Ok ("canonical_" ++ short_hash digest).

(** The facts of a group, each under its field and the hash of its value. *)
Definition keyed_facts (records : list RawCandidateRecord) : result (list (string * string * ProductFact)) :=
  mapM (λ fact, value_hash ← content_hash (value_payload (pf_value fact));
                Ok (pf_field fact, value_hash, fact))
    (r ← records; rc_facts r).

(** [values[key] = fact.value]: the value of the last fact with the key. *)
Definition last_value (facts : list ProductFact) : FactValue :=
  default FVNone (pf_value <$> last facts).

Definition _merge_facts (records : list RawCandidateRecord) (component_id : string)
  : result (list ProductFact) :=
  keyed ← keyed_facts records;
  mapM (λ group : string * string * list ProductFact,
    let '(field, _, facts) := group in
    ProductFact_new field (last_value facts) (sorted_set (f ← facts; pf_evidence_ids f))
      (Some component_id)) (group_sorted keyed).

(** What one group of records with identity [key] contributes. *)
Definition merge_group (aliases : list (string * string)) (key : identity_key)
    (first : RawCandidateRecord) (rest : list RawCandidateRecord)
  : result (IdentityRecord * RawCandidateRecord * list IdentityMerge) :=
  let group := first :: rest in
  let '(seller, product, edition, region) := key in
  canonical_id ← _canonical_id key;
  offers ← mapM (λ item, _canonical (rc_offer_id item) aliases) group;
  let identity := mkIdentityRecord canonical_id seller product edition region
    (rc_record_id <$> group) (sorted_set (rc_pack_id <$> group)) (sorted_set offers) in
  let anchor := min_by (λ item, (- rc_pack_version item, rc_record_id item)) first rest in
  anchor_offer ← _canonical (rc_offer_id anchor) aliases;
  facts ← _merge_facts group product;
  representative ← RawCandidateRecord_check
    (mkRawCandidateRecord canonical_id (rc_pack_id anchor) (rc_pack_version anchor) seller product
      edition region anchor_offer (_authority_floor first rest) (forallb rc_available group) facts
      (sorted_set (i ← group; rc_seller_gate_ids i)) (sorted_set (i ← group; rc_aliases i))
      (sorted_set (i ← group; rc_category_ids i)) (sorted_set (i ← group; rc_jtbd_ids i))
      "PUBLISHED" (sorted_set (i ← group; rc_required_product_ids i)));
  let merges := (λ duplicate,
    mkIdentityMerge canonical_id (rc_record_id duplicate)
      (sorted_by id ("CANONICAL_IDENTITY_MATCH" ::
        (if bool_decide (rc_offer_id duplicate = rc_offer_id first) then [] else ["OFFER_ALIAS"]) ++
        (if bool_decide (rc_edition duplicate = rc_edition first) then [] else ["EDITION_ALIAS"])))%list)
    <$> rest in
  Ok (identity, representative, merges).

Definition merge_groups (aliases : list (string * string))
    (keyed : list (identity_key * RawCandidateRecord))
  : result (list (IdentityRecord * RawCandidateRecord * list IdentityMerge)) :=
  mapM (λ group : identity_key * list RawCandidateRecord,
    match sorted_by rc_record_id group.2 with
    | first :: rest => merge_group aliases group.1 first rest
    | [] => Raise AssertionError
    end) (group_sorted keyed).

Definition recall_and_deduplicate (decision_input : DecisionGraphInput) : result RecallResult :=
  let aliases := in_aliases (gi_identity_normalization decision_input) in
  '(exclusions, keyed) ←
    partition_records (sorted_by rc_record_id (gi_candidates decision_input)) decision_input aliases;
  groups ← merge_groups aliases keyed;
  Ok (mkRecallResult
        ((λ g, g.1.1) <$> groups)
        (sorted_by (λ m, (im_canonical_id m, im_merged_record_id m)) (g ← groups; g.2))
        (sorted_by rc_record_id ((λ g, g.1.2) <$> groups))
        (sorted_by rx_record_id exclusions)
        (Z.of_nat (length (gi_candidates decision_input)))).
End recall.

(** ** Evidence assessment *)

Definition _scope_matches (required_scope actual_scope : string) : bool :=
  let required := fold_strip required_scope in
  let actual := fold_strip actual_scope in
  bool_decide (required = "*") || bool_decide (required = actual).

(** [reason] when [c]. *)
Definition when (c : bool) (reason : string) : list string := if c then [reason] else [].

Definition _assessment (record : EvidenceRecord) (policy : EvidencePolicy) (field : string)
    (evaluated_at : datetime) : result EvidenceAssessment :=
  let source_allowed := py_in (er_source_class record) (ep_allowed_source_classes policy) in
  let method_allowed := py_in (er_verification_method record) (ep_allowed_verification_methods policy) in
  let scope_match := _scope_matches (ep_required_scope policy) (er_verification_scope record) in
  let reasons := (when (negb source_allowed) "SOURCE_CLASS_NOT_ALLOWED" ++
                  when (negb method_allowed) "VERIFICATION_METHOD_NOT_ALLOWED" ++
                  when (negb scope_match) "VERIFICATION_SCOPE_MISMATCH" ++
                  when (negb (er_reconstructable record)) "NOT_RECONSTRUCTABLE" ++
                  when (er_disputed record) "DISPUTED" ++ when (er_revoked record) "REVOKED")%list in
  '(age_bounds, freshness_current) ←
    match er_observed_at_lower record, er_observed_at_upper record with
    | Some lower, Some upper =>
        age ← evidence_age_bounds evaluated_at lower upper (ep_freshness_sla_seconds policy);
        Ok (Some age, Some (py_le (ratio_fraction (ea_upper age)) 1%Q))
    | _, _ => Ok (None, None)
    end;
  let reasons := (reasons ++ match freshness_current with
                             | None => ["BOUND_UNAVAILABLE:EVIDENCE_TIME"]
                             | Some current => when (negb current) "STALE" end)%list in
  let state :=
    if er_disputed record || er_revoked record then EvidenceState.CONFLICT
    else if bool_decide (freshness_current = Some false) then EvidenceState.STALE
    else if negb source_allowed || negb method_allowed || negb scope_match ||
            negb (er_reconstructable record) || is_none freshness_current
    then EvidenceState.UNKNOWN
    else EvidenceState.ACCEPTABLE in
  Ok (mkEvidenceAssessment (er_evidence_id record) (er_record_id record) field source_allowed
        method_allowed scope_match (er_reconstructable record) freshness_current
        (er_disputed record) (er_revoked record) state (sorted_by id reasons) age_bounds).

Definition missing_assessment (evidence_id field : string) : EvidenceAssessment :=
  mkEvidenceAssessment evidence_id ("missing_record_" ++ evidence_id) field false false false false
    None false false EvidenceState.UNKNOWN
    ["BOUND_UNAVAILABLE:EVIDENCE_TIME"; "MISSING_EVIDENCE_RECORD"] None.

(** [(evidence_id, fact.field)] for every evidence identifier of a fact. *)
Definition fact_pairs (facts : list ProductFact) : list (string * string) :=
  f ← facts; e ← pf_evidence_ids f; [(e, pf_field f)].

(** The decision-material pairs of evidence and field, sorted. *)
Definition evidence_pairs (decision_input : DecisionGraphInput) (recall : RecallResult)
  : list (string * string) :=
  let criterion_fields := (λ c, (pc_criterion_id c, pc_field c)) <$> gi_preferences decision_input in
  sorted_set
    ((c ← rr_representatives recall; fact_pairs (rc_facts c)) ++
     (a ← gi_current_actions decision_input; fact_pairs (ca_facts a)) ++
     (o ← gi_outcome_values decision_input;
      match dict_get (oo_criterion_id o) criterion_fields with
      | None => []
      | Some field => (λ e, (e, field)) <$> oo_evidence_ids o
      end))%list.

Definition assess_pair (decision_input : DecisionGraphInput) (pair : string * string)
  : result EvidenceAssessment :=
  let evidence_by_id := (λ e, (er_evidence_id e, e)) <$> gi_evidence decision_input in
  let policies := (λ p, (ep_field p, p)) <$> gi_evidence_policies decision_input in
  match dict_get pair.2 policies with
  | None => Raise (DomainValidationError
              ("missing evidence policy for decision-material field " ++ pair.2))
  | Some policy =>
      match dict_get pair.1 evidence_by_id with
      | None => Ok (missing_assessment pair.1 pair.2)
      | Some record => _assessment record policy pair.2 (gi_evaluated_at decision_input)
      end
  end.

Definition assess_evidence (decision_input : DecisionGraphInput) (recall : RecallResult)
  : result (list EvidenceAssessment) :=
  mapM (assess_pair decision_input) (evidence_pairs decision_input recall).

(** ** Following aliases *)

(** A chain of aliases without repetition. *)
Fixpoint alias_steps (n : nat) (aliases : list (string * string)) (s : string) : option string :=
  match n with
  | O => Some s
  | S n => match dict_get s aliases with Some t => alias_steps n aliases t | None => None end
  end.

(** What [_canonical] promises: the end of the alias chain. *)
Definition alias_end (aliases : list (string * string)) (s t : string) : Prop :=
  dict_get t aliases = None ∧ ∃ n, alias_steps n aliases s = Some t.

Lemma alias_steps_add n m aliases s :
  alias_steps (n + m) aliases s = alias_steps n aliases s ≫= alias_steps m aliases.
Proof. revert s. induction n as [|n IH]; intros s; cbn; [done|]. by destruct (dict_get s aliases). Qed.

Lemma alias_end_step aliases s t u :
  dict_get s aliases = Some t → alias_end aliases s u ↔ alias_end aliases t u.
Proof.
  intros E. unfold alias_end. split; intros [Hu [n Hn]]; (split; [done|]).
  - destruct n as [|n]; cbn in Hn; [congruence|]. rewrite E in Hn. eauto.
  - exists (S n). cbn. by rewrite E.
Qed.

(** A name that comes back to itself has no end. *)
Lemma alias_cycle_no_end aliases s n t :
  alias_steps (S n) aliases s = Some s → ¬ alias_end aliases s t.
Proof.
  intros Hc [Ht [m Hm]].
  assert (∀ k, alias_steps (k * S n) aliases s = Some s) as Hk.
  { induction k as [|k IH]; [done|]. change (S k * S n)%nat with (S n + k * S n)%nat.
    by rewrite alias_steps_add, Hc. }
  assert (alias_steps (m + 1) aliases s = None) as Hnone.
  { rewrite alias_steps_add, Hm. cbn. by rewrite Ht. }
  specialize (Hk (S m)). replace (S m * S n)%nat with ((m + 1) + (S m * S n - (m + 1)))%nat in Hk by lia.
  rewrite alias_steps_add, Hnone in Hk. done.
Qed.

(** The fuel is enough: the visited names are distinct keys that lead here. *)
Lemma canonical_go_spec fuel aliases visited s :
  NoDup visited → visited ⊆ aliases.*1 → (length aliases ≤ fuel + length visited)%nat →
  (∀ v, v ∈ visited → ∃ n, alias_steps (S n) aliases v = Some s) →
  match canonical_go fuel aliases visited s with
  | Ok t => alias_end aliases s t
  | Raise e => e = ValueError "identity normalization aliases contain a cycle" ∧
               ∀ t, ¬ alias_end aliases s t
  end.
Proof.
  revert visited s. induction fuel as [|fuel IH]; intros visited s Hnd Hsub Hlen Hpath;
    cbn [canonical_go]; (destruct (dict_get s aliases) as [t|] eqn:E; [|by split; [|exists 0%nat]]);
    (destruct (py_in s visited) eqn:V;
      [apply py_in_true in V; split; [done|]; intros u; destruct (Hpath s V) as [n Hn];
       by eapply alias_cycle_no_end|]); apply py_in_false in V;
    (assert (s :: visited ⊆ aliases.*1) as Hsub'
      by (apply dict_get_Some in E; intros v [->|Hv]%elem_of_cons; [|by apply Hsub];
          apply list_elem_of_fmap; by exists (s, t)));
    (assert (NoDup (s :: visited)) as Hnd' by by apply NoDup_cons);
    (assert (length (s :: visited) ≤ length aliases)%nat as Hle
      by (rewrite <- (length_fmap fst aliases); by apply submseteq_length, NoDup_submseteq));
    cbn [length] in Hle.
  - lia.
  - assert (∀ v, v ∈ s :: visited → ∃ n, alias_steps (S n) aliases v = Some t) as Hpath'.
    { intros v [->|Hv]%elem_of_cons; [exists 0%nat; cbn; by rewrite E|].
      destruct (Hpath v Hv) as [n Hn]. exists (S n).
      replace (S (S n)) with (S n + 1)%nat by lia. rewrite alias_steps_add, Hn. cbn. by rewrite E. }
    specialize (IH (s :: visited) t Hnd' Hsub' ltac:(cbn; lia) Hpath').
    destruct (canonical_go fuel aliases (s :: visited) t) as [u|e].
    + by apply (alias_end_step _ _ _ u E).
    + destruct IH as [-> IH]. split; [done|]. intros u Hu. apply (IH u). by apply (alias_end_step _ s).
Qed.

(** C32: following aliases always terminates: it returns the end of the chain of
    the folded name when the chain has one, and raises the cycle error exactly
    when it has none. *)
Theorem canonical_follows_aliases (value : string) (aliases : list (string * string)) :
  match _canonical value aliases with
  | Ok t => alias_end aliases (fold_strip value) t
  | Raise e => e = ValueError "identity normalization aliases contain a cycle" ∧
               ∀ t, ¬ alias_end aliases (fold_strip value) t
  end.
Proof. apply canonical_go_spec; [constructor|set_solver|cbn; lia|set_solver]. Qed.

(** ** Every candidate is accounted for once *)

Lemma recall_exclusion_id r g aliases x :
  _recall_exclusion r g aliases = Ok (Some x) → rx_record_id x = rc_record_id r.
Proof.
  assert (∀ code detail o, (x ← RecallExclusion_new (rc_record_id r) code detail; Ok (Some x)) = Ok (Some o) →
            rx_record_id o = rc_record_id r) as W.
  { intros code detail o H. inv_result. apply RecallExclusion_new_Ok in H. by subst. }
  unfold _recall_exclusion. intros H. repeat case_match; try exact (W _ _ _ H); try discriminate H.
  apply bind_Ok in H as (region & _ & H). apply bind_Ok in H as (allowed & _ & H).
  case_match; [exact (W _ _ _ H)|discriminate H].
Qed.

(** A record is either excluded or keyed. *)
Lemma partition_records_cover records g aliases excluded keyed r :
  partition_records records g aliases = Ok (excluded, keyed) → r ∈ records →
  (∃ x, x ∈ excluded ∧ rx_record_id x = rc_record_id r) ∨ (∃ k, (k, r) ∈ keyed).
Proof.
  revert excluded keyed. induction records as [|r' records IH]; intros excluded keyed; [set_solver|].
  cbn [partition_records]. intros H Hr. apply bind_Ok in H as ([x|] & Hx & H).
  - apply bind_Ok in H as ([ex ke] & Hrest & [= <- <-]).
    apply elem_of_cons in Hr as [->|Hr].
    + left. exists x. split; [set_solver|]. by eapply recall_exclusion_id.
    + destruct (IH _ _ Hrest Hr) as [(y & ? & ?)|?]; [left; exists y; set_solver|by right].
  - apply bind_Ok in H as (key & Hkey & H). apply bind_Ok in H as ([ex ke] & Hrest & [= <- <-]).
    apply elem_of_cons in Hr as [->|Hr]; [right; exists key; set_solver|].
    destruct (IH _ _ Hrest Hr) as [?|(k & ?)]; [by left|right; exists k; set_solver].
Qed.

(** What the pass over the sorted records returns. *)
Lemma partition_records_Ok records g aliases excluded keyed :
  partition_records records g aliases = Ok (excluded, keyed) →
  (rx_record_id <$> excluded) ++ (rc_record_id <$> keyed.*2) ≡ₚ rc_record_id <$> records ∧
  ∀ k r, (k, r) ∈ keyed ↔ r ∈ records ∧ _recall_exclusion r g aliases = Ok None ∧ _identity_key r aliases = Ok k.
Proof.
  revert excluded keyed. induction records as [|r records IH]; intros excluded keyed; cbn [partition_records].
  - intros [= <- <-]. split; [done|]. set_solver.
  - intros H. apply bind_Ok in H as ([x|] & Hx & H).
    + apply bind_Ok in H as ([ex ke] & Hrest & [= <- <-]). destruct (IH _ _ Hrest) as [P E]. split.
      * cbn. rewrite P, (recall_exclusion_id _ _ _ _ Hx). done.
      * intros k r'. rewrite E. split; [set_solver|].
        intros ([->|?]%elem_of_cons & ? & ?); [congruence|done].
    + apply bind_Ok in H as (key & Hkey & H). apply bind_Ok in H as ([ex ke] & Hrest & [= <- <-]).
      destruct (IH _ _ Hrest) as [P E]. split.
      * cbn. rewrite <- P. symmetry. apply Permutation_middle.
      * intros k r'. rewrite elem_of_cons, E. split.
        -- intros [[= -> ->]|?]; set_solver.
        -- intros ([->|?]%elem_of_cons & ? & ?); [left; congruence|auto].
Qed.

(** ** A representative never looks better than its members *)

Section merging.
Context `{Rfc8785}.

(** [g] still reports what [f] reported: the field, the value up to its
    canonical form, and all its evidence. *)
Definition keeps_fact (f g : ProductFact) : Prop :=
  pf_field g = pf_field f ∧
  content_hash (value_payload (pf_value g)) = content_hash (value_payload (pf_value f)) ∧
  pf_evidence_ids f ⊆ pf_evidence_ids g.

Record stands_for (group : list RawCandidateRecord) (r : RawCandidateRecord) : Prop := {
  sf_authority c : c ∈ group → authority_rank (rc_authority c) <= authority_rank (rc_authority r);
  sf_available c : c ∈ group → rc_available r = true → rc_available c = true;
  sf_facts c f : c ∈ group → f ∈ rc_facts c → ∃ g, g ∈ rc_facts r ∧ keeps_fact f g;
  sf_evidence g e : g ∈ rc_facts r → e ∈ pf_evidence_ids g →
    ∃ c f, c ∈ group ∧ f ∈ rc_facts c ∧ keeps_fact f g ∧ e ∈ pf_evidence_ids f;
  sf_gates c : c ∈ group → rc_seller_gate_ids c ⊆ rc_seller_gate_ids r;
  sf_required c : c ∈ group → rc_required_product_ids c ⊆ rc_required_product_ids r
}.

Lemma elem_of_keyed_facts group keyed field hash f :
  keyed_facts group = Ok keyed →
  (field, hash, f) ∈ keyed ↔
  ∃ c, c ∈ group ∧ f ∈ rc_facts c ∧ field = pf_field f ∧ content_hash (value_payload (pf_value f)) = Ok hash.
Proof.
  intros Hk. unfold keyed_facts in Hk. rewrite (mapM_Ok_elem _ _ _ _ Hk). split.
  - intros (f' & (c & Hf & Hc)%list_elem_of_bind & E). apply bind_Ok in E as (h & Eh & [= <- <- <-]). eauto.
  - intros (c & Hc & Hf & -> & Eh). exists f. rewrite Eh. split; [|done].
    apply list_elem_of_bind. eauto.
Qed.

(** The value a merged fact keeps is that of one of its facts. *)
Lemma last_value_elem facts : facts ≠ [] → ∃ f, f ∈ facts ∧ last_value facts = pf_value f.
Proof.
  intros Hne. unfold last_value. destruct (last facts) as [f|] eqn:E.
  - exists f. split; [by apply last_Some_elem_of|done].
  - by apply last_None in E.
Qed.

Lemma merge_facts_group group component facts g :
  _merge_facts group component = Ok facts → g ∈ facts →
  ∃ fs : list ProductFact, fs ≠ [] ∧
    (∀ f, f ∈ fs → (∃ c, c ∈ group ∧ f ∈ rc_facts c) ∧ keeps_fact f g) ∧
    (∀ e, e ∈ pf_evidence_ids g ↔ ∃ f, f ∈ fs ∧ e ∈ pf_evidence_ids f).
Proof.
  intros Hm Hg. unfold _merge_facts in Hm. apply bind_Ok in Hm as (keyed & Hk & Hm).
  apply (mapM_Ok_elem _ _ _ _ Hm) in Hg as ([[field hash] fs] & Hgroup & Eg).
  pose proof (group_sorted_ne _ _ Hgroup) as Hne. apply elem_of_group_sorted in Hgroup as [_ Efs].
  cbn in Efs, Hne. apply ProductFact_new_Ok in Eg.
  assert (∀ f, f ∈ fs → ∃ c, c ∈ group ∧ f ∈ rc_facts c ∧ field = pf_field f ∧
            content_hash (value_payload (pf_value f)) = Ok hash) as Hfs.
  { intros f Hf. rewrite Efs, elem_of_items_of in Hf. by apply (elem_of_keyed_facts _ _ _ _ _ Hk). }
  assert (∀ e, e ∈ pf_evidence_ids g ↔ ∃ f, f ∈ fs ∧ e ∈ pf_evidence_ids f) as Hev.
  { intros e. subst g. cbn. rewrite !elem_of_sorted_set, list_elem_of_bind. naive_solver. }
  exists fs. split; [done|]. split; [|done]. intros f Hf.
  destruct (Hfs f Hf) as (c & Hc & Hfc & Ef & Eh). split; [eauto|].
  destruct (last_value_elem fs Hne) as (w & Hw & Elast). destruct (Hfs w Hw) as (? & _ & _ & _ & Ew).
  unfold keeps_fact. split_and!.
  - subst g. cbn. done.
  - subst g. cbn. rewrite Elast. congruence.
  - intros e He. apply Hev. eauto.
Qed.

(** Every fact of every member reaches the merged list. *)
Lemma merge_facts_keeps group component facts c f :
  _merge_facts group component = Ok facts → c ∈ group → f ∈ rc_facts c →
  ∃ g, g ∈ facts ∧ keeps_fact f g.
Proof.
  intros Hm Hc Hf. pose proof Hm as Hm'. unfold _merge_facts in Hm'.
  apply bind_Ok in Hm' as (keyed & Hk & Hm').
  assert (∃ hash, content_hash (value_payload (pf_value f)) = Ok hash) as [hash Eh].
  { unfold keyed_facts in Hk. apply mapM_Ok in Hk.
    assert (f ∈ (r ← group; rc_facts r)) as Hin by (apply list_elem_of_bind; eauto).
    apply list_elem_of_lookup in Hin as [i Hi]. destruct (Forall2_lookup_l _ _ _ _ _ Hk Hi) as (p & _ & Ep).
    apply bind_Ok in Ep as (h & Eh & _). eauto. }
  assert ((pf_field f, hash, f) ∈ keyed) as Hin by (apply (elem_of_keyed_facts _ _ _ _ _ Hk); eauto).
  set (grp := (pf_field f, hash, items_of (pf_field f, hash) keyed)).
  assert (grp ∈ group_sorted keyed) as Hgrp.
  { apply elem_of_group_sorted. split; [|done]. apply list_elem_of_fmap. by exists (pf_field f, hash, f). }
  apply list_elem_of_lookup in Hgrp as [i Hi]. apply mapM_Ok in Hm' as Hm2.
  destruct (Forall2_lookup_l _ _ _ _ _ Hm2 Hi) as (g & Hg & Eg).
  apply list_elem_of_lookup_2 in Hg. exists g. split; [done|].
  cbn in Eg. apply ProductFact_new_Ok in Eg.
  assert (f ∈ items_of (pf_field f, hash) keyed) as Hfi by by apply elem_of_items_of.
  destruct (last_value_elem (items_of (pf_field f, hash) keyed)) as (w & Hw & Elast).
  { intros E. rewrite E in Hfi. set_solver. }
  apply elem_of_items_of, (elem_of_keyed_facts _ _ _ _ _ Hk) in Hw as (? & _ & _ & _ & Ew).
  subst g. unfold keeps_fact. cbn. split_and!; [done|rewrite Elast; congruence|].
  intros e He. rewrite !elem_of_sorted_set, list_elem_of_bind. eauto.
Qed.

Lemma authority_floor_max first rest c :
  c ∈ first :: rest → authority_rank (rc_authority c) <= authority_rank (_authority_floor first rest).
Proof.
  intros Hc. apply Z_le_iff.
  apply (max_by_ge authority_rank (rc_authority first) (rc_authority <$> rest) (rc_authority c)).
  apply elem_of_cons in Hc as [->|Hc]; [by left|right]. by apply list_elem_of_fmap_2.
Qed.

Lemma merge_group_Ok aliases key first rest i r ms :
  merge_group aliases key first rest = Ok (i, r, ms) →
  stands_for (first :: rest) r ∧ ir_record_ids i = rc_record_id <$> first :: rest ∧
  ir_canonical_id i = rc_record_id r ∧ im_merged_record_id <$> ms = rc_record_id <$> rest.
Proof.
  destruct key as [[[seller product] edition] region]. unfold merge_group. intros H1.
  apply bind_Ok in H1 as (cid & _ & H1). apply bind_Ok in H1 as (offers & _ & H1).
  apply bind_Ok in H1 as (offer & _ & H1). apply bind_Ok in H1 as (facts & Hf & H1).
  apply bind_Ok in H1 as (rep & Hr & [= <- <- <-]).
  apply RawCandidateRecord_check_Ok in Hr as (Eid & _ & Ea & Eav & Ef & Eg & Er).
  cbn [rc_record_id rc_authority rc_available rc_facts rc_seller_gate_ids rc_required_product_ids]
    in Eid, Ea, Eav, Ef, Eg, Er.
  split; [|split_and!; [done..|by rewrite <- list_fmap_compose]].
  constructor.
  - intros c Hc. rewrite Ea. by apply authority_floor_max.
  - intros c Hc. rewrite Eav. change (rc_available first && forallb rc_available rest)
      with (forallb rc_available (first :: rest)). rewrite forallb_Forall. auto.
  - intros c f Hc Hfc. rewrite Ef. by eapply merge_facts_keeps.
  - intros g e Hg He. rewrite Ef in Hg.
    destruct (merge_facts_group _ _ _ _ Hf Hg) as (fs & _ & Hall & Hev).
    destruct (proj1 (Hev e) He) as (f & Hfs' & He'). destruct (Hall f Hfs') as [(c & Hc & Hfc) Hk].
    exists c, f. done.
  - intros c Hc e He. rewrite Eg, !elem_of_sorted_set.
    apply list_elem_of_bind. eauto.
  - intros c Hc e He. rewrite Er, !elem_of_sorted_set.
    apply list_elem_of_bind. eauto.
Qed.

Definition group_result (group : identity_key * list RawCandidateRecord)
    (out : IdentityRecord * RawCandidateRecord * list IdentityMerge) : Prop :=
  let members := sorted_by rc_record_id group.2 in
  stands_for members out.1.2 ∧ ir_record_ids out.1.1 = rc_record_id <$> members ∧
  ir_canonical_id out.1.1 = rc_record_id out.1.2 ∧ length members = S (length out.2).

Lemma merge_groups_Ok aliases keyed groups :
  merge_groups aliases keyed = Ok groups → Forall2 group_result (group_sorted keyed) groups.
Proof.
  unfold merge_groups. rewrite mapM_Ok. intros H1. eapply Forall2_impl; [exact H1|].
  intros [key members] [[i r] ms] E. unfold group_result. cbn [fst snd] in E |- *.
  destruct (sorted_by rc_record_id members) as [|first rest]; [done|].
  destruct (merge_group_Ok _ _ _ _ _ _ _ E) as (? & ? & ? & Elen). split_and!; [done..|].
  apply (f_equal length) in Elen. rewrite !length_fmap in Elen. cbn. lia.
Qed.

Lemma grouped_record_ids keyed groups :
  Forall2 group_result (group_sorted keyed) groups →
  mjoin ((λ g, ir_record_ids g.1.1) <$> groups) ≡ₚ rc_record_id <$> keyed.*2.
Proof.
  intros HF. rewrite <- (group_sorted_perm keyed).
  induction HF as [|[key members] [[i r] ms] gs outs (_ & Eids & _ & _) HF IH]; [done|].
  cbn [fst snd] in Eids. rewrite !fmap_cons, !join_cons. cbn [fst snd].
  rewrite Eids, fmap_app, IH, sorted_by_perm. done.
Qed.

Lemma grouped_lengths keyed groups :
  Forall2 group_result (group_sorted keyed) groups →
  length keyed = (length groups + length (g ← groups; g.2))%nat.
Proof.
  intros HF. rewrite <- (length_fmap snd keyed), <- (group_sorted_perm keyed).
  induction HF as [|[key members] [[i r] ms] gs outs (_ & _ & _ & Elen) HF IH]; [done|].
  cbn [fst snd] in Elen. rewrite fmap_cons, join_cons, bind_cons, !length_app, IH. cbn [fst snd].
  rewrite <- (length_sorted_by rc_record_id members), Elen. cbn [length]. lia.
Qed.
End merging.

(** ** Properties of recall *)

Section recall_properties.
Context `{Rfc8785}.

Lemma recall_Ok g r :
  recall_and_deduplicate g = Ok r →
  ∃ excluded keyed groups,
    partition_records (sorted_by rc_record_id (gi_candidates g)) g
      (in_aliases (gi_identity_normalization g)) = Ok (excluded, keyed) ∧
    Forall2 group_result (group_sorted keyed) groups ∧
    r = mkRecallResult ((λ g, g.1.1) <$> groups)
          (sorted_by (λ m, (im_canonical_id m, im_merged_record_id m)) (g ← groups; g.2))
          (sorted_by rc_record_id ((λ g, g.1.2) <$> groups)) (sorted_by rx_record_id excluded)
          (Z.of_nat (length (gi_candidates g))).
Proof.
  unfold recall_and_deduplicate. intros H1. apply bind_Ok in H1 as ([excluded keyed] & Hp & H1).
  apply bind_Ok in H1 as (groups & Hg & [= <-]). apply merge_groups_Ok in Hg. eauto 10.
Qed.

(** Recall accounts for every candidate record exactly once: the excluded
    records and the members of the identities are a permutation of the
    candidates, and the reported counts add up. *)
Theorem recall_partition (g : DecisionGraphInput) (r : RecallResult) :
  recall_and_deduplicate g = Ok r →
  (rx_record_id <$> rr_exclusions r) ++ mjoin (ir_record_ids <$> rr_identities r)
    ≡ₚ rc_record_id <$> gi_candidates g ∧
  length (rr_representatives r) = length (rr_identities r) ∧
  rr_raw_record_count r = Z.of_nat (length (rr_exclusions r) + length (rr_identities r) +
                                    length (rr_merges r)).
Proof.
  intros (excluded & keyed & groups & Hp & HF & ->)%recall_Ok. cbn [rr_exclusions rr_identities
    rr_merges rr_representatives rr_raw_record_count].
  destruct (partition_records_Ok _ _ _ _ _ Hp) as [P _].
  rewrite !length_sorted_by, !length_fmap. split_and!; [|done|].
  - rewrite sorted_by_perm, <- list_fmap_compose.
    rewrite (grouped_record_ids keyed groups HF : mjoin ((ir_record_ids ∘ (λ g, g.1.1)) <$> groups) ≡ₚ _).
    by rewrite P, sorted_by_perm.
  - apply Permutation_length in P. rewrite length_app, !length_fmap, length_sorted_by in P.
    rewrite (grouped_lengths keyed groups HF) in P. lia.
Qed.

(** C13: collapsing duplicates loses no record and invents nothing: every record
    that was not excluded is a member of an identity whose representative is
    available only if the record is, has no stronger authority, keeps every
    fact of the record with all its evidence, cites no evidence that no member
    had, and keeps its seller gates and dependencies.  The representative may
    still be judged better than a member, since the facts of one member stand
    beside those that another lacks. *)
Theorem recall_conservative (g : DecisionGraphInput) (r : RecallResult) :
  recall_and_deduplicate g = Ok r →
  ∀ c, c ∈ gi_candidates g →
  (∃ x, x ∈ rr_exclusions r ∧ rx_record_id x = rc_record_id c) ∨
  (∃ i rep members, i ∈ rr_identities r ∧ rep ∈ rr_representatives r ∧
     ir_canonical_id i = rc_record_id rep ∧ ir_record_ids i = rc_record_id <$> members ∧
     c ∈ members ∧ members ⊆ gi_candidates g ∧ stands_for members rep).
Proof.
  intros (excluded & keyed & groups & Hp & HF & ->)%recall_Ok c Hc. cbn [rr_exclusions rr_identities
    rr_representatives].
  destruct (partition_records_Ok _ _ _ _ _ Hp) as [_ Hkeyed].
  destruct (partition_records_cover _ _ _ _ _ c Hp) as [(x & Hx & E)|[key Hkc]];
    [by rewrite elem_of_sorted_by|left; exists x; by rewrite elem_of_sorted_by|right].
  assert ((key, items_of key keyed) ∈ group_sorted keyed) as Hgrp.
  { apply elem_of_group_sorted. split; [|done]. apply list_elem_of_fmap. by exists (key, c). }
  apply list_elem_of_lookup in Hgrp as [n Hn].
  destruct (Forall2_lookup_l _ _ _ _ _ HF Hn) as ([[i rep] ms] & Hout & Hs & Eids & Eid & _).
  apply list_elem_of_lookup_2 in Hout. cbn [fst snd] in *.
  exists i, rep, (sorted_by rc_record_id (items_of key keyed)). split_and!; [| |done..| | |done].
  - apply list_elem_of_fmap. by exists (i, rep, ms).
  - rewrite elem_of_sorted_by. apply list_elem_of_fmap. by exists (i, rep, ms).
  - by rewrite elem_of_sorted_by, elem_of_items_of.
  - intros c'. rewrite elem_of_sorted_by, elem_of_items_of, Hkeyed, elem_of_sorted_by. by intros [].
Qed.

(** The order of the candidates in the catalog does not matter. *)
Definition with_candidates (g : DecisionGraphInput) (candidates : list RawCandidateRecord) : DecisionGraphInput :=
  mkDecisionGraphInput (gi_versions g) (gi_evaluated_at g) (gi_buyer_facts g) candidates
    (gi_offers g) (gi_evidence g) (gi_evidence_policies g) (gi_gates g) (gi_preferences g)
    (gi_risk_rules g) (gi_risk_rule_set_complete g) (gi_current_actions g)
    (gi_identity_normalization g) (gi_outcome_values g) (gi_removed_private_fact_ids g)
    (gi_actor_conflict_resolutions g) (gi_recall_policy g).

Lemma partition_records_input records g g' aliases :
  gi_recall_policy g = gi_recall_policy g' →
  partition_records records g aliases = partition_records records g' aliases.
Proof.
  intros E. induction records as [|r records IH]; cbn [partition_records]; [done|].
  assert (_recall_exclusion r g aliases = _recall_exclusion r g' aliases) as ->
    by (unfold _recall_exclusion; by rewrite E).
  by rewrite IH.
Qed.

(** C31: with unique record identifiers, recall does not depend on the order in
    which the catalog lists the candidates. *)
Theorem recall_order_independent (g : DecisionGraphInput) (candidates : list RawCandidateRecord) :
  NoDup (rc_record_id <$> gi_candidates g) → gi_candidates g ≡ₚ candidates →
  recall_and_deduplicate (with_candidates g candidates) = recall_and_deduplicate g.
Proof.
  intros Hnd P. unfold recall_and_deduplicate. cbn [with_candidates gi_candidates gi_identity_normalization].
  rewrite (partition_records_input _ (with_candidates g candidates) g) by done.
  rewrite (sorted_by_unique rc_record_id (gi_candidates g) candidates); [by rewrite (Permutation_length P)| |done].
  intros x y Hx Hy E%py_cmp_eq. by eapply (NoDup_fmap_inj rc_record_id).
Qed.
End recall_properties.

(** ** Properties of the evidence assessment *)

(** What makes a record acceptable for a field under its policy. *)
Record acceptable (record : EvidenceRecord) (policy : EvidencePolicy) (evaluated_at : datetime) : Prop := {
  ac_source : er_source_class record ∈ ep_allowed_source_classes policy;
  ac_method : er_verification_method record ∈ ep_allowed_verification_methods policy;
  ac_scope : _scope_matches (ep_required_scope policy) (er_verification_scope record) = true;
  ac_reconstructable : er_reconstructable record = true;
  ac_undisputed : er_disputed record = false;
  ac_unrevoked : er_revoked record = false;
  ac_fresh : ∃ lower upper, er_observed_at_lower record = Some lower ∧
    er_observed_at_upper record = Some upper ∧
    instant evaluated_at - instant lower <= ep_freshness_sla_seconds policy * 1000000
}.

Lemma age_fresh at_ lower upper sla b :
  evidence_age_bounds at_ lower upper sla = Ok b →
  py_le (ratio_fraction (ea_upper b)) 1%Q = true ↔ instant at_ - instant lower <= sla * 1000000.
Proof.
  intros (Hs & _ & E & _)%evidence_age_bounds_Ok. rewrite Q_le_iff, E.
  assert (0 < inject_Z (sla * 1000000))%Q as Hp
    by (change 0%Q with (inject_Z 0); rewrite <- Zlt_Qlt; lia).
  rewrite Zle_Qle. set (d := inject_Z (sla * 1000000)) in *. clearbody d.
  set (a := inject_Z (instant at_ - instant lower)) in *. clearbody a. split; intros Hle.
  - assert (a == a / d * d)%Q as -> by (field; lra). nra.
  - apply Qle_shift_div_r; [done|]. lra.
Qed.

Lemma assessment_Ok record policy field at_ a :
  _assessment record policy field at_ = Ok a →
  as_evidence_id a = er_evidence_id record ∧ as_field a = field ∧
  (as_state a = EvidenceState.ACCEPTABLE ↔ acceptable record policy at_).
Proof.
  unfold _assessment. intros H. apply bind_Ok in H as ([age fresh] & Hage & [= <-]). cbn.
  split_and!; [done..|].
  assert (fresh = Some true ↔ ∃ lower upper, er_observed_at_lower record = Some lower ∧
    er_observed_at_upper record = Some upper ∧
    instant at_ - instant lower <= ep_freshness_sla_seconds policy * 1000000) as Hfresh.
  { destruct (er_observed_at_lower record) as [lower|], (er_observed_at_upper record) as [upper|];
      [|injection Hage as <- <-; naive_solver..].
    apply bind_Ok in Hage as (b & Hb & [= <- <-]). pose proof (age_fresh _ _ _ _ _ Hb) as Hf. split.
    - intros [= E]. exists lower, upper. by rewrite <- Hf.
    - intros (? & ? & [= <-] & [= <-] & Hle). f_equal. by apply Hf. }
  clear Hage. split.
  - intros Hst. destruct (er_disputed record) eqn:Hd; [done|]. destruct (er_revoked record) eqn:Hr; [done|].
    destruct fresh as [[]|]; [|done|revert Hst; cbn; rewrite orb_true_r; done].
    revert Hst. cbn. destruct (py_in _ (ep_allowed_source_classes policy)) eqn:Hs; [|done].
    destruct (py_in _ (ep_allowed_verification_methods policy)) eqn:Hm; [|done].
    destruct (_scope_matches _ _) eqn:Hsc; [|done]. destruct (er_reconstructable record) eqn:Hre; [|done].
    intros _. apply py_in_true in Hs, Hm. by constructor; [..|apply Hfresh].
  - intros [Hs%py_in_true Hm%py_in_true Hsc Hre Hd Hr Hf%Hfresh].
    by rewrite Hs, Hm, Hsc, Hre, Hd, Hr, Hf.
Qed.

(** C30: every decision-material pair of evidence and field is assessed exactly
    once, in order, and is ACCEPTABLE exactly when the record exists, its
    source, method and scope are allowed for the field, it is reconstructable,
    neither disputed nor revoked, and even its oldest observation is within
    the freshness budget. *)
Theorem assess_evidence_spec (g : DecisionGraphInput) (recall : RecallResult)
    (assessments : list EvidenceAssessment) :
  assess_evidence g recall = Ok assessments →
  (λ a, (as_evidence_id a, as_field a)) <$> assessments = evidence_pairs g recall ∧
  NoDup ((λ a, (as_evidence_id a, as_field a)) <$> assessments) ∧
  ∀ a, a ∈ assessments →
    as_state a = EvidenceState.ACCEPTABLE ↔
    ∃ record policy, record ∈ gi_evidence g ∧ er_evidence_id record = as_evidence_id a ∧
      dict_get (as_evidence_id a) ((λ e, (er_evidence_id e, e)) <$> gi_evidence g) = Some record ∧
      dict_get (as_field a) ((λ p, (ep_field p, p)) <$> gi_evidence_policies g) = Some policy ∧
      acceptable record policy (gi_evaluated_at g).
Proof.
  intros H. assert (∀ pair a, assess_pair g pair = Ok a →
    (as_evidence_id a, as_field a) = pair ∧
    (as_state a = EvidenceState.ACCEPTABLE ↔
     ∃ record policy, record ∈ gi_evidence g ∧ er_evidence_id record = pair.1 ∧
      dict_get pair.1 ((λ e, (er_evidence_id e, e)) <$> gi_evidence g) = Some record ∧
      dict_get pair.2 ((λ p, (ep_field p, p)) <$> gi_evidence_policies g) = Some policy ∧
      acceptable record policy (gi_evaluated_at g))) as W.
  { intros [i f] a Ha. unfold assess_pair in Ha. cbn [fst snd] in *.
    destruct (dict_get f _) as [policy|] eqn:Ep; [|done].
    destruct (dict_get i _) as [record|] eqn:Er; [|injection Ha as <-; cbn; naive_solver].
    apply assessment_Ok in Ha as (Ei & Ef & Est).
    pose proof (dict_get_Some _ _ _ Er) as (r' & [= -> ->] & Hin)%list_elem_of_fmap.
    split; [congruence|]. rewrite Est. naive_solver. }
  assert ((λ a, (as_evidence_id a, as_field a)) <$> assessments = evidence_pairs g recall) as E.
  { unfold assess_evidence in H. apply mapM_Ok in H.
    induction H as [|p a ps as_ Hpa _ IH]; [done|]. cbn. by rewrite IH, (proj1 (W _ _ Hpa)). }
  split_and!; [done|rewrite E; apply NoDup_sorted_set|].
  intros a Ha. apply (mapM_Ok_elem _ _ _ _ H) in Ha as (pair & _ & Hp).
  destruct (W _ _ Hp) as [E' Hst]. rewrite Hst. by subst pair.
Qed.
