(* ===== verification/Gates.v ===== *)
(** * Gates: fields, predicates and the status of a plan

    The gate part of [decision_engine/graph_v1.py]: what the evidence says
    about a field, the predicates of a gate, the truth of a gate with its
    reasons, and the primary status.  A plan without a reason is shown to have
    passed every gate on acceptable evidence, and conversely. *)
From S2P Require Import Prelude PyText PyNumber PyTime Enums Money Bounds Hashing GraphModels.

Local Open Scope string_scope.
Local Open Scope Z_scope.

Record _PlanMaterial := mkPlanMaterial {
  m_source_id : string;
  m_action : SolutionAction.t;
  m_component_id : string;
  m_component_ids : list string;
  m_facts : list ProductFact;
  m_gate_facts : list ProductFact;
  m_cost : OfferCost;
  m_payment_component_count : Z;
  m_available : bool;
  m_authority : option PackAuthority.t;
  m_seller_gate_ids : list string;
  m_permitted_resolution : option string;
  m_outcome_subject_id : string;
  m_dependency_issues : list string
}.

Record _FieldState := mkFieldState {
  fs_values : list FactValue;
  fs_state : EvidenceState.t;
  fs_evidence_ids : list string;
  fs_age_bounds : list EvidenceAgeBounds;
  fs_bound_reasons : list string
}.

Definition _STATUS_RANK (s : CandidateStatus.t) : Z :=
  match s with
  | CandidateStatus.UNAVAILABLE => 0
  | CandidateStatus.CONFLICTING_EVIDENCE => 1
  | CandidateStatus.STALE_EVIDENCE => 2
  | CandidateStatus.INSUFFICIENT_EVIDENCE => 3
  | CandidateStatus.SIRA_INELIGIBLE => 4
  | CandidateStatus.SEIL_PASS => 5
  | CandidateStatus.AUTHORITY_REQUIRED => 6
  | CandidateStatus.ADVISORY_ONLY => 7
  | CandidateStatus.CONDITIONAL => 8
  | CandidateStatus.ELIGIBLE_WITH_EXCEPTION => 9
  | CandidateStatus.ELIGIBLE => 10
  end.

Definition eligible_status (s : CandidateStatus.t) : bool :=
  py_in s [CandidateStatus.ELIGIBLE; CandidateStatus.ELIGIBLE_WITH_EXCEPTION].

(** ** The buyer's active facts *)

Definition _active_buyer_facts (g : DecisionGraphInput) : list FrozenFact :=
  List.filter (λ fact, negb (bool_decide (ff_fact_id fact ∈ gi_removed_private_fact_ids g)))
    (gi_buyer_facts g).
Definition _buyer_value_map (g : DecisionGraphInput) : list (string * FactValue) :=
  (λ fact, (ff_field fact, ff_value fact)) <$> _active_buyer_facts g.
Definition _active_source_ids (g : DecisionGraphInput) : list string :=
  ff_fact_id <$> _active_buyer_facts g.

(** ** Predicates *)

Definition _strict_equal (left right : FactValue) : bool := bool_decide (left = right).

(** [Fraction(str(value))] of an [int] or a [str]. *)
Definition value_fraction (v : FactValue) : result Q :=
  match v with
  | FVInt n => fraction_of_string (str_int n)
  | FVStr s => fraction_of_string s
  | _ => Raise TypeError
  end.

Definition is_number_or_text (v : FactValue) : bool :=
  match v with FVInt _ | FVStr _ => true | _ => false end.

Definition compare_as (operator : string) (l r : Q) : bool :=
  if bool_decide (operator = "lte") then py_le l r
  else if bool_decide (operator = "lt") then py_lt l r
  else if bool_decide (operator = "gte") then py_le r l
  else py_lt r l.

Definition _predicate_matches (value : FactValue) (predicate : Predicate) : result bool :=
  let expected := p_value predicate in
  let operator := p_operator predicate in
  if bool_decide (operator = "eq") then Ok (_strict_equal value expected) else
  if bool_decide (operator = "neq") then Ok (negb (_strict_equal value expected)) else
  if bool_decide (operator = "in") then
    Ok (match expected with FVTuple l => existsb (λ i, _strict_equal value (FVStr i)) l | _ => false end)
  else if bool_decide (operator = "contains_all") then
    Ok (match value, expected with
        | FVTuple actual, FVTuple wanted => forallb (λ i, existsb (λ a, bool_decide (i = a)) actual) wanted
        | _, _ => false
        end)
  else if py_in operator ["lte"; "lt"; "gte"; "gt"] then
    if negb (is_number_or_text value) || negb (is_number_or_text expected) then Ok false else
    left ← value_fraction value;
    right ← value_fraction expected;
    Ok (compare_as operator left right)
  else if bool_decide (operator = "exists") then Ok (negb (bool_decide (value = FVNone)))
  else Raise (ValueError ("unsupported deterministic predicate operator: " ++ operator)).

(** ** Fields *)

Definition index : Type := list (string * string * EvidenceAssessment).

Definition _assessment_index (assessments : list EvidenceAssessment) : index :=
  (λ a, (as_evidence_id a, as_field a, a)) <$> assessments.

(** [index[(e, field)] for e in evidence_ids if (e, field) in index] *)
Definition assessments_of (idx : index) (field : string) (evidence_ids : list string)
  : list EvidenceAssessment :=
  omap (λ e, dict_get (e, field) idx) evidence_ids.

Definition has_state (s : EvidenceState.t) (l : list EvidenceAssessment) : bool :=
  existsb (λ a, bool_decide (as_state a = s)) l.

(** The [BOUND_UNAVAILABLE] reasons of some assessments. *)
Definition unavailable_reasons (l : list EvidenceAssessment) : list string :=
  List.filter (λ r, startswith r "BOUND_UNAVAILABLE:") (a ← l; as_reasons a).

Section gates.
Context `{Rfc8785}.

(** The distinct values of some facts, in the order of their hashes. *)
Definition values_by_hash (matching : list ProductFact) : result (list FactValue) :=
  keyed ← mapM (λ fact, h ← content_hash (value_payload (pf_value fact)); Ok (h, pf_value fact)) matching;
  Ok ((λ group : string * list FactValue, default FVNone (last group.2)) <$> group_sorted keyed).

Definition _field_state (facts : list ProductFact) (field : string) (idx : index) : result _FieldState :=
  let matching := List.filter (λ fact, bool_decide (pf_field fact = field)) facts in
  if bool_decide (matching = []) then Ok (mkFieldState [] EvidenceState.UNKNOWN [] [] []) else
  let evidence_ids := sorted_set (f ← matching; pf_evidence_ids f) in
  let assessments := assessments_of idx field evidence_ids in
  values ← values_by_hash matching;
  let state :=
    if has_state EvidenceState.CONFLICT assessments || (1 <? length values)%nat
    then EvidenceState.CONFLICT
    else if has_state EvidenceState.ACCEPTABLE assessments then EvidenceState.ACCEPTABLE
    else if has_state EvidenceState.STALE assessments then EvidenceState.STALE
    else EvidenceState.UNKNOWN in
  Ok (mkFieldState values state evidence_ids (omap as_age_bounds assessments)
        (sorted_set (unavailable_reasons assessments))).

(** ** Gates that every plan has *)

Definition _gate_applies (gate : GateRule) (m : _PlanMaterial) (active : list string) : bool :=
  if negb (bool_decide (g_source_fact_ids gate = [])) && negb (py_subset (g_source_fact_ids gate) active)
  then false
  else if negb (bool_decide (g_applies_to_actions gate = [])) &&
          negb (py_in (m_action m) (g_applies_to_actions gate)) then false
  else if bool_decide (g_blocked_status gate = CandidateStatus.SEIL_PASS)
  then py_in (g_gate_id gate) (m_seller_gate_ids m)
  else true.

Definition _availability_gate (m : _PlanMaterial) : GateResult :=
  mkGateResult ("availability_" ++ m_source_id m)
    (if m_available m then TruthValue.TRUE else TruthValue.FALSE)
    (if m_available m then []
     else [mkGateReason "UNAVAILABLE" CandidateStatus.UNAVAILABLE "Action is unavailable"])
    ["availability"] (m_permitted_resolution m).

Definition _authority_gate (m : _PlanMaterial) : list GateResult :=
  match m_authority m with
  | None | Some PackAuthority.SELLER_SEALED => []
  | Some _ =>
      [mkGateResult ("authority_" ++ m_source_id m) TruthValue.FALSE
         [mkGateReason "SELLER_AUTHORITY_REQUIRED" CandidateStatus.ADVISORY_ONLY
            "The package is research-only until a seller seals it"]
         ["publisher_authority"] (Some "NEW_PACK_VERSION")]
  end.

Definition _dependency_gates (m : _PlanMaterial) : list GateResult :=
  imap (λ i issue,
    mkGateResult ("dependency_" ++ m_source_id m ++ "_" ++ str_int (Z.of_nat (S i))) TruthValue.FALSE
      [mkGateReason issue CandidateStatus.SIRA_INELIGIBLE
         "Required component dependency closure is not feasible"]
      ["component_dependency_closure"] None) (m_dependency_issues m).

Definition _component_field_states (m : _PlanMaterial) (field : string) (idx : index)
  : result (list _FieldState) :=
  if (length (m_component_ids m) =? 1)%nat then
    st ← _field_state (m_gate_facts m) field idx; Ok [st]
  else
    mapM (λ component_id,
      _field_state (List.filter (λ fact, bool_decide (pf_component_id fact = Some component_id))
                      (m_gate_facts m)) field idx) (m_component_ids m).

(** ** One gate *)

Definition outcome : Type := list TruthValue.t * list GateReason.

Definition is_seller_gate (gate : GateRule) : bool :=
  bool_decide (g_blocked_status gate = CandidateStatus.SEIL_PASS).

(** The evidence of a published seller rule. *)
Definition seller_rule_evidence (gate : GateRule) (idx : index) : outcome :=
  let referenced := (List.filter (λ p, py_in p.1.1 (g_evidence_claim_ids gate)) (dict_items idx)).*2 in
  let unknown := bool_decide (length referenced = 0%nat) || has_state EvidenceState.UNKNOWN referenced in
  let stale := has_state EvidenceState.STALE referenced in
  let conflict := has_state EvidenceState.CONFLICT referenced in
  ((if unknown then [TruthValue.UNKNOWN] else []) ++ (if stale then [TruthValue.UNKNOWN] else []) ++
   (if conflict then [TruthValue.CONFLICT] else []),
   (if unknown then [mkGateReason "INSUFFICIENT_SELLER_RULE_EVIDENCE"
      CandidateStatus.INSUFFICIENT_EVIDENCE
      "The published seller rule lacks reconstructable current evidence"] else []) ++
   (if stale then [mkGateReason "STALE_SELLER_RULE_EVIDENCE" CandidateStatus.STALE_EVIDENCE
      "The published seller rule evidence is stale"] else []) ++
   (if conflict then [mkGateReason "CONFLICTING_SELLER_RULE_EVIDENCE"
      CandidateStatus.CONFLICTING_EVIDENCE
      "The published seller rule evidence is disputed or revoked"] else []))%list.

Definition truth_of (b : bool) : TruthValue.t := if b then TruthValue.TRUE else TruthValue.FALSE.

Definition state_present (s : EvidenceState.t) (l : list _FieldState) : bool :=
  existsb (λ st, bool_decide (fs_state st = s)) l.

(** One iteration of the loop over the predicates. *)
Definition predicate_outcome (gate : GateRule) (m : _PlanMaterial)
    (buyer_values : list (string * FactValue)) (idx : index) (p : Predicate) : result outcome :=
  if is_seller_gate gate then
    match dict_get (p_field p) buyer_values with
    | None =>
        Ok ([TruthValue.UNKNOWN],
            [mkGateReason "SELLER_CONDITION_UNRESOLVED" CandidateStatus.CONDITIONAL
               ("Missing sanitized condition field " ++ p_field p)])
    | Some v => b ← _predicate_matches v p; Ok ([truth_of b], [])
    end
  else
    states ← _component_field_states m (p_field p) idx;
    if state_present EvidenceState.CONFLICT states then
      Ok ([TruthValue.CONFLICT],
          [mkGateReason "CONFLICTING_EVIDENCE" CandidateStatus.CONFLICTING_EVIDENCE
             ("Conflicting values support " ++ p_field p)])
    else if state_present EvidenceState.STALE states then
      Ok ([TruthValue.UNKNOWN],
          [mkGateReason "STALE_EVIDENCE" CandidateStatus.STALE_EVIDENCE
             ("Evidence for " ++ p_field p ++ " is stale")])
    else if state_present EvidenceState.UNKNOWN states ||
            existsb (λ st, bool_decide (fs_values st = [])) states then
      Ok ([TruthValue.UNKNOWN],
          [mkGateReason "INSUFFICIENT_EVIDENCE" CandidateStatus.INSUFFICIENT_EVIDENCE
             ("Current acceptable evidence for " ++ p_field p ++ " is missing")])
    else
      truths ← mapM (λ st, b ← allM (λ v, _predicate_matches v p) (fs_values st); Ok (truth_of b)) states;
      Ok (truths, []).

(** The truth of the gate from the collected states, and the reason it adds. *)
Definition gate_truth (gate : GateRule) (states : list TruthValue.t) : TruthValue.t * list GateReason :=
  if py_in TruthValue.CONFLICT states then (TruthValue.CONFLICT, []) else
  match g_mode gate with
  | GateMode.REQUIRE_MATCH =>
      if py_in TruthValue.FALSE states then
        (TruthValue.FALSE,
         [mkGateReason (g_reason_code gate) (g_blocked_status gate) "Required predicate failed"])
      else if py_in TruthValue.UNKNOWN states then (TruthValue.UNKNOWN, [])
      else (TruthValue.TRUE, [])
  | GateMode.BLOCK_ON_MATCH =>
      if py_in TruthValue.FALSE states then (TruthValue.TRUE, [])
      else if py_in TruthValue.UNKNOWN states then (TruthValue.UNKNOWN, [])
      else (TruthValue.FALSE,
            [mkGateReason (g_reason_code gate) (g_blocked_status gate) "Blocking predicate matched"])
  end.

Definition reason_key (r : GateReason) : Z * string * string :=
  (_STATUS_RANK (gn_status r), gn_reason_code r, gn_detail r).

Definition _evaluate_gate (gate : GateRule) (m : _PlanMaterial)
    (buyer_values : list (string * FactValue)) (idx : index) : result GateResult :=
  let start := if is_seller_gate gate && negb (bool_decide (g_evidence_claim_ids gate = []))
               then seller_rule_evidence gate idx else ([], []) in
  steps ← mapM (predicate_outcome gate m buyer_values idx) (g_predicates gate);
  let states := (start.1 ++ mjoin steps.*1)%list in
  let '(truth, added) := gate_truth gate states in
  let reasons := (start.2 ++ mjoin steps.*2 ++ added)%list in
  Ok (mkGateResult (g_gate_id gate) truth (sorted_by reason_key (remove_dups reasons))
        (p_field <$> g_predicates gate) (g_permitted_resolution gate)).

Definition evaluate_gates (g : DecisionGraphInput) (m : _PlanMaterial)
    (assessments : list EvidenceAssessment) : result (list GateResult) :=
  let buyer_values := _buyer_value_map g in
  let active_sources := _active_source_ids g in
  let idx := _assessment_index assessments in
  results ← mapM (λ gate, _evaluate_gate gate m buyer_values idx)
    (List.filter (λ gate, _gate_applies gate m active_sources) (sorted_by g_gate_id (gi_gates g)));
  Ok (_availability_gate m :: _dependency_gates m ++ _authority_gate m ++ results)%list.

Definition _primary_status (gates : list GateResult) : CandidateStatus.t * option GateReason :=
  match (gate ← gates; gr_reasons gate) with
  | [] => (CandidateStatus.ELIGIBLE, None)
  | first :: rest =>
      let primary := min_by (λ r, (_STATUS_RANK (gn_status r), gn_reason_code r)) first rest in
      (gn_status primary, Some primary)
  end.
End gates.

(** ** What passing a gate means *)

Section passing.
Context `{Rfc8785}.
Implicit Types (gate : GateRule) (m : _PlanMaterial) (buyer : list (string * FactValue)) (idx : index).

(** The published evidence of a seller rule exists and is acceptable. *)
Definition seller_evidence_ok gate idx : Prop :=
  (∃ e f a, dict_get (e, f) idx = Some a ∧ e ∈ g_evidence_claim_ids gate) ∧
  ∀ e f a, dict_get (e, f) idx = Some a → e ∈ g_evidence_claim_ids gate →
    as_state a = EvidenceState.ACCEPTABLE.

(** The answers of a predicate when everything it reads is known: one for the
    buyer's value, or one per component with acceptable evidence. *)
Definition known_answers gate m buyer idx (p : Predicate) (answers : list bool) : Prop :=
  if is_seller_gate gate then
    ∃ v b, dict_get (p_field p) buyer = Some v ∧ _predicate_matches v p = Ok b ∧ answers = [b]
  else
    ∃ states, _component_field_states m (p_field p) idx = Ok states ∧
      Forall2 (λ st b, fs_state st = EvidenceState.ACCEPTABLE ∧ fs_values st ≠ [] ∧
                       allM (λ v, _predicate_matches v p) (fs_values st) = Ok b) states answers.

Definition gate_passed gate m buyer idx : Prop :=
  (is_seller_gate gate = true → g_evidence_claim_ids gate ≠ [] → seller_evidence_ok gate idx) ∧
  ∃ answers, Forall2 (known_answers gate m buyer idx) (g_predicates gate) answers ∧
    match g_mode gate with
    | GateMode.REQUIRE_MATCH => ∀ b, b ∈ mjoin answers → b = true
    | GateMode.BLOCK_ON_MATCH => false ∈ mjoin answers
    end.

Lemma state_present_false s l : state_present s l = false ↔ ∀ st, st ∈ l → fs_state st ≠ s.
Proof.
  unfold state_present. rewrite existsb_false. apply forall_proper; intros st.
  by rewrite bool_decide_eq_false.
Qed.

Lemma truths_of_states p states truths :
  mapM (λ st, b ← allM (λ v, _predicate_matches v p) (fs_values st); Ok (truth_of b)) states = Ok truths →
  ∃ bs, truths = truth_of <$> bs ∧
        Forall2 (λ st b, allM (λ v, _predicate_matches v p) (fs_values st) = Ok b) states bs.
Proof.
  rewrite mapM_Ok. induction 1 as [|st t sts ts E _ (bs & -> & HF)]; [by exists []|].
  apply bind_Ok in E as (b & Eb & [= <-]). exists (b :: bs). split; [done|by constructor].
Qed.

(** A predicate adds no reason exactly when its answers are known. *)
Lemma predicate_outcome_known gate m buyer idx p ts rs :
  predicate_outcome gate m buyer idx p = Ok (ts, rs) →
  (rs = [] → ∃ bs, ts = truth_of <$> bs ∧ known_answers gate m buyer idx p bs) ∧
  (∀ bs, known_answers gate m buyer idx p bs → rs = [] ∧ ts = truth_of <$> bs).
Proof.
  unfold predicate_outcome, known_answers. destruct (is_seller_gate gate).
  - destruct (dict_get (p_field p) buyer) as [v|]; [|intros [= <- <-]; naive_solver].
    intros (b & Eb & [= <- <-])%bind_Ok. split.
    + intros _. exists [b]. naive_solver.
    + intros bs (v' & b' & [= <-] & Eb' & ->). rewrite Eb in Eb'. by injection Eb' as <-.
  - intros (states & Es & E)%bind_Ok. rewrite Es.
    assert (∀ bs, Forall2 (λ st b, fs_state st = EvidenceState.ACCEPTABLE ∧ fs_values st ≠ [] ∧
              allM (λ v, _predicate_matches v p) (fs_values st) = Ok b) states bs →
              ∀ st, st ∈ states → fs_state st = EvidenceState.ACCEPTABLE ∧ fs_values st ≠ []) as Hall.
    { intros bs HF st [i Hi]%list_elem_of_lookup.
      destruct (Forall2_lookup_l _ _ _ _ _ HF Hi) as (? & _ & ? & ? & _). done. }
    destruct (state_present EvidenceState.CONFLICT states) eqn:Ec.
    { injection E as <- <-. split; [done|]. intros bs (? & [= <-] & HF). exfalso.
      apply existsb_Exists in Ec as (st & Hst & Est%bool_decide_eq_true).
      destruct (Hall bs HF st Hst). congruence. }
    destruct (state_present EvidenceState.STALE states) eqn:Et.
    { injection E as <- <-. split; [done|]. intros bs (? & [= <-] & HF). exfalso.
      apply existsb_Exists in Et as (st & Hst & Est%bool_decide_eq_true).
      destruct (Hall bs HF st Hst). congruence. }
    destruct (state_present EvidenceState.UNKNOWN states || _) eqn:Eu.
    { injection E as <- <-. split; [done|]. intros bs (? & [= <-] & HF). exfalso.
      apply orb_true_iff in Eu as [Eu|Eu]; apply existsb_Exists in Eu as (st & Hst & Est%bool_decide_eq_true);
        destruct (Hall bs HF st Hst); congruence. }
    apply bind_Ok in E as (truths & Et' & [= <- <-]).
    destruct (truths_of_states _ _ _ Et') as (bs & -> & HF).
    apply orb_false_iff in Eu as [Eu Ev]. rewrite state_present_false in Ec, Et, Eu.
    rewrite existsb_false in Ev. setoid_rewrite bool_decide_eq_false in Ev. split.
    + intros _. exists bs. split; [done|]. exists states. split; [done|].
      apply Forall2_same_length_lookup_2; [by eapply Forall2_length|].
      intros i st b Hi Hb. assert (st ∈ states) as Hst by by eapply list_elem_of_lookup_2.
      split_and!; [|by apply Ev|by apply (Forall2_lookup_lr _ _ _ _ _ _ HF Hi Hb)].
      specialize (Ec st Hst). specialize (Et st Hst). specialize (Eu st Hst).
      by destruct (fs_state st).
    + intros bs' (? & [= <-] & HF'). split; [done|]. f_equal.
      clear -HF HF'. revert bs' HF'. induction HF as [|st b sts bs E HF IH]; inversion 1; subst; [done|].
      f_equal; [naive_solver congruence|by apply IH].
Qed.

Lemma elem_of_truths b (bs : list bool) : truth_of b ∈ truth_of <$> bs ↔ b ∈ bs.
Proof. rewrite list_elem_of_fmap. split; [by intros ([] & E & ?); destruct b|eauto]. Qed.

Lemma not_truth_of t (bs : list bool) : t = TruthValue.UNKNOWN ∨ t = TruthValue.CONFLICT → t ∉ truth_of <$> bs.
Proof. intros Ht (b & -> & _)%list_elem_of_fmap. by destruct b, Ht. Qed.

(** On known answers the mode decides whether the gate adds its reason. *)
Lemma gate_truth_known gate (bs : list bool) :
  (gate_truth gate (truth_of <$> bs)).2 = [] ↔
  match g_mode gate with
  | GateMode.REQUIRE_MATCH => ∀ b, b ∈ bs → b = true
  | GateMode.BLOCK_ON_MATCH => false ∈ bs
  end.
Proof.
  unfold gate_truth.
  rewrite (proj2 (py_in_false TruthValue.CONFLICT _)) by (apply not_truth_of; auto).
  rewrite (proj2 (py_in_false TruthValue.UNKNOWN _)) by (apply not_truth_of; auto).
  destruct (py_in TruthValue.FALSE (truth_of <$> bs)) eqn:Ef.
  - apply py_in_true, (elem_of_truths false) in Ef. destruct (g_mode gate); [|done].
    split; [done|]. intros Hall. by specialize (Hall _ Ef).
  - apply py_in_false in Ef. rewrite (elem_of_truths false) in Ef.
    destruct (g_mode gate); cbn; [|naive_solver]. split; [|done]. by intros _ [].
Qed.

Lemma has_state_true s l : has_state s l = true ↔ ∃ a, a ∈ l ∧ as_state a = s.
Proof. unfold has_state. rewrite existsb_Exists. setoid_rewrite bool_decide_eq_true. done. Qed.

Lemma has_state_false s l : has_state s l = false ↔ ∀ a, a ∈ l → as_state a ≠ s.
Proof. unfold has_state. rewrite existsb_false. by setoid_rewrite bool_decide_eq_false. Qed.

Lemma seller_rule_evidence_clean gate idx :
  ((seller_rule_evidence gate idx).2 = [] ↔ seller_evidence_ok gate idx) ∧
  (seller_evidence_ok gate idx → seller_rule_evidence gate idx = ([], [])).
Proof.
  unfold seller_rule_evidence, seller_evidence_ok.
  set (referenced := (List.filter _ (dict_items idx)).*2).
  assert (∀ a, a ∈ referenced ↔ ∃ e f, dict_get (e, f) idx = Some a ∧ e ∈ g_evidence_claim_ids gate) as Href.
  { intros a. unfold referenced. rewrite list_elem_of_fmap. setoid_rewrite elem_of_lfilter.
    setoid_rewrite py_in_true. split.
    - intros ([[e f] a'] & -> & Hin & He). apply elem_of_dict_items in Hin. eauto.
    - intros (e & f & Ha & He). exists (e, f, a). by rewrite elem_of_dict_items. }
  clearbody referenced.
  assert ((∃ e f a, dict_get (e, f) idx = Some a ∧ e ∈ g_evidence_claim_ids gate) ∧
     (∀ e f a, dict_get (e, f) idx = Some a → e ∈ g_evidence_claim_ids gate →
        as_state a = EvidenceState.ACCEPTABLE) ↔
     bool_decide (length referenced = 0%nat) || has_state EvidenceState.UNKNOWN referenced = false ∧
     has_state EvidenceState.STALE referenced = false ∧
     has_state EvidenceState.CONFLICT referenced = false) as ->.
  { rewrite orb_false_iff, bool_decide_eq_false, !has_state_false. split.
    - intros [(e & f & a & Ha & He) Hall]. split_and!.
      + intros Hnil%length_zero_iff_nil. apply (elem_of_nil a). rewrite <- Hnil. apply Href. eauto.
      + intros b (e' & f' & Hb & He')%Href. by rewrite (Hall _ _ _ Hb He').
      + intros b (e' & f' & Hb & He')%Href. by rewrite (Hall _ _ _ Hb He').
      + intros b (e' & f' & Hb & He')%Href. by rewrite (Hall _ _ _ Hb He').
    - intros ([Hne Hu] & Hs & Hc). split.
      + destruct referenced as [|a l]; [done|]. destruct (proj1 (Href a)) as (e & f & ?); [set_solver|]. eauto.
      + intros e f a Ha He. assert (a ∈ referenced) as Hin by (apply Href; eauto).
        specialize (Hu a Hin). specialize (Hs a Hin). specialize (Hc a Hin). by destruct (as_state a). }
  destruct (_ || _), (has_state EvidenceState.STALE _), (has_state EvidenceState.CONFLICT _);
    cbn; naive_solver.
Qed.

Lemma steps_known gate m buyer idx ps (steps : list outcome) :
  Forall2 (λ p s, predicate_outcome gate m buyer idx p = Ok s) ps steps →
  (mjoin steps.*2 = [] →
     ∃ answers, Forall2 (known_answers gate m buyer idx) ps answers ∧
                mjoin steps.*1 = truth_of <$> mjoin answers) ∧
  (∀ answers, Forall2 (known_answers gate m buyer idx) ps answers →
     mjoin steps.*2 = [] ∧ mjoin steps.*1 = truth_of <$> mjoin answers).
Proof.
  induction 1 as [|p [ts rs] ps steps Hp _ [IH1 IH2]]; cbn [fst snd] in *.
  - split; [by exists []|]. by inversion 1.
  - destruct (predicate_outcome_known _ _ _ _ _ _ _ Hp) as [K1 K2].
    rewrite !fmap_cons, !join_cons. cbn [fst snd]. split.
    + intros [Hrs Hrest]%app_nil. destruct (K1 Hrs) as (bs & -> & Hbs), (IH1 Hrest) as (ans & HF & ->).
      exists (bs :: ans). by rewrite join_cons, fmap_app; split; [constructor|].
    + inversion 1 as [|? bs ? ans Hbs HF]; subst. destruct (K2 _ Hbs) as [-> ->], (IH2 _ HF) as [-> ->].
      by rewrite join_cons, fmap_app.
Qed.

Lemma sorted_reasons_nil l : sorted_by reason_key (remove_dups l) = [] ↔ l = [].
Proof.
  rewrite sorted_by_nil. split; [|by intros ->]. destruct l as [|x l]; [done|]. intros E.
  assert (x ∈ remove_dups (x :: l)) as Hx by (apply elem_of_remove_dups; set_solver).
  rewrite E in Hx. set_solver.
Qed.

(** A gate leaves no reason exactly when it is passed. *)
Lemma evaluate_gate_clean gate m buyer idx r :
  _evaluate_gate gate m buyer idx = Ok r →
  gr_reasons r = [] ↔ gate_passed gate m buyer idx.
Proof.
  unfold _evaluate_gate, gate_passed. intros (steps & Hsteps & E)%bind_Ok. apply mapM_Ok in Hsteps.
  destruct (steps_known _ _ _ _ _ _ Hsteps) as [K1 K2].
  set (start := if _ && _ then _ else _) in E.
  assert ((start.2 = [] ↔ (is_seller_gate gate = true → g_evidence_claim_ids gate ≠ [] → seller_evidence_ok gate idx))
          ∧ (start.2 = [] → start.1 = [])) as [Hstart Hstart1].
  { unfold start. destruct (seller_rule_evidence_clean gate idx) as [C1 C2].
    destruct (is_seller_gate gate); cbn [andb]; [|naive_solver].
    case_bool_decide; cbn [negb]; [naive_solver|]. rewrite C1. split; [naive_solver|].
    intros Hok. by rewrite (C2 Hok). }
  clearbody start. pose proof (λ bs, gate_truth_known gate bs) as Htruth.
  destruct (gate_truth gate (start.1 ++ mjoin steps.*1)) as [truth added] eqn:Et.
  injection E as <-. cbn [gr_reasons]. rewrite sorted_reasons_nil, <- Hstart. split.
  - intros [Hs [Hr Ha]%app_nil]%app_nil. split; [done|]. destruct (K1 Hr) as (ans & HF & Eans).
    exists ans. split; [done|]. apply Htruth. rewrite (Hstart1 Hs), Eans in Et. cbn in Et. by rewrite Et.
  - intros [Hs (ans & HF & Hmode)]. destruct (K2 _ HF) as [Hr Eans]. rewrite Hs, Hr. cbn.
    rewrite (Hstart1 Hs), Eans in Et. cbn in Et. apply Htruth in Hmode. by rewrite Et in Hmode.
Qed.

(** ** Eligible statuses *)

Lemma eligible_status_rank s : eligible_status s = true ↔ 9 <= _STATUS_RANK s.
Proof. destruct s; vm_compute; split; intros; done. Qed.

(** The statuses a gate can add besides its own. *)
Definition evidence_status (s : CandidateStatus.t) : Prop :=
  s ∈ [CandidateStatus.INSUFFICIENT_EVIDENCE; CandidateStatus.STALE_EVIDENCE;
       CandidateStatus.CONFLICTING_EVIDENCE; CandidateStatus.CONDITIONAL].

Lemma predicate_outcome_statuses gate m buyer idx p ts rs x :
  predicate_outcome gate m buyer idx p = Ok (ts, rs) → x ∈ rs → evidence_status (gn_status x).
Proof.
  unfold predicate_outcome, evidence_status. intros H1 Hx. case_match.
  - case_match; [|injection H1 as <- <-; set_solver].
    apply bind_Ok in H1 as (? & _ & [= <- <-]). set_solver.
  - apply bind_Ok in H1 as (states & _ & H1). repeat case_match; try (injection H1 as <- <-; set_solver).
    apply bind_Ok in H1 as (? & _ & [= <- <-]). set_solver.
Qed.

Lemma evaluate_gate_statuses gate m buyer idx r x :
  _evaluate_gate gate m buyer idx = Ok r → x ∈ gr_reasons r →
  gn_status x = g_blocked_status gate ∨ evidence_status (gn_status x).
Proof.
  unfold _evaluate_gate. intros (steps & Hsteps & E)%bind_Ok Hx.
  destruct (gate_truth gate _) as [truth added] eqn:Et. injection E as <-. cbn [gr_reasons] in Hx.
  rewrite elem_of_sorted_by, elem_of_remove_dups, !elem_of_app in Hx.
  destruct Hx as [Hx|[Hx|Hx]].
  - right. unfold seller_rule_evidence, evidence_status in *. repeat case_match; cbn in Hx; set_solver.
  - right. apply list_elem_of_join in Hx as (rs & Hx & ([ts rs'] & -> & Hs)%list_elem_of_fmap).
    apply (mapM_Ok_elem _ _ _ _ Hsteps) in Hs as (p & _ & Hp). by eapply predicate_outcome_statuses.
  - left. unfold gate_truth in Et. repeat case_match; injection Et as <- <-; set_solver.
Qed.

Lemma primary_status_eligible gates :
  eligible_status (_primary_status gates).1 = true ↔
  ∀ r x, r ∈ gates → x ∈ gr_reasons r → eligible_status (gn_status x) = true.
Proof.
  unfold _primary_status. destruct (gate ← gates; gr_reasons gate) as [|x l] eqn:E.
  - split; [|done]. intros _ r x Hr Hx. exfalso. apply (elem_of_nil x). rewrite <- E.
    apply list_elem_of_bind. eauto.
  - cbn [fst]. set (key := λ r : GateReason, (_STATUS_RANK (gn_status r), gn_reason_code r)).
    assert (∀ y, y ∈ x :: l ↔ ∃ r, r ∈ gates ∧ y ∈ gr_reasons r) as Hin.
    { intros y. rewrite <- E, list_elem_of_bind. naive_solver. }
    split.
    + intros Hp r y Hr Hy. rewrite eligible_status_rank in *.
      assert (y ∈ x :: l) as Hy'%elem_of_cons by (apply Hin; eauto).
      pose proof (min_by_le key x l y Hy') as Hle%pair_le_fst%Z_le_iff. lia.
    + intros Hall. assert (min_by key x l ∈ x :: l) as Hmin
        by (destruct (min_by_elem key x l) as [->|?]; set_solver).
      apply Hin in Hmin as (r & Hr & Hx). by eapply Hall.
Qed.

(** An eligible status means that nothing but exceptions was found. *)
Lemma eligible_gates (g : DecisionGraphInput) m assessments gates :
  evaluate_gates g m assessments = Ok gates → eligible_status (_primary_status gates).1 = true →
  m_available m = true ∧ (m_authority m = None ∨ m_authority m = Some PackAuthority.SELLER_SEALED) ∧
  m_dependency_issues m = [] ∧
  ∀ gate, gate ∈ gi_gates g → _gate_applies gate m (_active_source_ids g) = true →
    eligible_status (g_blocked_status gate) = false →
    gate_passed gate m (_buyer_value_map g) (_assessment_index assessments).
Proof.
  unfold evaluate_gates. intros (results & Hres & [= <-])%bind_Ok. rewrite primary_status_eligible.
  intros Hall. assert (∀ r x, r ∈ (_availability_gate m :: _dependency_gates m ++ _authority_gate m ++ results)%list →
    x ∈ gr_reasons r → eligible_status (gn_status x) = true) as Hel by done.
  clear Hall. split_and!.
  - destruct (m_available m) eqn:Ea; [done|].
    specialize (Hel (_availability_gate m)). unfold _availability_gate in Hel. rewrite Ea in Hel.
    by specialize (Hel _ (list_elem_of_here _ _) (list_elem_of_here _ _)).
  - assert (∀ r x, r ∈ _authority_gate m → x ∈ gr_reasons r → eligible_status (gn_status x) = true) as Ha.
    { intros r x Hr. apply Hel. rewrite elem_of_cons, !elem_of_app. auto. }
    unfold _authority_gate in Ha. destruct (m_authority m) as [[]|]; auto; exfalso.
    all: by specialize (Ha _ _ (list_elem_of_here _ _) (list_elem_of_here _ _)).
  - assert (∀ r x, r ∈ _dependency_gates m → x ∈ gr_reasons r → eligible_status (gn_status x) = true) as Ha.
    { intros r x Hr. apply Hel. rewrite elem_of_cons, !elem_of_app. auto. }
    unfold _dependency_gates in Ha. destruct (m_dependency_issues m) as [|i l]; [done|exfalso].
    by specialize (Ha _ _ (list_elem_of_here _ _) (list_elem_of_here _ _)).
  - intros gate Hg Ha Hb. apply mapM_Ok in Hres.
    assert (gate ∈ List.filter (λ gate, _gate_applies gate m (_active_source_ids g))
      (sorted_by g_gate_id (gi_gates g))) as [i Hi]%list_elem_of_lookup
      by by rewrite elem_of_lfilter, elem_of_sorted_by.
    destruct (Forall2_lookup_l _ _ _ _ _ Hres Hi) as (r & Hr & E). apply list_elem_of_lookup_2 in Hr.
    apply (evaluate_gate_clean _ _ _ _ _ E). destruct (gr_reasons r) as [|x l] eqn:Ex; [done|exfalso].
    assert (x ∈ gr_reasons r) as Hx by (rewrite Ex; set_solver).
    assert (eligible_status (gn_status x) = true) as Hst.
    { apply (Hel r x); [|done]. rewrite !elem_of_cons, !elem_of_app. auto. }
    destruct (evaluate_gate_statuses _ _ _ _ _ _ E Hx) as [Es|Es]; [congruence|].
    revert Hst. unfold evidence_status in Es. destruct (gn_status x); try done; set_solver.
Qed.
End passing.

(** ** Properties *)

Section gate_properties.
Context `{Rfc8785}.

Lemma primary_status_none gates :
  (_primary_status gates).2 = None ↔ ∀ r, r ∈ gates → gr_reasons r = [].
Proof.
  unfold _primary_status. destruct (gate ← gates; gr_reasons gate) as [|x l] eqn:E; cbn.
  - split; [|done]. intros _ r Hr. destruct (gr_reasons r) as [|x l] eqn:Er; [done|].
    exfalso. apply (elem_of_nil x). rewrite <- E. apply list_elem_of_bind. exists r. rewrite Er. set_solver.
  - split; [done|]. intros Hall. assert (x ∈ (gate ← gates; gr_reasons gate)) as Hx by (rewrite E; set_solver).
    apply list_elem_of_bind in Hx as (r & Hx & Hr). rewrite (Hall r Hr) in Hx. set_solver.
Qed.

(** C12: eligibility fails closed.  A plan has no blocking reason exactly when it
    is available, a seller sealed it (or no pack is involved), its dependencies
    closed, and every gate that applies is passed: each predicate was answered
    on acceptable evidence (or the buyer's own value), and the answers satisfy
    the mode of the gate. *)
Theorem no_reason_iff_all_gates_pass (g : DecisionGraphInput) (m : _PlanMaterial)
    (assessments : list EvidenceAssessment) (gates : list GateResult) :
  evaluate_gates g m assessments = Ok gates →
  (_primary_status gates).2 = None ↔
  m_available m = true ∧ (m_authority m = None ∨ m_authority m = Some PackAuthority.SELLER_SEALED) ∧
  m_dependency_issues m = [] ∧
  ∀ gate, gate ∈ gi_gates g → _gate_applies gate m (_active_source_ids g) = true →
    gate_passed gate m (_buyer_value_map g) (_assessment_index assessments).
Proof.
  unfold evaluate_gates. intros (results & Hres & [= <-])%bind_Ok. rewrite primary_status_none.
  setoid_rewrite elem_of_cons. setoid_rewrite elem_of_app. setoid_rewrite elem_of_app.
  assert ((∀ r, r ∈ _dependency_gates m → gr_reasons r = []) ↔ m_dependency_issues m = []) as Hdep.
  { unfold _dependency_gates. destruct (m_dependency_issues m) as [|i l]; cbn; [set_solver|].
    split; [|done]. intros Hall. by specialize (Hall _ (list_elem_of_here _ _)). }
  assert ((∀ r, r ∈ _authority_gate m → gr_reasons r = []) ↔
          (m_authority m = None ∨ m_authority m = Some PackAuthority.SELLER_SEALED)) as Hauth.
  { unfold _authority_gate. destruct (m_authority m) as [[]|]; cbn; try set_solver.
    all: split; [intros Hall; by specialize (Hall _ (list_elem_of_here _ _))|naive_solver]. }
  assert ((∀ r, r ∈ results → gr_reasons r = []) ↔ ∀ gate, gate ∈ gi_gates g →
            _gate_applies gate m (_active_source_ids g) = true →
            gate_passed gate m (_buyer_value_map g) (_assessment_index assessments)) as Hrules.
  { assert (∀ gate, gate ∈ List.filter (λ gate, _gate_applies gate m (_active_source_ids g))
              (sorted_by g_gate_id (gi_gates g)) ↔
              gate ∈ gi_gates g ∧ _gate_applies gate m (_active_source_ids g) = true) as Hin.
    { intros gate. by rewrite elem_of_lfilter, elem_of_sorted_by. }
    split.
    - intros Hall gate Hg Ha. apply mapM_Ok in Hres.
      assert (gate ∈ List.filter (λ gate, _gate_applies gate m (_active_source_ids g))
        (sorted_by g_gate_id (gi_gates g))) as [i Hi]%list_elem_of_lookup by by apply Hin.
      destruct (Forall2_lookup_l _ _ _ _ _ Hres Hi) as (r & Hr & E).
      apply (evaluate_gate_clean _ _ _ _ _ E), Hall. by eapply list_elem_of_lookup_2.
    - intros Hall r Hr. apply (mapM_Ok_elem _ _ _ _ Hres) in Hr as (gate & [Hg Ha]%Hin & E).
      apply (evaluate_gate_clean _ _ _ _ _ E). auto. }
  rewrite <- Hdep, <- Hauth, <- Hrules. unfold _availability_gate. destruct (m_available m).
  - naive_solver.
  - split; [|naive_solver]. intros Hall. by specialize (Hall _ (or_introl eq_refl)).
Qed.

(** When a plan has reasons, its status is that of one of them and no other
    reason is more severe. *)
Theorem primary_status_most_severe (gates : list GateResult) (s : CandidateStatus.t) (r : GateReason) :
  _primary_status gates = (s, Some r) →
  gn_status r = s ∧ (∃ gate, gate ∈ gates ∧ r ∈ gr_reasons gate) ∧
  ∀ gate r', gate ∈ gates → r' ∈ gr_reasons gate → _STATUS_RANK s <= _STATUS_RANK (gn_status r').
Proof.
  unfold _primary_status. destruct (gate ← gates; gr_reasons gate) as [|x l] eqn:E; [done|].
  intros [= <- <-]. set (key := λ r, _) . split; [done|]. split.
  - assert (min_by key x l ∈ (gate ← gates; gr_reasons gate)) as (gate & ? & ?)%list_elem_of_bind.
    { rewrite E. destruct (min_by_elem key x l) as [->|?]; set_solver. }
    eauto.
  - intros gate r' Hg Hr'. assert (r' ∈ x :: l) as Hin%elem_of_cons by (rewrite <- E; apply list_elem_of_bind; eauto).
    pose proof (min_by_le key x l r' Hin) as Hle. unfold key_le, key in Hle.
    apply Z_le_iff. by eapply pair_le_fst.
Qed.
End gate_properties.
