(* ===== verification/Scores.v ===== *)
(** * Scores, risk, coverage and cost of a plan

    The scoring part of [decision_engine/graph_v1.py]: normalised preference
    scores with their bounds, the risk rules, coverage and evidence age, the
    consistency of an offer's cost, and the dimensions of a plan. *)
From S2P Require Import Prelude PyText PyNumber PyTime Enums Money Bounds Hashing GraphModels Gates.

Local Open Scope string_scope.
Local Open Scope Z_scope.

Definition _exact_product (left : ExactRatio) (right : Z) : result ExactRatio :=
  ratio_of (ratio_fraction left * inject_Z right)%Q.

Definition zero_ratio : ExactRatio := mkRatio 0 1.
Definition unit_ratio (b : bool) : ExactRatio := mkRatio (if b then 1 else 0) 1.

(** ** Preference scores *)

(** The first piecewise point at or above the value. *)
Fixpoint first_point (numeric : Q) (points : list (Z * ExactRatio)) : ExactRatio :=
  match points with
  | [] => zero_ratio
  | (maximum, satisfaction) :: points =>
      if py_le numeric (inject_Z maximum) then satisfaction else first_point numeric points
  end.

Definition _normalization_value (c : PreferenceCriterion) (value : FactValue) : result ExactRatio :=
  match pc_normalization c with
  | NormalizationKind.BOOLEAN_EQUALS => Ok (unit_ratio (_strict_equal value (pc_expected c)))
  | NormalizationKind.SET_CONTAINS_ALL =>
      Ok (unit_ratio (match value, pc_expected c with
                      | FVTuple actual, FVTuple expected => py_subset expected actual
                      | _, _ => false
                      end))
  | NormalizationKind.LOWER_IS_BETTER =>
      if negb (is_number_or_text value) then Ok zero_ratio else
      numeric ← value_fraction value;
      Ok (first_point numeric (pc_lower_is_better_points c))
  | NormalizationKind.OUTCOME_RATE =>
      Raise (ValueError "OUTCOME_RATE is resolved from frozen outcome observations")
  end.

(** [not ids or set(ids) <= active] *)
Definition sources_active (ids active : list string) : bool :=
  bool_decide (ids = []) || py_subset ids active.

Definition _outcome_value (g : DecisionGraphInput) (subject_id criterion_id : string)
  : option OutcomeObservation :=
  dict_get (subject_id, criterion_id)
    ((λ o, (oo_subject_id o, oo_criterion_id o, o)) <$>
     List.filter (λ o, sources_active (oo_source_fact_ids o) (_active_source_ids g)) (gi_outcome_values g)).

(** The state of some evidence: a conflict first, then acceptable, then stale. *)
Definition combined_state (l : list EvidenceAssessment) : EvidenceState.t :=
  if has_state EvidenceState.CONFLICT l then EvidenceState.CONFLICT
  else if has_state EvidenceState.ACCEPTABLE l then EvidenceState.ACCEPTABLE
  else if has_state EvidenceState.STALE l then EvidenceState.STALE
  else EvidenceState.UNKNOWN.

Definition prior_text : string := "category prior—not observed outcome".

(** What the branches of the loop body assign. *)
Record score_parts := mkScoreParts {
  sp_conservative : ExactRatio;
  sp_optimistic : ExactRatio;
  sp_state : EvidenceState.t;
  sp_evidence_ids : list string;
  sp_prior_label : option string;
  sp_reasons : list string
}.

(** Without usable evidence: zero below, the declared unknown bound above. *)
Definition unknown_score (c : PreferenceCriterion) (state : EvidenceState.t)
    (evidence_ids reasons : list string) : score_parts :=
  match pc_unknown_upper c with
  | Some upper => mkScoreParts zero_ratio upper state evidence_ids None reasons
  | None => mkScoreParts zero_ratio zero_ratio state evidence_ids None
              (("BOUND_UNAVAILABLE:" ++ pc_criterion_id c ++ ":UNKNOWN_BOUND") :: reasons)
  end.

(** The branch of [OUTCOME_RATE]. *)
Definition outcome_score (c : PreferenceCriterion) (observed : option OutcomeObservation) (idx : index)
    (fs : _FieldState) : score_parts :=
  match observed with
  | None =>
      match pc_neutral_prior c with
      | None => mkScoreParts zero_ratio zero_ratio EvidenceState.UNKNOWN (fs_evidence_ids fs) None
                  ["BOUND_UNAVAILABLE:" ++ pc_criterion_id c ++ ":NEUTRAL_PRIOR"]
      | Some prior => mkScoreParts prior prior EvidenceState.UNKNOWN (fs_evidence_ids fs)
                        (Some prior_text) []
      end
  | Some o =>
      let assessments := assessments_of idx (pc_field c) (oo_evidence_ids o) in
      let state := combined_state assessments in
      let reasons := unavailable_reasons assessments in
      if bool_decide (state = EvidenceState.ACCEPTABLE)
      then mkScoreParts (oo_value o) (oo_value o) state (oo_evidence_ids o) None reasons
      else unknown_score c state (oo_evidence_ids o) reasons
  end.

Definition min_ratio (x : ExactRatio) (l : list ExactRatio) : ExactRatio := min_by ratio_fraction x l.
Definition max_ratio (x : ExactRatio) (l : list ExactRatio) : ExactRatio := max_by ratio_fraction x l.

(** One criterion on one field state. *)
Definition criterion_score (c : PreferenceCriterion) (observed : option OutcomeObservation) (idx : index)
    (fs : _FieldState) : result score_parts :=
  if bool_decide (pc_normalization c = NormalizationKind.OUTCOME_RATE) then
    Ok (outcome_score c observed idx fs)
  else
    match bool_decide (fs_state fs = EvidenceState.ACCEPTABLE), fs_values fs with
    | true, _ :: _ =>
        values ← mapM (_normalization_value c) (fs_values fs);
        match values with
        | first :: rest =>
            Ok (mkScoreParts (min_ratio first rest) (max_ratio first rest) (fs_state fs)
                  (fs_evidence_ids fs) None [])
        | [] => Raise AssertionError
        end
    | _, _ => Ok (unknown_score c (fs_state fs) (fs_evidence_ids fs) [])
    end.

Definition criterion_applies (g : DecisionGraphInput) (m : _PlanMaterial) (c : PreferenceCriterion) : bool :=
  (bool_decide (pc_applies_to_actions c = []) || py_in (m_action m) (pc_applies_to_actions c)) &&
  sources_active (pc_source_fact_ids c) (_active_source_ids g).

(** The criteria the loops of scoring and coverage go through. *)
Definition active_criteria (g : DecisionGraphInput) (m : _PlanMaterial) : list PreferenceCriterion :=
  List.filter (criterion_applies g m) (sorted_by pc_criterion_id (gi_preferences g)).

Section scores.
Context `{Rfc8785}.

Definition score_component (g : DecisionGraphInput) (m : _PlanMaterial) (idx : index)
    (c : PreferenceCriterion) : result (ScoreComponent * list string) :=
  fs ← _field_state (m_facts m) (pc_field c) idx;
  parts ← criterion_score c (_outcome_value g (m_outcome_subject_id m) (pc_criterion_id c)) idx fs;
  conservative ← _exact_product (sp_conservative parts) (pc_weight c);
  optimistic ← _exact_product (sp_optimistic parts) (pc_weight c);
  Ok (mkScoreComponent (pc_criterion_id c) (pc_weight c) (sp_conservative parts) (sp_optimistic parts)
        conservative optimistic (sp_evidence_ids parts) (sp_state parts) (sp_prior_label parts),
      (sp_reasons parts ++ fs_bound_reasons fs)%list).

Definition _score_components (g : DecisionGraphInput) (m : _PlanMaterial)
    (assessments : list EvidenceAssessment) : result (list ScoreComponent * list string) :=
  steps ← mapM (score_component g m (_assessment_index assessments)) (active_criteria g m);
  Ok (steps.*1, sorted_set (mjoin steps.*2)).

(** ** Risk *)

(** What one rule adds: bounds, triggered identifiers, unavailable reasons. *)
Definition risk_step : Type := list RiskBounds * list string * list string.

Definition apply_rule (rule : RiskRule) : result risk_step :=
  b ← RiskBounds_new (rk_lower rule) (rk_base rule) (rk_upper rule);
  Ok ([b], [rk_rule_id rule], []).

(** The suffix of a rule triggered by missing input. *)
Definition missing_suffix (fs : _FieldState) : string :=
  if bool_decide (fs_state fs = EvidenceState.UNKNOWN) && bool_decide (fs_values fs = [])
  then "MISSING_INPUT" else EvidenceState.value (fs_state fs) ++ "_EVIDENCE".

Definition rule_step (m : _PlanMaterial) (idx : index) (rule : RiskRule) : result risk_step :=
  if negb (py_in (m_action m) (rk_actions rule)) then Ok ([], [], []) else
  match rk_predicate rule with
  | None => apply_rule rule
  | Some predicate =>
      fs ← _field_state (m_facts m) (p_field predicate) idx;
      let values := if bool_decide (fs_state fs = EvidenceState.ACCEPTABLE) then fs_values fs else [] in
      match values with
      | [] =>
          match rk_missing_lower rule, rk_missing_base rule, rk_missing_upper rule with
          | Some lower, Some base, Some upper =>
              b ← RiskBounds_new lower base upper;
              Ok ([b], [rk_rule_id rule ++ ":" ++ missing_suffix fs], [])
          | _, _, _ => Ok ([], [], ["BOUND_UNAVAILABLE:RISK:" ++ rk_rule_id rule])
          end
      | _ =>
          matched ← allM (λ v, _predicate_matches v predicate) values;
          if matched : bool then apply_rule rule else Ok ([], [], [])
      end
  end.

Definition _risk_bounds (g : DecisionGraphInput) (m : _PlanMaterial)
    (assessments : list EvidenceAssessment)
  : result (option RiskBounds * list string * list string) :=
  steps ← mapM (rule_step m (_assessment_index assessments)) (sorted_by rk_rule_id (gi_risk_rules g));
  let component_bounds := mjoin ((λ s, s.1.1) <$> steps) in
  let triggered_ids := mjoin ((λ s, s.1.2) <$> steps) in
  let reasons := mjoin (snd <$> steps) in
  match reasons, component_bounds with
  | _ :: _, _ => Ok (None, sorted_by id reasons, sorted_by id triggered_ids)
  | [], [] =>
      if negb (gi_risk_rule_set_complete g)
      then Ok (None, ["BOUND_UNAVAILABLE:RISK_RULE_COVERAGE"], [])
      else
        low ← RiskBounds_new StackRisk.LOW StackRisk.LOW StackRisk.LOW;
        b ← aggregate_risk_bounds [low];
        Ok (Some b, [], sorted_by id (triggered_ids ++ ["COMPLETE_RULE_SET_DEFAULT_LOW"])%list)
  | [], _ =>
      b ← aggregate_risk_bounds component_bounds;
      Ok (Some b, [], sorted_by id triggered_ids)
  end.

(** ** Coverage and evidence age *)

Definition coverage_criterion (scores : list (string * ScoreComponent)) (c : PreferenceCriterion)
  : result CoverageCriterion :=
  match dict_get (pc_criterion_id c) scores with
  | None => Raise (KeyError (pc_criterion_id c))
  | Some score =>
      let conservative := bool_decide (sc_evidence_state score = EvidenceState.ACCEPTABLE) &&
                          is_none (sc_prior_label score) in
      let optimistic := conservative ||
        (negb (is_none (pc_permitted_evidence_resolution c)) &&
         py_in (sc_evidence_state score) [EvidenceState.UNKNOWN; EvidenceState.STALE]) in
      CoverageCriterion_new (pc_criterion_id c) (pc_coverage_weight c) conservative optimistic
  end.

Definition count_truth (t : TruthValue.t) (gates : list GateResult) : Z :=
  Z.of_nat (length (List.filter (λ r, bool_decide (gr_truth r = t)) gates)).

Definition _coverage_and_age (g : DecisionGraphInput) (m : _PlanMaterial) (gates : list GateResult)
    (scores : list ScoreComponent) (assessments : list EvidenceAssessment)
  : result (CoverageBounds * EvidenceAgeBounds * HardCoverage * list string) :=
  let score_by_id := (λ s, (sc_criterion_id s, s)) <$> scores in
  criteria ← mapM (coverage_criterion score_by_id) (active_criteria g m);
  let seller_gate_ids := g_gate_id <$> List.filter is_seller_gate (gi_gates g) in
  let active_hard_gates := List.filter (λ r,
    negb (startswith (gr_gate_id r) "availability_" || startswith (gr_gate_id r) "authority_") &&
    negb (py_in (gr_gate_id r) seller_gate_ids)) gates in
  hard ← (match active_hard_gates with
          | [] => HardCoverage_new 1 1
          | _ => HardCoverage_new (count_truth TruthValue.TRUE active_hard_gates)
                   (Z.of_nat (length active_hard_gates))
          end);
  let evidence_ids := ((f ← m_facts m; pf_evidence_ids f) ++ (s ← scores; sc_evidence_ids s))%list in
  let material := List.filter (λ a, py_in (as_evidence_id a) evidence_ids) assessments in
  age ← aggregate_evidence_age_bounds (omap as_age_bounds material);
  coverage ← aggregate_coverage_bounds criteria;
  Ok (coverage, age, hard, sorted_set (unavailable_reasons material)).

(** ** Cost *)

(** [sum(amounts, start=Money(0, currency).amount)] *)
Definition sum_amounts (start : Decimal) (l : list Decimal) : Decimal := foldl dec_add start l.

(** One of [low], [base], [high]: the name, the offer's value and the items'. *)
Definition line_total_differs (total : Money) (items : list Money) : result bool :=
  zero ← Money_new (MInt 0) (currency total);
  Ok (negb (dec_eqb (sum_amounts (amount zero) (amount <$> items)) (amount total))).

(** The first bound whose line items do not add up. *)
Fixpoint first_mismatch (bounds : list (string * Money * list Money)) : result (option string) :=
  match bounds with
  | [] => Ok None
  | (name, total, items) :: bounds =>
      differs ← line_total_differs total items;
      if differs : bool then Ok (Some name) else first_mismatch bounds
  end.

Definition _valid_cost (cost : OfferCost) (expected_payment_components : Z)
  : result (bool * list string) :=
  match oc_low cost, oc_base cost, oc_high cost with
  | Some low, Some base, Some high =>
      _ ← CostBounds_new low base high;
      let items := oc_line_items cost in
      mismatch ← (if bool_decide (length items = 0%nat) then Ok None else
        first_mismatch [("low", low, cl_low <$> items); ("base", base, cl_base <$> items);
                        ("high", high, cl_high <$> items)]);
      match mismatch with
      | Some name => Ok (false, ["BOUND_UNAVAILABLE:TCO_LINE_ITEMS:" ++ oc_offer_id cost ++ ":" ++ name])
      | None =>
          let fees := Z.of_nat (length (List.filter is_fee items)) in
          if oc_payment_required cost && negb (fees =? expected_payment_components)
          then Ok (false, ["BOUND_UNAVAILABLE:TRANSACTION_FEE:" ++ oc_offer_id cost])
          else if negb (oc_payment_required cost) &&
                  (negb (fees =? 0) || negb (expected_payment_components =? 0))
          then Ok (false, ["BOUND_UNAVAILABLE:UNEXPECTED_TRANSACTION_FEE:" ++ oc_offer_id cost])
          else Ok (true, [])
      end
  | _, _, _ => Ok (false, ["BOUND_UNAVAILABLE:TCO:" ++ oc_offer_id cost])
  end.

(** ** The dimensions of a plan *)

Definition criterion_bound (s : ScoreComponent) : result PreferenceCriterionBound :=
  PreferenceCriterionBound_new (sc_criterion_id s) (sc_weight s) (sc_conservative_satisfaction s)
    (sc_optimistic_satisfaction s).

Definition risk_input_hash (m : _PlanMaterial) : result string :=
  inputs ← sorted_with (λ p, h ← content_hash (value_payload p.2); Ok (p.1, h))
             ((λ f, (pf_field f, pf_value f)) <$> m_facts m);
  content_hash (dict [("action", VStr (SolutionAction.value (m_action m)));
    ("inputs", VList ((λ p, VList [VStr p.1; value_payload p.2]) <$> inputs))]).

Definition _material_dimensions (g : DecisionGraphInput) (m : _PlanMaterial) (gates : list GateResult)
    (assessments : list EvidenceAssessment) (evaluated_universe discovered_universe : Z)
  : result (list ScoreComponent * PlanDimensions) :=
  '(scores, score_reasons) ← _score_components g m assessments;
  '(preference, score_reasons) ←
    match scores with
    | [] => Ok (None, (score_reasons ++ ["BOUND_UNAVAILABLE:NO_APPLICABLE_PREFERENCE"])%list)
    | _ =>
        bounds ← mapM criterion_bound scores;
        p ← aggregate_preference_bounds bounds;
        Ok (Some p, score_reasons)
    end;
  '(risk, risk_reasons, risk_rule_ids) ← _risk_bounds g m assessments;
  '(coverage, age, hard_coverage, evidence_reasons) ← _coverage_and_age g m gates scores assessments;
  '(_, cost_reasons) ← _valid_cost (m_cost m) (m_payment_component_count m);
  let reasons := sorted_set (score_reasons ++ risk_reasons ++ evidence_reasons ++ cost_reasons)%list in
  input_hash ← risk_input_hash m;
  universe ← (if discovered_universe =? 0 then ExactRatio_new 0 1
              else ExactRatio_new evaluated_universe discovered_universe);
  Ok (scores, mkPlanDimensions preference risk (m_cost m) (Some coverage) (Some age) hard_coverage
        universe (count_truth TruthValue.UNKNOWN gates) (count_truth TruthValue.CONFLICT gates)
        risk_rule_ids input_hash reasons).
End scores.

(** ** Scores stay inside the declared domain *)

(** [c] came out of its constructor. *)
Definition criterion_built (c : PreferenceCriterion) : Prop :=
  ∃ raw, PreferenceCriterion_check raw = Ok c.

Definition unit_interval (r : ExactRatio) : Prop := (0 <= ratio_fraction r)%Q ∧ (ratio_fraction r <= 1)%Q.

Lemma bad_weight_false w : bad_weight w = false ↔ 1 <= w <= 5.
Proof. unfold bad_weight. rewrite negb_false_iff, andb_true_iff, !Z.leb_le. done. Qed.

(** The ends of the sorted domain bound all of it. *)
Lemma domain_bounds l first rest final r :
  sorted_by ratio_fraction l = first :: rest → last (first :: rest) = Some final →
  py_lt (ratio_fraction first) 0%Q || py_lt 1%Q (ratio_fraction final) = false →
  r ∈ l → unit_interval r.
Proof.
  intros E Hlast [H0 H1]%orb_false_iff Hr. apply py_lt_false in H0, H1. apply Q_le_iff in H0, H1.
  destruct (sorted_by_head ratio_fraction _ _ _ E) as [_ Hhead].
  specialize (Hhead r Hr). apply Q_le_iff in Hhead.
  assert (py_le (ratio_fraction r) (ratio_fraction final) = true) as Hf.
  { rewrite <- elem_of_sorted_by with (key := ratio_fraction), E in Hr.
    pose proof (sorted_by_sorted ratio_fraction l) as S. rewrite E in S.
    clear -Hr S Hlast. revert first S Hr Hlast.
    induction rest as [|x rest IH]; intros first S Hr Hlast.
    - injection Hlast as <-. apply list_elem_of_singleton in Hr as ->. apply py_le_refl.
    - apply StronglySorted_inv in S as [S Hall]. apply elem_of_cons in Hr as [->|Hr].
      + rewrite Forall_forall in Hall. apply (Hall final). change (last (x :: rest) = Some final) in Hlast.
        by apply last_Some_elem_of.
      + by apply (IH x). }
  apply Q_le_iff in Hf. split; lra.
Qed.

Lemma criterion_built_domain c :
  criterion_built c →
  is_id (pc_criterion_id c) = true ∧ 1 <= pc_weight c <= 5 ∧
  (∀ r, r ∈ pc_allowed_satisfactions c → unit_interval r) ∧
  (∀ r, pc_unknown_upper c = Some r → r ∈ pc_allowed_satisfactions c) ∧
  (∀ r, pc_neutral_prior c = Some r → r ∈ pc_allowed_satisfactions c) ∧
  (pc_normalization c = NormalizationKind.LOWER_IS_BETTER →
   ∀ p, p ∈ pc_lower_is_better_points c → p.2 ∈ pc_allowed_satisfactions c).
Proof.
  intros [raw H]. unfold PreferenceCriterion_check in H.
  apply bind_Ok in H as (? & Hid%require_id_Ok & H).
  apply bind_Ok in H as (? & [[_ Hw]%orb_false_iff _]%raise_if_Ok%orb_false_iff & H).
  set (allowed := sorted_by ratio_fraction _) in H.
  apply bind_Ok in H as (? & Hdom%raise_if_Ok & H).
  do 2 (apply bind_Ok in H as (? & _ & H)).
  apply bind_Ok in H as (? & Hun%raise_if_Ok%negb_false_iff & H).
  apply bind_Ok in H as (? & Hne%raise_if_Ok%negb_false_iff & H).
  apply bind_Ok in H as (? & Hpts & H).
  do 2 (apply bind_Ok in H as (? & _ & H)).
  apply bind_Ok in H as (points & Hsorted & [= <-]). cbn.
  assert (∀ o r, in_domain o allowed = true → o = Some r → r ∈ allowed) as Hin.
  { intros o r Ho ->. by apply py_in_true. }
  split_and!; [done|by apply bad_weight_false|by apply bad_weight_false| |eauto..|].
  - intros r Hr. destruct allowed as [|first rest] eqn:E; [done|].
    destruct (last (first :: rest)) as [final|] eqn:El; [|done].
    eapply domain_bounds; [exact E|exact El|exact Hdom|].
    apply (elem_of_sorted_by ratio_fraction). change (r ∈ allowed). by rewrite E.
  - intros Hk p Hp. rewrite bool_decide_eq_true_2 in Hpts by done.
    apply bind_Ok in Hpts as (? & _ & Hpts%raise_if_Ok).
    unfold sorted_points in Hsorted. destruct (existsb _ _) in Hsorted; [done|]. injection Hsorted as <-.
    apply elem_of_sorted_by in Hp. rewrite existsb_false in Hpts.
    specialize (Hpts p Hp). by apply negb_false_iff, py_in_true in Hpts.
Qed.

Lemma unit_interval_zero : unit_interval zero_ratio.
Proof. by split. Qed.
Lemma unit_interval_unit b : unit_interval (unit_ratio b).
Proof. by destruct b; split. Qed.

Lemma normalization_value_unit c v r :
  criterion_built c → _normalization_value c v = Ok r → unit_interval r.
Proof.
  intros Hc. destruct (criterion_built_domain c Hc) as (_ & _ & Hdom & _ & _ & Hpts).
  unfold _normalization_value. destruct (pc_normalization c) eqn:Ek.
  1,2: intros [= <-]; apply unit_interval_unit.
  2: done.
  case_match; [intros [= <-]; apply unit_interval_zero|].
  intros (q & _ & [= <-])%bind_Ok. specialize (Hpts eq_refl).
  induction (pc_lower_is_better_points c) as [|[top sat] pts IH]; cbn; [apply unit_interval_zero|].
  case_match; [apply Hdom, (Hpts (top, sat)); set_solver|apply IH; set_solver].
Qed.

(** The interval of a score, and zero below without evidence. *)
Definition parts_ok (p : score_parts) : Prop :=
  (0 <= ratio_fraction (sp_conservative p))%Q ∧
  (ratio_fraction (sp_conservative p) <= ratio_fraction (sp_optimistic p))%Q ∧
  (ratio_fraction (sp_optimistic p) <= 1)%Q ∧
  (sp_state p ≠ EvidenceState.ACCEPTABLE → sp_prior_label p = None → sp_conservative p = zero_ratio).

Lemma parts_ok_same r st ids label reasons :
  unit_interval r → (st ≠ EvidenceState.ACCEPTABLE → label ≠ None) →
  parts_ok (mkScoreParts r r st ids label reasons).
Proof. intros [H0 H1] Hst. split_and!; cbn; [done|apply Qle_refl|done|naive_solver]. Qed.

Lemma unknown_score_ok c st ids reasons : criterion_built c → parts_ok (unknown_score c st ids reasons).
Proof.
  intros Hc. destruct (criterion_built_domain c Hc) as (_ & _ & Hdom & Hun & _). unfold unknown_score.
  destruct (pc_unknown_upper c) as [u|]; [|by split_and!].
  destruct (Hdom u) as [H0 H1]; [by apply Hun|]. by split_and!.
Qed.

(** The one score that no constructor bounds: the value of an observed outcome. *)
Definition observed_parts (o : OutcomeObservation) (p : score_parts) : Prop :=
  sp_conservative p = oo_value o ∧ sp_optimistic p = oo_value o ∧ sp_state p = EvidenceState.ACCEPTABLE.

#[local] Instance unit_interval_dec r : Decision (unit_interval r).
Proof.
  unfold unit_interval. destruct (Qlt_le_dec (ratio_fraction r) 0) as [Hl|Hl];
    [right; intros [? _]; by apply (Qlt_not_le _ _ Hl)|].
  destruct (Qlt_le_dec 1 (ratio_fraction r)) as [Hu|Hu]; [right; intros [_ ?]; by apply (Qlt_not_le _ _ Hu)|by left].
Defined.

Lemma criterion_score_ok c observed idx fs p :
  criterion_built c → criterion_score c observed idx fs = Ok p →
  parts_ok p ∨ ∃ o, observed = Some o ∧ observed_parts o p ∧ ¬ unit_interval (oo_value o).
Proof.
  intros Hc. unfold criterion_score. case_bool_decide as Hk.
  - intros [= <-]. unfold outcome_score. destruct observed as [o|].
    + case_bool_decide as Hst; [|left; by apply unknown_score_ok].
      destruct (decide (unit_interval (oo_value o))); [left; by apply parts_ok_same|right; by exists o].
    + destruct (criterion_built_domain c Hc) as (_ & _ & Hdom & _ & Hne & _). left.
      destruct (pc_neutral_prior c) as [r|]; [|by split_and!].
      apply parts_ok_same; [by apply Hdom, Hne|done].
  - intros E. left. revert E. case_bool_decide as Hst; [|intros [= <-]; by apply unknown_score_ok].
    destruct (fs_values fs) as [|v vs]; [intros [= <-]; by apply unknown_score_ok|].
    intros (values & Hv & E)%bind_Ok. destruct values as [|first rest]; [done|]. injection E as <-.
    assert (∀ r, r ∈ first :: rest → unit_interval r) as Hunit.
    { intros r Hr. apply (mapM_Ok_elem _ _ _ _ Hv) in Hr as (w & _ & Ew). by eapply normalization_value_unit. }
    assert (min_ratio first rest ∈ first :: rest) as Hmin
      by (destruct (min_by_elem ratio_fraction first rest) as [E|E]; unfold min_ratio; [rewrite E|]; set_solver).
    assert (max_ratio first rest ∈ first :: rest) as Hmax
      by (destruct (max_by_elem ratio_fraction first rest) as [E|E]; unfold max_ratio; [rewrite E|]; set_solver).
    split_and!; cbn; [apply (Hunit _ Hmin)| |apply (Hunit _ Hmax)|done].
    apply Q_le_iff. apply (max_by_ge ratio_fraction first rest (min_ratio first rest)).
    by apply elem_of_cons in Hmin.
Qed.

Section score_properties.
Context `{Rfc8785}.

(** The invariant of a score of a plan. *)
Definition score_ok (s : ScoreComponent) : Prop :=
  is_id (sc_criterion_id s) = true ∧ 1 <= sc_weight s <= 5 ∧
  (0 <= ratio_fraction (sc_conservative_satisfaction s))%Q ∧
  (ratio_fraction (sc_conservative_satisfaction s) <= ratio_fraction (sc_optimistic_satisfaction s))%Q ∧
  (ratio_fraction (sc_optimistic_satisfaction s) <= 1)%Q ∧
  (sc_evidence_state s ≠ EvidenceState.ACCEPTABLE → sc_prior_label s = None →
   sc_conservative_satisfaction s = zero_ratio).

(** What the constructors of an input guarantee about its preferences. *)
Record preferences_valid (g : DecisionGraphInput) : Prop := {
  pv_built c : c ∈ gi_preferences g → criterion_built c;
  pv_unique : NoDup (pc_criterion_id <$> gi_preferences g)
}.

(** A score whose two ends are the value of an observed outcome of the plan, on
    acceptable evidence, and this value is no share. *)
Record out_of_range (g : DecisionGraphInput) (m : _PlanMaterial) (s : ScoreComponent) : Prop := {
  or_criterion : is_id (sc_criterion_id s) = true ∧ 1 <= sc_weight s <= 5;
  or_value : ∃ o, _outcome_value g (m_outcome_subject_id m) (sc_criterion_id s) = Some o ∧
    sc_conservative_satisfaction s = oo_value o ∧ sc_optimistic_satisfaction s = oo_value o ∧
    sc_evidence_state s = EvidenceState.ACCEPTABLE ∧ ¬ unit_interval (oo_value o)
}.

Lemma score_component_ok g m idx c s reasons :
  preferences_valid g → c ∈ gi_preferences g → score_component g m idx c = Ok (s, reasons) →
  (score_ok s ∨ out_of_range g m s) ∧ sc_criterion_id s = pc_criterion_id c.
Proof.
  intros Hg Hc. unfold score_component. intros (fs & _ & E)%bind_Ok. apply bind_Ok in E as (p & Hp & E).
  apply bind_Ok in E as (cons & _ & E). apply bind_Ok in E as (opt & _ & [= <- _]).
  pose proof (pv_built g Hg c Hc) as Hb.
  destruct (criterion_built_domain c Hb) as (Hid & Hw & _). split; [|done].
  apply criterion_score_ok in Hp as [(H0 & H1 & H2 & H3)|(o & Ho & (E1 & E2 & E3) & Hn)]; [left|right|done].
  - split_and!; cbn; try done; lia.
  - split; [done|]. by exists o.
Qed.

Lemma active_criteria_unique g m : preferences_valid g → NoDup (pc_criterion_id <$> active_criteria g m).
Proof.
  intros Hg. unfold active_criteria.
  assert (NoDup (pc_criterion_id <$> sorted_by pc_criterion_id (gi_preferences g))) as Hnd
    by (rewrite sorted_by_perm; apply (pv_unique g Hg)).
  induction (sorted_by pc_criterion_id (gi_preferences g)) as [|c l IH]; [constructor|].
  rewrite fmap_cons in Hnd. apply NoDup_cons in Hnd as [Hc Hl]. cbn [List.filter].
  case_match; [|by apply IH]. rewrite fmap_cons. apply NoDup_cons. split; [|by apply IH].
  intros (d & E & Hd)%list_elem_of_fmap. apply Hc. apply elem_of_lfilter in Hd as [Hd _].
  rewrite E. by apply list_elem_of_fmap_2.
Qed.

Lemma score_components_ok g m assessments scores reasons :
  preferences_valid g → _score_components g m assessments = Ok (scores, reasons) →
  (∀ s, s ∈ scores → score_ok s ∨ out_of_range g m s) ∧ NoDup (sc_criterion_id <$> scores).
Proof.
  intros Hg. unfold _score_components. intros (steps & Hs & [= <- _])%bind_Ok. split.
  - intros s ([s' rs] & -> & Hin)%list_elem_of_fmap.
    apply (mapM_Ok_elem _ _ _ _ Hs) in Hin as (c & Hc & E).
    unfold active_criteria in Hc. apply elem_of_lfilter in Hc as [Hc _]. rewrite elem_of_sorted_by in Hc.
    by apply (score_component_ok _ _ _ _ _ _ Hg Hc E).
  - assert (sc_criterion_id <$> steps.*1 = pc_criterion_id <$> active_criteria g m) as ->;
      [|by apply active_criteria_unique].
    assert (∀ c, c ∈ active_criteria g m → c ∈ gi_preferences g) as Hin.
    { intros c. unfold active_criteria. rewrite elem_of_lfilter, elem_of_sorted_by. by intros []. }
    apply mapM_Ok in Hs. revert Hin.
    induction Hs as [|c [s rs] cs steps E _ IH]; intros Hin; [done|].
    rewrite !fmap_cons. f_equal; [|apply IH; set_solver].
    apply (score_component_ok _ _ _ _ _ _ Hg (Hin c (list_elem_of_here _ _)) E).
Qed.

(** The constructor of a criterion's bounds. *)
Lemma criterion_bound_ok s : score_ok s →
  criterion_bound s = Ok (mkPreferenceCriterionBound (sc_criterion_id s) (sc_weight s)
    (sc_conservative_satisfaction s) (sc_optimistic_satisfaction s)).
Proof.
  intros (Hid & Hw & H0 & H1 & H2 & _). unfold criterion_bound, PreferenceCriterionBound_new.
  assert (require_id (sc_criterion_id s) "criterion_id" = Ok ()) as -> by (unfold require_id; by rewrite Hid).
  rewrite (proj2 (Z.leb_le 1 _)), (proj2 (Z.leb_le _ 5)) by lia. cbn [andb negb raise_if mbind result_bind].
  by rewrite (proj2 (Q_le_iff _ _) H0), (proj2 (Q_le_iff _ _) H1), (proj2 (Q_le_iff _ _) H2).
Qed.

Definition bounds_refused : exn :=
  DomainValidationError "preference satisfaction bounds must satisfy 0 <= low <= high <= 1".

Lemma criterion_bound_refused g m s : out_of_range g m s → criterion_bound s = Raise bounds_refused.
Proof.
  intros [[Hid Hw] (o & _ & E1 & E2 & _ & Hn)]. unfold criterion_bound, PreferenceCriterionBound_new.
  assert (require_id (sc_criterion_id s) "criterion_id" = Ok ()) as -> by (unfold require_id; by rewrite Hid).
  rewrite (proj2 (Z.leb_le 1 _)), (proj2 (Z.leb_le _ 5)) by lia. cbn [andb negb raise_if mbind result_bind].
  rewrite E1, E2. destruct (py_le 0%Q _) eqn:H0; [|done]. destruct (py_le _ 1%Q) eqn:H1; [|by rewrite andb_false_r].
  destruct Hn. split; by apply Q_le_iff.
Qed.

Lemma criterion_bounds_ok scores :
  (∀ s, s ∈ scores → score_ok s) →
  ∃ bounds, mapM criterion_bound scores = Ok bounds ∧ Forall preference_criterion_wf bounds ∧
            pb_criterion_id <$> bounds = sc_criterion_id <$> scores.
Proof.
  induction scores as [|s scores IH]; intros Hok; [by exists []|].
  destruct IH as (bounds & E & Hwf & Eid); [set_solver|].
  pose proof (Hok s ltac:(set_solver)) as Hs. pose proof (criterion_bound_ok s Hs) as Es.
  destruct Hs as (Hid & Hw & H0 & H1 & H2 & _).
  exists (mkPreferenceCriterionBound (sc_criterion_id s) (sc_weight s) (sc_conservative_satisfaction s)
            (sc_optimistic_satisfaction s) :: bounds).
  cbn [mapM]. rewrite Es, E. cbn. split_and!; [done| |by f_equal].
  by constructor.
Qed.

Lemma criterion_bounds_refused g m scores :
  (∀ s, s ∈ scores → score_ok s ∨ out_of_range g m s) → (∃ s, s ∈ scores ∧ out_of_range g m s) →
  mapM criterion_bound scores = Raise bounds_refused.
Proof.
  intros Hall (s & Hs & Ho). induction scores as [|s' scores IH]; [by apply not_elem_of_nil in Hs|].
  cbn [mapM]. destruct (Hall s' ltac:(set_solver)) as [Hok|Hbad]; [|by rewrite (criterion_bound_refused _ _ _ Hbad)].
  rewrite (criterion_bound_ok _ Hok). cbn [mbind result_bind].
  apply elem_of_cons in Hs as [->|Hs].
  { pose proof (criterion_bound_ok _ Hok) as E. by rewrite (criterion_bound_refused _ _ _ Ho) in E. }
  rewrite IH; [done| |done]. intros x Hx. apply Hall. by right.
Qed.

(** C29: on criteria that passed their constructors, with unique identifiers,
    every score satisfies [0 <= conservative <= optimistic <= 1], and is zero
    below unless the evidence is acceptable or the prior is labelled, except a
    score that is the value of an observed outcome outside of the unit
    interval, which no constructor refuses.  Where there is no such score the
    aggregation of the scores returns bounds within [0, 100]; where there is
    one the bounds of the criteria are refused with a domain error. *)
Theorem scores_valid_and_aggregate (g : DecisionGraphInput) (m : _PlanMaterial)
    (assessments : list EvidenceAssessment) (scores : list ScoreComponent) (reasons : list string) :
  preferences_valid g → _score_components g m assessments = Ok (scores, reasons) →
  (∀ s, s ∈ scores → score_ok s ∨ out_of_range g m s) ∧
  ((∀ s, s ∈ scores → ¬ out_of_range g m s) → scores ≠ [] →
   ∃ bounds p, mapM criterion_bound scores = Ok bounds ∧
     aggregate_preference_bounds bounds = Ok p ∧ (0 <= ratio_fraction (ps_conservative p))%Q ∧
     (ratio_fraction (ps_conservative p) <= ratio_fraction (ps_optimistic p))%Q ∧
     (ratio_fraction (ps_optimistic p) <= 100)%Q) ∧
  ((∃ s, s ∈ scores ∧ out_of_range g m s) → mapM criterion_bound scores = Raise bounds_refused).
Proof.
  intros Hg Hs. destruct (score_components_ok _ _ _ _ _ Hg Hs) as [Hall Hnd].
  split_and!; [done| |by apply criterion_bounds_refused]. intros Hno Hne.
  assert (∀ s, s ∈ scores → score_ok s) as Hok by (intros s Hin; destruct (Hall s Hin); [done|by destruct (Hno s)]).
  destruct (criterion_bounds_ok scores Hok) as (bounds & Eb & Hwf & Eid).
  destruct (aggregate_preference_bounds_total bounds Hwf) as (p & Ep & _ & _ & H0 & H1 & H2).
  - intros ->. by destruct scores.
  - by rewrite Eid.
  - exists bounds, p. by split_and!.
Qed.

(** [_material_dimensions] records a reason exactly when a bound is missing. *)
Lemma risk_bounds_reasons g m assessments risk reasons ids :
  _risk_bounds g m assessments = Ok (risk, reasons, ids) → (risk = None ↔ reasons ≠ []).
Proof.
  unfold _risk_bounds. intros (steps & _ & E)%bind_Ok.
  destruct (mjoin (snd <$> steps)) as [|r rs] eqn:Er.
  - destruct (mjoin ((λ s, s.1.1) <$> steps)) as [|b bs].
    + destruct (gi_risk_rule_set_complete g); cbn [negb] in E; [|by injection E as <- <- <-].
      apply bind_Ok in E as (low & _ & E). apply bind_Ok in E as (b & _ & [= <- <- <-]). done.
    + apply bind_Ok in E as (c & _ & [= <- <- <-]). done.
  - assert (sorted_by id (r :: rs) ≠ []) as Hne by (rewrite sorted_by_nil; done).
    set (sorted := sorted_by id (r :: rs)) in *. clearbody sorted. by injection E as <- <- <-.
Qed.

Lemma valid_cost_reasons cost n ok reasons :
  _valid_cost cost n = Ok (ok, reasons) →
  reasons = [] → ∃ low base high, oc_low cost = Some low ∧ oc_base cost = Some base ∧
    oc_high cost = Some high ∧ CostBounds_new low base high = Ok (mkCostBounds low base high).
Proof.
  unfold _valid_cost.
  destruct (oc_low cost) as [low|], (oc_base cost) as [base|], (oc_high cost) as [high|];
    try (by intros [= <- <-]).
  intros (cb & Hcb & _)%bind_Ok _. exists low, base, high. split_and!; [done..|]. rewrite Hcb.
  unfold CostBounds_new in Hcb. apply bind_Ok in Hcb as (? & _ & [= <-]). done.
Qed.

Lemma ordering_bounds_consistent g m gates assessments evaluated discovered scores d :
  _material_dimensions g m gates assessments evaluated discovered = Ok (scores, d) →
  match ordering_bounds d with
  | Ok (Some _) => pd_bound_unavailable_reasons d = []
  | Ok None => pd_bound_unavailable_reasons d ≠ []
  | Raise _ => False
  end.
Proof.
  unfold _material_dimensions.
  intros ([ss sr] & _ & E)%bind_Ok. apply bind_Ok in E as ([pref sr'] & Hpref & E).
  apply bind_Ok in E as ([[risk rr] ids] & Hrisk & E).
  apply bind_Ok in E as ([[[cov age] hard] er] & _ & E). apply bind_Ok in E as ([ok cr] & Hcost & E).
  apply bind_Ok in E as (hash & _ & E). apply bind_Ok in E as (univ & _ & [= <- <-]).
  apply risk_bounds_reasons in Hrisk. pose proof (valid_cost_reasons _ _ _ _ Hcost) as Hc.
  assert (pref = None → sr' ≠ []) as Hp.
  { intros ->. destruct ss as [|s ss]; [injection Hpref as <-; by destruct sr|].
    apply bind_Ok in Hpref as (? & _ & Hpref). by apply bind_Ok in Hpref as (? & _ & [= Hpref _]). }
  unfold ordering_bounds. cbn [pd_preference pd_stack_risk pd_total_cost pd_coverage pd_age
    pd_bound_unavailable_reasons].
  pose proof (sorted_set_nil (sr' ++ rr ++ er ++ cr)) as Hset.
  destruct (sorted_set (sr' ++ rr ++ er ++ cr)) as [|r rs].
  - destruct Hset as [Hset _]. specialize (Hset eq_refl).
    apply app_nil in Hset as [-> [-> [-> ->]%app_nil]%app_nil].
    destruct (Hc eq_refl) as (low & base & high & -> & -> & -> & ->).
    destruct pref; [|by destruct Hp]. destruct risk; [done|]. by destruct (proj1 Hrisk eq_refl).
  - by destruct pref, risk, (oc_low (m_cost m)), (oc_base (m_cost m)), (oc_high (m_cost m)).
Qed.

Lemma risk_bounds_wf g m assessments risk reasons ids b :
  _risk_bounds g m assessments = Ok (risk, reasons, ids) → risk = Some b → risk_wf b.
Proof.
  unfold _risk_bounds. intros (steps & _ & E)%bind_Ok ->.
  destruct (mjoin (snd <$> steps)); [|done]. destruct (mjoin ((λ s, s.1.1) <$> steps)).
  - destruct (negb _); [done|]. apply bind_Ok in E as (low & _ & E).
    apply bind_Ok in E as (c & Hc & [= -> _ _]). by eapply aggregate_risk_bounds_Ok.
  - apply bind_Ok in E as (c & Hc & [= -> _ _]). by eapply aggregate_risk_bounds_Ok.
Qed.

Lemma coverage_and_age_wf g m gates scores assessments cov age hard reasons :
  _coverage_and_age g m gates scores assessments = Ok (cov, age, hard, reasons) →
  (ratio_fraction (cv_conservative cov) <= ratio_fraction (cv_optimistic cov))%Q ∧
  (ratio_fraction (ea_lower age) <= ratio_fraction (ea_upper age))%Q.
Proof.
  unfold _coverage_and_age. intros (criteria & Hc & E)%bind_Ok. apply bind_Ok in E as (h & _ & E).
  apply bind_Ok in E as (a & Ha & E). apply bind_Ok in E as (c & Hcov & [= <- <- _ _]). split.
  - eapply aggregate_coverage_bounds_Ok; [|done]. apply Forall_forall. intros x Hx.
    apply (mapM_Ok_elem _ _ _ _ Hc) in Hx as (pc & _ & Hx). unfold coverage_criterion in Hx.
    destruct (dict_get _ _); [|done]. by eapply CoverageCriterion_new_Ok.
  - by eapply aggregate_evidence_age_bounds_Ok.
Qed.

Lemma material_cost g m gates assessments evaluated discovered scores d :
  _material_dimensions g m gates assessments evaluated discovered = Ok (scores, d) →
  pd_total_cost d = m_cost m.
Proof.
  unfold _material_dimensions.
  intros ([ss sr] & _ & E)%bind_Ok. apply bind_Ok in E as ([pref sr'] & _ & E).
  apply bind_Ok in E as ([[risk rr] ids] & _ & E).
  apply bind_Ok in E as ([[[cov age] hard] er] & _ & E). apply bind_Ok in E as ([ok cr] & _ & E).
  apply bind_Ok in E as (hash & _ & E). by apply bind_Ok in E as (univ & _ & [= _ <-]).
Qed.

(** The ordering bounds of a plan always have their ends in order. *)
Lemma material_bounds_wf g m gates assessments evaluated discovered scores d b :
  _material_dimensions g m gates assessments evaluated discovered = Ok (scores, d) →
  ordering_bounds d = Ok (Some b) → bounds_wf b.
Proof.
  unfold _material_dimensions.
  intros ([ss sr] & _ & E)%bind_Ok. apply bind_Ok in E as ([pref sr'] & Hpref & E).
  apply bind_Ok in E as ([[risk rr] ids] & Hrisk & E).
  apply bind_Ok in E as ([[[cov age] hard] er] & Hcov & E). apply bind_Ok in E as ([ok cr] & _ & E).
  apply bind_Ok in E as (hash & _ & E). apply bind_Ok in E as (univ & _ & [= <- <-]).
  apply coverage_and_age_wf in Hcov as [Hcov Hage]. unfold ordering_bounds.
  cbn [pd_preference pd_stack_risk pd_total_cost pd_coverage pd_age pd_bound_unavailable_reasons].
  destruct pref as [p|]; [|done]. destruct risk as [r|]; [|done].
  apply (λ H, risk_bounds_wf _ _ _ _ _ _ _ H eq_refl) in Hrisk as [Hr1 Hr2].
  destruct (oc_low _) as [low|]; [|done]. destruct (oc_base _) as [base|]; [|done].
  destruct (oc_high _) as [high|]; [|done]. destruct (sorted_set _); [|done].
  intros (cb & (-> & _ & _ & Hl & Hh)%CostBounds_new_Ok & [= <-])%bind_Ok.
  assert (ratio_fraction (ps_conservative p) <= ratio_fraction (ps_optimistic p))%Q as Hp.
  { destruct ss as [|s ss]; [done|]. apply bind_Ok in Hpref as (? & _ & Hpref).
    apply bind_Ok in Hpref as (? & Hpref & [= <- _]). by eapply aggregate_preference_bounds_Ok. }
  assert (py_le (amount low) (amount high) = true) by (by eapply py_le_trans).
  split; split_and!; cbn; auto using Qle_refl with sira; lia.
Qed.

(** A plan has complete ordering bounds exactly when no reason was recorded,
    and reading the bounds of dimensions the pipeline built never raises. *)
Theorem ordering_bounds_iff_no_reason (g : DecisionGraphInput) (m : _PlanMaterial)
    (gates : list GateResult) (assessments : list EvidenceAssessment) (evaluated discovered : Z)
    (scores : list ScoreComponent) (d : PlanDimensions) :
  _material_dimensions g m gates assessments evaluated discovered = Ok (scores, d) →
  match ordering_bounds d with
  | Ok (Some _) => pd_bound_unavailable_reasons d = []
  | Ok None => pd_bound_unavailable_reasons d ≠ []
  | Raise _ => False
  end.
Proof. exact (ordering_bounds_consistent g m gates assessments evaluated discovered scores d). Qed.
End score_properties.
