(* ===== verification/Closure.v ===== *)
(** * Dependency closure of a component: [closure] in [_pack_materials]

    The depth-first visit that collects the records a plan needs, with the
    issues it reports.  Without an issue the order is shown to be a
    topological order of everything the root depends on. *)
From S2P Require Import Prelude PyText PyNumber PyTime Enums Money Bounds Hashing GraphModels.

Local Open Scope string_scope.
Local Open Scope Z_scope.

(** The sets and lists the nested function [visit] shares. *)
Record dfs := mkDfs {
  d_ordered : list RawCandidateRecord;
  d_issues : list string;
  d_visiting : list string;
  d_visited : list string
}.

Definition add_issue (issue : string) (st : dfs) : dfs :=
  mkDfs (d_ordered st) (issue :: d_issues st) (d_visiting st) (d_visited st).
Definition enter (product : string) (st : dfs) : dfs :=
  mkDfs (d_ordered st) (d_issues st) (product :: d_visiting st) (d_visited st).
Definition leave (record : RawCandidateRecord) (st : dfs) : dfs :=
  mkDfs (d_ordered st ++ [record])%list (d_issues st)
    (List.filter (λ p, negb (bool_decide (p = rc_product_id record))) (d_visiting st))
    (rc_product_id record :: d_visited st).

(** [by_product.get(product, [])] *)
Definition by_product (representatives : list RawCandidateRecord) (product : string)
  : list RawCandidateRecord :=
  List.filter (λ r, bool_decide (rc_product_id r = product)) representatives.

(** [fuel] bounds the depth of the recursion. *)
Fixpoint visit (fuel : nat) (representatives : list RawCandidateRecord)
    (record : RawCandidateRecord) (st : dfs) : result dfs :=
  if py_in (rc_product_id record) (d_visiting st) then Ok (add_issue "CYCLIC_COMPONENT_DEPENDENCY" st)
  else if py_in (rc_product_id record) (d_visited st) then Ok st
  else match fuel with
       | O => Raise RecursionError
       | S fuel =>
           st' ← foldM (λ st dependency_id,
             match by_product representatives dependency_id with
             | [] => Ok (add_issue "MISSING_REQUIRED_COMPONENT" st)
             | [dependency] => visit fuel representatives dependency st
             | _ => Ok (add_issue "AMBIGUOUS_REQUIRED_COMPONENT" st)
             end) (enter (rc_product_id record) st) (rc_required_product_ids record);
           Ok (leave record st')
       end.

Definition closure (representatives : list RawCandidateRecord) (root : RawCandidateRecord)
  : result (list RawCandidateRecord * list string) :=
  st ← visit (length representatives) representatives root (mkDfs [] [] [] []);
  Ok (d_ordered st, sorted_set (d_issues st)).

(** ** Termination *)

Section closure_facts.
Context (reps : list RawCandidateRecord).

Lemma elem_of_by_product p r : r ∈ by_product reps p ↔ r ∈ reps ∧ rc_product_id r = p.
Proof. unfold by_product. by rewrite elem_of_lfilter, bool_decide_eq_true. Qed.

Lemma by_product_single p d : by_product reps p = [d] → d ∈ reps ∧ rc_product_id d = p.
Proof. intros E. apply elem_of_by_product. rewrite E. set_solver. Qed.

Lemma filter_other (p : string) l :
  p ∉ l → List.filter (λ q, negb (bool_decide (q = p))) l = l.
Proof.
  induction l as [|q l IH]; [done|]. intros Hp. cbn. rewrite bool_decide_eq_false_2 by set_solver.
  cbn. rewrite IH by set_solver. done.
Qed.

(** A visit leaves the set of open components as it found it. *)
Lemma visit_visiting fuel record st st' :
  visit fuel reps record st = Ok st' → d_visiting st' = d_visiting st.
Proof.
  revert record st st'. induction fuel as [|fuel IH]; intros record st st'; cbn [visit];
    (destruct (py_in _ (d_visiting st)) eqn:V; [by intros [= <-]|]);
    (destruct (py_in _ (d_visited st)); [by intros [= <-]|]); [done|].
  intros (t & Ht & [= <-])%bind_Ok. apply py_in_false in V. cbn [leave d_visiting].
  assert (d_visiting t = rc_product_id record :: d_visiting st) as ->.
  { revert Ht. apply (foldM_inv (λ s, d_visiting s = rc_product_id record :: d_visiting st)); [|done].
    intros s dep s' _ Hs E. case_match; [by injection E as <-|].
    case_match; [|by injection E as <-]. apply IH in E. congruence. }
  cbn. rewrite bool_decide_eq_true_2 by done. cbn. by apply filter_other.
Qed.

(** The open components are distinct products of representatives, so the depth
    never exceeds their number. *)
Lemma visit_total fuel record st :
  record ∈ reps → NoDup (d_visiting st) → d_visiting st ⊆ rc_product_id <$> reps →
  (length reps ≤ fuel + length (d_visiting st))%nat →
  ∃ st', visit fuel reps record st = Ok st'.
Proof.
  revert record st. induction fuel as [|fuel IH]; intros record st Hr Hnd Hsub Hlen; cbn [visit];
    (destruct (py_in _ (d_visiting st)) eqn:V; [by eexists|]);
    (destruct (py_in _ (d_visited st)); [by eexists|]); apply py_in_false in V;
    (assert (NoDup (rc_product_id record :: d_visiting st)) as Hnd' by by apply NoDup_cons);
    (assert (rc_product_id record :: d_visiting st ⊆ rc_product_id <$> reps) as Hsub'
      by (intros p [->|Hp]%elem_of_cons; [by apply list_elem_of_fmap_2|by apply Hsub])).
  - exfalso. pose proof (submseteq_length _ _ (NoDup_submseteq _ _ Hnd' Hsub')) as Hle.
    rewrite length_fmap in Hle. cbn in Hle. lia.
  - assert (∀ deps s, d_visiting s = rc_product_id record :: d_visiting st →
      ∃ s', foldM (λ st dependency_id,
             match by_product reps dependency_id with
             | [] => Ok (add_issue "MISSING_REQUIRED_COMPONENT" st)
             | [dependency] => visit fuel reps dependency st
             | _ => Ok (add_issue "AMBIGUOUS_REQUIRED_COMPONENT" st)
             end) s deps = Ok s') as W.
    2:{ destruct (W (rc_required_product_ids record) (enter (rc_product_id record) st)) as [s' ->]; [done|].
        by eexists. }
    intros deps. induction deps as [|dep deps IHd]; intros s Hs; cbn [foldM]; [by eexists|].
    destruct (by_product reps dep) as [|d [|d' ds]] eqn:E; cbn [mbind result_bind]; [by apply IHd| |by apply IHd].
    destruct (IH d s) as [t Ht]; [by apply by_product_single in E as []|by rewrite Hs|by rewrite Hs| |].
    + rewrite Hs. cbn. lia.
    + rewrite Ht. cbn [mbind result_bind]. apply IHd. by rewrite (visit_visiting _ _ _ _ Ht).
Qed.

(** ** The order without issues *)

Definition requires (a b : RawCandidateRecord) : Prop :=
  ∃ dep, dep ∈ rc_required_product_ids a ∧ by_product reps dep = [b].

(** Everything a listed record needs is unambiguous and listed before it. *)
Definition deps_before (ordered : list RawCandidateRecord) : Prop :=
  ∀ i r dep, ordered !! i = Some r → dep ∈ rc_required_product_ids r →
    ∃ d j, by_product reps dep = [d] ∧ (j < i)%nat ∧ ordered !! j = Some d.

Record dfs_wf (st : dfs) : Prop := {
  dw_visited p : p ∈ d_visited st ↔ p ∈ rc_product_id <$> d_ordered st;
  dw_reps r : r ∈ d_ordered st → r ∈ reps;
  dw_nodup : NoDup (rc_product_id <$> d_ordered st);
  dw_disjoint p : p ∈ d_visited st → p ∉ d_visiting st;
  dw_deps : deps_before (d_ordered st)
}.

Definition grows (st st' : dfs) : Prop := d_issues st' = [] → d_issues st = [].

#[local] Instance grows_preorder : PreOrder grows.
Proof. split; unfold grows; [by intros ?|naive_solver]. Qed.

Lemma visit_issues fuel record st st' : visit fuel reps record st = Ok st' → grows st st'.
Proof.
  revert record st st'. induction fuel as [|fuel IH]; intros record st st'; cbn [visit];
    (case_match; [by intros [= <-]|]); (case_match; [intros [= <-]; by unfold grows|]); [done|].
  intros (t & Ht & [= <-])%bind_Ok. unfold grows. cbn [leave d_issues].
  apply (foldM_rel grows) in Ht; [exact Ht|].
  intros s dep s' _ E. case_match; [by injection E as <-|]. case_match; [by eapply IH|by injection E as <-].
Qed.

Lemma deps_before_snoc ordered r :
  deps_before ordered →
  (∀ dep, dep ∈ rc_required_product_ids r → ∃ d, by_product reps dep = [d] ∧ d ∈ ordered) →
  deps_before (ordered ++ [r]).
Proof.
  intros Hb Hr i x dep Hi Hdep. apply lookup_snoc_Some in Hi as [[Hi E]|[-> ->]].
  - destruct (Hb i x dep E Hdep) as (d & j & ? & ? & Hj). exists d, j. split_and!; [done..|].
    by apply lookup_app_l_Some.
  - destruct (Hr dep Hdep) as (d & ? & [j Hj]%list_elem_of_lookup). exists d, j.
    split_and!; [done|by eapply lookup_lt_Some|by apply lookup_app_l_Some].
Qed.

(** What a visit without issues adds. *)
Record visited_to (record : RawCandidateRecord) (st st' : dfs) : Prop := {
  vt_wf : dfs_wf st';
  vt_prefix : d_ordered st `prefix_of` d_ordered st';
  vt_listed : record ∈ d_ordered st';
  vt_reached r : r ∈ d_ordered st' → r ∈ d_ordered st ∨ rtc requires record r
}.

(** The loop over the dependencies of [record]. *)
Record deps_done (record : RawCandidateRecord) (done : list string) (st st' : dfs) : Prop := {
  dd_wf : dfs_wf st';
  dd_prefix : d_ordered st `prefix_of` d_ordered st';
  dd_listed dep : dep ∈ done → ∃ d, by_product reps dep = [d] ∧ d ∈ d_ordered st';
  dd_reached r : r ∈ d_ordered st' → r ∈ d_ordered st ∨ rtc requires record r
}.

Definition dep_step (fuel : nat) (st : dfs) (dependency_id : string) : result dfs :=
  match by_product reps dependency_id with
  | [] => Ok (add_issue "MISSING_REQUIRED_COMPONENT" st)
  | [dependency] => visit fuel reps dependency st
  | _ => Ok (add_issue "AMBIGUOUS_REQUIRED_COMPONENT" st)
  end.

Lemma dep_step_issues fuel st dep st' : dep_step fuel st dep = Ok st' → grows st st'.
Proof.
  unfold dep_step. case_match; [by intros [= <-]|]. case_match; [apply visit_issues|by intros [= <-]].
Qed.

Lemma dep_steps_ok fuel record :
  (∀ d st st', d ∈ reps → by_product reps (rc_product_id d) = [d] → dfs_wf st →
     visit fuel reps d st = Ok st' → d_issues st' = [] → visited_to d st st') →
  ∀ deps st st', (∀ dep, dep ∈ deps → dep ∈ rc_required_product_ids record) → dfs_wf st →
    foldM (dep_step fuel) st deps = Ok st' → d_issues st' = [] → deps_done record deps st st'.
Proof.
  intros IH deps. induction deps as [|dep deps IHd]; intros st st' Hsub Hwf; cbn [foldM].
  - intros [= <-] _. constructor; [done|done|set_solver|by left].
  - intros (t & Ht & E)%bind_Ok Hiss.
    assert (d_issues t = []) as Hit.
    { by apply (foldM_rel grows _ _ _ _ (λ s x s' _, dep_step_issues fuel s x s') E). }
    unfold dep_step in Ht. destruct (by_product reps dep) as [|d [|d' ds]] eqn:Ed;
      [by injection Ht as <-| |by injection Ht as <-].
    destruct (by_product_single _ _ Ed) as [Hd Ep]. rewrite <- Ep in Ed.
    destruct (IH d st t Hd Ed Hwf Ht Hit) as [Hwt Hpre Hlist Hreach].
    destruct (IHd t st') as [Hwf' Hpre' Hlist' Hreach']; [set_solver|done..|].
    constructor; [done|by transitivity (d_ordered t)| |].
    + intros x [->|Hx]%elem_of_cons; [|by apply Hlist']. exists d. rewrite <- Ep. split; [done|].
      destruct Hpre' as [k ->]. set_solver.
    + intros r Hr. destruct (Hreach' r Hr) as [Hr'|?]; [|by right].
      destruct (Hreach r Hr') as [?|Hrtc]; [by left|right].
      apply rtc_l with d; [|done]. exists dep. rewrite <- Ep. set_solver.
Qed.

(** Closing [record] once its dependencies are listed. *)
Lemma leave_ok record st t :
  record ∈ reps → rc_product_id record ∉ d_visiting st → d_visiting t = rc_product_id record :: d_visiting st →
  deps_done record (rc_required_product_ids record) st t → visited_to record st (leave record t).
Proof.
  intros Hr Hopen Hvis [Hwf Hpre Hlist Hreach].
  assert (rc_product_id record ∉ d_visited t) as Hnew.
  { intros Hin. apply (dw_disjoint t Hwf) in Hin. rewrite Hvis in Hin. set_solver. }
  constructor.
  - constructor; cbn [leave d_visited d_ordered d_visiting].
    + intros p. rewrite fmap_app, elem_of_cons, elem_of_app, (dw_visited t Hwf). cbn.
      rewrite list_elem_of_singleton. tauto.
    + intros r [Hin|Hin%list_elem_of_singleton]%elem_of_app; [by apply (dw_reps t Hwf)|by subst].
    + rewrite fmap_app. apply NoDup_app. split_and!; [apply (dw_nodup t Hwf)| |apply NoDup_singleton].
      intros p Hp Ep%list_elem_of_singleton. subst p. by apply Hnew, (dw_visited t Hwf).
    + rewrite Hvis. cbn. rewrite bool_decide_eq_true_2 by done. cbn. rewrite filter_other by done.
      intros p [->|Hp]%elem_of_cons; [done|]. apply (dw_disjoint t Hwf) in Hp. rewrite Hvis in Hp. set_solver.
    + by apply deps_before_snoc; [apply (dw_deps t Hwf)|].
  - cbn. destruct Hpre as [k ->]. exists (k ++ [record])%list. by rewrite app_assoc.
  - cbn. set_solver.
  - cbn. intros r [Hin|Hin%list_elem_of_singleton]%elem_of_app; [by apply Hreach|subst; by right].
Qed.

Lemma visit_ok fuel record st st' :
  record ∈ reps → by_product reps (rc_product_id record) = [record] ∨ rc_product_id record ∉ d_visited st →
  dfs_wf st → visit fuel reps record st = Ok st' → d_issues st' = [] →
  visited_to record st st' ∧
  (rc_product_id record ∉ d_visited st → last (d_ordered st') = Some record).
Proof.
  revert record st st'. induction fuel as [|fuel IH]; intros record st st' Hr Hu Hwf; cbn [visit];
    (destruct (py_in _ (d_visiting st)) eqn:V; [by intros [= <-]|apply py_in_false in V]);
    (destruct (py_in _ (d_visited st)) eqn:W;
      [apply py_in_true in W; intros [= <-] _; split; [|done]; destruct Hu as [Hu|]; [|done];
       constructor; [done|done| |by left]
      |apply py_in_false in W]); [|done| |].
  1: apply (dw_visited st Hwf), list_elem_of_fmap in W as (x & Ex & Hx);
     assert (x ∈ by_product reps (rc_product_id record)) as Hin
       by (apply elem_of_by_product; split; [by apply (dw_reps st Hwf)|done]);
     rewrite Hu in Hin; apply list_elem_of_singleton in Hin; by subst.
  1: apply (dw_visited st Hwf), list_elem_of_fmap in W as (x & Ex & Hx);
     assert (x ∈ by_product reps (rc_product_id record)) as Hin
       by (apply elem_of_by_product; split; [by apply (dw_reps st Hwf)|done]);
     rewrite Hu in Hin; apply list_elem_of_singleton in Hin; by subst.
  intros (t & Ht & [= <-])%bind_Ok Hiss. change (foldM (dep_step fuel) (enter (rc_product_id record) st)
    (rc_required_product_ids record) = Ok t) in Ht.
  assert (dfs_wf (enter (rc_product_id record) st)) as Hwe.
  { destruct Hwf. constructor; cbn; [done..| |done]. intros p Hp [->|Hv]%elem_of_cons; [done|]. by eapply dw_disjoint0. }
  assert (d_visiting t = rc_product_id record :: d_visiting st) as Hvis.
  { revert Ht. apply (foldM_inv (λ s, d_visiting s = rc_product_id record :: d_visiting st)); [|done].
    intros s dep s' _ Hs E. unfold dep_step in E. case_match; [by injection E as <-|].
    case_match; [|by injection E as <-]. apply visit_visiting in E. congruence. }
  assert (deps_done record (rc_required_product_ids record) (enter (rc_product_id record) st) t) as Hdone.
  { apply (dep_steps_ok fuel record) with (st := enter (rc_product_id record) st); [|done..].
    intros d s s' Hd Hsingle Hs E Hi. by apply (IH d s s' Hd (or_introl Hsingle) Hs E Hi). }
  split.
  - apply leave_ok; [done..|]. by destruct Hdone.
  - intros _. cbn. by rewrite last_snoc.
Qed.
End closure_facts.

(** ** Properties *)

Lemma dfs_start_wf reps : dfs_wf reps (mkDfs [] [] [] []).
Proof. constructor; cbn; try set_solver; [constructor|]. by intros i r dep Hi. Qed.

(** C26: the closure of a representative always terminates with an answer: the
    recursion never goes deeper than the number of representatives. *)
Theorem closure_terminates (representatives : list RawCandidateRecord) (root : RawCandidateRecord) :
  root ∈ representatives →
  ∃ ordered issues, closure representatives root = Ok (ordered, issues).
Proof.
  intros Hr. unfold closure.
  destruct (visit_total representatives (length representatives) root (mkDfs [] [] [] [])) as [st ->];
    [done|constructor|set_solver|cbn; lia|]. cbn. eauto.
Qed.

(** C25: a closure without issues is a topological order of everything the root
    depends on: the root is last, no component repeats, every dependency of a
    listed record is unambiguous and listed before it, and nothing else is
    listed. *)
Theorem closure_topological (representatives : list RawCandidateRecord) (root : RawCandidateRecord)
    (ordered : list RawCandidateRecord) :
  root ∈ representatives → closure representatives root = Ok (ordered, []) →
  last ordered = Some root ∧ NoDup (rc_product_id <$> ordered) ∧
  deps_before representatives ordered ∧
  ∀ r, r ∈ ordered ↔ rtc (requires representatives) root r.
Proof.
  intros Hr. unfold closure. intros (st & Hv & E)%bind_Ok.
  assert (ordered = d_ordered st ∧ d_issues st = []) as [-> Hiss].
  { destruct (sorted_set (d_issues st)) eqn:S; [|discriminate E]. injection E as <-.
    split; [done|exact (proj1 (sorted_set_nil _) S)]. }
  destruct (visit_ok _ _ root _ st Hr (or_intror (not_elem_of_nil _ : _ ∉ d_visited (mkDfs [] [] [] [])))
    (dfs_start_wf _) Hv Hiss) as [[Hwf _ Hroot Hreach] Hlast].
  split_and!; [apply Hlast, not_elem_of_nil|apply (dw_nodup _ _ Hwf)|apply (dw_deps _ _ Hwf)|].
  intros r. split.
  - intros Hin. destruct (Hreach r Hin) as [Hn|]; [by apply elem_of_nil in Hn|done].
  - revert r. apply (rtc_ind_r (λ r, r ∈ d_ordered st)); [done|]. intros a b _ (dep & Hdep & Eb) IH.
    apply list_elem_of_lookup in IH as [i Hi]. destruct (dw_deps _ _ Hwf i a dep Hi Hdep) as (d & j & Ed & _ & Hj).
    rewrite Eb in Ed. injection Ed as <-. by eapply list_elem_of_lookup_2.
Qed.

Definition ex_record (product : string) (required : list string) : RawCandidateRecord :=
  mkRawCandidateRecord product product 1 "seller" product "std" "eu" "offer" PackAuthority.SELLER_SEALED
    true [] [] [] [] [] "PUBLISHED" required.

Lemma closure_terminates_witness :
  ∃ ordered issues,
    closure [ex_record "a" ["b"]; ex_record "b" ["a"]] (ex_record "a" ["b"]) = Ok (ordered, issues).
Proof. apply (closure_terminates [ex_record "a" ["b"]; ex_record "b" ["a"]]). apply list_elem_of_here. Defined.

Lemma closure_topological_witness :
  closure [ex_record "a" ["b"]; ex_record "b" []] (ex_record "a" ["b"]) =
    Ok ([ex_record "b" []; ex_record "a" ["b"]], []) ∧
  last [ex_record "b" []; ex_record "a" ["b"]] = Some (ex_record "a" ["b"]).
Proof.
  split; [vm_compute; reflexivity|].
  apply (closure_topological [ex_record "a" ["b"]; ex_record "b" []] (ex_record "a" ["b"])).
  - apply list_elem_of_here.
  - vm_compute. reflexivity.
Defined.
