(* ===== verification/Plans.v ===== *)
(** * Solution plans: [build_solution_plans] of [decision_engine/graph_v1.py]

    Materials from the recalled packs (with their dependency closure, combined
    cost and aggregated facts) and from the current stack, and the evaluated
    plan of each.  A plan is shown to be executable exactly when nothing blocks
    it and its ordering bounds are complete. *)
From S2P Require Import Prelude PyText PyNumber PyTime Enums Money Bounds Hashing.
From S2P Require Import GraphModels Recall Gates Scores Closure.

Local Open Scope string_scope.
Local Open Scope Z_scope.

(** The order in which the interpreter iterates over a set, which the language
    leaves open (a set of strings changes it with the hash seed). *)
Class SetOrder := {
  str_order : list string → list string;
  int_order : list Z → list Z
}.

(** What the language promises: every member once. *)
Class SetOrderLaws `{SetOrder} : Prop := {
  str_order_perm l : str_order l ≡ₚ l;
  int_order_perm l : int_order l ≡ₚ l
}.

(** [str(fraction)] *)
Definition fraction_text (q : Q) : string :=
  if denominator q =? 1 then str_int (numerator q)
  else str_int (numerator q) ++ "/" ++ str_int (denominator q).

Section plans.
Context `{Rfc8785}.

Definition _plan_id (action : SolutionAction.t) (component_ids : list string) : result string :=
  digest ← content_hash (dict
    (match component_ids with
     | [component] => [("action", VStr (SolutionAction.value action)); ("component_id", VStr component)]
     | _ => [("action", VStr (SolutionAction.value action)); ("ordered_component_ids", vstrs component_ids)]
     end));
  Ok ("plan_" ++ short_hash digest).

(** ** Facts of a bundle *)

(** [None] when some value has the wrong type. *)
Definition aggregate_numbers (aggregation : string) (values : list FactValue) : result (option FactValue) :=
  if existsb (λ v, negb (is_number_or_text v)) values then Ok None else
  numeric ← mapM value_fraction values;
  match numeric with
  | [] => Raise AssertionError
  | first :: rest =>
      let q := if bool_decide (aggregation = "SUM") then sum_Q numeric
               else if bool_decide (aggregation = "MIN") then min_by id first rest
               else max_by id first rest in
      Ok (Some (if denominator q =? 1 then FVInt (numerator q) else FVStr (fraction_text q)))
  end.

Definition aggregate_union (values : list FactValue) : option FactValue :=
  if existsb (λ v, match v with FVTuple _ => false | _ => true end) values then None
  else Some (FVTuple (sorted_set (v ← values; match v with FVTuple l => l | _ => [] end))).

Definition aggregate_bools (aggregation : string) (values : list FactValue) : option FactValue :=
  if existsb (λ v, match v with FVBool _ => false | _ => true end) values then None
  else let holds v := match v with FVBool b => b | _ => false end in
       Some (FVBool (if bool_decide (aggregation = "ALL") then forallb holds values
                     else existsb holds values)).

(** One field of the loop: the facts it appends. *)
Definition aggregate_field (field : string) (criterion : PreferenceCriterion) (bundle_id : string)
    (per_component : list (list ProductFact)) : result (list ProductFact) :=
  let aggregation := pc_aggregation criterion in
  if bool_decide (aggregation = "PRIMARY_COMPONENT") then Ok (default [] (last per_component)) else
  if existsb (λ facts, negb (length facts =? 1)%nat) per_component then Ok (mjoin per_component) else
  let facts := mjoin per_component in
  let values := pf_value <$> facts in
  let evidence_ids := sorted_set (f ← facts; pf_evidence_ids f) in
  aggregated ←
    (if py_in aggregation ["SUM"; "MIN"; "MAX"] then aggregate_numbers aggregation values
     else if bool_decide (aggregation = "UNION") then Ok (aggregate_union values)
     else if py_in aggregation ["ALL"; "ANY"] then Ok (aggregate_bools aggregation values)
     else Ok None);
  match aggregated with
  | None => Ok facts
  | Some value => f ← ProductFact_new field value evidence_ids (Some bundle_id); Ok [f]
  end.

Definition _aggregate_preference_facts (g : DecisionGraphInput) (records : list RawCandidateRecord)
  : result (list ProductFact) :=
  let raw_facts := (r ← records; rc_facts r) in
  match records, last records with
  | [_], _ => Ok raw_facts
  | _, None => Raise AssertionError
  | _, Some primary =>
      let preference_by_field := (λ c, (pc_field c, c)) <$> gi_preferences g in
      let retained := List.filter (λ f, negb (py_in (pf_field f) preference_by_field.*1)) raw_facts in
      parts ← mapM (λ p : string * PreferenceCriterion,
          aggregate_field p.1 p.2 (rc_product_id primary)
            ((λ r, List.filter (λ f, bool_decide (pf_field f = p.1)) (rc_facts r)) <$> records))
        (sorted_by fst (dict_items preference_by_field));
      Ok (retained ++ mjoin parts)%list
  end.

(** ** Cost of a bundle *)

(** [total(field)] over the costs of all records. *)
Definition bundle_total (bound : OfferCost → option Money) (currency : string) (record_count : nat)
    (costs : list OfferCost) : result (option Money) :=
  let values := bound <$> costs in
  if negb (length values =? record_count)%nat || existsb is_none values then Ok None else
  m ← Money_new (MDecimal (sum_amounts (DFinite 0 0) (amount <$> omap id values))) currency;
  Ok (Some m).

Definition bundle_horizons (costs : list OfferCost) : list Z := remove_dups (oc_horizon_days <$> costs).
Definition bundle_currencies (costs : list OfferCost) : list string :=
  remove_dups (currency <$> omap id (c ← costs; [oc_low c; oc_base c; oc_high c])).

(** The cost of several records. *)
Definition bundle_cost `{SetOrder} (record_count : nat) (costs : list OfferCost)
  : result (OfferCost * Z * list string) :=
  let horizons := bundle_horizons costs in
  let currencies := bundle_currencies costs in
  let missing := if (length costs =? record_count)%nat then [] else ["MISSING_REQUIRED_DEPENDENCY_OFFER"] in
  let incomparable := if (1 <? length horizons)%nat || (1 <? length currencies)%nat
                      then ["INCOMPARABLE_DEPENDENCY_COST"] else [] in
  digest ← content_hash (vstrs (oc_offer_id <$> costs));
  let horizon := default 1 (head (int_order horizons)) in
  let currency := default "USD" (head (str_order currencies)) in
  low ← bundle_total oc_low currency record_count costs;
  base ← bundle_total oc_base currency record_count costs;
  high ← bundle_total oc_high currency record_count costs;
  let payment_count := Z.of_nat (length (List.filter oc_payment_required costs)) in
  cost ← OfferCost_check (mkOfferCost ("bundle_" ++ short_hash digest) low base high horizon
           (c ← costs; oc_line_items c) (0 <? payment_count));
  Ok (cost, payment_count, sorted_set (missing ++ incomparable)%list).

Definition _combined_cost `{SetOrder} (records : list RawCandidateRecord) (offers : list (string * OfferCost))
  : result (OfferCost * Z * list string) :=
  let costs := omap (λ r, dict_get (rc_offer_id r) offers) records in
  match records, costs with
  | [_], [cost] => Ok (cost, if oc_payment_required cost then 1 else 0, [])
  | _, _ => bundle_cost (length records) costs
  end.

(** ** Materials *)

(** [canonical_offer]: a cycle of aliases ends where it closes. *)
Fixpoint canonical_offer_go (fuel : nat) (aliases : list (string * string)) (visited : list string)
    (current : string) : string :=
  match fuel, dict_get current aliases with
  | S fuel, Some next =>
      if py_in current visited then current
      else canonical_offer_go fuel aliases (current :: visited) next
  | _, _ => current
  end.
Definition canonical_offer (aliases : list (string * string)) (value : string) : string :=
  canonical_offer_go (S (length aliases)) aliases [] (fold_strip value).

Definition with_offer (r : RawCandidateRecord) (offer : string) : result RawCandidateRecord :=
  RawCandidateRecord_check
    (mkRawCandidateRecord (rc_record_id r) (rc_pack_id r) (rc_pack_version r) (rc_seller_id r)
      (rc_product_id r) (rc_edition r) (rc_region r) offer (rc_authority r) (rc_available r)
      (rc_facts r) (rc_seller_gate_ids r) (rc_aliases r) (rc_category_ids r) (rc_jtbd_ids r)
      (rc_pack_status r) (rc_required_product_ids r)).

Definition landed_total : string := "offer.landed_total".
Definition is_landed_total (f : ProductFact) : bool := bool_decide (pf_field f = landed_total).

(** The fact that reports the cost of the bundle for one component. *)
Definition cost_fact (cost : OfferCost) (evidence : list string) (component_id : string)
  : result (list ProductFact) :=
  match oc_base cost with
  | None => Ok []
  | Some base =>
      f ← ProductFact_new landed_total (FVStr (dec_str (amount base))) evidence (Some component_id);
      Ok [f]
  end.

Definition root_material `{SetOrder} (g : DecisionGraphInput) (representatives : list RawCandidateRecord)
    (offers : list (string * OfferCost)) (root : RawCandidateRecord) : result _PlanMaterial :=
  '(records, dependency_issues) ← closure representatives root;
  '(cost, payment_count, cost_issues) ← _combined_cost records offers;
  let raw_facts := (r ← records; rc_facts r) in
  let cost_evidence := sorted_set (f ← List.filter is_landed_total raw_facts; pf_evidence_ids f) in
  let non_cost_gate_facts := List.filter (λ f, negb (is_landed_total f)) raw_facts in
  aggregate_cost_facts ← mapM (λ r, cost_fact cost cost_evidence (rc_product_id r)) records;
  aggregated ← _aggregate_preference_facts g records;
  root_cost ← cost_fact cost cost_evidence (rc_product_id root);
  match records with
  | [] => Raise (ValueError "max() arg is an empty sequence")
  | first :: rest =>
      Ok (mkPlanMaterial (rc_record_id root) SolutionAction.REPLACE (rc_product_id root)
            (rc_product_id <$> records)
            (List.filter (λ f, negb (is_landed_total f)) aggregated ++ root_cost)%list
            (non_cost_gate_facts ++ mjoin aggregate_cost_facts)%list cost payment_count
            (forallb rc_available records) (Some (_authority_floor first rest))
            (sorted_set (r ← records; rc_seller_gate_ids r)) None (rc_product_id root)
            (sorted_set (dependency_issues ++ cost_issues)%list))
  end.

Definition _pack_materials `{SetOrder} (g : DecisionGraphInput) (recall : RecallResult)
  : result (list _PlanMaterial) :=
  let aliases := in_aliases (gi_identity_normalization g) in
  let offers := (λ o, (canonical_offer aliases (oc_offer_id o), o)) <$> gi_offers g in
  representatives ← mapM (λ r, with_offer r (canonical_offer aliases (rc_offer_id r)))
    (rr_representatives recall);
  mapM (root_material g representatives offers) representatives.

Definition _current_material (item : CurrentActionRecord) : _PlanMaterial :=
  mkPlanMaterial (ca_action_id item) (ca_action item) (ca_instance_id item) [ca_instance_id item]
    (ca_facts item) (ca_facts item) (ca_cost item) 0 (ca_available item) None []
    (ca_permitted_resolution item)
    (if bool_decide (ca_action item = SolutionAction.CANCEL)
     then "cancelled_" ++ ca_instance_id item else ca_instance_id item) [].

(** ** Plans *)

(** The resolutions of the gates with reasons, joined; else the material's. *)
Definition plan_resolution (gates : list GateResult) (m : _PlanMaterial) : option string :=
  let resolutions := sorted_set
    (omap (λ r, if bool_decide (gr_reasons r = []) then None else gr_permitted_resolution r) gates) in
  match resolutions with
  | [only] => Some only
  | _ => let joined := join "+" resolutions in
         if is_empty joined then m_permitted_resolution m else Some joined
  end.

Definition plan_lifecycle (status : CandidateStatus.t) (bounds : option OrderingBounds)
    (resolution : option string) : PlanLifecycle.t :=
  if eligible_status status then
    (if is_none bounds then PlanLifecycle.BLOCKED else PlanLifecycle.EXECUTABLE)
  else if py_in status [CandidateStatus.CONDITIONAL; CandidateStatus.STALE_EVIDENCE;
                        CandidateStatus.INSUFFICIENT_EVIDENCE; CandidateStatus.ADVISORY_ONLY] &&
          negb (is_empty (default "" resolution))
  then PlanLifecycle.RESOLUTION_PENDING
  else PlanLifecycle.BLOCKED.

(** One iteration of the loop of [build_solution_plans]. *)
Definition build_plan (g : DecisionGraphInput) (assessments : list EvidenceAssessment)
    (evaluated discovered : Z) (m : _PlanMaterial) : result EvaluatedPlan :=
  gates ← evaluate_gates g m assessments;
  let '(status, primary_reason) := _primary_status gates in
  '(scores, dimensions) ← _material_dimensions g m gates assessments evaluated discovered;
  let action := SolutionAction.value (m_action m) in
  component_hash ← content_hash (dict [("action", VStr action);
    ("ordered_component_ids", vstrs (m_component_ids m))]);
  let resolution := plan_resolution gates m in
  bounds ← (if eligible_status status then ordering_bounds dimensions else Ok None);
  plan_id ← _plan_id (m_action m) (m_component_ids m);
  Ok (mkEvaluatedPlan plan_id (m_action m)
        ((λ c, mkPlanComponent c (if is_none (m_authority m) then "CURRENT_INSTANCE" else "PACK")
                 (m_action m)) <$> m_component_ids m)
        component_hash PlanLifecycle.CANDIDATE (plan_lifecycle status bounds resolution) status
        primary_reason gates scores dimensions (lower action :: m_component_ids m)
        false false false "NONE" resolution false).

Definition material_key (m : _PlanMaterial) : string * string * string :=
  (SolutionAction.value (m_action m), m_component_id m, m_source_id m).

Definition build_solution_plans `{SetOrder} (g : DecisionGraphInput) (recall : RecallResult)
    (assessments : list EvidenceAssessment) : result (list EvaluatedPlan) :=
  packs ← _pack_materials g recall;
  let materials := (packs ++ (_current_material <$> gi_current_actions g))%list in
  let evaluated := Z.of_nat (length materials) in
  let discovered := evaluated + Z.of_nat (length (rr_exclusions recall)) in
  mapM (build_plan g assessments evaluated discovered) (sorted_by material_key materials).
End plans.

(** ** Properties *)

Section plan_properties.
Context `{Rfc8785}.

(** What a built plan keeps of its material, and why it is executable. *)
Lemma build_plan_Ok g assessments evaluated discovered m p :
  build_plan g assessments evaluated discovered m = Ok p →
  pl_action p = m_action m ∧ pd_total_cost (pl_dimensions p) = m_cost m ∧
  (∃ gates, evaluate_gates g m assessments = Ok gates ∧ pl_gate_results p = gates ∧
     (_primary_status gates).1 = pl_status p) ∧
  (∀ b, ordering_bounds (pl_dimensions p) = Ok (Some b) → bounds_wf b) ∧
  (pl_lifecycle p = PlanLifecycle.EXECUTABLE →
     eligible_status (pl_status p) = true ∧ ∃ b, ordering_bounds (pl_dimensions p) = Ok (Some b)).
Proof.
  unfold build_plan. intros (gates & Hg & E)%bind_Ok.
  destruct (_primary_status gates) as [status reason] eqn:Es.
  apply bind_Ok in E as ([scores d] & Hd & E). apply bind_Ok in E as (ch & _ & E).
  apply bind_Ok in E as (bounds & Hb & E). apply bind_Ok in E as (pid & _ & [= <-]). cbn.
  split_and!; [done|..].
  - by rewrite (material_cost _ _ _ _ _ _ _ _ Hd).
  - exists gates. by rewrite Es.
  - intros b. by eapply material_bounds_wf.
  - unfold plan_lifecycle. destruct (eligible_status status); [|by destruct (_ && _)].
    destruct bounds as [b|]; [eauto|done].
Qed.

(** The lifecycle of a built plan follows from its status and its bounds: it
    is executable exactly when its status is eligible and no bound is missing
    (and its ordering bounds then exist), it waits for a resolution exactly when its status is a
    resolvable one and a resolution is permitted, and it starts without any
    execution permission. *)
Theorem build_plan_lifecycle (g : DecisionGraphInput) (assessments : list EvidenceAssessment)
    (evaluated discovered : Z) (m : _PlanMaterial) (p : EvaluatedPlan) :
  build_plan g assessments evaluated discovered m = Ok p →
  (pl_lifecycle p = PlanLifecycle.EXECUTABLE ↔
     eligible_status (pl_status p) = true ∧
     pd_bound_unavailable_reasons (pl_dimensions p) = []) ∧
  (pl_lifecycle p = PlanLifecycle.EXECUTABLE →
     ∃ b, ordering_bounds (pl_dimensions p) = Ok (Some b)) ∧
  (pl_lifecycle p = PlanLifecycle.RESOLUTION_PENDING ↔
     pl_status p ∈ [CandidateStatus.CONDITIONAL; CandidateStatus.STALE_EVIDENCE;
                    CandidateStatus.INSUFFICIENT_EVIDENCE; CandidateStatus.ADVISORY_ONLY] ∧
     default "" (pl_permitted_resolution p) ≠ "") ∧
  pl_autonomous_execution_allowed p = false ∧ pl_quote_required p = false.
Proof.
  unfold build_plan. intros (gates & _ & E)%bind_Ok.
  destruct (_primary_status gates) as [status reason].
  apply bind_Ok in E as ([scores d] & Hd & E). apply bind_Ok in E as (ch & _ & E).
  apply bind_Ok in E as (bounds & Hb & E). apply bind_Ok in E as (pid & _ & [= <-]). cbn.
  pose proof (ordering_bounds_consistent _ _ _ _ _ _ _ _ Hd) as Hcons.
  unfold plan_lifecycle. destruct (eligible_status status) eqn:Es.
  - rewrite Hb in Hcons.
    assert (status ∉ [CandidateStatus.CONDITIONAL; CandidateStatus.STALE_EVIDENCE;
                      CandidateStatus.INSUFFICIENT_EVIDENCE; CandidateStatus.ADVISORY_ONLY]) as Hn
      by (destruct status; try done; set_solver).
    destruct bounds as [b|]; cbn; split_and!; naive_solver.
  - destruct (py_in status _) eqn:Ep; cbn [andb].
    + apply py_in_true in Ep. unfold is_empty. case_bool_decide as He; cbn; naive_solver.
    + apply py_in_false in Ep. cbn. naive_solver.
Qed.

(** What depends on the order of a set: nothing when it has at most one member. *)
Lemma short_set_order `{EqDecision A} (f h : list A → list A) (l : list A) :
  (∀ l, f l ≡ₚ l) → (∀ l, h l ≡ₚ l) → (1 <? length l)%nat = false → f l = h l.
Proof.
  intros Hf Hh Hl%Nat.ltb_ge. destruct l as [|x [|y l]]; [| |cbn in Hl; lia].
  - specialize (Hf []). specialize (Hh []). apply Permutation_nil_r in Hf, Hh. congruence.
  - specialize (Hf [x]). specialize (Hh [x]). apply Permutation_singleton_r in Hf, Hh. congruence.
Qed.

(** C33: the combined cost of a bundle does not depend on the iteration order of
    sets unless it is reported as incomparable: two runs of the interpreter
    compute the same cost, payment count and issues. *)
Theorem combined_cost_deterministic (so1 so2 : SetOrder) (records : list RawCandidateRecord)
    (offers : list (string * OfferCost)) (cost : OfferCost) (payments : Z) (issues : list string) :
  @SetOrderLaws so1 → @SetOrderLaws so2 →
  @_combined_cost _ so1 records offers = Ok (cost, payments, issues) →
  "INCOMPARABLE_DEPENDENCY_COST" ∉ issues →
  @_combined_cost _ so2 records offers = Ok (cost, payments, issues).
Proof.
  intros L1 L2 H1 Hinc. rewrite <- H1. unfold _combined_cost in *.
  assert (∀ n costs, @bundle_cost _ so1 n costs = Ok (cost, payments, issues) →
    @bundle_cost _ so2 n costs = @bundle_cost _ so1 n costs) as W;
    [|by destruct records as [|r [|r' rs]]; [apply W|destruct (omap _ _) as [|? []]; [by apply W|done|by apply W]|apply W]].
  clear H1. intros n costs H1. unfold bundle_cost in *.
  destruct ((1 <? length (bundle_horizons costs))%nat || (1 <? length (bundle_currencies costs))%nat) eqn:Einc.
  - exfalso. apply Hinc. do 5 (apply bind_Ok in H1 as (? & _ & H1)). injection H1 as _ _ <-.
    rewrite elem_of_sorted_set. set_solver.
  - apply orb_false_iff in Einc as [E1 E2].
    rewrite (short_set_order (@int_order so2) (@int_order so1) _ int_order_perm int_order_perm E1).
    by rewrite (short_set_order (@str_order so2) (@str_order so1) _ str_order_perm str_order_perm E2).
Qed.
End plan_properties.
