(* ===== verification/Ranking.v ===== *)
(** * Ranking and frontiers: [_rank_and_frontiers] of [decision_engine/graph_v1.py]

    The authoritative order of the eligible plans, the stability of the first,
    the plans that a resolution could bring to the front, and the quote and
    autonomy flags.  Autonomous execution is shown to need a stable rank, an
    executable plan, no payment and an action that buys nothing. *)
From S2P Require Import Prelude PyText PyNumber PyTime Enums Money Bounds Hashing.
From S2P Require Import GraphModels Recall Gates Scores Closure Plans.

Local Open Scope string_scope.
Local Open Scope Z_scope.

Definition _QUOTE_ACTIONS : list SolutionAction.t :=
  [SolutionAction.BUY; SolutionAction.RENEW; SolutionAction.RESIZE; SolutionAction.REPLACE;
   SolutionAction.CONSOLIDATE].
Definition _AUTONOMOUS_ACTIONS : list SolutionAction.t :=
  [SolutionAction.REUSE_EXISTING; SolutionAction.NO_ACTION].

Definition _bounded_plan (plan : EvaluatedPlan) (resolved : bool) : result BoundedPlan :=
  bounds ← ordering_bounds (pl_dimensions plan);
  BoundedPlan_new (pl_plan_id plan) (if resolved then CandidateStatus.ELIGIBLE else pl_status plan)
    (pl_stable_action_ids plan) bounds (pd_bound_unavailable_reasons (pl_dimensions plan)).

Definition is_eligible (plan : EvaluatedPlan) : bool := eligible_status (pl_status plan).

(** [horizon_by_plan[plan.plan_id]] paired with the currency, for the plans
    with bounds. *)
Definition cost_signature (horizons : list (string * Z)) (plan : BoundedPlan) : result (list (string * Z)) :=
  match bp_bounds plan with
  | None => Ok []
  | Some b => match dict_get (bp_plan_id plan) horizons with
              | None => Raise (KeyError (bp_plan_id plan))
              | Some horizon => Ok [(currency (cb_base (ob_total_cost b)), horizon)]
              end
  end.

(** [plan] could come before [selected_worst] once it is resolved. *)
Definition resolution_candidate (selected_worst : ordering_key) (plan : EvaluatedPlan) : result bool :=
  if negb (bool_decide (pl_lifecycle plan = PlanLifecycle.RESOLUTION_PENDING)) ||
     is_none (pl_permitted_resolution plan) then Ok false else
  bounds ← ordering_bounds (pl_dimensions plan);
  match bounds with
  | None => Ok false
  | Some _ =>
      hypothetical ← _bounded_plan plan true;
      k ← optimistic_envelope_key hypothetical;
      Ok (py_lt k selected_worst)
  end.

(** The ordering part: ranked identifiers, the selected plan, stability,
    ordering frontier and the plans without bounds. *)
Record ranking := mkRanking {
  rk_ranked : list BoundedPlan;
  rk_stability : RankStability.t;
  rk_ordering_frontier : list string;
  rk_unavailable : list string
}.

Definition rank_plans (plans : list EvaluatedPlan) : result ranking :=
  let eligible := List.filter is_eligible plans in
  bounded ← mapM (λ plan, _bounded_plan plan false) eligible;
  let rankable := List.filter (λ p, negb (is_none (bp_bounds p))) bounded in
  let horizon_by_plan := (λ p, (pl_plan_id p, oc_horizon_days (pd_total_cost (pl_dimensions p)))) <$> eligible in
  signatures ← mapM (cost_signature horizon_by_plan) rankable;
  _ ← raise_if (1 <? length (remove_dups (mjoin signatures)))%nat
        (DomainValidationError "authoritative ranking requires one currency and comparison horizon");
  ranked ← sorted_with authoritative_ordering_key rankable;
  match ranked with
  | [] => Ok (mkRanking [] RankStability.UNDETERMINED []
                (sorted_by id (bp_plan_id <$> List.filter (λ p, is_none (bp_bounds p)) bounded)))
  | selected :: _ =>
      let competitors := List.filter (λ p, negb (bool_decide (bp_plan_id p = bp_plan_id selected))) bounded in
      stability ← assess_rank_stability selected competitors;
      Ok (mkRanking ranked (rs_status stability)
            (sorted_set (bp_plan_id selected :: rs_ordering_frontier_plan_ids stability))
            (rs_bound_unavailable_plan_ids stability))
  end.

Definition resolution_frontier (plans : list EvaluatedPlan) (ranked : list BoundedPlan) : result (list string) :=
  match ranked with
  | [] => Ok []
  | selected :: _ =>
      selected_worst ← conservative_envelope_key selected;
      frontier ← filterM (resolution_candidate selected_worst) plans;
      Ok (pl_plan_id <$> (frontier : list EvaluatedPlan))
  end.

Definition quote_reason (plan : EvaluatedPlan) (ranked_ids ordering resolution : list string) : string :=
  if bool_decide (head ranked_ids = Some (pl_plan_id plan)) then "SELECTED_PLAN"
  else if py_in (pl_plan_id plan) ordering then "ORDERING_FRONTIER"
  else if py_in (pl_plan_id plan) resolution then "RESOLUTION_FRONTIER"
  else if py_in (pl_plan_id plan) (take 3 ranked_ids) then "PRELIMINARY_TOP_THREE"
  else "NONE".

Definition autonomous (plan : EvaluatedPlan) (stability : RankStability.t) : bool :=
  bool_decide (pl_lifecycle plan = PlanLifecycle.EXECUTABLE) &&
  bool_decide (stability = RankStability.STABLE) &&
  negb (oc_payment_required (pd_total_cost (pl_dimensions plan))) &&
  py_in (pl_action plan) _AUTONOMOUS_ACTIONS.

(** [replace(plan, ...)] with the flags of the last loop. *)
Definition flag_plan (ranked_ids ordering resolution : list string) (stability : RankStability.t)
    (plan : EvaluatedPlan) : EvaluatedPlan :=
  let reason := quote_reason plan ranked_ids ordering resolution in
  mkEvaluatedPlan (pl_plan_id plan) (pl_action plan) (pl_components plan) (pl_component_hash plan)
    (pl_construction_lifecycle plan) (pl_lifecycle plan) (pl_status plan) (pl_primary_reason plan)
    (pl_gate_results plan) (pl_score_components plan) (pl_dimensions plan) (pl_stable_action_ids plan)
    (py_in (pl_plan_id plan) ordering) (py_in (pl_plan_id plan) resolution)
    (negb (bool_decide (reason = "NONE")) && py_in (pl_action plan) _QUOTE_ACTIONS) reason
    (pl_permitted_resolution plan) (autonomous plan stability).

Record frontiers := mkFrontiers {
  fr_plans : list EvaluatedPlan;
  fr_ranked_ids : list string;
  fr_stability : string;
  fr_ordering_frontier : list string;
  fr_unavailable : list string
}.

Definition _rank_and_frontiers (plans : list EvaluatedPlan) : result frontiers :=
  r ← rank_plans plans;
  let ranked_ids := bp_plan_id <$> rk_ranked r in
  resolution ← resolution_frontier plans (rk_ranked r);
  Ok (mkFrontiers (flag_plan ranked_ids (rk_ordering_frontier r) resolution (rk_stability r) <$> plans)
        ranked_ids (RankStability.value (rk_stability r)) (rk_ordering_frontier r) (rk_unavailable r)).

(** ** The ranking *)

(** The authoritative key as a total function: the ranked plans have bounds. *)
Definition total_key (p : BoundedPlan) : ordering_key :=
  match bp_bounds p with
  | Some b => authoritative_key p b
  | None => (0, 0%Q, 0, DFinite 0 0, 0%Q, 0%Q, [], "")
  end.

Definition has_bounds (p : BoundedPlan) : bool := negb (is_none (bp_bounds p)).

#[export] Instance ordering_key_laws : PyOrdLaws ordering_key.
Proof. unfold ordering_key. apply _. Qed.

(** The bounds of every plan have their ends in order. *)
Definition plans_wf (plans : list EvaluatedPlan) : Prop :=
  ∀ p b, p ∈ plans → ordering_bounds (pl_dimensions p) = Ok (Some b) → bounds_wf b.

Lemma bounded_plan_Ok p resolved q :
  _bounded_plan p resolved = Ok q →
  bp_plan_id q = pl_plan_id p ∧ bp_stable_action_ids q = pl_stable_action_ids p ∧
  ordering_bounds (pl_dimensions p) = Ok (bp_bounds q).
Proof.
  unfold _bounded_plan, BoundedPlan_new. intros (b & Hb & E)%bind_Ok.
  do 5 apply bind_Ok in E as (? & _ & E). injection E as <-. by rewrite Hb.
Qed.

Lemma bounded_plan_wf p resolved q plans :
  plans_wf plans → p ∈ plans → _bounded_plan p resolved = Ok q → plan_wf q.
Proof.
  intros Hwf Hp (_ & _ & E)%bounded_plan_Ok. unfold plan_wf. destruct (bp_bounds q); [|done].
  by apply (Hwf p).
Qed.

Lemma sorted_total_key l :
  (∀ p, p ∈ l → has_bounds p = true) →
  sorted_with authoritative_ordering_key l = Ok (sorted_by total_key l).
Proof.
  intros Hl. apply sorted_with_Ok. intros p Hp. specialize (Hl p Hp). unfold has_bounds in Hl.
  unfold authoritative_ordering_key, _require_bounds, total_key. by destruct (bp_bounds p).
Qed.

(** The steps of [rank_plans] that other lemmas use. *)
Lemma rank_plans_Ok plans r :
  rank_plans plans = Ok r →
  ∃ bounded signatures,
    mapM (λ p, _bounded_plan p false) (List.filter is_eligible plans) = Ok bounded ∧
    mapM (cost_signature
      ((λ p, (pl_plan_id p, oc_horizon_days (pd_total_cost (pl_dimensions p)))) <$> List.filter is_eligible plans))
      (List.filter has_bounds bounded) = Ok signatures ∧
    (length (remove_dups (mjoin signatures)) ≤ 1)%nat ∧
    rk_ranked r = sorted_by total_key (List.filter has_bounds bounded) ∧
    (rk_stability r ≠ RankStability.UNDETERMINED → ∃ s rest a, rk_ranked r = s :: rest ∧
       assess_rank_stability s
         (List.filter (λ p, negb (bool_decide (bp_plan_id p = bp_plan_id s))) bounded) = Ok a ∧
       rs_status a = rk_stability r).
Proof.
  unfold rank_plans. intros (bounded & Hb & E)%bind_Ok.
  apply bind_Ok in E as (sigs & Hs & E). apply bind_Ok in E as (? & Hone%raise_if_Ok & E).
  apply Nat.ltb_ge in Hone. apply bind_Ok in E as (ranked & Hr & E).
  fold has_bounds in Hs, Hr. rewrite sorted_total_key in Hr by (intros p; rewrite elem_of_lfilter; by intros []).
  injection Hr as <-. exists bounded, sigs. split_and!; [done..| |].
  - destruct (sorted_by _ _); [by injection E as <-|]. by apply bind_Ok in E as (? & _ & [= <-]).
  - intros Hst. destruct (sorted_by _ _) as [|s rest]; [by injection E as <-|].
    apply bind_Ok in E as (a & Ha & [= <-]). by exists s, rest, a.
Qed.

Lemma one_signature (l : list (string * Z)) x y :
  (length (remove_dups l) ≤ 1)%nat → x ∈ l → y ∈ l → x = y.
Proof.
  rewrite <- !(elem_of_remove_dups l). destruct (remove_dups l) as [|a [|b k]]; cbn; [set_solver|set_solver|lia].
Qed.

(** C24: the ranking is complete and ordered: it is a permutation of the bounded
    plans of the eligible plans that have bounds, no plan follows one whose
    authoritative key is larger, and all its costs are in one currency. *)
Theorem ranking_sorted_complete (plans : list EvaluatedPlan) (r : ranking) :
  rank_plans plans = Ok r →
  StronglySorted (λ p q, py_le (total_key p) (total_key q) = true) (rk_ranked r) ∧
  (∃ bounded, mapM (λ p, _bounded_plan p false) (List.filter is_eligible plans) = Ok bounded ∧
     rk_ranked r ≡ₚ List.filter has_bounds bounded) ∧
  ∀ p q bp bq, p ∈ rk_ranked r → q ∈ rk_ranked r → bp_bounds p = Some bp → bp_bounds q = Some bq →
    currency (cb_base (ob_total_cost bp)) = currency (cb_base (ob_total_cost bq)).
Proof.
  intros (bounded & sigs & Hb & Hs & Hone & -> & _)%rank_plans_Ok.
  split_and!; [apply (sorted_by_sorted total_key)|by exists bounded; rewrite sorted_by_perm|].
  assert (∀ p b, p ∈ sorted_by total_key (List.filter has_bounds bounded) → bp_bounds p = Some b →
    ∃ h, (currency (cb_base (ob_total_cost b)), h) ∈ mjoin sigs) as W.
  { intros p b Hp Eb. rewrite elem_of_sorted_by in Hp. apply mapM_Ok in Hs.
    apply list_elem_of_lookup in Hp as (i & Hi). destruct (Forall2_lookup_l _ _ _ _ _ Hs Hi) as (sig & Hsig & E).
    unfold cost_signature in E. rewrite Eb in E. destruct (dict_get _ _) as [h|]; [|done].
    exists h. apply list_elem_of_join. exists sig. apply list_elem_of_lookup_2 in Hsig.
    injection E as <-. set_solver. }
  intros p q bp bq Hp Hq Ep Eq. destruct (W p bp Hp Ep) as (h & H1), (W q bq Hq Eq) as (h' & H2).
  pose proof (one_signature _ _ _ Hone H1 H2). congruence.
Qed.

(** A stable first rank.  The code compares the selected plan with the eligible
    plans of other identifiers: none of these can come before it.  Plans that
    share its identifier are not compared; when no two eligible plans share one,
    no eligible plan but the selected one can come before it. *)
Definition unbeatable (plans : list EvaluatedPlan) (s : BoundedPlan) : Prop :=
  ∀ p, p ∈ plans → is_eligible p = true →
    ∃ c, _bounded_plan p false = Ok c ∧ (pl_plan_id p ≠ bp_plan_id s → ¬ may_overtake c s) ∧
      (NoDup (pl_plan_id <$> List.filter is_eligible plans) → c ≠ s → ¬ may_overtake c s).

(** The eligible plan behind a bounded one. *)
Lemma same_id_same_plan plans bounded p c s :
  Forall2 (λ p c, _bounded_plan p false = Ok c) (List.filter is_eligible plans) bounded →
  NoDup (pl_plan_id <$> List.filter is_eligible plans) →
  p ∈ List.filter is_eligible plans → _bounded_plan p false = Ok c → s ∈ bounded →
  pl_plan_id p = bp_plan_id s → c = s.
Proof.
  intros Hb Hnd Hp Hc [i Hi]%list_elem_of_lookup E. destruct (Forall2_lookup_r _ _ _ _ _ Hb Hi) as (q & Hq & Eq).
  destruct (bounded_plan_Ok _ _ _ Eq) as [Eid _]. apply list_elem_of_lookup in Hp as [k Hk].
  assert (k = i) as ->.
  { apply (NoDup_lookup _ _ _ (pl_plan_id p) Hnd); rewrite list_lookup_fmap; [by rewrite Hk|].
    rewrite Hq. cbn. by rewrite E, Eid. }
  rewrite Hk in Hq. injection Hq as ->. rewrite Hc in Eq. by injection Eq.
Qed.

Lemma ranked_wf plans r : plans_wf plans → rank_plans plans = Ok r → ∀ q, q ∈ rk_ranked r → plan_wf q.
Proof.
  intros Hwf (bounded & sigs & Hb & _ & _ & Hr & _)%rank_plans_Ok q. rewrite Hr, elem_of_sorted_by, elem_of_lfilter.
  intros [Hq _]. apply (mapM_Ok_elem _ _ _ _ Hb) in Hq as (p & Hp & Eq).
  apply elem_of_lfilter in Hp as [Hp _]. by eapply bounded_plan_wf.
Qed.

Lemma stable_rank_unbeatable plans r :
  plans_wf plans → rank_plans plans = Ok r → rk_stability r = RankStability.STABLE →
  ∃ s rest, rk_ranked r = s :: rest ∧ unbeatable plans s.
Proof.
  intros Hwf (bounded & sigs & Hb & _ & _ & Hr & Hst)%rank_plans_Ok E. rewrite E in Hst.
  destruct Hst as (s & rest & a & Es & Ha & Hs); [done|]. exists s, rest. split; [done|].
  assert (∀ q, q ∈ bounded → plan_wf q) as Hq.
  { intros q Hq. apply (mapM_Ok_elem _ _ _ _ Hb) in Hq as (p & Hp & Eq).
    apply elem_of_lfilter in Hp as [Hp _]. by eapply bounded_plan_wf. }
  assert (s ∈ bounded) as Hsb.
  { assert (s ∈ rk_ranked r) as Hin by (rewrite Es; set_solver).
    rewrite Hr, elem_of_sorted_by, elem_of_lfilter in Hin. apply Hin. }
  set (others := List.filter _ bounded) in Ha.
  destruct (assess_rank_stability_cases s others) as (a' & Ha' & _ & _ & Hcase).
  { constructor; [by apply Hq|]. apply Forall_forall. intros q [Hin _]%elem_of_lfilter. by apply Hq. }
  rewrite Ha in Ha'. injection Ha' as <-. rewrite Hs in Hcase.
  destruct (Hcase ltac:(done)) as [_ [Hno _]]. specialize (Hno eq_refl).
  intros p Hp Hel. apply mapM_Ok in Hb.
  assert (p ∈ List.filter is_eligible plans) as Hpf by by rewrite elem_of_lfilter.
  pose proof Hpf as [i Hi]%list_elem_of_lookup.
  destruct (Forall2_lookup_l _ _ _ _ _ Hb Hi) as (c & Hc & E'). exists c. split; [done|].
  assert (pl_plan_id p ≠ bp_plan_id s → ¬ may_overtake c s) as Hother.
  { intros Hne. apply Hno. unfold others. rewrite elem_of_lfilter, negb_true_iff, bool_decide_eq_false.
    destruct (bounded_plan_Ok _ _ _ E') as [-> _]. split; [by eapply list_elem_of_lookup_2|done]. }
  split; [exact Hother|]. intros Hnd Hcs. apply Hother. intros Eid. apply Hcs. by eapply same_id_same_plan.
Qed.

(** C23: on plans whose bounds have their ends in order, as the engine builds
    them, a STABLE ranking has a first plan that no eligible plan with another
    identifier can overtake, whatever the values of the uncertain dimensions
    inside their bounds turn out to be; where no two eligible plans share an
    identifier, no other eligible plan can. *)
Theorem stable_ranking_unbeatable (plans : list EvaluatedPlan) (r : ranking) :
  plans_wf plans → rank_plans plans = Ok r → rk_stability r = RankStability.STABLE →
  ∃ s rest, rk_ranked r = s :: rest ∧ unbeatable plans s.
Proof. exact (stable_rank_unbeatable plans r). Qed.

(** ** The flags *)

(** What the flags leave unchanged. *)
Lemma flag_plan_bounded ranked_ids ordering resolution stability p resolved :
  _bounded_plan (flag_plan ranked_ids ordering resolution stability p) resolved = _bounded_plan p resolved.
Proof. done. Qed.

Lemma flagged_eligible ids ordering resolution stability plans :
  List.filter is_eligible (flag_plan ids ordering resolution stability <$> plans) =
  flag_plan ids ordering resolution stability <$> List.filter is_eligible plans.
Proof.
  induction plans as [|p plans IH]; [done|]. cbn. change (is_eligible (flag_plan _ _ _ _ p)) with (is_eligible p).
  destruct (is_eligible p); cbn; by rewrite IH.
Qed.

Lemma flagged_unbeatable ids ordering resolution stability plans s :
  unbeatable plans s → unbeatable (flag_plan ids ordering resolution stability <$> plans) s.
Proof.
  intros Hun p (q & -> & Hq)%list_elem_of_fmap Hel. destruct (Hun q Hq Hel) as (c & Hc & Ho & Hnd).
  exists c. split_and!; [done|exact Ho|]. rewrite flagged_eligible, <- list_fmap_compose. exact Hnd.
Qed.

Lemma rank_and_frontiers_Ok plans f :
  _rank_and_frontiers plans = Ok f →
  ∃ r resolution, rank_plans plans = Ok r ∧ resolution_frontier plans (rk_ranked r) = Ok resolution ∧
    fr_plans f = flag_plan (bp_plan_id <$> rk_ranked r) (rk_ordering_frontier r) resolution (rk_stability r) <$> plans ∧
    fr_ranked_ids f = bp_plan_id <$> rk_ranked r ∧ fr_stability f = RankStability.value (rk_stability r).
Proof.
  unfold _rank_and_frontiers. intros (r & Hr & E)%bind_Ok. apply bind_Ok in E as (res & Hres & [= <-]).
  by exists r, res.
Qed.

Lemma autonomous_true p stability :
  autonomous p stability = true ↔
  pl_lifecycle p = PlanLifecycle.EXECUTABLE ∧ stability = RankStability.STABLE ∧
  oc_payment_required (pd_total_cost (pl_dimensions p)) = false ∧ pl_action p ∈ _AUTONOMOUS_ACTIONS.
Proof.
  unfold autonomous. rewrite !andb_true_iff, !bool_decide_eq_true, negb_true_iff, py_in_true. tauto.
Qed.

(** A quote is required exactly of the plans that buy something and are the
    selected plan, on one of the two frontiers or in the first three ranks. *)
Theorem quote_required_iff (plans : list EvaluatedPlan) (f : frontiers) :
  _rank_and_frontiers plans = Ok f →
  ∃ r (resolution : list string), rank_plans plans = Ok r ∧
    resolution_frontier plans (rk_ranked r) = Ok resolution ∧ ∀ p, p ∈ fr_plans f →
    (pl_resolution_frontier_member p = true ↔ pl_plan_id p ∈ resolution) ∧
    (pl_ordering_frontier_member p = true ↔ pl_plan_id p ∈ fr_ordering_frontier f) ∧
    (pl_quote_required p = true ↔
       pl_action p ∈ _QUOTE_ACTIONS ∧
       (pl_plan_id p ∈ fr_ordering_frontier f ∨ pl_plan_id p ∈ resolution ∨
        pl_plan_id p ∈ take 3 (fr_ranked_ids f))).
Proof.
  unfold _rank_and_frontiers. intros (r & Hr & E)%bind_Ok. apply bind_Ok in E as (res & Hres & [= <-]).
  exists r, res. split_and!; [done..|]. cbn. intros q (p & -> & Hp)%list_elem_of_fmap. cbn.
  rewrite andb_true_iff, negb_true_iff, bool_decide_eq_false, !py_in_true.
  split_and!; [done..|]. unfold quote_reason.
  assert (head (bp_plan_id <$> rk_ranked r) = Some (pl_plan_id p) →
    pl_plan_id p ∈ take 3 (bp_plan_id <$> rk_ranked r)) as Hhead.
  { destruct (bp_plan_id <$> rk_ranked r); cbn; [done|]. intros [= ->]. set_solver. }
  repeat case_match; rewrite ?bool_decide_eq_true, ?bool_decide_eq_false, ?py_in_true, ?py_in_false in *;
    naive_solver.
Qed.
