(* ===== verification/Graph.v ===== *)
(** * The evaluation of a decision graph: [decision_engine/graph_v1.py]

    The canonical payload and hashes of an evaluation, [evaluate_decision_graph_once],
    the search for the smallest private-fact counterfactual and
    [evaluate_decision_graph].  The counterfactual is shown to be a smallest
    removal that changes the selected plan. *)
From S2P Require Import Prelude PyText PyNumber PyTime Enums Money Bounds Hashing.
From S2P Require Import GraphModels Recall Gates Scores Closure Plans Ranking.

Local Open Scope string_scope.
Local Open Scope Z_scope.

(** ** Canonical payloads *)

Definition reason_payload (r : GateReason) : PyVal :=
  dict [("code", VStr (gn_reason_code r)); ("status", VStr (CandidateStatus.value (gn_status r)));
        ("detail", VStr (gn_detail r))].

Definition gate_result_payload (r : GateResult) : PyVal :=
  dict [("gate_id", VStr (gr_gate_id r)); ("truth", VStr (TruthValue.value (gr_truth r)));
        ("reasons", VList (reason_payload <$> gr_reasons r));
        ("predicates", vstrs (gr_evaluated_predicates r));
        ("permitted_resolution", vopt VStr (gr_permitted_resolution r))].

Definition score_payload (s : ScoreComponent) : PyVal :=
  dict [("criterion_id", VStr (sc_criterion_id s)); ("weight", VInt (sc_weight s));
        ("conservative", ratio_payload (sc_conservative_satisfaction s));
        ("optimistic", ratio_payload (sc_optimistic_satisfaction s));
        ("evidence_ids", vstrs (sc_evidence_ids s));
        ("evidence_state", VStr (EvidenceState.value (sc_evidence_state s)));
        ("prior_label", vopt VStr (sc_prior_label s))].

Definition tco_payload (c : OfferCost) : PyVal :=
  dict [("low", vopt money_payload (oc_low c)); ("base", vopt money_payload (oc_base c));
        ("high", vopt money_payload (oc_high c)); ("horizon_days", VInt (oc_horizon_days c));
        ("payment_required", VBool (oc_payment_required c));
        ("line_items", VList ((λ i, dict [("type", VStr (cl_line_item_type i));
           ("low", money_payload (cl_low i)); ("base", money_payload (cl_base i));
           ("high", money_payload (cl_high i)); ("schedule_version", vopt VStr (cl_schedule_version i))])
           <$> oc_line_items c))].

Definition interval_payload (conservative optimistic : ExactRatio) : PyVal :=
  dict [("conservative", ratio_payload conservative); ("optimistic", ratio_payload optimistic)].

Definition risk_payload (d : PlanDimensions) : PyVal :=
  dict [("lower", vopt (λ r, vrisk (rb_lower r)) (pd_stack_risk d));
        ("base", vopt (λ r, vrisk (rb_base r)) (pd_stack_risk d));
        ("upper", vopt (λ r, vrisk (rb_upper r)) (pd_stack_risk d));
        ("triggered_rule_ids", vstrs (pd_triggered_risk_rule_ids d));
        ("input_hash", VStr (pd_risk_input_hash d))].

Definition bounds_payload (d : PlanDimensions) : PyVal :=
  dict [("preference", vopt (λ p, interval_payload (ps_conservative p) (ps_optimistic p)) (pd_preference d));
        ("risk", risk_payload d); ("tco", tco_payload (pd_total_cost d));
        ("coverage", vopt (λ c, interval_payload (cv_conservative c) (cv_optimistic c)) (pd_coverage d));
        ("age", vopt age_payload (pd_age d));
        ("hard_coverage", dict [("numerator", VInt (hc_numerator (pd_hard_coverage d)));
                                ("denominator", VInt (hc_denominator (pd_hard_coverage d)))]);
        ("bound_unavailable_reasons", vstrs (pd_bound_unavailable_reasons d))].

Definition _canonical_plan (p : EvaluatedPlan) : PyVal :=
  dict [("action", VStr (SolutionAction.value (pl_action p)));
        ("stable_action_ids", vstrs (pl_stable_action_ids p));
        ("component_hash", VStr (pl_component_hash p));
        ("lifecycle", VStr (PlanLifecycle.value (pl_lifecycle p)));
        ("status", VStr (CandidateStatus.value (pl_status p)));
        ("primary_reason", vopt reason_payload (pl_primary_reason p));
        ("gates", VList (gate_result_payload <$> pl_gate_results p));
        ("scores", VList (score_payload <$> pl_score_components p));
        ("bounds", bounds_payload (pl_dimensions p));
        ("ordering_frontier_member", VBool (pl_ordering_frontier_member p));
        ("resolution_frontier_member", VBool (pl_resolution_frontier_member p));
        ("quote_required", VBool (pl_quote_required p));
        ("quote_policy_reason", VStr (pl_quote_policy_reason p));
        ("permitted_resolution", vopt VStr (pl_permitted_resolution p));
        ("autonomous_execution_allowed", VBool (pl_autonomous_execution_allowed p))].

(** [next(plan.stable_action_ids for plan in plans if plan.plan_id == plan_id)] *)
Definition find_plan (plan_id : string) (plans : list EvaluatedPlan) : option EvaluatedPlan :=
  snd <$> list_find (λ p, pl_plan_id p = plan_id) plans.

Definition stable_ids_of (plans : list EvaluatedPlan) (plan_id : string) : result PyVal :=
  match find_plan plan_id plans with
  | Some p => Ok (vstrs (pl_stable_action_ids p))
  | None => Raise StopIteration
  end.

Definition identity_payload (i : IdentityRecord) : PyVal :=
  dict [("seller_id", VStr (ir_seller_id i)); ("product_id", VStr (ir_product_id i));
        ("edition", VStr (ir_edition i)); ("region", VStr (ir_region i));
        ("record_ids", vstrs (ir_record_ids i)); ("pack_ids", vstrs (ir_pack_ids i));
        ("offer_ids", vstrs (ir_offer_ids i))].

Definition evaluation_canonical_payload (e : DecisionGraphEvaluation) : result PyVal :=
  let selected := p ← (ge_selected_plan_id e ≫= λ i, find_plan i (ge_plans e));
                  Some (pl_stable_action_ids p) in
  ranked ← mapM (stable_ids_of (ge_plans e)) (ge_ranked_plan_ids e);
  frontier ← mapM (stable_ids_of (ge_plans e)) (ge_ordering_frontier_plan_ids e);
  unavailable ← mapM (stable_ids_of (ge_plans e)) (ge_bound_unavailable_plan_ids e);
  Ok (dict [("versions", versions_payload (ge_versions e));
            ("evaluated_at", VDatetime (ge_evaluated_at e));
            ("frozen_input_hashes", VList ((λ p, vstrs [p.1; p.2]) <$> ge_frozen_input_hashes e));
            ("removed_private_fact_ids", vstrs (ge_removed_private_fact_ids e));
            ("identities", VList (identity_payload <$> ge_identity_records e));
            ("identity_merges", VList (merge_payload <$> ge_identity_merges e));
            ("recall_exclusions", VList (exclusion_payload <$> ge_recall_exclusions e));
            ("evidence_assessments", VList (assessment_payload <$> ge_evidence_assessments e));
            ("plans", VList (_canonical_plan <$> ge_plans e));
            ("ranked_stable_action_ids", VList ranked);
            ("selected_stable_action_ids", vopt vstrs selected);
            ("rank_stability", VStr (ge_rank_stability e));
            ("ordering_frontier_stable_action_ids", VList frontier);
            ("bound_unavailable_stable_action_ids", VList unavailable);
            ("coverage", coverage_payload (ge_coverage e))]).

(** ** One evaluation *)

Section evaluation.
Context `{Rfc8785} `{SetOrder}.

Definition frozen_artifacts (g : DecisionGraphInput) : list (string * PyVal) :=
  ([("buyer_facts", VList (fact_payload <$> sorted_by ff_fact_id (_active_buyer_facts g)));
    ("candidate_records", VList (candidate_payload <$> sorted_by rc_record_id (gi_candidates g)));
    ("offers", VList (offer_payload <$> sorted_by oc_offer_id (gi_offers g)));
    ("evidence", VList (evidence_payload <$> sorted_by er_evidence_id (gi_evidence g)));
    ("evidence_policies", VList (evidence_policy_payload <$> sorted_by ep_field (gi_evidence_policies g)));
    ("gates", VList (gate_payload <$> sorted_by g_gate_id (gi_gates g)));
    ("preferences", VList (preference_payload <$> sorted_by pc_criterion_id (gi_preferences g)));
    ("risk_rules", dict [("complete_input_coverage", VBool (gi_risk_rule_set_complete g));
       ("rules", VList (risk_rule_payload <$> sorted_by rk_rule_id (gi_risk_rules g)))]);
    ("current_actions", VList (current_action_payload <$> sorted_by ca_action_id (gi_current_actions g)));
    ("identity_normalization", normalization_payload (gi_identity_normalization g));
    ("outcome_observations", VList (observation_payload <$>
       sorted_by (λ o, (oo_subject_id o, oo_criterion_id o)) (gi_outcome_values g)))] ++
   (match gi_actor_conflict_resolutions g with
    | [] => []
    | l => [("actor_conflict_resolutions",
             VList (conflict_resolution_payload <$> sorted_by ar_field l))]
    end) ++
   (match gi_recall_policy g with
    | None => []
    | Some p => [("recall_policy", recall_policy_payload p)]
    end))%list.

Definition _frozen_input_hashes (g : DecisionGraphInput) : result (list (string * string)) :=
  mapM (λ a, h ← content_hash a.2; Ok (a.1, h)) (sorted_by fst (frozen_artifacts g)).

Definition coverage_statement (products actions excluded : nat) : string :=
  "Best supported action among " ++ str_int (Z.of_nat products) ++ " canonical products and " ++
  str_int (Z.of_nat actions) ++ " current-stack/contract actions" ++
  (if (excluded =? 0)%nat then ""
   else "; " ++ str_int (Z.of_nat excluded) ++ " catalog records excluded by frozen recall policy").

Definition with_payload_hash (e : DecisionGraphEvaluation) (hash : string) : DecisionGraphEvaluation :=
  mkDecisionGraphEvaluation (ge_evaluation_id e) (ge_generated_at e) (ge_versions e) (ge_evaluated_at e)
    (ge_frozen_input_hashes e) (ge_removed_private_fact_ids e) (ge_identity_records e)
    (ge_identity_merges e) (ge_recall_exclusions e) (ge_evidence_assessments e) (ge_plans e)
    (ge_ranked_plan_ids e) (ge_selected_plan_id e) (ge_rank_stability e)
    (ge_ordering_frontier_plan_ids e) (ge_bound_unavailable_plan_ids e) (ge_coverage e) hash.

Definition evaluate_decision_graph_once (g : DecisionGraphInput) (evaluation_id : string)
    (generated_at : datetime) : result DecisionGraphEvaluation :=
  recall ← recall_and_deduplicate g;
  assessments ← assess_evidence g recall;
  plans ← build_solution_plans g recall assessments;
  f ← _rank_and_frontiers plans;
  let count {A} (l : list A) := Z.of_nat (length l) in
  let coverage := mkEvaluationCoverage (rr_raw_record_count recall) (count (gi_candidates g))
    (count (rr_identities recall)) (count (rr_merges recall)) (count (fr_plans f)) (count (fr_plans f))
    (count (rr_exclusions recall))
    (coverage_statement (length (rr_identities recall)) (length (gi_current_actions g))
       (length (rr_exclusions recall))) in
  hashes ← _frozen_input_hashes g;
  let provisional := mkDecisionGraphEvaluation evaluation_id generated_at (gi_versions g)
    (gi_evaluated_at g) hashes (sorted_by id (elements (gi_removed_private_fact_ids g)))
    (rr_identities recall) (rr_merges recall) (rr_exclusions recall) assessments (fr_plans f)
    (fr_ranked_ids f) (head (fr_ranked_ids f)) (fr_stability f) (fr_ordering_frontier f)
    (fr_unavailable f) coverage "" in
  payload ← evaluation_canonical_payload provisional;
  hash ← content_hash payload;
  Ok (with_payload_hash provisional hash).

(** ** Counterfactuals *)

Definition gate_key : Type := list string * string.

Definition _gate_truth_map (e : DecisionGraphEvaluation) : list (gate_key * string) :=
  p ← ge_plans e;
  (λ r, ((pl_stable_action_ids p, gr_gate_id r), TruthValue.value (gr_truth r))) <$> pl_gate_results p.

Definition _changed_gate_ids (before after : DecisionGraphEvaluation) : list string :=
  let before_map := _gate_truth_map before in
  let after_map := _gate_truth_map after in
  sorted_set (snd <$> List.filter
    (λ k, negb (bool_decide (dict_get k before_map = dict_get k after_map)))
    (before_map.*1 ++ after_map.*1)%list).

Definition _counterfactual_payload (r : CounterfactualRecord) : PyVal :=
  dict [("outcome", VStr (CounterfactualOutcome.value (cf_outcome r)));
        ("removed_fact_ids", vstrs (cf_removed_fact_ids r));
        ("alternative_fact_id_sets", VList (vstrs <$> cf_alternative_fact_id_sets r));
        ("tested_limit", VInt (cf_tested_limit r));
        ("before_evaluation_payload_hash", VStr (cf_before_evaluation_payload_hash r));
        ("after_evaluation_payload_hash", vopt VStr (cf_after_evaluation_payload_hash r));
        ("generic_evaluation_payload_hash", VStr (cf_generic_evaluation_payload_hash r));
        ("before_selected_plan_id", vopt VStr (cf_before_selected_plan_id r));
        ("after_selected_plan_id", vopt VStr (cf_after_selected_plan_id r));
        ("generic_selected_plan_id", vopt VStr (cf_generic_selected_plan_id r));
        ("changed_gate_ids", vstrs (cf_changed_gate_ids r))].

(** [itertools.combinations(l, k)] *)
Fixpoint combinations {A} (l : list A) (k : nat) : list (list A) :=
  match k, l with
  | O, _ => [[]]
  | S _, [] => []
  | S k', x :: l' => ((cons x <$> combinations l' k') ++ combinations l' k)%list
  end.

(** The private facts that are still active, sorted. *)
Definition private_ids (g : DecisionGraphInput) : list string :=
  sorted_by id (ff_fact_id <$> List.filter (λ f, ff_private f &&
    negb (bool_decide (ff_fact_id f ∈ gi_removed_private_fact_ids g))) (gi_buyer_facts g)).

(** The rerun without some facts. *)
Definition ablate (g : DecisionGraphInput) (base : DecisionGraphEvaluation) (removed : list string)
  : result DecisionGraphEvaluation :=
  alternate_input ← with_removed g (gi_removed_private_fact_ids g ∪ list_to_set removed);
  evaluate_decision_graph_once alternate_input "counterfactual_evaluation_id" (ge_generated_at base).

Definition winner : Type := list string * DecisionGraphEvaluation.

(** The removals of one size that change the selected plan, with the reruns. *)
Fixpoint winners_among (g : DecisionGraphInput) (base : DecisionGraphEvaluation)
    (candidates : list (list string)) : result (list winner) :=
  match candidates with
  | [] => Ok []
  | removed :: candidates =>
      alternate ← ablate g base removed;
      rest ← winners_among g base candidates;
      Ok (if bool_decide (ge_selected_plan_id alternate = ge_selected_plan_id base) then rest
          else (removed, alternate) :: rest)
  end.

(** [for cardinality in range(start, ...)]: stops at the first with a winner. *)
Fixpoint first_winners (g : DecisionGraphInput) (base : DecisionGraphEvaluation) (ids : list string)
    (cardinality rounds : nat) : result (list winner) :=
  match rounds with
  | O => Ok []
  | S rounds =>
      winners ← winners_among g base (combinations ids cardinality);
      match winners with
      | [] => first_winners g base ids (S cardinality) rounds
      | _ => Ok winners
      end
  end.

Definition with_record_hash (r : CounterfactualRecord) (hash : string) : CounterfactualRecord :=
  mkCounterfactualRecord (cf_outcome r) (cf_removed_fact_ids r) (cf_alternative_fact_id_sets r)
    (cf_tested_limit r) (cf_before_evaluation_payload_hash r) (cf_after_evaluation_payload_hash r)
    (cf_generic_evaluation_payload_hash r) (cf_before_selected_plan_id r)
    (cf_after_selected_plan_id r) (cf_generic_selected_plan_id r) (cf_changed_gate_ids r) hash.

Definition search_private_fact_counterfactuals (g : DecisionGraphInput)
    (base generic : DecisionGraphEvaluation) (limit : Z) : result CounterfactualRecord :=
  _ ← raise_if (negb ((1 <=? limit) && (limit <=? 3)))
        (DomainValidationError "Decision Graph v1 counterfactual limit must be from 1 to 3");
  let ids := private_ids g in
  winners ← first_winners g base ids 1 (Nat.min (Z.to_nat limit) (length ids));
  let provisional :=
    match sorted_by fst winners with
    | (chosen_ids, chosen) :: others =>
        mkCounterfactualRecord CounterfactualOutcome.WINNER_CHANGED chosen_ids (fst <$> others) limit
          (ge_evaluation_payload_hash base) (Some (ge_evaluation_payload_hash chosen))
          (ge_evaluation_payload_hash generic) (ge_selected_plan_id base) (ge_selected_plan_id chosen)
          (ge_selected_plan_id generic) (_changed_gate_ids base chosen) ""
    | [] =>
        mkCounterfactualRecord CounterfactualOutcome.NO_SMALL_COUNTERFACTUAL_FOUND [] [] limit
          (ge_evaluation_payload_hash base) None (ge_evaluation_payload_hash generic)
          (ge_selected_plan_id base) None (ge_selected_plan_id generic) [] ""
    end in
  hash ← content_hash (_counterfactual_payload provisional);
  Ok (with_record_hash provisional hash).

Definition evaluate_decision_graph (g : DecisionGraphInput) (evaluation_id : string)
    (generated_at : datetime) (counterfactual_limit : Z) : result DecisionGraphDecision :=
  base ← evaluate_decision_graph_once g evaluation_id generated_at;
  let all_private : gset string := list_to_set (ff_fact_id <$> List.filter ff_private (gi_buyer_facts g)) in
  generic_input ← with_removed g (gi_removed_private_fact_ids g ∪ all_private);
  generic ← evaluate_decision_graph_once generic_input "generic_evaluation_id" generated_at;
  counterfactual ← search_private_fact_counterfactuals g base generic counterfactual_limit;
  let selected := p ← (ge_selected_plan_id base ≫= λ i, find_plan i (ge_plans base));
                  Some (pl_stable_action_ids p) in
  decision_hash ← content_hash (dict
    [("base_evaluation_payload_hash", VStr (ge_evaluation_payload_hash base));
     ("counterfactual_record_hashes", vstrs [cf_record_hash counterfactual]);
     ("selected_outcome", vopt vstrs selected)]);
  Ok (mkDecisionGraphDecision base generic counterfactual decision_hash).
End evaluation.

(** ** The smallest counterfactual *)

Lemma elem_of_combinations {A} (l : list A) k c :
  c ∈ combinations l k ↔ c `sublist_of` l ∧ length c = k.
Proof.
  revert k c. induction l as [|x l IH]; intros k c.
  - destruct k; cbn.
    + rewrite list_elem_of_singleton. split; [by intros ->|]. by intros [?%sublist_nil_r ?].
    + split; [set_solver|]. by intros [->%sublist_nil_r ?].
  - destruct k as [|k]; cbn [combinations].
    + rewrite list_elem_of_singleton. split; [intros ->; split; [apply sublist_nil_l|done]|].
      intros [_ ?]. by destruct c.
    + rewrite elem_of_app, list_elem_of_fmap, IH. setoid_rewrite IH. split.
      * intros [(d & -> & Hd & Hlen)|[Hd Hlen]]; [split; [by constructor|cbn; lia]|].
        split; [by constructor|done].
      * intros [Hs Hlen]. inversion Hs; subst.
        -- left. eexists. split; [done|]. cbn in Hlen. split; [done|lia].
        -- right. done.
Qed.

Section counterfactual.
Context `{Rfc8785} `{SetOrder}.
Implicit Types (g : DecisionGraphInput) (base alt : DecisionGraphEvaluation).

(** Rerunning without [removed] selects another plan, or the same. *)
Definition changes g base (removed : list string) alt : Prop :=
  ablate g base removed = Ok alt ∧ ge_selected_plan_id alt ≠ ge_selected_plan_id base.
Definition keeps g base (removed : list string) : Prop :=
  ∃ alt, ablate g base removed = Ok alt ∧ ge_selected_plan_id alt = ge_selected_plan_id base.

Lemma winners_among_spec g base candidates winners :
  winners_among g base candidates = Ok winners →
  (∀ removed alt, (removed, alt) ∈ winners ↔ removed ∈ candidates ∧ changes g base removed alt) ∧
  (∀ removed, removed ∈ candidates → keeps g base removed ∨ ∃ alt, (removed, alt) ∈ winners).
Proof.
  revert winners. induction candidates as [|c cs IH]; intros winners; cbn [winners_among].
  - intros [= <-]. set_solver.
  - intros (alt & Ha & E)%bind_Ok. apply bind_Ok in E as (rest & Hr & [= <-]).
    destruct (IH _ Hr) as [H1 H2]. unfold changes, keeps in *. case_bool_decide as Hs; split.
    + intros removed alt'. rewrite H1, elem_of_cons. naive_solver congruence.
    + intros removed [->|Hc]%elem_of_cons; [left; eauto|auto].
    + intros removed alt'. rewrite !elem_of_cons, H1. split.
      * intros [[= -> ->]|?]; naive_solver.
      * intros [[->|?] [E ?]]; [left; congruence|auto].
    + intros removed [->|Hc]%elem_of_cons; [right; exists alt; set_solver|].
      destruct (H2 removed Hc) as [?|(alt' & ?)]; [auto|right; exists alt'; set_solver].
Qed.

(** The search by size: either nothing of the searched sizes changes the
    selection, or the winners are exactly the changing removals of the first
    size that has one. *)
Lemma first_winners_spec g base ids start rounds winners :
  first_winners g base ids start rounds = Ok winners →
  (winners = [] ∧ ∀ removed, removed `sublist_of` ids → (start ≤ length removed < start + rounds)%nat →
     keeps g base removed) ∨
  (winners ≠ [] ∧ ∃ k, (start ≤ k < start + rounds)%nat ∧
     (∀ removed alt, (removed, alt) ∈ winners ↔
        removed `sublist_of` ids ∧ length removed = k ∧ changes g base removed alt) ∧
     ∀ removed, removed `sublist_of` ids → (start ≤ length removed < k)%nat → keeps g base removed).
Proof.
  revert start winners. induction rounds as [|rounds IH]; intros start winners; cbn [first_winners].
  { intros [= <-]. left. split; [done|]. intros; lia. }
  intros (ws & Hw & E)%bind_Ok. destruct (winners_among_spec _ _ _ _ Hw) as [H1 H2].
  setoid_rewrite elem_of_combinations in H1. setoid_rewrite elem_of_combinations in H2.
  destruct ws as [|w ws].
  - assert (∀ removed, removed `sublist_of` ids → length removed = start → keeps g base removed) as Hk.
    { intros removed Hs Hl. destruct (H2 removed (conj Hs Hl)) as [?|(? & ?)]; [done|set_solver]. }
    destruct (IH _ _ E) as [[-> Hall]|(Hne & k & Hk' & Hiff & Hall)]; [left|right].
    + split; [done|]. intros removed Hs Hl. destruct (decide (length removed = start)); [by apply Hk|].
      apply Hall; [done|lia].
    + split; [done|]. exists k. split_and!; [lia..|done|]. intros removed Hs Hl.
      destruct (decide (length removed = start)); [by apply Hk|]. apply Hall; [done|lia].
  - injection E as <-. right. split; [done|]. exists start. split_and!; [lia..| |intros; lia].
    intros removed alt. rewrite H1. naive_solver.
Qed.

Lemma elem_of_private_ids g i :
  i ∈ private_ids g ↔ ∃ f, f ∈ gi_buyer_facts g ∧ ff_fact_id f = i ∧ ff_private f = true ∧
    i ∉ gi_removed_private_fact_ids g.
Proof.
  unfold private_ids. rewrite elem_of_sorted_by, list_elem_of_fmap. setoid_rewrite elem_of_lfilter.
  setoid_rewrite andb_true_iff. setoid_rewrite negb_true_iff. setoid_rewrite bool_decide_eq_false.
  naive_solver.
Qed.

(** C7: the counterfactual record reports a smallest explanation.  When the
    winner changed, the removed identifiers are active private facts, at most
    [limit] of them, the rerun without them selects the recorded plan, which is
    another one, no smaller removal changes the selection, and the alternatives
    are other removals of that size; otherwise no removal of up to [limit]
    private facts changes the selection. *)
Theorem counterfactual_is_smallest (g : DecisionGraphInput) (base generic : DecisionGraphEvaluation)
    (limit : Z) (r : CounterfactualRecord) :
  search_private_fact_counterfactuals g base generic limit = Ok r →
  1 <= limit <= 3 ∧
  match cf_outcome r with
  | CounterfactualOutcome.WINNER_CHANGED =>
      let removed := cf_removed_fact_ids r in
      removed `sublist_of` private_ids g ∧ (1 ≤ length removed)%nat ∧ Z.of_nat (length removed) <= limit ∧
      (∃ alt, changes g base removed alt ∧ cf_after_selected_plan_id r = ge_selected_plan_id alt ∧
         cf_after_evaluation_payload_hash r = Some (ge_evaluation_payload_hash alt)) ∧
      (∀ smaller, smaller `sublist_of` private_ids g → (1 ≤ length smaller < length removed)%nat →
         keeps g base smaller) ∧
      (∀ other, other ∈ cf_alternative_fact_id_sets r → length other = length removed ∧
         ∃ alt, changes g base other alt)
  | CounterfactualOutcome.NO_SMALL_COUNTERFACTUAL_FOUND =>
      cf_removed_fact_ids r = [] ∧ cf_after_selected_plan_id r = None ∧
      ∀ removed, removed `sublist_of` private_ids g → (1 ≤ length removed)%nat →
        Z.of_nat (length removed) <= limit → keeps g base removed
  end.
Proof.
  unfold search_private_fact_counterfactuals.
  intros (? & [H1%Z.leb_le H3%Z.leb_le]%raise_if_Ok%negb_false_iff%andb_true_iff & E)%bind_Ok.
  split; [lia|]. apply bind_Ok in E as (winners & Hw & E). apply bind_Ok in E as (hash & _ & [= <-]).
  apply first_winners_spec in Hw as [[-> Hall]|(Hne & k & Hk & Hiff & Hall)].
  - cbn. split_and!; [done..|]. intros removed Hs Hl Hlim. apply Hall; [done|].
    apply sublist_length in Hs. lia.
  - destruct (sorted_by fst winners) as [|[chosen alt] others] eqn:Es.
    { apply sorted_by_nil in Es. by subst. }
    assert (∀ w, w ∈ (chosen, alt) :: others → w ∈ winners) as Hin.
    { intros w Hw. rewrite <- Es in Hw. by apply elem_of_sorted_by in Hw. }
    destruct (proj1 (Hiff chosen alt) (Hin _ (list_elem_of_here _ _))) as (Hs & Hl & Hc). cbn.
    split_and!; [done|lia|lia|by exists alt|intros; apply Hall; [done|lia]|].
    intros other (w & -> & Hw)%list_elem_of_fmap. destruct w as [o a]. cbn.
    destruct (proj1 (Hiff o a) (Hin _ (list_elem_of_further _ _ _ Hw))) as (_ & Hlo & Hco).
    split; [congruence|eauto].
Qed.
End counterfactual.

(** ** From the flag of a plan back to the decision input *)

Section end_to_end.
Context `{Rfc8785} `{SetOrder}.
Implicit Types (g : DecisionGraphInput) (m : _PlanMaterial) (p : EvaluatedPlan).

Lemma evaluate_once_Ok g eid at_ e :
  evaluate_decision_graph_once g eid at_ = Ok e →
  ∃ recall plans f, recall_and_deduplicate g = Ok recall ∧
    assess_evidence g recall = Ok (ge_evidence_assessments e) ∧
    build_solution_plans g recall (ge_evidence_assessments e) = Ok plans ∧
    _rank_and_frontiers plans = Ok f ∧ ge_plans e = fr_plans f ∧
    ge_ranked_plan_ids e = fr_ranked_ids f ∧ ge_selected_plan_id e = head (fr_ranked_ids f) ∧
    ge_rank_stability e = fr_stability f.
Proof.
  unfold evaluate_decision_graph_once. intros (recall & Hr & E)%bind_Ok.
  apply bind_Ok in E as (a & Ha & E). apply bind_Ok in E as (plans & Hp & E).
  apply bind_Ok in E as (f & Hf & E). apply bind_Ok in E as (hashes & _ & E).
  apply bind_Ok in E as (payload & _ & E). apply bind_Ok in E as (hash & _ & [= <-]).
  exists recall, plans, f. by split_and!.
Qed.

Lemma pack_material_action g recall packs m :
  _pack_materials g recall = Ok packs → m ∈ packs → m_action m = SolutionAction.REPLACE.
Proof.
  unfold _pack_materials. intros (reps & _ & E)%bind_Ok Hm.
  apply (mapM_Ok_elem _ _ _ _ E) in Hm as (root & _ & Hroot). unfold root_material in Hroot.
  apply bind_Ok in Hroot as ([records issues] & _ & E1). apply bind_Ok in E1 as ([[cost n] ci] & _ & E1).
  apply bind_Ok in E1 as (acf & _ & E1). apply bind_Ok in E1 as (agg & _ & E1).
  apply bind_Ok in E1 as (rcost & _ & E1). destruct records; [done|]. by injection E1 as <-.
Qed.

(** Where every plan comes from. *)
Lemma build_solution_plans_Ok g recall assessments plans p :
  build_solution_plans g recall assessments = Ok plans → p ∈ plans →
  ∃ m evaluated discovered, build_plan g assessments evaluated discovered m = Ok p ∧
    (m_action m = SolutionAction.REPLACE ∨ ∃ item, item ∈ gi_current_actions g ∧ m = _current_material item).
Proof.
  unfold build_solution_plans. intros (packs & Hk & E)%bind_Ok Hp.
  apply (mapM_Ok_elem _ _ _ _ E) in Hp as (m & Hm & Hb). rewrite elem_of_sorted_by, elem_of_app in Hm.
  exists m. do 2 eexists. split; [done|]. destruct Hm as [Hm|(item & -> & Hi)%list_elem_of_fmap].
  - left. by eapply pack_material_action.
  - right. by exists item.
Qed.

Lemma build_solution_plans_wf g recall assessments plans :
  build_solution_plans g recall assessments = Ok plans → plans_wf plans.
Proof.
  intros E p b Hp. destruct (build_solution_plans_Ok _ _ _ _ _ E Hp) as (m & ev & di & Hm & _).
  destruct (build_plan_Ok _ _ _ _ _ _ Hm) as (_ & _ & _ & Hwf & _). by apply Hwf.
Qed.

(** C2: autonomous execution fails closed, end to end.  A plan of a finished
    evaluation is marked for autonomous execution only when it keeps or does
    nothing: it comes from a current-stack action of the input that is
    available, its status is eligible, every applicable gate that could block
    is passed on the evidence the evaluation recorded, its bounds are
    complete, it costs no payment, and the ranking is STABLE: no eligible plan
    with another identifier can overtake the selected one inside the bounds,
    and no other eligible plan at all where none share an identifier. *)
Theorem autonomous_execution_safe (g : DecisionGraphInput) (eid : string) (at_ : datetime)
    (e : DecisionGraphEvaluation) (p : EvaluatedPlan) :
  evaluate_decision_graph_once g eid at_ = Ok e →
  p ∈ ge_plans e → pl_autonomous_execution_allowed p = true →
  (∃ item, item ∈ gi_current_actions g ∧ pl_action p = ca_action item ∧ ca_available item = true ∧
     ca_action item ∈ [SolutionAction.REUSE_EXISTING; SolutionAction.NO_ACTION] ∧
     oc_payment_required (ca_cost item) = false ∧
     ∀ gate, gate ∈ gi_gates g →
       _gate_applies gate (_current_material item) (_active_source_ids g) = true →
       eligible_status (g_blocked_status gate) = false →
       gate_passed gate (_current_material item) (_buyer_value_map g)
         (_assessment_index (ge_evidence_assessments e))) ∧
  eligible_status (pl_status p) = true ∧
  (∃ b, ordering_bounds (pl_dimensions p) = Ok (Some b)) ∧
  ge_rank_stability e = "STABLE" ∧
  ∃ s, ge_selected_plan_id e = Some (bp_plan_id s) ∧ unbeatable (ge_plans e) s.
Proof.
  intros (recall & plans & f & _ & _ & Hplans & Hf & Epl & _ & Esel & Est)%evaluate_once_Ok Hp Hauto.
  pose proof (build_solution_plans_wf _ _ _ _ Hplans) as Hwf.
  destruct (rank_and_frontiers_Ok _ _ Hf) as (r & res & Hr & _ & Efl & Eids & Estab).
  rewrite Epl, Efl in Hp. apply list_elem_of_fmap in Hp as (q & -> & Hq). cbn in Hauto.
  apply autonomous_true in Hauto as (Hx & Hst & Hpay & Hact).
  destruct (build_solution_plans_Ok _ _ _ _ _ Hplans Hq) as (m & ev & di & Hm & Horigin).
  destruct (build_plan_Ok _ _ _ _ _ _ Hm) as (Ea & Ec & (gates & Hg & _ & Hstat) & _ & Hexec).
  destruct (Hexec Hx) as [Hel Hb]. rewrite Ec in Hpay. rewrite Ea in Hact.
  destruct (stable_rank_unbeatable _ _ Hwf Hr Hst) as (s & rest & Es & Hun). split_and!.
  - destruct Horigin as [Ho|(item & Hitem & ->)]; [rewrite Ho in Hact; cbn in Hact; set_solver|].
    exists item. rewrite <- Hstat in Hel.
    destruct (eligible_gates _ _ _ _ Hg Hel) as (Hav & _ & _ & Hgates). by split_and!.
  - done.
  - done.
  - by rewrite Est, Estab, Hst.
  - exists s. rewrite Esel, Eids, Es. split; [done|]. rewrite Epl, Efl. by apply flagged_unbeatable.
Qed.
End end_to_end.
