(* ===== verification/Scenario.v ===== *)
(** * A concrete decision

    A small decision graph, evaluated with a writer of canonical JSON for the
    third-party package: a company keeps its current tool, because a private
    fact turns on a gate the new product fails.  The theorems of the engine are
    applied to it, which shows that their hypotheses can hold. *)
From S2P Require Import Prelude PyText PyNumber PyTime Enums Money Bounds Hashing.
From S2P Require Import GraphModels Recall Gates Scores Closure Plans Ranking Graph.

Local Open Scope string_scope.
Local Open Scope Z_scope.

(** ** A writer of canonical JSON for text without control characters *)

Definition quote : ascii := ascii_of_N 34.
Definition escape (s : string) : list ascii :=
  quote :: (c ← chars s; if bool_decide (c = quote ∨ c = "\"%char) then ["\"%char; c] else [c]) ++ [quote].

Definition safe_integer (n : Z) : bool := (- 2 ^ 53 <? n) && (n <? 2 ^ 53).

Fixpoint has_unsafe (j : Json) : bool :=
  match j with
  | JInt n => negb (safe_integer n)
  | JList l => existsb has_unsafe l
  | JObj l => existsb (λ p : string * Json, has_unsafe p.2) l
  | _ => false
  end.

Definition commas (l : list (list ascii)) : list ascii :=
  match l with [] => [] | x :: l => x ++ (y ← l; ","%char :: y) end.

Fixpoint write (j : Json) : list ascii :=
  match j with
  | JNull => chars "null"
  | JBool b => chars (if b then "true" else "false")
  | JStr s => escape s
  | JInt n => chars (str_int n)
  | JList l => "["%char :: commas (List.map write l) ++ ["]"%char]
  | JObj l => "{"%char :: commas (snd <$> sorted_by fst
      (List.map (λ p : string * Json, (p.1, escape p.1 ++ ":"%char :: write p.2)) l)) ++ ["}"%char]
  end%list.

#[export] Instance writer : Rfc8785 := λ j,
  if has_unsafe j then inr "integer out of range" else inl (of_chars (write j)).

#[export] Instance insertion_order : SetOrder := {| str_order l := l; int_order l := l |}.

#[export] Instance insertion_order_laws : SetOrderLaws.
Proof. by split. Qed.

(** ** The input *)

Definition usd (n : Z) : option Money := Some (mkMoney (DFinite n 0) "USD").
Definition cost (id : string) (n : Z) (items : list CostLineItem) (pay : bool) : OfferCost :=
  mkOfferCost id (usd n) (usd n) (usd n) 365 items pay.
Definition line (kind : string) (n : Z) : CostLineItem :=
  mkCostLineItem kind (mkMoney (DFinite n 0) "USD") (mkMoney (DFinite n 0) "USD")
    (mkMoney (DFinite n 0) "USD") None.

Definition now : datetime := mkDatetime 63871286400000000 (Some 0).
Definition yesterday : datetime := mkDatetime 63871200000000000 (Some 0).

Definition product_facts (evidence : string) (fast certified : bool) : list ProductFact :=
  [mkProductFact "product.fast" (FVBool fast) [evidence] None;
   mkProductFact "security.certified" (FVBool certified) [evidence] None].

Definition evidence (id record : string) : EvidenceRecord :=
  mkEvidenceRecord id record "SELLER_DOCUMENT" "SIGNED" "PRODUCT" true (Some yesterday) (Some yesterday)
    false false.
Definition policy (field : string) : EvidencePolicy :=
  mkEvidencePolicy field ["SELLER_DOCUMENT"] ["SIGNED"] "PRODUCT" 604800.

Definition ex_versions : FrozenVersions :=
  mkFrozenVersions "1" "1" "1" "1" "1" "1" "1" "1" "1" "1" "1" "1".

Definition ex_gate : GateRule :=
  mkGateRule "gate_certified" [mkPredicate "security.certified" "eq" (FVBool true)] GateMode.REQUIRE_MATCH
    CandidateStatus.SIRA_INELIGIBLE "NOT_CERTIFIED" ["fact_audit"] [] [] None false.

Definition ex_candidate : RawCandidateRecord :=
  mkRawCandidateRecord "record_new" "pack_new" 1 "seller_new" "product_new" "standard" "EU" "offer_new"
    PackAuthority.SELLER_SEALED true (product_facts "evidence_new" true false) [] [] ["crm"] ["sell"]
    "PUBLISHED" [].

Definition ex_current : CurrentActionRecord :=
  mkCurrentActionRecord "action_keep" SolutionAction.REUSE_EXISTING "instance_old"
    (product_facts "evidence_old" false true) (cost "offer_old" 0 [] false) true None.

Definition ex_criterion_raw : PreferenceCriterion :=
  mkPreferenceCriterion "criterion_fast" "product.fast" 1 1 NormalizationKind.BOOLEAN_EQUALS (FVBool true)
    [] [] [mkRatio 0 1; mkRatio 1 1] [] None None None "PRIMARY_COMPONENT".

(** The part of the input that a witness may vary: the removed facts. *)
Definition ex_input (candidates : list RawCandidateRecord) : DecisionGraphInput :=
  mkDecisionGraphInput ex_versions now
    [mkFrozenFact "fact_audit" "audit.pending" (FVBool true) true "1" "unknown" "UNKNOWN" 0 None;
     mkFrozenFact "fact_team" "team.size" (FVInt 12) false "1" "unknown" "UNKNOWN" 0 None]
    candidates
    [cost "offer_new" 101 [line "MERCHANT_SUBTOTAL" 100; line "SIRA_TRANSACTION_FEE" 1] true]
    [evidence "evidence_new" "record_new"; evidence "evidence_old" "instance_old"]
    [policy "product.fast"; policy "security.certified"] [ex_gate] [ex_criterion_raw] [] true [ex_current]
    (mkIdentityNormalization "1" []) [] ∅ [] None.

Definition ex_graph : DecisionGraphInput := ex_input [ex_candidate].

Definition run (g : DecisionGraphInput) : result DecisionGraphEvaluation :=
  evaluate_decision_graph_once g "evaluation" now.

Lemma ok_of {A} (m : result A) : is_ok m = true → ∃ a, m = Ok a.
Proof. destruct m; [eauto|done]. Qed.

Lemma holds_of {A} (m : result A) (f : A → bool) :
  match m with Ok a => f a | Raise _ => false end = true → ∃ a, m = Ok a ∧ f a = true.
Proof. destruct m; [eauto|done]. Qed.

(** Names the value of a computation of the scenario and what a test of it says. *)
Ltac compute_ok m v E :=
  let C := fresh in
  assert (is_ok m = true) as C by (vm_compute; reflexivity);
  apply ok_of in C; destruct C as [v E].
Ltac compute_test m f v E H :=
  let C := fresh in
  assert (match m with Ok a => f a | Raise _ => false end = true) as C by (vm_compute; reflexivity);
  apply (holds_of m f) in C; destruct C as (v & E & H).

(** ** Recall *)

Definition ex_duplicate : RawCandidateRecord :=
  mkRawCandidateRecord "record_copy" "pack_copy" 1 "seller_new" "product_new" "standard" "EU" "offer_new"
    PackAuthority.PLATFORM_COMPILED true (product_facts "evidence_new" true false) [] [] ["crm"] ["sell"]
    "PUBLISHED" [].

Definition ex_pair : DecisionGraphInput := ex_input [ex_candidate; ex_duplicate].

Lemma recall_partition_witness :
  ∃ r, recall_and_deduplicate ex_pair = Ok r ∧ length (rr_merges r) = 1%nat ∧
    (rx_record_id <$> rr_exclusions r) ++ mjoin (ir_record_ids <$> rr_identities r)
      ≡ₚ ["record_new"; "record_copy"].
Proof.
  compute_test (recall_and_deduplicate ex_pair) (λ r, (length (rr_merges r) =? 1)%nat) r E H.
  exists r. split; [exact E|split; [by apply Nat.eqb_eq|]]. apply (recall_partition ex_pair r E).
Defined.

Lemma recall_conservative_witness :
  ∃ r, recall_and_deduplicate ex_pair = Ok r ∧ ex_duplicate ∈ gi_candidates ex_pair ∧
  ((∃ x, x ∈ rr_exclusions r ∧ rx_record_id x = "record_copy") ∨
   (∃ i rep members, i ∈ rr_identities r ∧ rep ∈ rr_representatives r ∧
     ir_canonical_id i = rc_record_id rep ∧ ir_record_ids i = rc_record_id <$> members ∧
     ex_duplicate ∈ members ∧ members ⊆ gi_candidates ex_pair ∧ stands_for members rep)).
Proof.
  compute_ok (recall_and_deduplicate ex_pair) r E.
  assert (ex_duplicate ∈ gi_candidates ex_pair) as Hin
    by (apply list_elem_of_further, list_elem_of_here).
  exists r. split; [exact E|split; [exact Hin|]]. exact (recall_conservative ex_pair r E ex_duplicate Hin).
Defined.

(** Two records of one product, each with one of the two facts a gate asks for. *)
Definition ex_half (record field evidence_id : string) : RawCandidateRecord :=
  mkRawCandidateRecord record ("pack_" ++ record) 1 "seller_new" "product_new" "standard" "EU" "offer_new"
    PackAuthority.SELLER_SEALED true [mkProductFact field (FVBool true) [evidence_id] None] [] [] ["crm"] ["sell"]
    "PUBLISHED" [].
Definition ex_half_a : RawCandidateRecord := ex_half "record_a" "product.fast" "evidence_a".
Definition ex_half_b : RawCandidateRecord := ex_half "record_b" "security.certified" "evidence_b".
Definition ex_both_gate : GateRule :=
  mkGateRule "gate_both" [mkPredicate "security.certified" "eq" (FVBool true); mkPredicate "product.fast" "eq" (FVBool true)]
    GateMode.REQUIRE_MATCH CandidateStatus.SIRA_INELIGIBLE "NOT_CERTIFIED" [] [] [] None false.
Definition ex_halves (candidates : list RawCandidateRecord) : DecisionGraphInput :=
  mkDecisionGraphInput ex_versions now [] candidates
    [cost "offer_new" 101 [line "MERCHANT_SUBTOTAL" 100; line "SIRA_TRANSACTION_FEE" 1] true]
    [evidence "evidence_a" "record_a"; evidence "evidence_b" "record_b"; evidence "evidence_old" "instance_old"]
    [policy "product.fast"; policy "security.certified"] [ex_both_gate] [ex_criterion_raw] [] true [ex_current]
    (mkIdentityNormalization "1" []) [] ∅ [] None.
Definition judged (g : DecisionGraphInput) : result (list (CandidateStatus.t * PlanLifecycle.t * option CoverageBounds)) :=
  e ← run g;
  Ok ((λ p, (pl_status p, pl_lifecycle p, pd_coverage (pl_dimensions p))) <$>
    List.filter (λ p, bool_decide (pl_action p = SolutionAction.REPLACE)) (ge_plans e)).

(** A duplicate can improve a candidate: alone each record is blocked for want
    of evidence, together they are one executable plan, with more coverage than
    the second has. *)
Lemma duplicates_complete_each_other :
  judged (ex_halves [ex_half_a]) = Ok [(CandidateStatus.INSUFFICIENT_EVIDENCE, PlanLifecycle.BLOCKED,
    Some (mkCoverageBounds (mkRatio 1 1) (mkRatio 1 1)))] ∧
  judged (ex_halves [ex_half_b]) = Ok [(CandidateStatus.INSUFFICIENT_EVIDENCE, PlanLifecycle.BLOCKED,
    Some (mkCoverageBounds (mkRatio 0 1) (mkRatio 0 1)))] ∧
  judged (ex_halves [ex_half_a; ex_half_b]) = Ok [(CandidateStatus.ELIGIBLE, PlanLifecycle.EXECUTABLE,
    Some (mkCoverageBounds (mkRatio 1 1) (mkRatio 1 1)))].
Proof. vm_compute. split_and!; reflexivity. Qed.

Lemma recall_order_independent_witness :
  NoDup (rc_record_id <$> gi_candidates ex_pair) ∧
  recall_and_deduplicate (with_candidates ex_pair [ex_duplicate; ex_candidate]) =
  recall_and_deduplicate ex_pair.
Proof.
  assert (NoDup (rc_record_id <$> gi_candidates ex_pair)) as Hnd
    by (apply all_distinct_NoDup; vm_compute; reflexivity).
  split; [exact Hnd|].
  exact (recall_order_independent ex_pair [ex_duplicate; ex_candidate] Hnd (perm_swap _ _ _)).
Defined.

(** The recall of the scenario, and the evidence assessed for it. *)
Definition ex_assessed : result (RecallResult * list EvidenceAssessment) :=
  r ← recall_and_deduplicate ex_graph; a ← assess_evidence ex_graph r; Ok (r, a).

Lemma ex_assessed_ok : ∃ r a, recall_and_deduplicate ex_graph = Ok r ∧ assess_evidence ex_graph r = Ok a ∧
  length a = 4%nat.
Proof.
  compute_test ex_assessed (λ p : RecallResult * list EvidenceAssessment, (length p.2 =? 4)%nat) p E H. destruct p as [r a].
  unfold ex_assessed in E. apply bind_Ok in E as (r' & Hr & E). apply bind_Ok in E as (a' & Ha & [= <- <-]).
  exists r', a'. split; [exact Hr|split; [exact Ha|by apply Nat.eqb_eq]].
Qed.

Lemma assess_evidence_witness :
  ∃ r a, assess_evidence ex_graph r = Ok a ∧ length a = 4%nat ∧
    NoDup ((λ x, (as_evidence_id x, as_field x)) <$> a).
Proof.
  destruct ex_assessed_ok as (r & a & _ & E & H). exists r, a. split; [exact E|split; [exact H|]].
  apply (assess_evidence_spec ex_graph r a E).
Defined.

(** ** Gates and scores *)

Definition ex_keep : _PlanMaterial := _current_material ex_current.
Definition ex_gates (m : _PlanMaterial) : result (list GateResult * list EvidenceAssessment) :=
  '(_, a) ← ex_assessed; gates ← evaluate_gates ex_graph m a; Ok (gates, a).

Lemma ex_gates_ok : ∃ gates a, evaluate_gates ex_graph ex_keep a = Ok gates ∧
  (_primary_status gates).2 = None.
Proof.
  compute_test (ex_gates ex_keep) (λ p : list GateResult * list EvidenceAssessment, is_none (_primary_status p.1).2) p E H. destruct p as [gates a].
  unfold ex_gates in E. apply bind_Ok in E as ([r a'] & _ & E). apply bind_Ok in E as (gates' & Hg & [= <- <-]).
  exists gates', a'. split; [exact Hg|]. by apply is_none_true.
Qed.

Lemma no_reason_witness :
  ∃ gates a, evaluate_gates ex_graph ex_keep a = Ok gates ∧
    gate_passed ex_gate ex_keep (_buyer_value_map ex_graph) (_assessment_index a).
Proof.
  destruct ex_gates_ok as (gates & a & E & H). exists gates, a. split; [exact E|].
  apply (no_reason_iff_all_gates_pass ex_graph ex_keep a gates E) in H as (_ & _ & _ & H).
  apply H; [apply list_elem_of_here|vm_compute; reflexivity].
Defined.

Lemma primary_status_witness :
  ∃ gates s r, _primary_status gates = (s, Some r) ∧ s = CandidateStatus.SIRA_INELIGIBLE ∧ gn_status r = s.
Proof.
  set (r := mkGateReason "NOT_CERTIFIED" CandidateStatus.SIRA_INELIGIBLE "Required predicate failed").
  set (r' := mkGateReason "SELLER_CONDITION_UNRESOLVED" CandidateStatus.CONDITIONAL "Missing").
  set (gates := [mkGateResult "gate_a" TruthValue.UNKNOWN [r'] [] None;
                 mkGateResult "gate_b" TruthValue.FALSE [r] [] None]).
  assert (_primary_status gates = (CandidateStatus.SIRA_INELIGIBLE, Some r)) as E by (vm_compute; reflexivity).
  exists gates, CandidateStatus.SIRA_INELIGIBLE, r. split; [exact E|split; [reflexivity|]].
  apply (primary_status_most_severe gates _ r E).
Defined.

Lemma ex_preferences_valid : preferences_valid ex_graph.
Proof.
  split; [|by apply all_distinct_NoDup; vm_compute].
  intros c ->%list_elem_of_singleton. exists ex_criterion_raw. vm_compute. reflexivity.
Qed.

Lemma scores_valid_witness :
  ∃ a scores reasons, _score_components ex_graph ex_keep a = Ok (scores, reasons) ∧ scores ≠ [] ∧
    ∀ s, s ∈ scores → score_ok s ∨ out_of_range ex_graph ex_keep s.
Proof.
  compute_test (_score_components ex_graph ex_keep []) (λ p : list ScoreComponent * list string, (length p.1 =? 1)%nat) p E H.
  destruct p as [scores reasons]. exists [], scores, reasons. split; [exact E|]. split.
  - intros ->. discriminate H.
  - exact (proj1 (scores_valid_and_aggregate ex_graph ex_keep [] scores reasons ex_preferences_valid E)).
Defined.

Lemma ordering_bounds_witness :
  ∃ scores d, _material_dimensions ex_graph ex_keep [] [] 1 1 = Ok (scores, d) ∧
    match ordering_bounds d with
    | Ok (Some _) => pd_bound_unavailable_reasons d = []
    | Ok None => pd_bound_unavailable_reasons d ≠ []
    | Raise _ => False
    end.
Proof.
  compute_ok (_material_dimensions ex_graph ex_keep [] [] 1 1) p E. destruct p as [scores d].
  exists scores, d. split; [exact E|].
  exact (ordering_bounds_iff_no_reason ex_graph ex_keep [] [] 1 1 scores d E).
Defined.

(** ** Plans *)

Lemma build_plan_lifecycle_witness :
  ∃ a p, build_plan ex_graph a 2 2 ex_keep = Ok p ∧ pl_lifecycle p = PlanLifecycle.EXECUTABLE ∧
    eligible_status (pl_status p) = true ∧ pl_autonomous_execution_allowed p = false.
Proof.
  compute_test (x ← ex_assessed; p ← build_plan ex_graph x.2 2 2 ex_keep; Ok (x.2, p))
    (λ x : list EvidenceAssessment * EvaluatedPlan, bool_decide (pl_lifecycle x.2 = PlanLifecycle.EXECUTABLE)) x E H.
  apply bind_Ok in E as (y & _ & E). apply bind_Ok in E as (p & E & Ex).
  exists y.2, p. split; [exact E|]. injection Ex as <-. apply bool_decide_eq_true in H. cbn [snd] in H.
  split; [exact H|]. destruct (build_plan_lifecycle ex_graph y.2 2 2 ex_keep p E) as (H1 & _ & _ & H2 & _).
  split; [exact (proj1 (proj1 H1 H))|exact H2].
Defined.

(** An interpreter that iterates over sets the other way round. *)
Definition reversed_order : SetOrder := {| str_order := reverse; int_order := reverse |}.

Lemma reversed_order_laws : @SetOrderLaws reversed_order.
Proof. split; intros l; apply reverse_Permutation. Qed.

Definition ex_component (product offer : string) : RawCandidateRecord :=
  mkRawCandidateRecord ("record_" ++ product) "pack_new" 1 "seller_new" product "standard" "EU" offer
    PackAuthority.SELLER_SEALED true [] [] [] [] [] "PUBLISHED" [].
Definition ex_bundle : list RawCandidateRecord := [ex_component "core" "offer_a"; ex_component "addon" "offer_b"].

Lemma combined_cost_witness :
  ∃ c n, _combined_cost ex_bundle [("offer_a", cost "offer_a" 10 [] false); ("offer_b", cost "offer_b" 5 [] false)]
    = Ok (c, n, []) ∧ oc_base c = usd 15 ∧
  @_combined_cost _ reversed_order ex_bundle
    [("offer_a", cost "offer_a" 10 [] false); ("offer_b", cost "offer_b" 5 [] false)] = Ok (c, n, []).
Proof.
  compute_test (_combined_cost ex_bundle
      [("offer_a", cost "offer_a" 10 [] false); ("offer_b", cost "offer_b" 5 [] false)])
    (λ x : OfferCost * Z * list string, bool_decide (oc_base x.1.1 = usd 15) && bool_decide (x.2 = [])) x E H.
  destruct x as [[c n] issues]. apply andb_true_iff in H as [H1%bool_decide_eq_true H2%bool_decide_eq_true].
  cbn [fst snd] in H1, H2. subst issues. exists c, n. split; [exact E|split; [exact H1|]].
  apply (combined_cost_deterministic insertion_order reversed_order _ _ c n [] insertion_order_laws
    reversed_order_laws E). apply not_elem_of_nil.
Defined.

(** Without that condition the cost depends on the order: the currency of the
    total is the first the interpreter happens to yield. *)
Definition ex_mixed : list (string * OfferCost) :=
  [("offer_a", cost "offer_a" 10 [] false);
   ("offer_b", mkOfferCost "offer_b" (Some (mkMoney (DFinite 5 0) "EUR")) (Some (mkMoney (DFinite 5 0) "EUR"))
      (Some (mkMoney (DFinite 5 0) "EUR")) 365 [] false)].

Example incomparable_cost_depends_on_order :
  (λ x : OfferCost * Z * list string, oc_base x.1.1) <$> _combined_cost ex_bundle ex_mixed = Ok (usd 15) ∧
  (λ x : OfferCost * Z * list string, oc_base x.1.1) <$> @_combined_cost _ reversed_order ex_bundle ex_mixed =
    Ok (Some (mkMoney (DFinite 15 0) "EUR")).
Proof. vm_compute. split; reflexivity. Qed.

(** ** Ranking *)

Definition ex_plans : result (list EvaluatedPlan) :=
  r ← recall_and_deduplicate ex_graph; a ← assess_evidence ex_graph r; build_solution_plans ex_graph r a.

Lemma ranking_sorted_witness :
  ∃ plans r, rank_plans plans = Ok r ∧ length (rk_ranked r) = 1%nat ∧
    StronglySorted (λ p q, py_le (total_key p) (total_key q) = true) (rk_ranked r).
Proof.
  compute_test (plans ← ex_plans; r ← rank_plans plans; Ok (plans, r))
    (λ x : list EvaluatedPlan * ranking, (length (rk_ranked x.2) =? 1)%nat) x E H.
  apply bind_Ok in E as (plans & _ & E). apply bind_Ok in E as (r & E & Ex). injection Ex as <-.
  exists plans, r. split; [exact E|split; [by apply Nat.eqb_eq|]].
  exact (proj1 (ranking_sorted_complete plans r E)).
Defined.

Lemma stable_ranking_witness :
  ∃ plans r, plans_wf plans ∧ rank_plans plans = Ok r ∧ rk_stability r = RankStability.STABLE ∧
    ∃ s rest, rk_ranked r = s :: rest ∧ unbeatable plans s.
Proof.
  compute_test (r ← recall_and_deduplicate ex_graph; a ← assess_evidence ex_graph r;
      plans ← build_solution_plans ex_graph r a; k ← rank_plans plans; Ok (plans, k))
    (λ x : list EvaluatedPlan * ranking, bool_decide (rk_stability x.2 = RankStability.STABLE)) x E H.
  apply bind_Ok in E as (rec & _ & E). apply bind_Ok in E as (a & _ & E).
  apply bind_Ok in E as (plans & Hp & E). apply bind_Ok in E as (r & E & Ex). injection Ex as <-.
  apply bool_decide_eq_true in H. cbn [snd] in H.
  pose proof (build_solution_plans_wf _ _ _ _ Hp) as Hwf.
  exists plans, r. split; [exact Hwf|split; [exact E|split; [exact H|]]].
  exact (stable_ranking_unbeatable plans r Hwf E H).
Defined.

(** Two sellers of one product: their plans have one identifier. *)
Definition ex_seller (seller : string) : RawCandidateRecord :=
  mkRawCandidateRecord ("record_" ++ seller) ("pack_" ++ seller) 1 ("seller_" ++ seller) "product_new" "standard" "EU"
    ("offer_" ++ seller) PackAuthority.SELLER_SEALED true (product_facts ("evidence_" ++ seller) true true) [] []
    ["crm"] ["sell"] "PUBLISHED" [].
Definition ex_money (n : Z) : Money := mkMoney (DFinite n 0) "USD".
Definition ex_range (offer : string) (low base high : Z) : OfferCost :=
  mkOfferCost offer (usd (low + 1)) (usd (base + 1)) (usd (high + 1)) 365
    [mkCostLineItem "MERCHANT_SUBTOTAL" (ex_money low) (ex_money base) (ex_money high) None;
     line "SIRA_TRANSACTION_FEE" 1] true.
Definition ex_rivals : DecisionGraphInput :=
  mkDecisionGraphInput ex_versions now [] [ex_seller "a"; ex_seller "b"]
    [ex_range "offer_a" 100 110 300; ex_range "offer_b" 90 120 200]
    [evidence "evidence_a" "record_a"; evidence "evidence_b" "record_b"; evidence "evidence_old" "instance_old"]
    [policy "product.fast"; policy "security.certified"] [ex_gate] [ex_criterion_raw] [] true [ex_current]
    (mkIdentityNormalization "1" []) [] ∅ [] None.

(** A ranking is STABLE although a plan that shares the selected plan's
    identifier may overtake it: such plans are not compared. *)
Lemma rival_of_same_id_overtakes :
  ∃ r s c rest, (k ← recall_and_deduplicate ex_rivals; a ← assess_evidence ex_rivals k;
      plans ← build_solution_plans ex_rivals k a; rank_plans plans) = Ok r ∧
    rk_stability r = RankStability.STABLE ∧ rk_ranked r = s :: c :: rest ∧
    bp_plan_id c = bp_plan_id s ∧ c ≠ s ∧ may_overtake c s.
Proof.
  compute_test (k ← recall_and_deduplicate ex_rivals; a ← assess_evidence ex_rivals k;
      plans ← build_solution_plans ex_rivals k a; rank_plans plans)
    (λ r, match rk_ranked r with
          | s :: c :: _ => bool_decide (rk_stability r = RankStability.STABLE) && bool_decide (bp_plan_id c = bp_plan_id s) &&
              match bp_bounds c, bp_bounds s with
              | Some bc, Some bs => py_lt (optimistic_key c bc) (conservative_key s bs) && py_lt (total_key s) (total_key c)
              | _, _ => false end
          | _ => false end) r E H.
  pose proof E as E'. apply bind_Ok in E' as (k & _ & E'). apply bind_Ok in E' as (a & _ & E').
  apply bind_Ok in E' as (plans & Hp & E'). pose proof (ranked_wf _ _ (build_solution_plans_wf _ _ _ _ Hp) E') as Hwf.
  destruct (rk_ranked r) as [|s [|c rest]] eqn:Er; [discriminate H|discriminate H|].
  apply andb_true_iff in H as [[Hs%bool_decide_eq_true Hi%bool_decide_eq_true]%andb_true_iff H].
  destruct (bp_bounds c) as [bc|] eqn:Ec; [|discriminate H]. destruct (bp_bounds s) as [bs|] eqn:Es; [|discriminate H].
  apply andb_true_iff in H as [Ho Hlt].
  exists r, s, c, rest. split_and!; [exact E|exact Hs|exact Er|exact Hi|..].
  - intros ->. rewrite py_lt_le, py_le_refl in Hlt. discriminate Hlt.
  - pose proof (Hwf c (list_elem_of_further _ _ _ (list_elem_of_here _ _))) as Hc. pose proof (Hwf s (list_elem_of_here _ _)) as Hw.
    unfold plan_wf in Hc, Hw.
    rewrite Ec in Hc. rewrite Es in Hw. exact (proj2 (may_overtake_envelope c s bc bs Ec Es Hc Hw) Ho).
Qed.

Lemma quote_required_witness :
  ∃ plans f, _rank_and_frontiers plans = Ok f ∧ (∀ p, p ∈ fr_plans f → pl_quote_required p = true →
    pl_action p ∈ _QUOTE_ACTIONS).
Proof.
  compute_ok (plans ← ex_plans; f ← _rank_and_frontiers plans; Ok (plans, f)) x E.
  apply bind_Ok in E as (plans & _ & E). apply bind_Ok in E as (f & E & _).
  exists plans, f. split; [exact E|]. intros p Hp Hq.
  destruct (quote_required_iff plans f E) as (r & resolution & _ & _ & H).
  destruct (H p Hp) as (_ & _ & Hiff). exact (proj1 (proj1 Hiff Hq)).
Defined.

(** ** The whole decision *)

Lemma autonomous_execution_witness :
  ∃ e p, evaluate_decision_graph_once ex_graph "evaluation" now = Ok e ∧ p ∈ ge_plans e ∧
    pl_autonomous_execution_allowed p = true ∧ ge_rank_stability e = "STABLE" ∧
    ∃ s, ge_selected_plan_id e = Some (bp_plan_id s) ∧ unbeatable (ge_plans e) s.
Proof.
  compute_test (evaluate_decision_graph_once ex_graph "evaluation" now)
    (λ e, existsb pl_autonomous_execution_allowed (ge_plans e)) e E H.
  apply existsb_Exists in H as (p & Hp & Ha). exists e, p. split; [exact E|split; [exact Hp|split; [exact Ha|]]].
  destruct (autonomous_execution_safe ex_graph "evaluation" now e p E Hp Ha) as (_ & _ & _ & H4 & H5).
  split; [exact H4|exact H5].
Defined.

Lemma counterfactual_witness :
  ∃ e r, search_private_fact_counterfactuals ex_graph e e 2 = Ok r ∧
    cf_outcome r = CounterfactualOutcome.WINNER_CHANGED ∧ cf_removed_fact_ids r = ["fact_audit"] ∧
    ∃ alt, changes ex_graph e ["fact_audit"] alt.
Proof.
  compute_test (e ← run ex_graph; r ← search_private_fact_counterfactuals ex_graph e e 2; Ok (e, r))
    (λ x : DecisionGraphEvaluation * CounterfactualRecord,
       bool_decide (cf_outcome x.2 = CounterfactualOutcome.WINNER_CHANGED) &&
       bool_decide (cf_removed_fact_ids x.2 = ["fact_audit"])) x E H.
  apply bind_Ok in E as (e & _ & E). apply bind_Ok in E as (r & E & Ex). injection Ex as <-.
  apply andb_true_iff in H as [H1%bool_decide_eq_true H2%bool_decide_eq_true]. cbn [snd] in H1, H2.
  exists e, r. split; [exact E|split; [exact H1|split; [exact H2|]]].
  destruct (counterfactual_is_smallest ex_graph e e 2 r E) as [_ H]. rewrite H1 in H.
  destruct H as (_ & _ & _ & (alt & Hc & _) & _). exists alt. rewrite H2 in Hc. exact Hc.
Defined.
