(* ===== verification/Stackfile.v ===== *)
(** * Stackfile graphs: [stackfile/models.py]

    Nodes, edges and snapshots of a company's stack and the checks a snapshot
    passes.  The depth-first
    search for hard dependency cycles is shown to be exact, so every snapshot
    is a well-formed graph without such a cycle. *)
From S2P Require Import Prelude PyText PyNumber PyTime Enums Money Hashing DomainModels.

Local Open Scope string_scope.
Local Open Scope Z_scope.

(** ** Enumerations *)

Module NodeType.
Inductive t :=
| ORGANIZATION | BUSINESS_GOAL | JTBD | WORKFLOW | CAPABILITY | TEAM | ROLE | PERSON_REF | PRODUCT
| PRODUCT_VERSION | PRODUCT_INSTANCE | IMPLEMENTATION_PROJECT | OFFER | CONTRACT | ENTITLEMENT
| INTEGRATION | DATA_ASSET | POLICY | BUDGET | VENDOR | DECISION | OUTCOME | RISK.
#[global] Instance eq_dec : EqDecision t.
Proof. solve_decision. Defined.
Definition all : list t :=
  [ORGANIZATION; BUSINESS_GOAL; JTBD; WORKFLOW; CAPABILITY; TEAM; ROLE; PERSON_REF; PRODUCT;
   PRODUCT_VERSION; PRODUCT_INSTANCE; IMPLEMENTATION_PROJECT; OFFER; CONTRACT; ENTITLEMENT;
   INTEGRATION; DATA_ASSET; POLICY; BUDGET; VENDOR; DECISION; OUTCOME; RISK].
Definition value (x : t) : string :=
  match x with
  | ORGANIZATION => "organization" | BUSINESS_GOAL => "business_goal" | JTBD => "jtbd"
  | WORKFLOW => "workflow" | CAPABILITY => "capability" | TEAM => "team" | ROLE => "role"
  | PERSON_REF => "person_ref" | PRODUCT => "product" | PRODUCT_VERSION => "product_version"
  | PRODUCT_INSTANCE => "product_instance" | IMPLEMENTATION_PROJECT => "implementation_project"
  | OFFER => "offer" | CONTRACT => "contract" | ENTITLEMENT => "entitlement"
  | INTEGRATION => "integration" | DATA_ASSET => "data_asset" | POLICY => "policy"
  | BUDGET => "budget" | VENDOR => "vendor" | DECISION => "decision" | OUTCOME => "outcome"
  | RISK => "risk"
  end.
End NodeType.

Module EdgeType.
Inductive t :=
| FULFILLS | FULFILLED_BY | PROVIDES | REQUIRES_CAPABILITY | DEPLOYED_FOR | REQUIRES
| INTEGRATES_WITH | SENDS_DATA_TO | REPLACES | OVERLAPS_WITH | BLOCKS | CONSTRAINED_BY | OWNED_BY
| USED_BY | PAID_BY | PROVISIONED_BY | GOVERNED_BY | MEASURED_BY | RENEWED_BY.
#[global] Instance eq_dec : EqDecision t.
Proof. solve_decision. Defined.
Definition all : list t :=
  [FULFILLS; FULFILLED_BY; PROVIDES; REQUIRES_CAPABILITY; DEPLOYED_FOR; REQUIRES; INTEGRATES_WITH;
   SENDS_DATA_TO; REPLACES; OVERLAPS_WITH; BLOCKS; CONSTRAINED_BY; OWNED_BY; USED_BY; PAID_BY;
   PROVISIONED_BY; GOVERNED_BY; MEASURED_BY; RENEWED_BY].
Definition value (x : t) : string :=
  match x with
  | FULFILLS => "fulfills" | FULFILLED_BY => "fulfilled_by" | PROVIDES => "provides"
  | REQUIRES_CAPABILITY => "requires_capability" | DEPLOYED_FOR => "deployed_for"
  | REQUIRES => "requires" | INTEGRATES_WITH => "integrates_with" | SENDS_DATA_TO => "sends_data_to"
  | REPLACES => "replaces" | OVERLAPS_WITH => "overlaps_with" | BLOCKS => "blocks"
  | CONSTRAINED_BY => "constrained_by" | OWNED_BY => "owned_by" | USED_BY => "used_by"
  | PAID_BY => "paid_by" | PROVISIONED_BY => "provisioned_by" | GOVERNED_BY => "governed_by"
  | MEASURED_BY => "measured_by" | RENEWED_BY => "renewed_by"
  end.
End EdgeType.

Definition all_instance_states : list ProductInstanceState.t :=
  [ProductInstanceState.PROPOSED; ProductInstanceState.CONTRACTED; ProductInstanceState.PROVISIONED;
   ProductInstanceState.DEPLOYING; ProductInstanceState.ACTIVE; ProductInstanceState.DEGRADED;
   ProductInstanceState.RETIRING; ProductInstanceState.CANCELLED].
Definition all_risks : list StackRisk.t :=
  [StackRisk.LOW; StackRisk.MEDIUM; StackRisk.HIGH; StackRisk.CRITICAL].

(** [enum_type(value)] and [_enum(enum_type, value, field_name)] on text: a
    second attempt with the text in upper case. *)
Definition enum_lookup {A} (members : list A) (value : A → string) (text : string) : option A :=
  find (λ m, bool_decide (value m = text)) members.
Definition _enum {A} (members : list A) (value : A → string) (text field_name : string) : result A :=
  match enum_lookup members value text, enum_lookup members value (upper text) with
  | Some m, _ | None, Some m => Ok m
  | None, None => Raise (DomainValidationError ("unsupported " ++ field_name ++ ": " ++ text))
  end.

(** ** Values *)

Record StackNode := mkStackNode {
  node_id : string;
  alias : string;
  node_type : NodeType.t;
  attributes : PyVal;
  product_instance_state : option ProductInstanceState.t
}.

(** [StackNode.__post_init__] on the record of its arguments. *)
Definition StackNode_check (n : StackNode) : result StackNode :=
  _ ← require_id (node_id n) "node_id";
  _ ← require_id (alias n) "alias";
  _ ← (if bool_decide (node_type n = NodeType.PRODUCT_INSTANCE)
       then raise_if (is_none (product_instance_state n))
              (DomainValidationError "product_instance nodes require lifecycle state")
       else raise_if (negb (is_none (product_instance_state n)))
              (DomainValidationError "only product_instance nodes have lifecycle state"));
  Ok (mkStackNode (node_id n) (alias n) (node_type n) (deep_freeze (attributes n))
        (product_instance_state n)).

Definition node_payload (n : StackNode) : PyVal :=
  dict [("node_id", VStr (node_id n)); ("alias", VStr (alias n));
        ("node_type", VStr (NodeType.value (node_type n))); ("attributes", attributes n);
        ("product_instance_state",
          vopt (λ s, VStr (ProductInstanceState.value s)) (product_instance_state n))].

Record StackEdge := mkStackEdge {
  edge_id : string;
  from_node_id : string;
  to_node_id : string;
  edge_type : EdgeType.t;
  criticality : StackRisk.t;
  hard : bool;
  evidence_ref : option string;
  confidence : string
}.

Definition StackEdge_check (e : StackEdge) : result StackEdge :=
  _ ← require_id (edge_id e) "edge_id";
  _ ← require_id (from_node_id e) "from_node_id";
  _ ← require_id (to_node_id e) "to_node_id";
  _ ← raise_if (bool_decide (from_node_id e = to_node_id e))
        (DomainValidationError "Stackfile self-edges are prohibited");
  _ ← raise_if (negb (py_in (confidence e) ["confirmed"; "measured"; "observed"; "inferred"; "unknown"]))
        (DomainValidationError "unsupported Stackfile edge confidence");
  Ok e.

Definition edge_payload (e : StackEdge) : PyVal :=
  dict [("edge_id", VStr (edge_id e)); ("from_node_id", VStr (from_node_id e));
        ("to_node_id", VStr (to_node_id e)); ("edge_type", VStr (EdgeType.value (edge_type e)));
        ("criticality", VStr (StackRisk.value (criticality e))); ("hard", VBool (hard e));
        ("evidence_ref", vopt VStr (evidence_ref e)); ("confidence", VStr (confidence e))].

(** ** Hard dependency cycles *)

Definition is_hard_dependency (e : StackEdge) : bool :=
  hard e && py_in (edge_type e) [EdgeType.REQUIRES; EdgeType.REQUIRES_CAPABILITY].

(** [graph[node_id]]: the targets in edge order, for a node of the graph. *)
Definition hard_targets (nodes : list string) (edges : list StackEdge) (id : string)
  : result (list string) :=
  if py_in id nodes
  then Ok (to_node_id <$> List.filter (λ e, is_hard_dependency e && bool_decide (from_node_id e = id)) edges)
  else Raise (KeyError id).

(** The two sets the nested [visit] shares. *)
Record search := mkSearch { s_visiting : list string; s_visited : list string }.

Definition cycle_error : exn := DomainValidationError "hard directed dependency cycle detected".

(** [fuel] bounds the depth of the recursion. *)
Fixpoint visit_hard (fuel : nat) (nodes : list string) (edges : list StackEdge) (id : string) (st : search)
  : result search :=
  if py_in id (s_visiting st) then Raise cycle_error
  else if py_in id (s_visited st) then Ok st
  else match fuel with
       | O => Raise RecursionError
       | S fuel =>
           targets ← hard_targets nodes edges id;
           st' ← foldM (λ st dependency_id, visit_hard fuel nodes edges dependency_id st)
                   (mkSearch (id :: s_visiting st) (s_visited st)) targets;
           Ok (mkSearch (List.filter (λ v, negb (bool_decide (v = id))) (s_visiting st'))
                 (id :: s_visited st'))
       end.

Definition _validate_no_hard_dependency_cycle (nodes : list StackNode) (edges : list StackEdge)
  : result unit :=
  let ids := node_id <$> nodes in
  (* graph[edge.from_node_id].append(...) *)
  _ ← mapM (λ e, hard_targets ids edges (from_node_id e)) (List.filter is_hard_dependency edges);
  _ ← foldM (λ st id, visit_hard (length ids) ids edges id st) (mkSearch [] []) (sorted_set ids);
  Ok ().

(** ** Graph checks *)

(** A product instance that is not active. *)
Definition inactive_instance (n : StackNode) : bool :=
  bool_decide (node_type n = NodeType.PRODUCT_INSTANCE) &&
  negb (bool_decide (product_instance_state n = Some ProductInstanceState.ACTIVE)).

Definition node_by_id (nodes : list StackNode) (id : string) : option StackNode :=
  dict_get id ((λ n, (node_id n, n)) <$> nodes).

(** [node_by_id[id]] fulfils a job only when it is active. *)
Definition require_active (nodes : list StackNode) (id : string) : result unit :=
  match node_by_id nodes id with
  | None => Raise (KeyError id)
  | Some n => raise_if (inactive_instance n)
                (DomainValidationError "only active product instances can fulfill a JTBD")
  end.

Definition validate_edge (nodes : list StackNode) (e : StackEdge) : result unit :=
  _ ← raise_if (is_none (node_by_id nodes (from_node_id e)) || is_none (node_by_id nodes (to_node_id e)))
        (DomainValidationError "Stackfile edges must reference nodes in the same snapshot");
  _ ← (if bool_decide (edge_type e = EdgeType.FULFILLS) then require_active nodes (from_node_id e) else Ok ());
  if bool_decide (edge_type e = EdgeType.FULFILLED_BY) then require_active nodes (to_node_id e) else Ok ().

Definition _validate_graph (nodes : list StackNode) (edges : list StackEdge) : result unit :=
  _ ← raise_if (negb (all_distinct (node_id <$> nodes)))
        (DomainValidationError "Stackfile node IDs must be unique");
  _ ← raise_if (negb (all_distinct (alias <$> nodes)))
        (DomainValidationError "Stackfile aliases must be unique per snapshot");
  _ ← raise_if (negb (all_distinct (edge_id <$> edges)))
        (DomainValidationError "Stackfile edge IDs must be unique");
  _ ← mapM (validate_edge nodes) edges;
  _validate_no_hard_dependency_cycle nodes edges.

(** ** Snapshots *)

Record StackSnapshot := mkStackSnapshot {
  ss_schema_version : string;
  ss_organization_id : string;
  ss_version : Z;
  ss_nodes : list StackNode;
  ss_edges : list StackEdge;
  ss_content_hash : string
}.

Definition snapshot_payload (s : StackSnapshot) : PyVal :=
  dict [("schema_version", VStr (ss_schema_version s)); ("organization_id", VStr (ss_organization_id s));
        ("version", VInt (ss_version s)); ("nodes", VList (node_payload <$> ss_nodes s));
        ("edges", VList (edge_payload <$> ss_edges s))].

Section snapshots.
Context `{Rfc8785}.

(** [StackSnapshot.__post_init__] on the record of its arguments. *)
Definition StackSnapshot_check (s : StackSnapshot) : result StackSnapshot :=
  _ ← raise_if (is_empty (ss_schema_version s)) (DomainValidationError "Stackfile schema_version is required");
  _ ← require_id (ss_organization_id s) "organization_id";
  _ ← raise_if (ss_version s <? 1) (DomainValidationError "Stackfile snapshot version must be positive");
  let nodes := sorted_by node_id (ss_nodes s) in
  let edges := sorted_by edge_id (ss_edges s) in
  _ ← _validate_graph nodes edges;
  let s' hash := mkStackSnapshot (ss_schema_version s) (ss_organization_id s) (ss_version s) nodes edges hash in
  hash ← bind_hash (snapshot_payload (s' "")) (ss_content_hash s) "content_hash"
           "Stackfile content_hash does not match snapshot";
  Ok (s' hash).

(** [snapshot.node(node_id)] *)
Definition snapshot_node (s : StackSnapshot) (id : string) : result StackNode :=
  match find (λ n, bool_decide (node_id n = id)) (ss_nodes s) with
  | Some n => Ok n
  | None => Raise (KeyError id)
  end.
End snapshots.

(** ** The cycle search is exact *)

Section cycles.
Context (ids : list string) (edges : list StackEdge).

(** A hard dependency from one node to another. *)
Definition hard_edge (x y : string) : Prop :=
  ∃ e, e ∈ edges ∧ is_hard_dependency e = true ∧ from_node_id e = x ∧ to_node_id e = y.

Definition endpoints_known : Prop := ∀ e, e ∈ edges → from_node_id e ∈ ids ∧ to_node_id e ∈ ids.

Lemma hard_targets_Ok x : x ∈ ids →
  ∃ ys, hard_targets ids edges x = Ok ys ∧ ∀ y, y ∈ ys ↔ hard_edge x y.
Proof.
  intros Hx. unfold hard_targets. rewrite (proj2 (py_in_true x ids) Hx). eexists. split; [done|].
  intros y. rewrite list_elem_of_fmap. setoid_rewrite elem_of_lfilter. setoid_rewrite andb_true_iff.
  setoid_rewrite bool_decide_eq_true. unfold hard_edge. naive_solver.
Qed.

(** What is finished is closed under dependencies and lies on no cycle. *)
Definition finished_ok (st : search) : Prop :=
  ∀ x, x ∈ s_visited st → (∀ y, hard_edge x y → y ∈ s_visited st) ∧ ¬ tc hard_edge x x.

Lemma finished_closed st x y : finished_ok st → x ∈ s_visited st → tc hard_edge x y → y ∈ s_visited st.
Proof.
  intros Hst Hx Hxy. induction Hxy as [x y Hxy|x y z Hxy _ IH]; [by apply (Hst x)|].
  apply IH. by apply (Hst x).
Qed.

(** A state of the search when [id] is to be visited: the open nodes are
    distinct, unfinished and all lead to it. *)
Record ready (fuel : nat) (id : string) (st : search) : Prop := {
  rd_id : id ∈ ids;
  rd_open : NoDup (s_visiting st);
  rd_known : s_visiting st ⊆ ids;
  rd_fuel : (length ids ≤ fuel + length (s_visiting st))%nat;
  rd_disjoint x : x ∈ s_visiting st → x ∉ s_visited st;
  rd_leads x : x ∈ s_visiting st → tc hard_edge x id;
  rd_finished : finished_ok st
}.

(** The two outcomes of a visit. *)
Definition visit_outcome (id : string) (st : search) (r : result search) : Prop :=
  match r with
  | Ok st' => s_visiting st' = s_visiting st ∧ s_visited st ⊆ s_visited st' ∧ id ∈ s_visited st' ∧
              finished_ok st' ∧ ∀ x, x ∈ s_visiting st → x ∉ s_visited st'
  | Raise e => e = cycle_error ∧ ∃ x, tc hard_edge x x
  end.

Lemma remove_open (id : string) l :
  id ∉ l → List.filter (λ v, negb (bool_decide (v = id))) (id :: l) = l.
Proof.
  intros Hid. cbn. rewrite bool_decide_eq_true_2 by done. cbn.
  induction l as [|v l IH]; [done|]. cbn. rewrite bool_decide_eq_false_2 by set_solver.
  cbn. rewrite IH by set_solver. done.
Qed.

(** Visiting the targets of an open node, one after the other. *)
Lemma visit_targets fuel id st0 ys st :
  (∀ y s, ready fuel y s → visit_outcome y s (visit_hard fuel ids edges y s)) →
  (∀ y s, y ∈ ys → s_visiting s = id :: s_visiting st0 → finished_ok s →
     (∀ x, x ∈ s_visiting s → x ∉ s_visited s) → ready fuel y s) →
  s_visiting st = id :: s_visiting st0 → finished_ok st → (∀ x, x ∈ s_visiting st → x ∉ s_visited st) →
  match foldM (λ st y, visit_hard fuel ids edges y st) st ys with
  | Ok st' => s_visiting st' = id :: s_visiting st0 ∧ s_visited st ⊆ s_visited st' ∧
              ys ⊆ s_visited st' ∧ finished_ok st' ∧ ∀ x, x ∈ s_visiting st' → x ∉ s_visited st'
  | Raise e => e = cycle_error ∧ ∃ x, tc hard_edge x x
  end.
Proof.
  intros Hvisit. revert st. induction ys as [|y ys IH]; intros st Hready Hv Hf Hd; cbn [foldM].
  { split_and!; try done. apply list_subseteq_nil. }
  pose proof (Hvisit y st (Hready y st (list_elem_of_here _ _) Hv Hf Hd)) as Hy.
  destruct (visit_hard fuel ids edges y st) as [st1|e]; [|done]. cbn [mbind result_bind].
  destruct Hy as (E1 & Hsub & Hin & Hf1 & Hd1).
  specialize (IH st1). rewrite E1 in IH. specialize (IH ltac:(intros; apply Hready; set_solver) Hv Hf1 Hd1).
  destruct (foldM _ st1 ys) as [st2|e]; [|done]. destruct IH as (E2 & Hsub2 & Hys & Hf2 & Hd2).
  split_and!; [done|set_solver| |done|done]. intros x [->|Hx]%elem_of_cons; [by apply Hsub2|by apply Hys].
Qed.

Lemma visit_hard_spec fuel id st :
  endpoints_known → ready fuel id st → visit_outcome id st (visit_hard fuel ids edges id st).
Proof.
  intros Hends. revert id st. induction fuel as [|fuel IH]; intros id st [Hid Hnd Hsub Hfuel Hdis Hlead Hfin];
    cbn [visit_hard]; (destruct (py_in id (s_visiting st)) eqn:V;
      [apply py_in_true in V; split; [done|eauto]|]); apply py_in_false in V;
    (destruct (py_in id (s_visited st)) eqn:W; [apply py_in_true in W; by split_and!|]);
    apply py_in_false in W;
    (assert (NoDup (id :: s_visiting st)) as Hnd' by by apply NoDup_cons);
    (assert (id :: s_visiting st ⊆ ids) as Hsub' by (intros x [->|Hx]%elem_of_cons; auto)).
  { pose proof (submseteq_length _ _ (NoDup_submseteq _ _ Hnd' Hsub')) as Hle. cbn in Hle. lia. }
  destruct (hard_targets_Ok id Hid) as (ys & -> & Hys). cbn [mbind result_bind].
  pose proof (visit_targets fuel id st ys (mkSearch (id :: s_visiting st) (s_visited st)) IH) as Hall.
  cbn [s_visiting s_visited] in Hall.
  destruct (foldM _ _ ys) as [st'|e].
  - destruct Hall as (E & Hvis & Hdone & Hfin' & Hdis'); [|done|done|set_solver|].
    { intros y s Hy%Hys Es Hf Hd. split; try done; rewrite ?Es; try done; cbn; try lia.
      - destruct Hy as (e & He & _ & _ & <-). by apply Hends.
      - intros x [->|Hx]%elem_of_cons; [by apply tc_once|]. eapply tc_r; [by apply Hlead|done]. }
    cbn [mbind result_bind visit_outcome s_visiting s_visited]. rewrite E, remove_open by done. rewrite E in Hdis'.
    assert (id ∉ s_visited st') as Hnot by (apply Hdis'; set_solver).
    split_and!; [done|set_solver|set_solver| |].
    + intros x Hx. destruct (decide (x = id)) as [->|Hne].
      * split; [intros y Hy%Hys; right; by apply Hdone|]. intros Hcyc. apply Hnot.
        assert (∃ y, hard_edge id y ∧ (y = id ∨ tc hard_edge y id)) as (y & Hy & Hyid)
          by (inversion Hcyc; subst; eauto).
        apply Hys, Hdone in Hy. destruct Hyid as [->|Hyid]; [done|]. by eapply finished_closed.
      * apply elem_of_cons in Hx as [?|Hx]; [done|]. destruct (Hfin' x Hx) as [Hc Hn].
        split; [|done]. intros y Hy. right. by apply Hc.
    + intros x Hx [->|Hin]%elem_of_cons; [done|]. apply (Hdis' x); [set_solver|done].
  - apply Hall; [|done|done|set_solver].
    intros y s Hy%Hys Es Hf Hd. split; try done; rewrite ?Es; try done; cbn; try lia.
    + destruct Hy as (e' & He & _ & _ & <-). by apply Hends.
    + intros x [->|Hx]%elem_of_cons; [by apply tc_once|]. eapply tc_r; [by apply Hlead|done].
Qed.

(** Visiting every node from an empty stack. *)
Lemma visit_all l st :
  endpoints_known → l ⊆ ids → s_visiting st = [] → finished_ok st →
  match foldM (λ st id, visit_hard (length ids) ids edges id st) st l with
  | Ok st' => l ⊆ s_visited st' ∧ s_visited st ⊆ s_visited st' ∧ finished_ok st'
  | Raise e => e = cycle_error ∧ ∃ x, tc hard_edge x x
  end.
Proof.
  intros Hends. revert st. induction l as [|id l IH]; intros st Hl Hv Hf; cbn [foldM].
  { split_and!; [apply list_subseteq_nil|done|done]. }
  pose proof (visit_hard_spec (length ids) id st Hends) as Hid.
  destruct (visit_hard (length ids) ids edges id st) as [st1|e]; cbn [mbind result_bind].
  - destruct Hid as (E1 & Hsub & Hin & Hf1 & _).
    { split; rewrite ?Hv; try done; [set_solver|constructor|apply list_subseteq_nil|cbn; lia|set_solver|set_solver]. }
    specialize (IH st1 ltac:(set_solver) ltac:(congruence) Hf1).
    destruct (foldM _ st1 l) as [st2|e]; [|done]. destruct IH as (H1 & H2 & H3).
    split_and!; [intros x [->|Hx]%elem_of_cons; auto|set_solver|done].
  - apply Hid. split; rewrite ?Hv; try done; [set_solver|constructor|apply list_subseteq_nil|cbn; lia|set_solver|set_solver].
Qed.
End cycles.

Lemma no_hard_cycle_spec nodes edges :
  endpoints_known (node_id <$> nodes) edges →
  match _validate_no_hard_dependency_cycle nodes edges with
  | Ok _ => ∀ x, ¬ tc (hard_edge edges) x x
  | Raise e => e = cycle_error ∧ ∃ x, tc (hard_edge edges) x x
  end.
Proof.
  intros Hends. unfold _validate_no_hard_dependency_cycle. set (ids := node_id <$> nodes) in *.
  assert (∃ k, mapM (λ e, hard_targets ids edges (from_node_id e)) (List.filter is_hard_dependency edges) = Ok k)
    as [k ->].
  { assert (∀ e, e ∈ List.filter is_hard_dependency edges → from_node_id e ∈ ids) as Hf
      by (intros e [He _]%elem_of_lfilter; by apply Hends).
    induction (List.filter is_hard_dependency edges) as [|e l IH]; [by eexists|]. cbn [mapM].
    destruct (hard_targets_Ok ids edges (from_node_id e)) as (ys & -> & _); [apply Hf; set_solver|].
    cbn [mbind result_bind]. destruct IH as [k ->]; [set_solver|]. by eexists. }
  cbn [mbind result_bind].
  pose proof (visit_all ids edges (sorted_set ids) (mkSearch [] []) Hends) as Hall.
  destruct (foldM _ _ _) as [st|e]; cbn [mbind result_bind].
  - destruct Hall as (Hvis & _ & Hf); [intros x; by rewrite elem_of_sorted_set|done|set_solver|].
    intros x Hx. assert (x ∈ ids) as Hin.
    { inversion Hx; subst; [match goal with Hxy : hard_edge _ _ _ |- _ => destruct Hxy as (e & He & _ & <- & _) end; by apply Hends|].
      match goal with Hxy : hard_edge _ x _ |- _ => destruct Hxy as (e & He & _ & <- & _) end. by apply Hends. }
    apply (Hf x); [|done]. apply Hvis. by rewrite elem_of_sorted_set.
  - apply Hall; [intros x; by rewrite elem_of_sorted_set|done|set_solver].
Qed.

(** ** Well-formed graphs *)

(** [id] is not a product instance that is not active. *)
Definition active_or_other (nodes : list StackNode) (id : string) : Prop :=
  ∀ n, n ∈ nodes → node_id n = id → node_type n = NodeType.PRODUCT_INSTANCE →
    product_instance_state n = Some ProductInstanceState.ACTIVE.

Record graph_wf (nodes : list StackNode) (edges : list StackEdge) : Prop := {
  gw_ids : NoDup (node_id <$> nodes);
  gw_aliases : NoDup (alias <$> nodes);
  gw_edges : NoDup (edge_id <$> edges);
  gw_ends : endpoints_known (node_id <$> nodes) edges;
  gw_fulfills e : e ∈ edges → edge_type e = EdgeType.FULFILLS → active_or_other nodes (from_node_id e);
  gw_fulfilled e : e ∈ edges → edge_type e = EdgeType.FULFILLED_BY → active_or_other nodes (to_node_id e);
  gw_acyclic x : ¬ tc (hard_edge edges) x x
}.

Lemma node_by_id_Some nodes id n :
  NoDup (node_id <$> nodes) → node_by_id nodes id = Some n ↔ n ∈ nodes ∧ node_id n = id.
Proof.
  intros Hnd. unfold node_by_id. split.
  - intros (m & [= -> ->] & Hm)%dict_get_Some%list_elem_of_fmap. done.
  - intros [Hn <-]. apply dict_get_NoDup; [|by apply list_elem_of_fmap; exists n].
    by rewrite <- list_fmap_compose.
Qed.

Lemma node_by_id_None nodes id : is_none (node_by_id nodes id) = false ↔ id ∈ node_id <$> nodes.
Proof.
  unfold node_by_id. pose proof (dict_get_None id ((λ n, (node_id n, n)) <$> nodes)) as H.
  rewrite <- list_fmap_compose in H. cbn in H. change (fst ∘ (λ n, (node_id n, n))) with node_id in H.
  destruct (dict_get _ _); cbn; [|naive_solver]. split; [|done]. intros _.
  destruct (decide (id ∈ node_id <$> nodes)) as [?|Hn]; [done|]. apply H in Hn. done.
Qed.

Lemma require_active_Ok nodes id u :
  NoDup (node_id <$> nodes) → id ∈ node_id <$> nodes →
  require_active nodes id = Ok u ↔ active_or_other nodes id.
Proof.
  intros Hnd (n & -> & Hn)%list_elem_of_fmap. unfold require_active.
  rewrite (proj2 (node_by_id_Some nodes (node_id n) n Hnd)) by done. rewrite raise_if_Ok.
  unfold inactive_instance. rewrite andb_false_iff, negb_false_iff, bool_decide_eq_false, bool_decide_eq_true.
  split.
  - intros Hor m Hm E Ht. assert (m = n) as -> by by apply (NoDup_fmap_inj node_id nodes).
    destruct Hor; [done|done].
  - intros Hact. destruct (decide (node_type n = NodeType.PRODUCT_INSTANCE)) as [Ht|]; [|by left].
    right. by apply (Hact n).
Qed.

Lemma validate_edge_Ok nodes e u :
  NoDup (node_id <$> nodes) →
  validate_edge nodes e = Ok u ↔
  (from_node_id e ∈ node_id <$> nodes ∧ to_node_id e ∈ node_id <$> nodes) ∧
  (edge_type e = EdgeType.FULFILLS → active_or_other nodes (from_node_id e)) ∧
  (edge_type e = EdgeType.FULFILLED_BY → active_or_other nodes (to_node_id e)).
Proof.
  intros Hnd. unfold validate_edge. split.
  - intros (? & [Hf%node_by_id_None Ht%node_by_id_None]%raise_if_Ok%orb_false_iff & E)%bind_Ok.
    apply bind_Ok in E as ([] & H1 & H2). split; [done|]. split; intros Et.
    + rewrite bool_decide_eq_true_2 in H1 by done. by apply (require_active_Ok _ _ _ Hnd Hf) in H1.
    + rewrite bool_decide_eq_true_2 in H2 by done. by apply (require_active_Ok _ _ _ Hnd Ht) in H2.
  - intros ([Hf Ht] & H1 & H2). rewrite (proj2 (node_by_id_None _ _) Hf), (proj2 (node_by_id_None _ _) Ht).
    cbn [orb raise_if mbind result_bind]. destruct u.
    assert ((if bool_decide (edge_type e = EdgeType.FULFILLS) then require_active nodes (from_node_id e) else Ok ())
      = Ok ()) as -> by (case_bool_decide; [|done]; apply require_active_Ok; auto).
    cbn [mbind result_bind]. case_bool_decide; [|done]. apply require_active_Ok; auto.
Qed.

Lemma mapM_unit_Ok {A} (f : A → result unit) l :
  (∃ k, mapM f l = Ok k) ↔ ∀ x, x ∈ l → f x = Ok ().
Proof.
  split.
  - intros [k Hk] x Hx. apply mapM_Ok in Hk. apply list_elem_of_lookup in Hx as [i Hi].
    by destruct (Forall2_lookup_l _ _ _ _ _ Hk Hi) as ([] & _ & E).
  - intros Hall. exists ((λ _, ()) <$> l). apply mapM_Ok. induction l as [|x l IH]; [constructor|].
    cbn. constructor; [apply Hall; set_solver|apply IH; set_solver].
Qed.

(** A graph passes the checks exactly when it is well-formed. *)
Lemma validate_graph_Ok nodes edges :
  _validate_graph nodes edges = Ok () ↔ graph_wf nodes edges.
Proof.
  unfold _validate_graph. split.
  - intros (? & Hi%raise_if_Ok%negb_false_iff%all_distinct_NoDup & E)%bind_Ok.
    apply bind_Ok in E as (? & Ha%raise_if_Ok%negb_false_iff%all_distinct_NoDup & E).
    apply bind_Ok in E as (? & He%raise_if_Ok%negb_false_iff%all_distinct_NoDup & E).
    apply bind_Ok in E as (k & Hk & E).
    pose proof (proj1 (mapM_unit_Ok _ edges) (ex_intro _ k Hk)) as Hv.
    assert (∀ e, e ∈ edges → _) as Hv' by (intros e Hin; exact (proj1 (validate_edge_Ok nodes e () Hi) (Hv e Hin))).
    assert (endpoints_known (node_id <$> nodes) edges) as Hends by (intros e Hin; apply (Hv' e Hin)).
    pose proof (no_hard_cycle_spec nodes edges Hends) as Hc. rewrite E in Hc.
    split; try done; intros e Hin Et; by apply (Hv' e Hin).
  - intros [Hi Ha He Hends Hf Ht Hacyc].
    rewrite !(proj2 (all_distinct_NoDup _)) by done. cbn [negb raise_if mbind result_bind].
    destruct (proj2 (mapM_unit_Ok (validate_edge nodes) edges)) as [k ->].
    { intros e Hin. apply validate_edge_Ok; [done|]. split_and!; [apply Hends, Hin..|by apply Hf|by apply Ht]. }
    cbn [mbind result_bind]. pose proof (no_hard_cycle_spec nodes edges Hends) as Hc.
    destruct (_validate_no_hard_dependency_cycle _ _) as [[]|e]; [done|]. destruct Hc as [_ [x Hx]].
    by destruct (Hacyc x).
Qed.

(** C27: the search for hard dependency cycles is exact: on edges between known
    nodes it always finishes, passes exactly the graphs without a cycle of hard
    dependencies, and otherwise raises the cycle error. *)
Theorem hard_cycle_check_exact (nodes : list StackNode) (edges : list StackEdge) :
  endpoints_known (node_id <$> nodes) edges →
  match _validate_no_hard_dependency_cycle nodes edges with
  | Ok _ => ∀ x, ¬ tc (hard_edge edges) x x
  | Raise e => e = cycle_error ∧ ∃ x, tc (hard_edge edges) x x
  end.
Proof. apply no_hard_cycle_spec. Qed.

(** C28: the graph checks accept exactly the well-formed graphs: unique
    identifiers and aliases, edges between nodes of the graph, jobs fulfilled
    only by active product instances and no cycle of hard dependencies. *)
Theorem validate_graph_exact (nodes : list StackNode) (edges : list StackEdge) :
  _validate_graph nodes edges = Ok () ↔ graph_wf nodes edges.
Proof. apply validate_graph_Ok. Qed.

(** ** Snapshots *)

Section snapshot_facts.
Context `{Rfc8785}.

(** What a constructed snapshot is. *)
Record snapshot_wf (s : StackSnapshot) : Prop := {
  sw_graph : graph_wf (ss_nodes s) (ss_edges s);
  sw_version : 1 <= ss_version s;
  sw_schema : ss_schema_version s ≠ "";
  sw_organization : is_id (ss_organization_id s) = true;
  sw_node_order : sorted_by node_id (ss_nodes s) = ss_nodes s;
  sw_edge_order : sorted_by edge_id (ss_edges s) = ss_edges s;
  sw_hash : content_hash (snapshot_payload s) = Ok (ss_content_hash s)
}.

Lemma snapshot_check_Ok s s' :
  StackSnapshot_check s = Ok s' →
  snapshot_wf s' ∧ ss_version s' = ss_version s ∧ ss_organization_id s' = ss_organization_id s ∧
  ss_schema_version s' = ss_schema_version s ∧ ss_nodes s' ≡ₚ ss_nodes s ∧ ss_edges s' ≡ₚ ss_edges s ∧
  (ss_content_hash s = "" ∨ ss_content_hash s = ss_content_hash s').
Proof.
  unfold StackSnapshot_check.
  intros (? & Hs%raise_if_Ok & E)%bind_Ok. apply bind_Ok in E as (? & Ho%require_id_Ok & E).
  apply bind_Ok in E as (? & Hv%raise_if_Ok%Z.ltb_ge & E). apply bind_Ok in E as ([] & Hg%validate_graph_Ok & E).
  apply bind_Ok in E as (h & [Hh Hgiven]%bind_hash_Ok & [= <-]). cbn.
  unfold is_empty in Hs. apply bool_decide_eq_false in Hs.
  split_and!; try done; [|by rewrite sorted_by_perm|by rewrite sorted_by_perm|naive_solver].
  split; cbn; try done.
  - apply (sorted_by_id node_id), (sorted_by_sorted node_id).
  - apply (sorted_by_id edge_id), (sorted_by_sorted edge_id).
Qed.
End snapshot_facts.
