(* ===== verification/StackPatch.v ===== *)
(** * Stackfile patches: [stackfile/patches.py]

    Operations, patches bound to a base snapshot, the simulation of a patch,
    and the status machine of a patch.  A valid patch is shown to give the next
    well-formed snapshot, to keep the history of every product instance, and to
    activate nothing without a validated deployment; an applied patch was
    approved with the same content. *)
From S2P Require Import Prelude PyText PyNumber PyTime Enums Money Hashing DomainModels Stackfile.

Local Open Scope string_scope.
Local Open Scope Z_scope.

(** ** Operations *)

Inductive PatchOperation :=
| AddNode (operation_id : string) (node : StackNode)
| AddEdge (operation_id : string) (edge : StackEdge)
| TransitionProductInstance (operation_id node_id : string)
    (from_state to_state : ProductInstanceState.t) (deployment_validated : bool)
| RemoveEdge (operation_id edge_id : string)
| RemoveNode (operation_id node_id : string).

Definition operation_id (o : PatchOperation) : string :=
  match o with
  | AddNode i _ | AddEdge i _ | TransitionProductInstance i _ _ _ _ | RemoveEdge i _ | RemoveNode i _ => i
  end.

(** The [__post_init__] of each class. *)
Definition PatchOperation_check (o : PatchOperation) : result PatchOperation :=
  _ ← require_id (operation_id o) "operation_id";
  _ ← match o with
      | AddNode _ n =>
          raise_if (bool_decide (node_type n = NodeType.PRODUCT_INSTANCE) &&
                    bool_decide (product_instance_state n = Some ProductInstanceState.ACTIVE))
            (DomainValidationError "a purchased product must be staged before deployment activation")
      | AddEdge _ _ => Ok ()
      | TransitionProductInstance _ n _ _ _ | RemoveNode _ n => require_id n "node_id"
      | RemoveEdge _ e => require_id e "edge_id"
      end;
  Ok o.

Definition state_payload (s : ProductInstanceState.t) : PyVal := VStr (ProductInstanceState.value s).

Definition operation_payload (o : PatchOperation) : PyVal :=
  match o with
  | AddNode i n => dict [("kind", VStr "ADD_NODE"); ("operation_id", VStr i); ("node", node_payload n)]
  | AddEdge i e => dict [("kind", VStr "ADD_EDGE"); ("operation_id", VStr i); ("edge", edge_payload e)]
  | TransitionProductInstance i n f t v =>
      dict [("kind", VStr "TRANSITION_PRODUCT_INSTANCE"); ("operation_id", VStr i); ("node_id", VStr n);
            ("from_state", state_payload f); ("to_state", state_payload t);
            ("deployment_validated", VBool v)]
  | RemoveEdge i e => dict [("kind", VStr "REMOVE_EDGE"); ("operation_id", VStr i); ("edge_id", VStr e)]
  | RemoveNode i n => dict [("kind", VStr "REMOVE_NODE"); ("operation_id", VStr i); ("node_id", VStr n)]
  end.

(** ** Patches *)

Record StackPatch := mkStackPatch {
  sp_schema_version : string;
  sp_patch_id : string;
  sp_organization_id : string;
  sp_base_snapshot_version : Z;
  sp_base_snapshot_hash : string;
  sp_operations : list PatchOperation;
  sp_status : StackPatchStatus.t;
  sp_patch_hash : string
}.

Definition patch_payload (p : StackPatch) : PyVal :=
  dict [("schema_version", VStr (sp_schema_version p)); ("patch_id", VStr (sp_patch_id p));
        ("organization_id", VStr (sp_organization_id p));
        ("base_snapshot_version", VInt (sp_base_snapshot_version p));
        ("base_snapshot_hash", VStr (sp_base_snapshot_hash p));
        ("operations", VList (operation_payload <$> sp_operations p))].

Definition with_patch (p : StackPatch) (status : StackPatchStatus.t) (hash : string) : StackPatch :=
  mkStackPatch (sp_schema_version p) (sp_patch_id p) (sp_organization_id p) (sp_base_snapshot_version p)
    (sp_base_snapshot_hash p) (sp_operations p) status hash.

Record PatchIssue := mkPatchIssue {
  pi_code : string;
  pi_message : string;
  pi_operation_id : option string
}.

Record PatchValidation := mkPatchValidation {
  pv_valid : bool;
  pv_issues : list PatchIssue;
  pv_simulated_snapshot : option StackSnapshot
}.

Definition _INSTANCE_TRANSITIONS (s : ProductInstanceState.t) : list ProductInstanceState.t :=
  match s with
  | ProductInstanceState.PROPOSED => [ProductInstanceState.CONTRACTED]
  | ProductInstanceState.CONTRACTED => [ProductInstanceState.PROVISIONED; ProductInstanceState.RETIRING]
  | ProductInstanceState.PROVISIONED => [ProductInstanceState.DEPLOYING; ProductInstanceState.RETIRING]
  | ProductInstanceState.DEPLOYING =>
      [ProductInstanceState.ACTIVE; ProductInstanceState.DEGRADED; ProductInstanceState.RETIRING]
  | ProductInstanceState.ACTIVE => [ProductInstanceState.DEGRADED; ProductInstanceState.RETIRING]
  | ProductInstanceState.DEGRADED => [ProductInstanceState.ACTIVE; ProductInstanceState.RETIRING]
  | ProductInstanceState.RETIRING => [ProductInstanceState.CANCELLED]
  | ProductInstanceState.CANCELLED => []
  end.

(** ** Simulation *)

(** The two dictionaries and the issues the loop updates. *)
Record simulation := mkSimulation {
  sm_nodes : gmap string StackNode;
  sm_edges : gmap string StackEdge;
  sm_issues : list PatchIssue
}.

Definition report (st : simulation) (o : PatchOperation) (code message : string) : simulation :=
  mkSimulation (sm_nodes st) (sm_edges st)
    (sm_issues st ++ [mkPatchIssue code message (Some (operation_id o))])%list.
Definition set_nodes (st : simulation) (nodes : gmap string StackNode) : simulation :=
  mkSimulation nodes (sm_edges st) (sm_issues st).
Definition set_edges (st : simulation) (edges : gmap string StackEdge) : simulation :=
  mkSimulation (sm_nodes st) edges (sm_issues st).

Definition with_state (n : StackNode) (s : ProductInstanceState.t) : result StackNode :=
  StackNode_check (mkStackNode (node_id n) (alias n) (node_type n) (attributes n) (Some s)).

Definition values {A} (m : gmap string A) : list A := (map_to_list m).*2.

Definition apply_transition (st : simulation) (o : PatchOperation) (id : string)
    (from_state to_state : ProductInstanceState.t) (deployment_validated : bool) : result simulation :=
  match sm_nodes st !! id with
  | None => Ok (report st o "NOT_PRODUCT_INSTANCE" "Lifecycle target is absent or not a product instance")
  | Some n =>
      if negb (bool_decide (node_type n = NodeType.PRODUCT_INSTANCE))
      then Ok (report st o "NOT_PRODUCT_INSTANCE" "Lifecycle target is absent or not a product instance")
      else if negb (bool_decide (product_instance_state n = Some from_state))
      then Ok (report st o "STALE_INSTANCE_STATE" "Lifecycle from_state does not match")
      else if negb (py_in to_state (_INSTANCE_TRANSITIONS from_state))
      then Ok (report st o "INVALID_INSTANCE_TRANSITION" "Product lifecycle transition is not allowed")
      else if bool_decide (to_state = ProductInstanceState.ACTIVE) && negb deployment_validated
      then Ok (report st o "DEPLOYMENT_NOT_VALIDATED" "Activation requires deployment validation")
      else n' ← with_state n to_state; Ok (set_nodes st (<[node_id n := n']> (sm_nodes st)))
  end.

(** One iteration of the loop of [validate_patch]. *)
Definition apply_operation (st : simulation) (o : PatchOperation) : result simulation :=
  match o with
  | AddNode _ n =>
      if negb (is_none (sm_nodes st !! node_id n)) then Ok (report st o "DUPLICATE_NODE" "Node ID already exists")
      else if existsb (λ m, bool_decide (alias m = alias n)) (values (sm_nodes st))
      then Ok (report st o "DUPLICATE_ALIAS" "Node alias already exists")
      else Ok (set_nodes st (<[node_id n := n]> (sm_nodes st)))
  | AddEdge _ e =>
      if negb (is_none (sm_edges st !! edge_id e)) then Ok (report st o "DUPLICATE_EDGE" "Edge ID already exists")
      else if is_none (sm_nodes st !! from_node_id e) || is_none (sm_nodes st !! to_node_id e)
      then Ok (report st o "MISSING_ENDPOINT" "Edge endpoint is absent")
      else Ok (set_edges st (<[edge_id e := e]> (sm_edges st)))
  | TransitionProductInstance _ id f t v => apply_transition st o id f t v
  | RemoveEdge _ id =>
      if is_none (sm_edges st !! id) then Ok (report st o "MISSING_EDGE" "Cannot remove absent edge")
      else Ok (set_edges st (delete id (sm_edges st)))
  | RemoveNode _ id =>
      match sm_nodes st !! id with
      | None => Ok (report st o "MISSING_NODE" "Cannot remove absent node")
      | Some n =>
          if bool_decide (node_type n = NodeType.PRODUCT_INSTANCE)
          then Ok (report st o "INSTANCE_HISTORY_REQUIRED" "Product instances are retired/cancelled, not deleted")
          else if existsb (λ e, py_in id [from_node_id e; to_node_id e]) (values (sm_edges st))
          then Ok (report st o "DEPENDENCIES_REMAIN" "Remove related edges before removing a node")
          else Ok (set_nodes st (delete id (sm_nodes st)))
      end
  end.

(** [{item.id: item for item in items}]: a later item replaces an earlier one. *)
Definition dict_by {A} (key : A → string) (items : list A) : gmap string A :=
  foldl (λ m a, <[key a := a]> m) ∅ items.

(** [str(exc)] of a domain error. *)
Definition error_text (e : exn) : string :=
  match e with DomainValidationError m | InvalidTransitionError m => m | _ => "" end.

Definition base_issues (base : StackSnapshot) (p : StackPatch) : list PatchIssue :=
  ((if bool_decide (sp_organization_id p = ss_organization_id base) then []
    else [mkPatchIssue "TENANT_MISMATCH" "Patch organization does not match snapshot" None]) ++
   (if bool_decide (sp_base_snapshot_version p = ss_version base) &&
       bool_decide (sp_base_snapshot_hash p = ss_content_hash base) then []
    else [mkPatchIssue "STALE_BASE" "Patch base version or hash is stale" None]))%list.

Section patches.
Context `{Rfc8785}.

(** [StackPatch.__post_init__] on the record of its arguments. *)
Definition StackPatch_check (p : StackPatch) : result StackPatch :=
  _ ← require_id (sp_patch_id p) "patch_id";
  _ ← require_id (sp_organization_id p) "organization_id";
  _ ← require_hash (sp_base_snapshot_hash p) "base_snapshot_hash";
  _ ← raise_if ((sp_base_snapshot_version p <? 1) || is_empty (sp_schema_version p))
        (DomainValidationError "patch schema and positive base version are required");
  _ ← raise_if (bool_decide (sp_operations p = []))
        (DomainValidationError "a Stackfile patch requires at least one operation");
  _ ← raise_if (negb (all_distinct (operation_id <$> sp_operations p)))
        (DomainValidationError "patch operation IDs must be unique");
  hash ← bind_hash (patch_payload p) (sp_patch_hash p) "patch_hash" "patch_hash does not match patch payload";
  Ok (with_patch p (sp_status p) hash).

Definition invalid (issues : list PatchIssue) : PatchValidation := mkPatchValidation false issues None.

Definition next_snapshot (base : StackSnapshot) (st : simulation) : result StackSnapshot :=
  StackSnapshot_check (mkStackSnapshot (ss_schema_version base) (ss_organization_id base)
    (ss_version base + 1) (values (sm_nodes st)) (values (sm_edges st)) "").

Definition validate_patch (base : StackSnapshot) (p : StackPatch) : result PatchValidation :=
  match base_issues base p with
  | _ :: _ => Ok (invalid (base_issues base p))
  | [] =>
      st ← foldM apply_operation
             (mkSimulation (dict_by node_id (ss_nodes base)) (dict_by edge_id (ss_edges base)) [])
             (sp_operations p);
      match sm_issues st with
      | _ :: _ => Ok (invalid (sm_issues st))
      | [] =>
          match next_snapshot base st with
          | Ok s => Ok (mkPatchValidation true [] (Some s))
          | Raise e => if is_domain_validation_error e
                       then Ok (invalid [mkPatchIssue "GRAPH_INVALID" (error_text e) None]) else Raise e
          end
      end
  end.

Definition simulate_patch (base : StackSnapshot) (p : StackPatch) : result StackSnapshot :=
  v ← validate_patch base p;
  match pv_valid v, pv_simulated_snapshot v with
  | true, Some s => Ok s
  | _, _ => Raise (DomainValidationError ("invalid Stackfile patch: " ++
              join "; " ((λ i, pi_code i ++ ": " ++ pi_message i) <$> pv_issues v)))
  end.

(** ** The status machine *)

Definition _PATCH_TRANSITIONS (s : StackPatchStatus.t) : list StackPatchStatus.t :=
  match s with
  | StackPatchStatus.DRAFT => [StackPatchStatus.VALIDATED; StackPatchStatus.FAILED; StackPatchStatus.CONFLICT]
  | StackPatchStatus.VALIDATED => [StackPatchStatus.AWAITING_APPROVAL]
  | StackPatchStatus.AWAITING_APPROVAL => [StackPatchStatus.APPROVED; StackPatchStatus.CONFLICT]
  | StackPatchStatus.APPROVED => [StackPatchStatus.APPLYING; StackPatchStatus.CONFLICT]
  | StackPatchStatus.APPLYING => [StackPatchStatus.APPLIED; StackPatchStatus.FAILED]
  | StackPatchStatus.APPLIED => [StackPatchStatus.COMPENSATING_PATCH]
  | StackPatchStatus.CONFLICT => []
  | StackPatchStatus.FAILED => [StackPatchStatus.COMPENSATING_PATCH]
  | StackPatchStatus.COMPENSATING_PATCH => []
  end.

Definition transition_patch_status (p : StackPatch) (target : StackPatchStatus.t) : result StackPatch :=
  _ ← raise_if (negb (py_in target (_PATCH_TRANSITIONS (sp_status p))))
        (InvalidTransitionError ("Stack patch cannot transition " ++ StackPatchStatus.value (sp_status p) ++
           " -> " ++ StackPatchStatus.value target));
  StackPatch_check (with_patch p target "").

Definition apply_approved_patch (base : StackSnapshot) (p : StackPatch) : result StackSnapshot :=
  _ ← raise_if (negb (bool_decide (sp_status p = StackPatchStatus.APPROVED)))
        (InvalidTransitionError "only an approved Stackfile patch may be applied");
  simulate_patch base p.
End patches.

(** ** What the simulation keeps *)

(** One allowed lifecycle step of a product instance. *)
Definition instance_step (s t : ProductInstanceState.t) : Prop := t ∈ _INSTANCE_TRANSITIONS s.

Definition is_instance (n : StackNode) : Prop := node_type n = NodeType.PRODUCT_INSTANCE.
Definition is_active (n : StackNode) : Prop :=
  is_instance n ∧ product_instance_state n = Some ProductInstanceState.ACTIVE.

(** [n] is still there, under its identifier and alias, in a state that allowed
    steps lead to. *)
Definition keeps_instance (present : StackNode → Prop) (n : StackNode) : Prop :=
  ∀ s, product_instance_state n = Some s →
  ∃ n' s', present n' ∧ node_id n' = node_id n ∧ is_instance n' ∧ alias n' = alias n ∧
    product_instance_state n' = Some s' ∧ rtc instance_step s s'.

(** An operation of the patch activates [id] with a validated deployment. *)
Definition validated_activation (ops : list PatchOperation) (id : string) : Prop :=
  ∃ i from, TransitionProductInstance i id from ProductInstanceState.ACTIVE true ∈ ops.

Record sim_ok (base : list StackNode) (ops : list PatchOperation) (st : simulation) : Prop := {
  so_keys k n : sm_nodes st !! k = Some n → node_id n = k;
  so_history n : n ∈ base → is_instance n → keeps_instance (λ n', sm_nodes st !! node_id n = Some n') n;
  so_active n : sm_nodes st !! node_id n = Some n → is_active n →
    (∃ n0, n0 ∈ base ∧ node_id n0 = node_id n ∧ is_active n0) ∨ validated_activation ops (node_id n)
}.

Lemma dict_by_lookup {A} (key : A → string) (l : list A) k a :
  dict_by key l !! k = Some a → a ∈ l ∧ key a = k.
Proof.
  unfold dict_by. assert (∀ m : gmap string A, (∀ k a, m !! k = Some a → key a = k) →
    foldl (λ m a, <[key a := a]> m) m l !! k = Some a → (a ∈ l ∨ m !! k = Some a) ∧ key a = k) as W.
  { induction l as [|x l IH]; intros m Hm E; cbn in E; [split; [by right|by apply Hm]|].
    destruct (IH (<[key x := x]> m)) as [[Hin|Hin] Hk]; [|done|split; [set_solver|done]|].
    - intros k' a' [[<- <-]|[_ ?]]%lookup_insert_Some; auto.
    - apply lookup_insert_Some in Hin as [[_ ->]|[_ Hin]]; split; set_solver. }
  intros E. destruct (W ∅) as [[?|Hm] ?]; try done; intros; by rewrite lookup_empty in *.
Qed.

Lemma dict_by_elem {A} (key : A → string) (l : list A) a :
  NoDup (key <$> l) → a ∈ l → dict_by key l !! key a = Some a.
Proof.
  unfold dict_by. generalize (∅ : gmap string A) as m. induction l as [|x l IH]; intros m Hnd Ha; [set_solver|].
  rewrite fmap_cons in Hnd. apply NoDup_cons in Hnd as [Hx Hnd]. cbn.
  apply elem_of_cons in Ha as [->|Ha]; [|by apply IH].
  assert (∀ m : gmap string A, m !! key x = Some x →
    foldl (λ m a, <[key a := a]> m) m l !! key x = Some x) as W; [|apply W; by rewrite lookup_insert_eq].
  clear IH Hnd. induction l as [|y l IH]; intros m' Hm; [done|]. cbn. apply IH; [set_solver|].
  rewrite lookup_insert_ne; [done|]. intros E. apply Hx. rewrite <- E. set_solver.
Qed.

Lemma sim_ok_start base ops edges :
  NoDup (node_id <$> base) → sim_ok base ops (mkSimulation (dict_by node_id base) edges []).
Proof.
  intros Hnd. split; cbn.
  - by intros k n [_ E]%dict_by_lookup.
  - intros n Hn Hi s Hs. exists n, s. split_and!; try done. by apply dict_by_elem.
  - intros n E Ha. apply dict_by_lookup in E as [Hin _]. left. by exists n.
Qed.

Lemma sim_ok_report base ops st o code message : sim_ok base ops st → sim_ok base ops (report st o code message).
Proof. by intros [? ? ?]. Qed.

Lemma sim_ok_edges base ops st edges : sim_ok base ops st → sim_ok base ops (set_edges st edges).
Proof. by intros [? ? ?]. Qed.

Lemma with_state_Ok n s n' :
  with_state n s = Ok n' →
  node_id n' = node_id n ∧ alias n' = alias n ∧ node_type n' = node_type n ∧ product_instance_state n' = Some s.
Proof.
  unfold with_state, StackNode_check. intros (? & _ & E)%bind_Ok. apply bind_Ok in E as (? & _ & E).
  by apply bind_Ok in E as (? & _ & [= <-]).
Qed.

Lemma sim_ok_transition base ops st i id f t v st' :
  TransitionProductInstance i id f t v ∈ ops → sim_ok base ops st →
  apply_transition st (TransitionProductInstance i id f t v) id f t v = Ok st' → sim_ok base ops st'.
Proof.
  intros Hop Hok. unfold apply_transition. destruct (sm_nodes st !! id) as [n|] eqn:En;
    [|intros [= <-]; by apply sim_ok_report].
  destruct (bool_decide (node_type n = _)) eqn:Ht; cbn [negb]; [|intros [= <-]; by apply sim_ok_report].
  destruct (bool_decide (product_instance_state n = _)) eqn:Hs; cbn [negb]; [|intros [= <-]; by apply sim_ok_report].
  destruct (py_in t _) eqn:Hin; cbn [negb]; [|intros [= <-]; by apply sim_ok_report].
  destruct (bool_decide (t = _) && negb v) eqn:Hv; [intros [= <-]; by apply sim_ok_report|].
  apply bool_decide_eq_true in Ht, Hs. apply py_in_true in Hin.
  intros (n' & (Ei & Ea & Et & Es)%with_state_Ok & [= <-])%bind_Ok. destruct Hok as [Hkeys Hhist Hact].
  assert (node_id n = id) as Hid by by apply Hkeys. rewrite Hid. rewrite Hid in Ei. split; cbn [set_nodes sm_nodes].
  - intros k m [[<- <-]|[_ Hm]]%lookup_insert_Some; [done|by apply Hkeys].
  - intros m Hm Hi s Hms. destruct (Hhist m Hm Hi s Hms) as (m' & s' & Hl & Him & Hinst & Hal & Hst & Hr).
    destruct (decide (node_id m = id)) as [E|Hne].
    + exists n', t. rewrite E in Hl |- *. rewrite En in Hl. injection Hl as <-. rewrite lookup_insert_eq.
      split_and!; [done|congruence|by unfold is_instance; rewrite Et|congruence|done|].
      eapply rtc_r; [exact Hr|]. rewrite Hs in Hst. injection Hst as <-. done.
    + exists m', s'. by rewrite lookup_insert_ne by done.
  - intros m [[E <-]|[Hne Hm]]%lookup_insert_Some Hma.
    + right. rewrite <- E. destruct Hma as [_ Hst]. rewrite Es in Hst. injection Hst as ->.
      rewrite bool_decide_eq_true_2 in Hv by done. destruct v; [|done]. by exists i, f.
    + by apply Hact.
Qed.

Lemma sim_ok_add base ops st n :
  sim_ok base ops st → sm_nodes st !! node_id n = None → ¬ is_active n →
  sim_ok base ops (set_nodes st (<[node_id n := n]> (sm_nodes st))).
Proof.
  intros [Hkeys Hhist Hact] Hnone Hna. split; cbn.
  - intros k m [[<- <-]|[_ Hm]]%lookup_insert_Some; [done|by apply Hkeys].
  - intros m Hm Hi s Hms. destruct (Hhist m Hm Hi s Hms) as (m' & s' & Hl & Hrest).
    exists m', s'. split; [|done]. rewrite lookup_insert_ne; [done|]. intros E. congruence.
  - intros m [[E <-]|[Hne Hm]]%lookup_insert_Some Hma; [done|by apply Hact].
Qed.

Lemma sim_ok_remove base ops st id n :
  sim_ok base ops st → sm_nodes st !! id = Some n → ¬ is_instance n →
  sim_ok base ops (set_nodes st (delete id (sm_nodes st))).
Proof.
  intros [Hkeys Hhist Hact] Hn Hni. split; cbn.
  - intros k m [_ Hm]%lookup_delete_Some. by apply Hkeys.
  - intros m Hm Hi s Hms. destruct (Hhist m Hm Hi s Hms) as (m' & s' & Hl & Hid & Hinst & Hrest).
    exists m', s'. split; [|done]. rewrite lookup_delete_ne; [done|]. intros E. rewrite <- E, Hn in Hl. congruence.
  - intros m [_ Hm]%lookup_delete_Some Hma. by apply Hact.
Qed.

Lemma add_node_inactive i n : PatchOperation_check (AddNode i n) = Ok (AddNode i n) → ¬ is_active n.
Proof.
  unfold PatchOperation_check. intros (? & _ & E)%bind_Ok. apply bind_Ok in E as (? & E%raise_if_Ok & _).
  intros [Hi Hs]. unfold is_instance in Hi. by rewrite Hi, Hs in E.
Qed.

Lemma sim_ok_step base ops st o st' :
  o ∈ ops → PatchOperation_check o = Ok o → sim_ok base ops st → apply_operation st o = Ok st' →
  sim_ok base ops st'.
Proof.
  intros Hop Hc Hok. destruct o as [i n|i e|i id f t v|i id|i id]; cbn [apply_operation].
  - destruct (sm_nodes st !! node_id n) eqn:En; cbn [is_none negb]; [intros [= <-]; by apply sim_ok_report|].
    destruct (existsb _ _); intros [= <-]; [by apply sim_ok_report|].
    apply sim_ok_add; [done..|by eapply add_node_inactive].
  - destruct (negb _); [intros [= <-]; by apply sim_ok_report|].
    destruct (_ || _); intros [= <-]; [by apply sim_ok_report|by apply sim_ok_edges].
  - by apply sim_ok_transition.
  - destruct (is_none _); intros [= <-]; [by apply sim_ok_report|by apply sim_ok_edges].
  - destruct (sm_nodes st !! id) as [n|] eqn:En; [|intros [= <-]; by apply sim_ok_report].
    case_bool_decide as Ht; [intros [= <-]; by apply sim_ok_report|].
    destruct (existsb _ _); intros [= <-]; [by apply sim_ok_report|]. by eapply sim_ok_remove.
Qed.

Lemma elem_of_values {A} (m : gmap string A) a : a ∈ values m ↔ ∃ k, m !! k = Some a.
Proof.
  unfold values. rewrite list_elem_of_fmap. split.
  - intros ([k a'] & -> & Hk%elem_of_map_to_list). by exists k.
  - intros [k Hk]. exists (k, a). split; [done|]. by apply elem_of_map_to_list.
Qed.

(** ** Properties *)

Section patch_properties.
Context `{Rfc8785}.

(** What a valid patch does to its base snapshot. *)
Record patched (base : StackSnapshot) (p : StackPatch) (s : StackSnapshot) : Prop := {
  pa_wf : snapshot_wf s;
  pa_version : ss_version s = ss_version base + 1;
  pa_organization : ss_organization_id s = ss_organization_id base ∧ sp_organization_id p = ss_organization_id base;
  pa_base : sp_base_snapshot_version p = ss_version base ∧ sp_base_snapshot_hash p = ss_content_hash base;
  pa_history n : n ∈ ss_nodes base → is_instance n → keeps_instance (λ n', n' ∈ ss_nodes s) n;
  pa_active n : n ∈ ss_nodes s → is_active n →
    (∃ n0, n0 ∈ ss_nodes base ∧ node_id n0 = node_id n ∧ is_active n0) ∨
    validated_activation (sp_operations p) (node_id n)
}.

Lemma base_issues_nil base p :
  base_issues base p = [] ↔
  sp_organization_id p = ss_organization_id base ∧
  sp_base_snapshot_version p = ss_version base ∧ sp_base_snapshot_hash p = ss_content_hash base.
Proof. unfold base_issues. repeat case_bool_decide; cbn; naive_solver. Qed.

Lemma validate_patch_cases base p v :
  NoDup (node_id <$> ss_nodes base) → (∀ o, o ∈ sp_operations p → PatchOperation_check o = Ok o) →
  validate_patch base p = Ok v →
  (pv_valid v = true ∧ pv_issues v = [] ∧ ∃ s, pv_simulated_snapshot v = Some s ∧ patched base p s) ∨
  (pv_valid v = false ∧ pv_issues v ≠ [] ∧ pv_simulated_snapshot v = None).
Proof.
  intros Hnd Hops. unfold validate_patch. destruct (base_issues base p) as [|x l] eqn:Eb;
    [|intros [= <-]; right; by split_and!].
  apply base_issues_nil in Eb as (Eo & Ev & Eh).
  intros (st & Hst & E)%bind_Ok.
  assert (sim_ok (ss_nodes base) (sp_operations p) st) as Hok.
  { revert Hst. apply foldM_inv; [|by apply sim_ok_start].
    intros s o s' Ho Hs. apply sim_ok_step; auto. }
  destruct (sm_issues st) as [|x l]; [|injection E as <-; right; by split_and!].
  destruct (next_snapshot base st) as [s|e] eqn:En;
    [|destruct (is_domain_validation_error e); [|done]; injection E as <-; right; by split_and!].
  injection E as <-. left. split_and!; [done..|]. exists s. split; [done|].
  unfold next_snapshot in En. apply snapshot_check_Ok in En as (Hwf & Hv & Ho & _ & Hn & _). cbn in Hv, Ho, Hn.
  destruct Hok as [Hkeys Hhist Hact]. split; try done.
  - intros n Hin Hi s0 Hs0. destruct (Hhist n Hin Hi s0 Hs0) as (n' & s' & Hl & Hrest). exists n', s'.
    split; [|done]. rewrite Hn. apply elem_of_values. eauto.
  - intros n Hin. rewrite Hn in Hin. apply elem_of_values in Hin as [k Hk].
    pose proof (Hkeys _ _ Hk) as <-. by apply Hact.
Qed.

(** C14: a patch is validated or rejected with reasons, never both.  A valid
    patch was made for exactly this snapshot of this organisation; the
    simulated snapshot is the next version and a well-formed graph, every
    product instance of the base is still in it and moved only along allowed
    lifecycle steps, and an instance is active only if it was, or if an
    operation activated it with a validated deployment. *)
Theorem validate_patch_sound (base : StackSnapshot) (p : StackPatch) (v : PatchValidation) :
  snapshot_wf base → (∀ o, o ∈ sp_operations p → PatchOperation_check o = Ok o) →
  validate_patch base p = Ok v →
  (pv_valid v = true ∧ pv_issues v = [] ∧ ∃ s, pv_simulated_snapshot v = Some s ∧ patched base p s) ∨
  (pv_valid v = false ∧ pv_issues v ≠ [] ∧ pv_simulated_snapshot v = None).
Proof. intros [[? _ _ _ _ _ _] _ _ _ _ _ _]. by apply validate_patch_cases. Qed.

(** One status change of a patch. *)
Definition patch_step (p q : StackPatch) : Prop := ∃ target, transition_patch_status p target = Ok q.

Lemma patch_step_Ok p q :
  patch_step p q →
  sp_status q ∈ _PATCH_TRANSITIONS (sp_status p) ∧ patch_payload q = patch_payload p ∧
  content_hash (patch_payload p) = Ok (sp_patch_hash q).
Proof.
  intros [t E]. unfold transition_patch_status in E.
  apply bind_Ok in E as (? & Ht%raise_if_Ok%negb_false_iff%py_in_true & E).
  unfold StackPatch_check in E. do 6 apply bind_Ok in E as (? & _ & E).
  apply bind_Ok in E as (h & [Hh _]%bind_hash_Ok & [= <-]). done.
Qed.

Lemma patch_steps_payload p q : rtc patch_step p q → patch_payload q = patch_payload p.
Proof. induction 1 as [|p q r Hpq _ IH]; [done|]. rewrite IH. by apply patch_step_Ok. Qed.

(** C15: nothing is applied without approval.  A patch that left DRAFT and is
    being applied or applied went through APPROVED on the way, with the same
    operations and the same hash it has now. *)
Theorem applied_patch_was_approved (p0 p : StackPatch) :
  sp_status p0 = StackPatchStatus.DRAFT → rtc patch_step p0 p →
  sp_status p ∈ [StackPatchStatus.APPLYING; StackPatchStatus.APPLIED] →
  ∃ q, rtc patch_step p0 q ∧ rtc patch_step q p ∧ sp_status q = StackPatchStatus.APPROVED ∧
    patch_payload q = patch_payload p ∧ sp_patch_hash q = sp_patch_hash p.
Proof.
  intros Hdraft Hreach.
  assert ((p = p0 ∨ content_hash (patch_payload p) = Ok (sp_patch_hash p)) ∧
    (sp_status p ∈ [StackPatchStatus.APPLYING; StackPatchStatus.APPLIED] →
    ∃ q, rtc patch_step p0 q ∧ rtc patch_step q p ∧ sp_status q = StackPatchStatus.APPROVED ∧
      patch_payload q = patch_payload p ∧ sp_patch_hash q = sp_patch_hash p)) as [_ H1]; [|exact H1].
  revert p Hreach. match goal with |- ∀ p, rtc _ _ _ → @?P p => apply (rtc_ind_r P p0) end.
  { split; [by left|]. rewrite Hdraft. set_solver. }
  intros p q Hreach Hstep [Hh IH]. destruct (patch_step_Ok _ _ Hstep) as (Ht & Hpay & Hhash).
  split; [right; by rewrite Hpay|].
  assert (p ≠ p0 → sp_patch_hash p = sp_patch_hash q) as Heq by (intros ?; destruct Hh; congruence).
  intros Hq%py_in_true. apply py_in_true in Ht.
  destruct (sp_status p) eqn:Ep, (sp_status q) eqn:Eq; try discriminate Ht; try discriminate Hq.
  - exists p. assert (p ≠ p0) by congruence. split_and!; auto. by apply rtc_once.
  - destruct (IH ltac:(set_solver)) as (r & H1 & H2 & H3 & H4 & H5). exists r.
    assert (p ≠ p0) by congruence. split_and!; [done|by eapply rtc_r|done|congruence|].
    rewrite H5. by apply Heq.
Qed.
End patch_properties.
