(* ===== verification/StackScenario.v ===== *)
(** * A concrete Stackfile patch

    A deployed product instance is activated by a patch that goes through
    approval.  The theorems on Stackfile graphs and patches are applied to it. *)
From S2P Require Import Prelude PyText PyNumber PyTime Enums Money Hashing DomainModels Stackfile StackPatch.
From S2P Require Import Scenario.

Local Open Scope string_scope.
Local Open Scope Z_scope.

(** ** The snapshot *)

Definition ex_goal : StackNode := mkStackNode "goal_1" "fast-support" NodeType.JTBD (dict []) None.
Definition ex_instance (s : ProductInstanceState.t) : StackNode :=
  mkStackNode "instance_1" "helpdesk" NodeType.PRODUCT_INSTANCE (dict [("seats", VInt 5)]) (Some s).
Definition ex_edge (id from to : string) (t : EdgeType.t) : StackEdge :=
  mkStackEdge id from to t StackRisk.HIGH true None "confirmed".

Definition ex_base : result StackSnapshot :=
  StackSnapshot_check (mkStackSnapshot "1" "org_1" 3
    [ex_instance ProductInstanceState.DEPLOYING; ex_goal]
    [ex_edge "edge_1" "goal_1" "instance_1" EdgeType.REQUIRES] "").

Lemma hard_cycle_check_witness :
  endpoints_known (node_id <$> [ex_goal; ex_instance ProductInstanceState.ACTIVE])
    [ex_edge "edge_1" "goal_1" "instance_1" EdgeType.REQUIRES;
     ex_edge "edge_2" "instance_1" "goal_1" EdgeType.REQUIRES] ∧
  ∃ x, tc (hard_edge [ex_edge "edge_1" "goal_1" "instance_1" EdgeType.REQUIRES;
                      ex_edge "edge_2" "instance_1" "goal_1" EdgeType.REQUIRES]) x x.
Proof.
  set (nodes := [ex_goal; ex_instance ProductInstanceState.ACTIVE]).
  set (edges := [ex_edge "edge_1" "goal_1" "instance_1" EdgeType.REQUIRES;
                 ex_edge "edge_2" "instance_1" "goal_1" EdgeType.REQUIRES]).
  assert (endpoints_known (node_id <$> nodes) edges) as Hends.
  { intros e [->|[->|[]%not_elem_of_nil]%elem_of_cons]%elem_of_cons; split;
      apply py_in_true; vm_compute; reflexivity. }
  split; [exact Hends|].
  pose proof (hard_cycle_check_exact nodes edges Hends) as H.
  assert (is_ok (_validate_no_hard_dependency_cycle nodes edges) = false) as E by (vm_compute; reflexivity).
  destruct (_validate_no_hard_dependency_cycle nodes edges); [discriminate E|exact (proj2 H)].
Defined.

(** ** The patch *)

Definition ex_operation : PatchOperation :=
  TransitionProductInstance "op_1" "instance_1" ProductInstanceState.DEPLOYING ProductInstanceState.ACTIVE true.

Definition ex_patch : result StackPatch :=
  base ← ex_base;
  StackPatch_check (mkStackPatch "1" "patch_1" "org_1" 3 (ss_content_hash base) [ex_operation]
    StackPatchStatus.DRAFT "").

Lemma ex_base_wf : ∃ base, ex_base = Ok base ∧ snapshot_wf base.
Proof.
  compute_ok ex_base base E. exists base. split; [exact E|]. by apply snapshot_check_Ok in E as [? _].
Qed.

Lemma operation_checked o : is_ok (PatchOperation_check o) = true → PatchOperation_check o = Ok o.
Proof.
  intros (o' & E)%ok_of. rewrite E. unfold PatchOperation_check in E.
  apply bind_Ok in E as (? & _ & E). by apply bind_Ok in E as (? & _ & [= <-]).
Qed.

Lemma validate_patch_witness :
  ∃ base p v s, validate_patch base p = Ok v ∧ pv_simulated_snapshot v = Some s ∧ patched base p s.
Proof.
  destruct ex_base_wf as (base & Eb & Hwf).
  compute_test (base ← ex_base; p ← ex_patch; v ← validate_patch base p; Ok (p, v))
    (λ x : StackPatch * PatchValidation, pv_valid x.2 && forallb (λ o, is_ok (PatchOperation_check o)) (sp_operations x.1)) x E H.
  rewrite Eb in E. cbn [mbind result_bind] in E. apply bind_Ok in E as (p & _ & E).
  apply bind_Ok in E as (v & Ev & [= <-]). apply andb_true_iff in H as [Hv Hops].
  cbn [fst snd] in Hv, Hops. exists base, p, v.
  assert (∀ o, o ∈ sp_operations p → PatchOperation_check o = Ok o) as Hall.
  { intros o Ho. apply operation_checked. by apply (proj1 (forallb_Forall _ _) Hops). }
  destruct (validate_patch_sound base p v Hwf Hall Ev) as [(_ & _ & s & Es & Hs)|(Hf & _)];
    [|rewrite Hv in Hf; discriminate Hf].
  exists s. split; [exact Ev|split; [exact Es|exact Hs]].
Defined.

(** The statuses the patch goes through. *)
Definition ex_statuses : list StackPatchStatus.t :=
  [StackPatchStatus.VALIDATED; StackPatchStatus.AWAITING_APPROVAL; StackPatchStatus.APPROVED;
   StackPatchStatus.APPLYING].

Lemma steps_reach l p q : foldM transition_patch_status p l = Ok q → rtc patch_step p q.
Proof.
  revert p. induction l as [|t l IH]; intros p E; [by injection E as <-|].
  cbn [foldM] in E. apply bind_Ok in E as (r & Er & E). eapply rtc_l; [by exists t|by apply IH].
Qed.

Lemma applied_patch_witness :
  ∃ p0 p q, sp_status p = StackPatchStatus.APPLYING ∧ rtc patch_step p0 q ∧
    sp_status q = StackPatchStatus.APPROVED ∧ sp_patch_hash q = sp_patch_hash p.
Proof.
  compute_test (p0 ← ex_patch; p ← foldM transition_patch_status p0 ex_statuses; Ok (p0, p))
    (λ x : StackPatch * StackPatch, bool_decide (sp_status x.1 = StackPatchStatus.DRAFT) &&
       bool_decide (sp_status x.2 = StackPatchStatus.APPLYING)) x E H.
  apply bind_Ok in E as (p0 & _ & E). apply bind_Ok in E as (p & Ep & [= <-]).
  apply andb_true_iff in H as [H0%bool_decide_eq_true H1%bool_decide_eq_true]. cbn [fst snd] in H0, H1.
  assert (sp_status p ∈ [StackPatchStatus.APPLYING; StackPatchStatus.APPLIED]) as Hin
    by (rewrite H1; apply list_elem_of_here).
  destruct (applied_patch_was_approved p0 p H0 (steps_reach _ _ _ Ep) Hin) as (q & Hq & _ & Hs & _ & Hh).
  exists p0, p, q. split_and!; [exact H1|exact Hq|exact Hs|exact Hh].
Defined.
