(* ===== verification/DomainScenario.v ===== *)
(** * A concrete purchase

    A purchase intent is approved and its payment handoff opened.  The theorems
    on approvals and handoffs are applied to it. *)
From S2P Require Import Prelude PyText PyNumber PyTime Enums Money Hashing DomainModels StateMachines.
From S2P Require Import Scenario.

Local Open Scope string_scope.
Local Open Scope Z_scope.

(** No host in brackets is accepted. *)
#[export] Instance no_brackets : BracketedHosts := λ _, Some "Invalid IPv6 URL".

(** ** The intent and its approval *)

Definition some_hash : string :=
  "sha256:0123456789abcdef0123456789abcdef0123456789abcdef0123456789abcdef".

Definition ex_intent : result PurchaseIntent :=
  PurchaseIntent_check (mkPurchaseIntent "1.0" "intent_1" "org_1" "decision_1" some_hash "plan_1" "procurement_1"
    some_hash "pack_1" 1 "offer_1" 1 "quote_1" now (mkMerchantIdentity "merchant_1" "Acme" "https://acme.example" "DE")
    "chain_1" (mkMoney (DFinite 15 0) "USD") [dict [("sku", VStr "seat")]]
    [mkExpectedFulfillment "item_1" "line_1" "access" "seat" true 1 5 "login"] 1 some_hash
    "buyer_1" "seller_1" "billing_1" "cost_1" "contract_1" "").

Definition ex_binding (hash : string) : ApprovalBinding :=
  mkApprovalBinding "approval_1" hash ApprovalStatus.NOT_REQUESTED.

Lemma ex_intent_ok : ∃ p, ex_intent = Ok p ∧ is_hash (in_intent_hash p) = true.
Proof.
  compute_test ex_intent (λ p : PurchaseIntent, is_hash (in_intent_hash p)) p E H.
  exists p. split; [exact E|exact H].
Qed.

Definition ex_actions (hash : string) : list approval_action :=
  [Decide ApprovalStatus.PENDING; Approve hash; Reconcile hash].

Lemma ex_history hash :
  is_hash hash = true →
  approval_history (ex_binding hash) (ex_actions hash) (with_status (ex_binding hash) ApprovalStatus.APPROVED).
Proof.
  intros Hh. unfold ex_actions.
  apply (history_step _ [Decide ApprovalStatus.PENDING; Approve hash] _ (with_status (ex_binding hash) ApprovalStatus.APPROVED)).
  - apply (history_step _ [Decide ApprovalStatus.PENDING] _ (with_status (ex_binding hash) ApprovalStatus.PENDING)).
    + apply (history_step _ [] _ (ex_binding hash)); [apply history_start|]. by apply step_decide.
    + apply step_approve, approve_exact_Ok. split_and!; try done. by apply binding_check_Ok.
  - apply step_reconcile. unfold ApprovalTransitionService.reconcile_payload.
    rewrite (proj2 (require_hash_Ok _ _ ()) Hh). cbn [mbind result_bind]. by rewrite bool_decide_eq_true_2.
Qed.

Lemma approval_is_exact_witness :
  ∃ p l1 l2 b1, ex_intent = Ok p ∧
    ex_actions (in_intent_hash p) = (l1 ++ Approve (in_intent_hash p) :: l2)%list ∧
    approval_history (ex_binding (in_intent_hash p)) l1 b1 ∧ ab_status b1 = ApprovalStatus.PENDING.
Proof.
  destruct ex_intent_ok as (p & E & Hh).
  assert (ab_status (ex_binding (in_intent_hash p)) ≠ ApprovalStatus.APPROVED) as Hne by discriminate.
  destruct (approval_is_exact _ _ _ (ex_history _ Hh) Hne eq_refl) as (_ & (l1 & a & l2 & b1 & El & Hl & Hs & _ & Ha & _) & _).
  assert (Decide ApprovalStatus.APPROVED ∉ ex_actions (in_intent_hash p)) as Hno.
  { unfold ex_actions. rewrite !not_elem_of_cons. repeat split; try discriminate. apply not_elem_of_nil. }
  rewrite (Ha Hno) in El. exists p, l1, l2, b1. split_and!; [exact E|exact El|exact Hl|exact Hs].
Defined.

Lemma reconciled_binding_witness :
  ∃ b', ApprovalTransitionService.reconcile_payload
      (mkApprovalBinding "approval_1" some_hash ApprovalStatus.APPROVED)
      "sha256:ffffffffffffffffffffffffffffffffffffffffffffffffffffffffffffffff" = Ok b' ∧
    ab_status b' = ApprovalStatus.SUPERSEDED ∧ ab_intent_hash b' = some_hash.
Proof.
  set (b := mkApprovalBinding "approval_1" some_hash ApprovalStatus.APPROVED).
  set (h := "sha256:ffffffffffffffffffffffffffffffffffffffffffffffffffffffffffffffff").
  compute_test (ApprovalTransitionService.reconcile_payload b h)
    (λ b' : ApprovalBinding, bool_decide (ab_status b' = ApprovalStatus.SUPERSEDED)) b' E H.
  exists b'. apply bool_decide_eq_true in H. split_and!; [exact E|exact H|].
  exact (proj2 (proj2 (proj2 (reconciled_binding_current b b' h E)))).
Defined.

(** ** The handoff *)

Definition ex_handoff : result PaymentHandoff :=
  p ← ex_intent;
  PaymentHandoff_check (mkPaymentHandoff "1.0" "handoff_1" "org_1" "intent_1" "approval_1" (in_intent_hash p)
    "HTTPS://pay.acme.example:443/checkout?i=1" "Acme" (mkMoney (DFinite 15 0) "USD") "invoice 1" yesterday now
    PaymentHandoffStatus.READY None "").

Definition noon_before : datetime := mkDatetime 63871243200000000 (Some 0).

Lemma ex_handoff_ok : ∃ h0 h, PaymentHandoff_check h0 = Ok h ∧ ph_status h = PaymentHandoffStatus.READY ∧
  ph_expires_at h = now ∧ constructed h.
Proof.
  compute_test ex_handoff (λ h : PaymentHandoff, bool_decide (ph_status h = PaymentHandoffStatus.READY) &&
    bool_decide (ph_expires_at h = now)) h E H.
  apply bind_Ok in E as (p & _ & E). apply andb_true_iff in H as [Hs%bool_decide_eq_true He%bool_decide_eq_true].
  eexists _, h. split_and!; [exact E|exact Hs|exact He|]. by apply check_constructs in E.
Qed.

Lemma handoff_destination_witness :
  ∃ h scheme authority rest,
    cleaned_url (ph_destination_url h) = (scheme ++ chars "://" ++ authority ++ rest)%list ∧
    lower (of_chars scheme) = "https" ∧ authority ≠ [].
Proof.
  destruct ex_handoff_ok as (h0 & h & E & _).
  destruct (handoff_destination_https h0 h E) as (s & a & r & H1 & H2 & H3 & _). exists h, s, a, r.
  split_and!; [exact H1|exact H2|exact H3].
Defined.

Lemma handoff_transition_witness :
  ∃ h h', PaymentHandoffTransitionService.transition h PaymentHandoffStatus.OPENED noon_before = Ok h' ∧
    h' = moved h PaymentHandoffStatus.OPENED noon_before.
Proof.
  destruct ex_handoff_ok as (h0 & h & _ & Hs & He & Hc).
  pose proof (handoff_transition_exact h PaymentHandoffStatus.OPENED noon_before Hc) as Ht.
  destruct (PaymentHandoffTransitionService.transition h PaymentHandoffStatus.OPENED noon_before) as [h'|e] eqn:E.
  - exists h, h'. split; [exact E|exact (proj2 Ht)].
  - destruct Ht as [Hn _]. exfalso. apply Hn. split_and!; [reflexivity|exact Hs|discriminate|].
    intros _. rewrite He. reflexivity.
Defined.

Lemma handoff_lifecycle_witness :
  ∃ h0 h, ph_status h = PaymentHandoffStatus.OPENED ∧ handoff_step h0 h ∧ ∀ h', ¬ handoff_step h h'.
Proof.
  destruct ex_handoff_ok as (_ & h0 & _ & Hs & He & Hc).
  pose proof (handoff_transition_cases h0 PaymentHandoffStatus.OPENED noon_before Hc) as Ht.
  destruct (PaymentHandoffTransitionService.transition h0 PaymentHandoffStatus.OPENED noon_before) as [h|e] eqn:E.
  - assert (handoff_step h0 h) as Hstep by (exists PaymentHandoffStatus.OPENED, noon_before; exact E).
    destruct Ht as [_ Eh]. destruct (handoff_lifecycle h0 h Hc (rtc_once _ _ Hstep)) as (_ & _ & _ & [Eq|[_ Hend]] & _).
    + exfalso. rewrite Eh in Eq. apply (f_equal ph_status) in Eq. rewrite Hs in Eq. discriminate Eq.
    + exists h0, h. split_and!; [rewrite Eh; reflexivity|exact Hstep|exact Hend].
  - destruct Ht as [Hn _]. exfalso. apply Hn. split_and!; [reflexivity|exact Hs|discriminate|].
    intros _. rewrite He. reflexivity.
Defined.
