(* ===== verification/ExchangeScenario.v ===== *)
(** * A concrete negotiation

    A buyer and a seller exchange a requirement, evidence, an offer and a
    counteroffer until the case is approved.  The theorems on the exchange are
    applied to it. *)
From S2P Require Import Prelude PyText PyNumber PyTime Enums Money Sha256 Hashing DomainModels Exchange.
From S2P Require Import Scenario.

Local Open Scope string_scope.
Local Open Scope Z_scope.

(** A writer of plain values for the third-party package: the text of the
    normalised value. *)
#[export] Instance raw_writer : RawJson := λ v, canonical_json v [].

Definition ex_command (id : string) (t : CommandType.t) (version : Z) (payload : PyVal) : PartyCommand :=
  mkPartyCommand id "case_1" (_COMMAND_OWNERS t) "actor_1" t version ("key_" ++ id) payload.

Definition ex_commands : list PartyCommand :=
  [ex_command "c1" CommandType.RELEASE_REQUIREMENT 1 (dict [("seats", VInt 10)]);
   ex_command "c2" CommandType.PUBLISH_EVIDENCE 2 (dict [("certificate", VStr "soc2")]);
   ex_command "c3" CommandType.PROPOSE_OFFER 3 (dict [("total", VStr "100.00")]);
   ex_command "c4" CommandType.COUNTER_OFFER 4 (dict [("total", VStr "120.00")]);
   ex_command "c5" CommandType.ACCEPT_COUNTER 5 (dict []);
   ex_command "c6" CommandType.APPROVE_HANDOFF 6 (dict [("approver", VStr "finance")])].

(** The coordinator after a list of commands. *)
Definition play (s : CoordinatorState) (l : list PartyCommand) : result CoordinatorState :=
  foldM (λ s c, _ ← PartyCommand_check c; t ← compile_party_command s c; Ok (ct_next_state t)) s l.

Lemma play_app s l k : play s (l ++ k)%list = (s' ← play s l; play s' k).
Proof.
  revert s. induction l as [|c l IH]; intros s; [done|]. unfold play in *. cbn [foldM app].
  destruct (_ ← PartyCommand_check c; _) as [s'|]; cbn [mbind result_bind]; [apply IH|done].
Qed.

Lemma play_runs s l s' : play s l = Ok s' → exchange_run s l s'.
Proof.
  revert s'. induction l as [|c l IH] using rev_ind; intros s' E; [injection E as <-; apply run_start|].
  rewrite play_app in E. apply bind_Ok in E as (s1 & E1 & E). eapply run_step; [by apply IH|].
  unfold play in E. cbn [foldM] in E. apply bind_Ok in E as (s2 & E & [= <-]).
  apply bind_Ok in E as (c' & Hc & E). apply bind_Ok in E as (t & Ht & [= <-]).
  pose proof (command_check_id _ _ Hc) as ->. split; [done|]. by rewrite Ht.
Qed.

Lemma agreement_witness :
  ∃ s p a, exchange_run (new_case "case_1") ex_commands s ∧
    cs_state s = ExchangeState.APPROVED_FOR_HANDOFF ∧ agreed p a s.
Proof.
  compute_test (play (new_case "case_1") ex_commands)
    (λ s : CoordinatorState, bool_decide (cs_state s = ExchangeState.APPROVED_FOR_HANDOFF)) s E H.
  apply play_runs in E. apply bool_decide_eq_true in H.
  assert (cs_state s ∈ [ExchangeState.AGREED_PENDING_APPROVAL; ExchangeState.APPROVED_FOR_HANDOFF]) as Hin
    by (rewrite H; apply list_elem_of_further, list_elem_of_here).
  destruct (agreement_needs_both_parties "case_1" ex_commands s E Hin) as (r & e & mid & p & a & rest & _ & _ & Ha & _).
  exists s, p, a. split_and!; [exact E|exact H|exact Ha].
Defined.

Lemma version_used_once_witness :
  ∃ s c, exchange_run (new_case "case_1") ex_commands s ∧ c ∈ ex_commands ∧
    cs_version s = 7 ∧ ∀ t, compile_party_command s c ≠ Ok t.
Proof.
  compute_ok (play (new_case "case_1") ex_commands) s E. apply play_runs in E.
  set (c := ex_command "c1" CommandType.RELEASE_REQUIREMENT 1 (dict [("seats", VInt 10)])).
  assert (c ∈ ex_commands) as Hin by apply list_elem_of_here.
  destruct (version_used_once _ s ex_commands c E) as (Hv & _ & Hr).
  exists s, c. split_and!; [exact E|exact Hin|rewrite Hv; reflexivity|exact (Hr Hin)].
Defined.

Lemma projections_public_witness :
  ∃ s t, exchange_run (new_case "case_1") (take 5 ex_commands) s ∧
    pp_released (ct_buyer_projection t) = pp_released (ct_seller_projection t) ∧
    has_private (released (ct_next_state t)) = false.
Proof.
  set (c := ex_command "c6" CommandType.APPROVE_HANDOFF 6 (dict [("approver", VStr "finance")])).
  compute_ok (s ← play (new_case "case_1") (take 5 ex_commands); t ← compile_party_command s c; Ok (s, t)) x E.
  apply bind_Ok in E as (s & Es & E). apply bind_Ok in E as (t & Et & _). apply play_runs in Es.
  assert (PartyCommand_check c = Ok c) as Hc by (vm_compute; reflexivity).
  destruct (projections_public "case_1" _ s c t Es Hc Et) as (Hb & Hk & Hp & _).
  exists s, t. split_and!; [exact Es|rewrite Hb, Hk; reflexivity|exact Hp].
Defined.

(** The final states are not final: a case that was approved for its handoff
    can still be rejected, and a rejected one expired. *)
Example final_states_move :
  (λ s : CoordinatorState, cs_state s) <$>
    play (new_case "case_1") (ex_commands ++
      [ex_command "c7" CommandType.REJECT 7 (dict []); ex_command "c8" CommandType.EXPIRE 8 (dict [])])%list
  = Ok ExchangeState.EXPIRED.
Proof. vm_compute. reflexivity. Qed.
