(* ===== verification/ServiceScenario.v ===== *)
(** * A concrete exchange

    A buyer opens a case, the seller publishes evidence, the buyer proposes
    terms which the seller accepts, the buyer approves them and creates the
    payment handoff.  The theorems on the exchange's store are applied to it. *)
From S2P Require Import PyDate.
From S2P Require Import Prelude PyText PyNumber PyTime Enums Money Hashing DomainModels Exchange Contracts Tables.
From S2P Require Import Database BilateralRepo BilateralHistory ExchangeService ExchangeSafety.
From S2P Require Import Scenario DomainScenario ExchangeScenario.

Local Open Scope string_scope.
Local Open Scope Z_scope.

#[export] Instance iso_json : JsonTime := λ d, isoformat_z (instant d).

Definition sx_time (hours : Z) : datetime := mkDatetime (63000000000000000 + hours * 3600000000) (Some 0).
(** The parser of times reads the one text the scenario uses. *)
#[export] Instance one_time : IsoFormat := λ text,
  if bool_decide (text = "later") then Ok (sx_time 48) else Raise (ValueError "Invalid isoformat string").

Definition sx_case : string := "case_1".
Definition sx_route : ExchangeRoute :=
  mkExchangeRoute sx_case "candidate_1" "product_1" "Acme" "https://acme.example/pay" "org_buyer" "org_seller" None
    (sx_time 48).
(** A cipher with one token. *)
#[export] Instance one_token : RouteCipher := {
  seal_route _ := "token";
  unseal_route token := if bool_decide (token = "token") then Some sx_route else None
}.

Definition sx_ids (n : string) : FreshIds := mkFreshIds ("btrans_" ++ n) ("bproj_b" ++ n) ("bproj_s" ++ n).

Definition sx_brief : BriefRow :=
  mkBriefRow "org_buyer" "request_1" 1
    (("expires_at", VStr "later") :: ((λ f, (f, VStr "stated")) <$> _SELLER_SAFE_FIELDS))
    "sha256:0123456789abcdef0123456789abcdef0123456789abcdef0123456789abcdef".

Definition sx_terms : ProposedTerms :=
  mkProposedTerms "USD" [mkOfferLine "seat" "Seats" 10 (DFinite 1250 (-2))] (DFinite 12500 (-2)) "List price" []
    (sx_time 40).

(** The case's first five transactions; a proposal must store its offer. *)
Definition sx_publish : PartyCommand :=
  mkPartyCommand "command_2" sx_case ExchangeParty.SELLER "actor_s" CommandType.PUBLISH_EVIDENCE 2 "key_2"
    (dict [("evidence_hash", VStr "sha256:0123456789abcdef0123456789abcdef0123456789abcdef0123456789abcdef")]).

Definition sx_open : txs _ :=
  open_case "org_buyer" "actor_b" sx_case "org_seller" "key_1" "request_1" [sx_brief] (sx_time 0) (sx_ids "1").
Definition sx_evidence : txs CompiledTransition :=
  exchange ← get_case "org_buyer" sx_case; apply_and_publish "org_buyer" "org_seller" exchange sx_publish (sx_ids "2").
Definition sx_propose : txs CompiledTransition :=
  before ← read (λ s, length (xs_offers s));
  t ← propose_body sx_route ExchangeParty.BUYER "actor_b" sx_case "command_3" "key_3" 3 sx_terms (sx_ids "3");
  after ← read (λ s, length (xs_offers s));
  _ ← raise_when (bool_decide (after = before)) AssertionError;
  mret t.
Definition offer_hash_of (s : exchange_store) : string :=
  match xs_offers s with o :: _ => ko_offer_hash o | [] => "" end.
Definition sx_accept : txs CompiledTransition :=
  hash ← read offer_hash_of;
  accept_body sx_route ExchangeParty.SELLER "actor_s" sx_case "command_4" "key_4" 4 hash (sx_time 1) (sx_ids "4").
Definition sx_approve : txs CompiledTransition :=
  hash ← read offer_hash_of;
  approve_body "org_buyer" "org_buyer" "actor_b" sx_case "command_5" "key_5" 5 hash (sx_time 30) (sx_time 2) (sx_ids "5").
Definition sx_history : txs unit :=
  _ ← sx_open; _ ← sx_evidence; _ ← sx_propose; _ ← sx_accept; _ ← sx_approve; mret ().

(** Each is a step of the service. *)
Lemma sx_open_step s x s' : sx_open s = Ok (x, s') → service_step false s s'.
Proof. unfold sx_open. apply service_open_case. Qed.

Lemma sx_publish_checked : PartyCommand_check sx_publish = Ok sx_publish.
Proof. vm_compute. reflexivity. Qed.

Lemma sx_evidence_step s x s' : sx_evidence s = Ok (x, s') → service_step false s s'.
Proof. unfold sx_evidence. apply service_evidence; [exact sx_publish_checked|reflexivity]. Qed.

Lemma sx_propose_step s x s' : sx_propose s = Ok (x, s') → service_step false s s'.
Proof.
  unfold sx_propose. intros E. apply tx_bind_Ok in E as (n & s1 & En & E). apply read_Ok in En as [-> ->].
  apply tx_bind_Ok in E as (t & s2 & Et & E). apply tx_bind_Ok in E as (m & s3 & Em & E). apply read_Ok in Em as [-> ->].
  apply tx_bind_Ok in E as (u & s3 & Eu & E). apply raise_when_Ok in Eu as [Hgrow%bool_decide_eq_false ->].
  apply ret_Ok in E as [_ ->]. eapply service_propose; [exact Et|]. intros _ Heq. apply Hgrow. by rewrite Heq.
Qed.

Lemma sx_accept_step s x s' : sx_accept s = Ok (x, s') → service_step false s s'.
Proof.
  unfold sx_accept. intros E. apply tx_bind_Ok in E as (h & s1 & Eh & E). apply read_Ok in Eh as [-> ->].
  revert E. apply service_accept.
Qed.

Lemma sx_approve_step s x s' : sx_approve s = Ok (x, s') → service_step false s s'.
Proof.
  unfold sx_approve. intros E. apply tx_bind_Ok in E as (h & s1 & Eh & E). apply read_Ok in Eh as [-> ->].
  revert E. apply service_approve.
Qed.

Lemma sx_history_steps s : sx_history empty_store = Ok ((), s) → service_reachable s ∧ reachable s.
Proof.
  unfold sx_history. intros E.
  apply tx_bind_Ok in E as (x1 & s1 & E1%sx_open_step & E). apply tx_bind_Ok in E as (x2 & s2 & E2%sx_evidence_step & E).
  apply tx_bind_Ok in E as (x3 & s3 & E3%sx_propose_step & E). apply tx_bind_Ok in E as (x4 & s4 & E4%sx_accept_step & E).
  apply tx_bind_Ok in E as (x5 & s5 & E5%sx_approve_step & E). apply ret_Ok in E as [_ ->].
  assert (service_reachable s5) as Hs; [|split; [exact Hs|by apply service_reachable_reachable]].
  unfold service_reachable. do 5 (eapply rtc_l; [eassumption|]). done.
Qed.

Lemma store_refines_ledger_witness :
  ∃ s L, reachable s ∧ length (xs_transitions s) = 5%nat ∧ rtc ledger_step ∅ L ∧ represents s L.
Proof.
  compute_test (sx_history empty_store) (λ x : () * exchange_store, bool_decide (length (xs_transitions x.2) = 5%nat)) x E H.
  destruct x as [[] s]. apply bool_decide_eq_true in H. destruct (sx_history_steps s E) as [_ Hs].
  destruct (store_refines_ledger s Hs) as (L & HL & Hrep). exists s, L. split_and!; [exact Hs|exact H|exact HL|exact Hrep].
Defined.

Lemma approved_offer_is_current_witness :
  ∃ s, reachable s ∧ length (case_approvals "org_buyer" sx_case s) = 1%nat ∧
    negotiation "org_buyer" sx_case (case_offers "org_buyer" sx_case s) (case_approvals "org_buyer" sx_case s).
Proof.
  compute_test (sx_history empty_store)
    (λ x : () * exchange_store, bool_decide (length (case_approvals "org_buyer" sx_case x.2) = 1%nat)) x E H.
  destruct x as [[] s]. apply bool_decide_eq_true in H. destruct (sx_history_steps s E) as [_ Hs].
  exists s. split_and!; [exact Hs|exact H|exact (approved_offer_is_current s "org_buyer" sx_case Hs)].
Defined.

Definition sx_config : ServiceConfig :=
  mkServiceConfig (Some (λ _, Some (mkSellerPrincipalBinding "candidate_1" "product_1" "actor_s" "org_seller" "Acme"
    "https://acme.example/pay"))) false.
Definition sx_buyer : Caller := mkCaller "org_buyer" "actor_b" (Some "BUYER") false.

Lemma requests_keep_history_witness :
  ∃ s', is_ok (run_alone (create_exchange_case sx_config sx_buyer "key_1" "request_1" "candidate_1" [sx_brief]
      (sx_time 0) (sx_ids "1")) empty_store).1 = true ∧ reachable s' ∧ negotiations s'.
Proof.
  set (m := create_exchange_case sx_config sx_buyer "key_1" "request_1" "candidate_1" [sx_brief] (sx_time 0) (sx_ids "1")).
  destruct (requests_keep_history sx_config m empty_store (run_alone m empty_store).2 (run_alone m empty_store).1
    (request_create _ _ _ _ _ _ _ _) (run_alone_runs _ m empty_store) (rtc_refl _ _)) as (Hr & _ & Hn).
  exists (run_alone m empty_store).2. split_and!; [vm_compute; reflexivity|exact Hr|exact Hn].
Defined.

Definition sx_handoff (hash : string) : req HandoffRow :=
  create_handoff sx_config sx_buyer sx_case "token" 6 hash (sx_time 3) (sx_time 3).

Lemma handoff_binds_agreed_terms_witness :
  ∃ x s1 route c ap, agreed_terms sx_case (kh_offer_hash x) c ∧ case_approvals (er_buyer_organization_id route) sx_case s1 = [ap] ∧
    sealed_row x ∧
    (carries_terms route sx_case (kh_offer_hash x) c ap (sx_time 3) x ∨
     x ∈ xs_handoffs s1 ∧ ∃ h, exchange_handoff_payload h ≠ exchange_handoff_payload (handoff_of_row x) ∧
       content_hash (exchange_handoff_payload h) = content_hash (exchange_handoff_payload (handoff_of_row x))).
Proof.
  compute_test (sx_history empty_store)
    (λ x : () * exchange_store, match (run_alone (sx_handoff (offer_hash_of x.2)) x.2).1 with
       | Ok h => bool_decide (kh_offer_hash h = offer_hash_of x.2) | Raise _ => false end) x E H.
  destruct x as [[] s]. destruct (sx_history_steps s E) as [Hs _]. cbn [snd] in H.
  pose proof (run_alone_runs (service_step false) (sx_handoff (offer_hash_of s)) s) as Hr.
  destruct (run_alone (sx_handoff (offer_hash_of s)) s) as [[x|e] s'] eqn:Er; [|discriminate H].
  apply bool_decide_eq_true in H. cbn [fst snd] in Hr.
  destruct (handoff_binds_agreed_terms sx_config sx_buyer sx_case "token" 6 (offer_hash_of s) (sx_time 3) (sx_time 3) s s' x Hs Hr)
    as (s1 & route & c & ap & _ & _ & _ & _ & Ht & _ & Hap & _ & Hx & Hc).
  exists x, s1, route, c, ap. rewrite H. split; [exact Ht|]. split; [exact Hap|]. split; [exact Hx|].
  destruct Hc as [Hc|[Hin (h & _ & Hne & Hh)]]; [left; exact Hc|right]. split; [exact Hin|]. exists h. split; [exact Hne|exact Hh].
Defined.

(** ** Contracts *)

Definition sx_offer : OfferVersion :=
  mkOfferVersion "offer_1" sx_case 1 ExchangeParty.BUYER ExchangeParty.SELLER None [] "List price" "USD"
    (pt_lines sx_terms) (pt_total sx_terms) (sx_time 40) some_hash some_hash OfferApprovalStatus.PENDING "".

Lemma offer_total_exact_witness :
  ∃ o, OfferVersion_check sx_offer = Ok o ∧ (dec_value (ov_total o) == lines_value (ov_lines o))%Q.
Proof.
  compute_ok (OfferVersion_check sx_offer) o E. exists o. split; [exact E|exact (offer_total_exact sx_offer o E)].
Defined.

Definition sx_source : list (string * PyVal) := safe_source (rb_payload sx_brief).
Definition sx_release (draft : result ReleaseManifest) (source : list (string * PyVal)) (now : datetime)
  : result (ReleaseManifest * list (string * PyVal)) :=
  draft ← draft;
  manifest ← ReleaseManifest_check draft;
  selected ← release manifest source now;
  Ok (manifest, selected).

Lemma sx_release_Ok draft source now m selected :
  sx_release draft source now = Ok (m, selected) → release m source now = Ok selected.
Proof.
  unfold sx_release. intros E. apply bind_Ok in E as (d & _ & E). apply bind_Ok in E as (m' & _ & E).
  by apply bind_Ok in E as (selected' & Es & [= <- <-]).
Qed.

Lemma release_discloses_fields_witness :
  ∃ m selected, release m sx_source (sx_time 0) = Ok selected ∧ selected.*1 = rm_fields m ∧
    some_key _private_key (dict selected) = false.
Proof.
  compute_ok (sx_release (brief_manifest sx_case "actor_b" sx_brief (sx_time 48)) sx_source (sx_time 0)) x E.
  destruct x as [m selected]. apply sx_release_Ok in E.
  destruct (release_discloses_fields m sx_source selected (sx_time 0) E) as (_ & _ & _ & Hk & _ & Hp).
  exists m, selected. split_and!; [exact E|exact Hk|exact Hp].
Defined.
