(* ===== verification/OutboxScenario.v ===== *)
(** * A concrete outbox

    Three events of a tenant and a queue that answers.  The theorems on the
    dispatcher are applied to them. *)
From S2P Require Import Prelude PyText PyNumber PyTime Hashing Tables Database PyJson Outbox.

Local Open Scope string_scope.
Local Open Scope Z_scope.

(** The queue numbers its messages. *)
#[export] Instance numbering : SqsClient := λ sent _, Ok ("message", str_int (Z.of_nat (length sent))).

Definition ox_event (id : string) (hour : Z) : OutboxEvent :=
  mkOutboxEvent id "org_1" "QUALIFICATION_MISSION" ("qmission_" ++ id) "QUALIFICATION_MISSION_READY" ("ready:" ++ id)
    (JObj [("mission_id", JStr id)]) (mkDatetime (63000000000000000 + hour * 3600000000) (Some 0)) None.

Definition ox_outbox : outbox := mkOutbox [ox_event "b" 2; ox_event "a" 1; ox_event "c" 3] [].
Definition ox_clock (n : nat) : datetime := mkDatetime (63000100000000000 + Z.of_nat n) (Some 0).

Lemma str_int_not_empty n : is_empty (str_int n) = false.
Proof.
  unfold is_empty. apply bool_decide_eq_false. unfold str_int. intros E%(f_equal chars). rewrite chars_of_chars in E.
  pose proof (digits_of_nonempty n) as Hd. by destruct (n <? 0).
Qed.

Lemma ox_delivered : delivered ox_outbox.
Proof.
  split; [apply (bool_decide_unpack _); vm_compute; exact I|].
  intros e He Hp. exfalso. apply Hp. revert e He Hp. cbn.
  intros e [-> |[-> |[-> |He]%elem_of_cons]%elem_of_cons]%elem_of_cons _; try done. by apply not_elem_of_nil in He.
Qed.

Lemma marked_events_were_sent_witness :
  delivered (dispatch_batch ox_clock "org_1" 2 [] ox_outbox).2 ∧
  length (ob_sent (dispatch_batch ox_clock "org_1" 2 [] ox_outbox).2) = 2%nat.
Proof.
  split; [exact (proj1 (marked_events_were_sent ox_clock "org_1" 2 [] ox_outbox ox_delivered))|vm_compute; reflexivity].
Defined.

Definition ox_rounds : outbox := dispatch_rounds "org_1" [] (λ _, ox_clock) 2 2 ox_outbox.

Lemma backlog_is_delivered_witness :
  ob_sent ox_rounds = message_of ∘ envelope_of <$> backlog "org_1" [] ox_outbox ∧
  oe_id <$> backlog "org_1" [] ox_outbox = ["a"; "b"; "c"].
Proof.
  split; [|vm_compute; reflexivity].
  refine (proj1 (backlog_is_delivered "org_1" [] (λ _, ox_clock) 2 2 ox_outbox _ ox_delivered _ _ _ _)).
  - intros sent m. exists "message", (str_int (Z.of_nat (length sent))). split; [reflexivity|].
    split; [reflexivity|apply str_int_not_empty].
  - reflexivity.
  - lia.
  - intros e He. assert (e ∈ [ox_event "a" 1; ox_event "b" 2; ox_event "c" 3]) as Hin by exact He. clear He.
    repeat (apply elem_of_cons in Hin as [-> |Hin]; [split; [vm_compute; reflexivity|vm_compute; discriminate]|]).
    destruct (not_elem_of_nil _ Hin).
  - vm_compute. lia.
Defined.
