(* ===== verification/Terms.v ===== *)
(** * Commercial terms: [sira_api/commercial_terms.py]

    The executable terms of a plan are a dictionary that carries its own
    content hash; locking a purchase checks the hash and copies the terms, with
    the decision they come from, into the payload of a Purchase Intent, which
    is hashed in turn. *)
From S2P Require Import Prelude PyText PyNumber PyTime Hashing PyDate.

Local Open Scope string_scope.
Local Open Scope Z_scope.

Definition _TERM_FIELDS : list string :=
  ["purchase_intent_group_id"; "procurement_plan_id"; "procurement_gate_result_hash"; "pack_id"; "pack_version";
   "offer_id"; "offer_version"; "quote_id"; "quote_version"; "quote_expires_at"; "merchant";
   "approved_merchant_chain_id"; "amount"; "currency"; "line_items"; "expected_fulfillments";
   "fulfillment_completion_policy"; "buyer_legal_entity_id"; "seller_contracting_entity_id"; "billing_identity_id";
   "cost_center_id"; "purchase_order_ref"; "merchant_subtotal"; "tax_amount"; "fee_amount"; "fee_schedule_version";
   "contract_version_id"; "landed_total"; "approval_policy_version"; "approval_requirement_set_id";
   "approval_plan_hash"].

(** A JSON object: text keys in their order. *)
Definition object : Type := list (dict_key * PyVal).

Definition get (key : string) (o : object) : option PyVal := dict_get (KStr key) o.

Definition _object (value : PyVal) (label : string) : result object :=
  match value with
  | VDict l => Ok l
  | _ => Raise (CommercialTermsConflict (label ++ " must be an object"))
  end.

Definition _text (value : option PyVal) (label : string) : result string :=
  match value with
  | Some (VStr s) => if is_empty s then Raise (CommercialTermsConflict (label ++ " must be a non-empty string")) else Ok s
  | _ => Raise (CommercialTermsConflict (label ++ " must be a non-empty string"))
  end.

(** [{key: item for key, item in o.items() if key != excluded}] *)
Definition without (excluded : string) (o : object) : object :=
  List.filter (λ p, negb (bool_decide (p.1 = KStr excluded))) o.

Definition is_text (value : option PyVal) (s : string) : bool :=
  match value with Some (VStr t) => bool_decide (t = s) | _ => false end.

Section terms.
Context `{Rfc8785}.

Definition conflict_if (c : bool) (msg : string) : result unit := raise_if c (CommercialTermsConflict msg).

Definition validate_plan_commercial_terms (value : PyVal) (solution_plan_id stack_patch_id : string) : result object :=
  terms ← _object value "commercial terms";
  supplied_hash ← _text (get "commercial_terms_hash" terms) "commercial_terms_hash";
  calculated_hash ← content_hash (VDict (without "commercial_terms_hash" terms));
  _ ← conflict_if (negb (bool_decide (supplied_hash = calculated_hash)))
        "commercial terms hash does not match its payload";
  _ ← conflict_if (negb (is_text (get "schema_version" terms) "plan_commercial_terms_v1"))
        "commercial terms schema is unsupported";
  _ ← conflict_if (negb (is_text (get "solution_plan_id" terms) solution_plan_id))
        "commercial terms are bound to another Solution Plan";
  _ ← conflict_if (negb (is_text (get "stack_patch_id" terms) stack_patch_id))
        "commercial terms are bound to another Stackfile patch";
  _ ← mapM (λ field, conflict_if (is_none (get field terms)) ("commercial terms are missing " ++ field)) _TERM_FIELDS;
  Ok terms.

(** [locked_at.astimezone(UTC).isoformat().replace("+00:00", "Z")] *)
Definition lock_text (locked_at : datetime) : string := isoformat_z (instant locked_at).

(** The part of the payload that is not copied from the terms. *)
Definition intent_head (organization_id decision_id : string) (decision_version : Z)
    (decision_hash selection_id solution_plan_id stack_patch_id purchase_intent_id : string) : list (string * PyVal) :=
  [("schema_version", VStr "1.0.0"); ("purchase_intent_id", VStr purchase_intent_id);
   ("organization_id", VStr organization_id); ("decision_id", VStr decision_id);
   ("decision_version", VInt decision_version); ("decision_hash", VStr decision_hash);
   ("selection_id", VStr selection_id); ("solution_plan_id", VStr solution_plan_id);
   ("stack_patch_id", VStr stack_patch_id)].

(** [{field: terms[field] for field in _TERM_FIELDS}] *)
Definition term_entries (terms : object) : result (list (string * PyVal)) :=
  mapM (λ field, match get field terms with Some v => Ok (field, v) | None => Raise (KeyError field) end) _TERM_FIELDS.

Definition build_purchase_intent_payload (organization_id decision_id : string) (decision_version : Z)
    (decision_hash selection_id solution_plan_id stack_patch_id purchase_intent_id : string)
    (commercial_terms : PyVal) (locked_at : datetime) : result (list (string * PyVal)) :=
  terms ← validate_plan_commercial_terms commercial_terms solution_plan_id stack_patch_id;
  _ ← conflict_if (negb (is_aware locked_at)) "purchase lock time must include a timezone";
  entries ← term_entries terms;
  let payload := (intent_head organization_id decision_id decision_version decision_hash selection_id solution_plan_id
                    stack_patch_id purchase_intent_id ++ entries ++ [("locked_at", VStr (lock_text locked_at))])%list in
  intent_hash ← content_hash (dict payload);
  Ok (payload ++ [("intent_hash", VStr intent_hash)])%list.

(** ** What is locked *)

(** The terms a payload was built from: their hash is the one they carry. *)
Definition sealed_terms (terms : object) : Prop :=
  ∃ h, get "commercial_terms_hash" terms = Some (VStr h) ∧
    content_hash (VDict (without "commercial_terms_hash" terms)) = Ok h.

Lemma validate_terms_Ok value plan patch terms :
  validate_plan_commercial_terms value plan patch = Ok terms →
  value = VDict terms ∧ sealed_terms terms ∧
  get "solution_plan_id" terms = Some (VStr plan) ∧ get "stack_patch_id" terms = Some (VStr patch) ∧
  ∀ field, field ∈ _TERM_FIELDS → is_Some (get field terms).
Proof.
  unfold validate_plan_commercial_terms. intros H0. apply bind_Ok in H0 as (t & Ht & H0).
  apply bind_Ok in H0 as (h & Hh & H0). apply bind_Ok in H0 as (h' & Hc & H0).
  apply bind_Ok in H0 as (_ & He%raise_if_Ok & H0). apply bind_Ok in H0 as (_ & _ & H0).
  apply bind_Ok in H0 as (_ & Hp%raise_if_Ok & H0). apply bind_Ok in H0 as (_ & Hs%raise_if_Ok & H0).
  apply bind_Ok in H0 as (us & Hf & [= <-]).
  assert (∀ o s, negb (is_text o s) = false → o = Some (VStr s)) as W.
  { intros [[]|] s0; cbn; try done. rewrite negb_false_iff, bool_decide_eq_true. by intros ->. }
  apply negb_false_iff, bool_decide_eq_true in He as ->.
  split_and!; [by destruct value; cbn in Ht; try done; injection Ht as <-| |by apply W..|].
  - exists h'. split; [|done]. unfold _text in Hh.
    destruct (get "commercial_terms_hash" t) as [[]|]; try done. destruct (is_empty s); [done|]. by injection Hh as <-.
  - intros f Hin. apply mapM_Ok in Hf. apply list_elem_of_lookup in Hin as (i & Hi).
    destruct (Forall2_lookup_l _ _ _ _ _ Hf Hi) as (u & _ & Hu%raise_if_Ok). destruct (get f t); [eauto|done].
Qed.

Lemma term_entries_Ok terms entries :
  term_entries terms = Ok entries →
  entries.*1 = _TERM_FIELDS ∧ ∀ field v, (field, v) ∈ entries → get field terms = Some v.
Proof.
  intros H0%mapM_Ok. split.
  - induction H0 as [|f p fs ps Hp _ IH]; [done|]. cbn. destruct (get f terms); [|done]. injection Hp as <-. cbn. by f_equal.
  - intros f v (i & Hi)%list_elem_of_lookup. destruct (Forall2_lookup_r _ _ _ _ _ H0 Hi) as (f' & _ & Hp).
    destruct (get f' terms) eqn:E; [|done]. injection Hp as -> ->. done.
Qed.

(** A payload that locks terms: what it binds, entry by entry. *)
Definition locks (organization_id decision_id : string) (decision_version : Z)
    (decision_hash selection_id solution_plan_id stack_patch_id purchase_intent_id : string)
    (terms : object) (locked_at : datetime) (payload : list (string * PyVal)) (intent_hash : string) : Prop :=
  ∃ entries,
    payload = (intent_head organization_id decision_id decision_version decision_hash selection_id solution_plan_id
                 stack_patch_id purchase_intent_id ++ entries ++ [("locked_at", VStr (lock_text locked_at))])%list ∧
    entries.*1 = _TERM_FIELDS ∧ (∀ field v, (field, v) ∈ entries → get field terms = Some v) ∧
    content_hash (dict payload) = Ok intent_hash.

(** A locked payload is the sealed terms, unchanged.  Building the payload of
    a Purchase Intent succeeds only on a dictionary of terms whose own hash
    matches, for the given plan and patch; the payload then holds the
    identifiers it was given and every commercial field with exactly the value
    the terms have, and its hash is the content hash of everything before
    it. *)
Theorem locked_terms_exact (organization_id decision_id : string) (version : Z)
    (decision_hash selection_id plan patch intent_id : string) (value : PyVal) (locked_at : datetime)
    (out : list (string * PyVal)) :
  build_purchase_intent_payload organization_id decision_id version decision_hash selection_id plan patch intent_id
    value locked_at = Ok out →
  ∃ terms payload intent_hash,
    value = VDict terms ∧ sealed_terms terms ∧
    get "solution_plan_id" terms = Some (VStr plan) ∧ get "stack_patch_id" terms = Some (VStr patch) ∧
    out = (payload ++ [("intent_hash", VStr intent_hash)])%list ∧
    locks organization_id decision_id version decision_hash selection_id plan patch intent_id terms locked_at
      payload intent_hash.
Proof.
  unfold build_purchase_intent_payload. intros H0.
  apply bind_Ok in H0 as (terms & (-> & Hs & Hp & Hq & _)%validate_terms_Ok & H0).
  apply bind_Ok in H0 as (_ & _ & H0). apply bind_Ok in H0 as (entries & He & H0). apply term_entries_Ok in He as [Hk Hv].
  apply bind_Ok in H0 as (h & Hh & [= <-]).
  exists terms, (intent_head organization_id decision_id version decision_hash selection_id plan patch intent_id ++
    entries ++ [("locked_at", VStr (lock_text locked_at))])%list, h.
  do 5 (split; [done|]). exists entries. by do 3 (split; [done|]).
Qed.
End terms.
