(* ===== verification/Purchase.v ===== *)
(** * Purchases: [persistence/repositories.py] and [sira_api/service.py]

    Locking a Purchase Intent, asking for its approval, approving, rejecting
    and revoking it, preparing and opening the payment handoff, and replacing
    what an older decision allowed: the tables behind these requests, the
    repository's guarded writes and each request as the service runs it.  Clock
    readings and drawn identifiers are arguments; decisions, plans, briefs and
    patches are tables other requests write.  Times in the store are aware, as
    its columns are, and compare by instant. *)
From S2P Require Import Prelude PyText PyNumber PyTime PyDate Enums Money Hashing DomainModels StateMachines Tables.
From S2P Require Import Database Outbox Terms.

Local Open Scope string_scope.
Local Open Scope Z_scope.

#[local] Notation "a ≟ b" := (bool_decide (a = b)) (at level 70).

(** ** Rows *)

(** [DecisionRecord] *)
Record DecisionRow := mkDecisionRow {
  wd_id : string;
  wd_organization_id : string;
  wd_purchase_request_id : string;
  wd_purchase_brief_id : string;
  wd_version : Z;
  wd_supersedes_id : option string;
  wd_decision_hash : string;
  wd_selected_solution_plan_id : option string;
  wd_payload : object
}.

(** [EvaluationRun] *)
Record RunRow := mkRunRow {
  wr_id : string;
  wr_organization_id : string;
  wr_decision_id : string;
  wr_run_kind : string
}.

(** [EvaluationSolutionPlan] *)
Record PlanRow := mkPlanRow {
  wp_organization_id : string;
  wp_evaluation_run_id : string;
  wp_solution_plan_id : string;
  wp_lifecycle : string;
  wp_candidate_status : string;
  wp_payload : object
}.

(** [PurchaseBriefVersion] *)
Record PurchaseBriefRow := mkPurchaseBriefRow {
  wb_id : string;
  wb_organization_id : string;
  wb_payload : object
}.

(** [StackPatch], by its key. *)
Record PatchRow := mkPatchRow { wt_id : string; wt_organization_id : string }.

(** [PurchaseIntent] *)
Record IntentRow := mkIntentRow {
  wi_id : string;
  wi_organization_id : string;
  wi_decision_id : string;
  wi_decision_hash : string;
  wi_solution_plan_id : string;
  wi_stack_patch_id : string;
  wi_intent_hash : string;
  wi_merchant_id : string;
  wi_merchant_name : string;
  wi_merchant_url : string;
  wi_approved_merchant_chain_id : string;
  wi_pack_id : string;
  wi_pack_version : Z;
  wi_offer_id : string;
  wi_offer_version : Z;
  wi_quote_id : string;
  wi_quote_version : Z;
  wi_quote_expires_at : datetime;
  wi_amount : Decimal;
  wi_currency : string;
  wi_expected_fulfillments : PyVal;
  wi_payload : list (string * PyVal);
  wi_approval_status : ApprovalStatus.t;
  wi_version : Z
}.

(** [ApprovalRequest] *)
Record ApprovalRequestRow := mkApprovalRequestRow {
  wa_id : string;
  wa_organization_id : string;
  wa_purchase_intent_id : string;
  wa_intent_hash : string;
  wa_policy_version : Z;
  wa_status : ApprovalStatus.t;
  wa_required_roles : list string;
  wa_approved_roles : list string;
  wa_expires_at : datetime
}.

Module ApprovalAction.
Inductive t := APPROVE | REJECT | REVOKE | DELEGATE.
#[global] Instance eq_dec : EqDecision t.
Proof. solve_decision. Defined.
End ApprovalAction.

(** [ApprovalEvent] *)
Record ApprovalEventRow := mkApprovalEventRow {
  we_id : string;
  we_organization_id : string;
  we_approval_request_id : string;
  we_intent_hash : string;
  we_actor_id : string;
  we_actor_role : string;
  we_action : ApprovalAction.t;
  we_event_key : string;
  we_reason : option string
}.

(** [PaymentHandoff] *)
Record PaymentHandoffRow := mkPaymentHandoffRow {
  wh_id : string;
  wh_organization_id : string;
  wh_purchase_intent_id : string;
  wh_approval_request_id : string;
  wh_intent_hash : string;
  wh_handoff_hash : string;
  wh_destination_url : string;
  wh_recipient : string;
  wh_amount : Decimal;
  wh_currency : string;
  wh_reference : string;
  wh_status : PaymentHandoffStatus.t;
  wh_expires_at : datetime;
  wh_opened_at : option datetime;
  wh_created_at : datetime
}.

(** [OutcomeCheckpoint], as the status reads it. *)
Record OutcomeRow := mkOutcomeRow {
  wo_id : string;
  wo_organization_id : string;
  wo_purchase_intent_id : string;
  wo_observed_at : datetime;
  wo_state : string
}.

(** What a request answers with. *)
Definition response : Type := list (string * PyVal).

(** [IdempotencyRecord]; its state is STARTED until the response is stored. *)
Record IdempotencyRow := mkIdempotencyRow {
  wk_id : string;
  wk_organization_id : string;
  wk_actor_id : string;
  wk_operation : string;
  wk_idempotency_key : string;
  wk_request_hash : string;
  wk_completed : bool;
  wk_response_status : option Z;
  wk_response_payload : option response;
  wk_response_reference : option string
}.

(** ** Unique constraints *)

Definition intent_clash (a b : IntentRow) : bool :=
  (wi_id a ≟ wi_id b) ||
  ((wi_organization_id a, wi_intent_hash a) ≟ (wi_organization_id b, wi_intent_hash b)) ||
  ((wi_organization_id a, wi_decision_id a, wi_solution_plan_id a, wi_quote_id a, wi_quote_version a) ≟
   (wi_organization_id b, wi_decision_id b, wi_solution_plan_id b, wi_quote_id b, wi_quote_version b)).
Definition approval_request_clash (a b : ApprovalRequestRow) : bool :=
  (wa_id a ≟ wa_id b) ||
  ((wa_organization_id a, wa_purchase_intent_id a, wa_intent_hash a) ≟
   (wa_organization_id b, wa_purchase_intent_id b, wa_intent_hash b)).
Definition approval_event_clash (a b : ApprovalEventRow) : bool :=
  (we_id a ≟ we_id b) ||
  ((we_organization_id a, we_event_key a) ≟ (we_organization_id b, we_event_key b)).
Definition payment_handoff_clash (a b : PaymentHandoffRow) : bool :=
  (wh_id a ≟ wh_id b) ||
  ((wh_organization_id a, wh_handoff_hash a) ≟ (wh_organization_id b, wh_handoff_hash b)) ||
  ((wh_organization_id a, wh_purchase_intent_id a, wh_approval_request_id a) ≟
   (wh_organization_id b, wh_purchase_intent_id b, wh_approval_request_id b)).
Definition idempotency_clash (a b : IdempotencyRow) : bool :=
  (wk_id a ≟ wk_id b) ||
  ((wk_organization_id a, wk_actor_id a, wk_operation a, wk_idempotency_key a) ≟
   (wk_organization_id b, wk_actor_id b, wk_operation b, wk_idempotency_key b)).
Definition outbox_clash (a b : OutboxEvent) : bool :=
  (oe_id a ≟ oe_id b) || ((oe_organization_id a, oe_event_key a) ≟ (oe_organization_id b, oe_event_key b)).

(** ** The store *)

(** The tables these requests only read. *)
Record catalogue := mkCatalogue {
  ca_decisions : list DecisionRow;
  ca_runs : list RunRow;
  ca_plans : list PlanRow;
  ca_briefs : list PurchaseBriefRow;
  ca_patches : list PatchRow;
  ca_outcomes : list OutcomeRow
}.

Record purchase_store := mkPurchaseStore {
  ws_catalogue : catalogue;
  ws_intents : list IntentRow;
  ws_approvals : list ApprovalRequestRow;
  ws_events : list ApprovalEventRow;
  ws_handoffs : list PaymentHandoffRow;
  ws_claims : list IdempotencyRow;
  ws_outbox : list OutboxEvent
}.

Definition set_intents l s := mkPurchaseStore (ws_catalogue s) l (ws_approvals s) (ws_events s) (ws_handoffs s) (ws_claims s) (ws_outbox s).
Definition set_approval_requests l s := mkPurchaseStore (ws_catalogue s) (ws_intents s) l (ws_events s) (ws_handoffs s) (ws_claims s) (ws_outbox s).
Definition set_events l s := mkPurchaseStore (ws_catalogue s) (ws_intents s) (ws_approvals s) l (ws_handoffs s) (ws_claims s) (ws_outbox s).
Definition set_payment_handoffs l s := mkPurchaseStore (ws_catalogue s) (ws_intents s) (ws_approvals s) (ws_events s) l (ws_claims s) (ws_outbox s).
Definition set_claims l s := mkPurchaseStore (ws_catalogue s) (ws_intents s) (ws_approvals s) (ws_events s) (ws_handoffs s) l (ws_outbox s).
Definition set_outbox l s := mkPurchaseStore (ws_catalogue s) (ws_intents s) (ws_approvals s) (ws_events s) (ws_handoffs s) (ws_claims s) l.

Notation txp := (tx purchase_store).

(** [session.add(record)] with its flush. *)
Definition add_record {R} (table : purchase_store → list R) (set : list R → purchase_store → purchase_store)
    (clash : R → R → bool) (row : R) : txp unit := λ s,
  match insert_row clash row (table s) with Ok rows => Ok ((), set rows s) | Raise e => Raise e end.

Definition api (code : string) (status : Z) : exn := ApiProblem code status.
Definition api_when (c : bool) (code : string) (status : Z) : txp unit := raise_when c (api code status).

(** The row, or an error. *)
Definition require {A} (o : option A) (e : exn) : txp A :=
  match o with Some a => mret a | None => raise_tx e end.

Definition not_found : exn := RecordNotFound "Tenant-owned record was not found".

(** [value.astimezone(UTC)], a naive value being in UTC. *)
Definition _as_utc (d : datetime) : datetime := mkDatetime (instant d) (Some 0).
Definition minutes (n : Z) : Z := n * 60 * 1000000.
Definition later (d : datetime) (microseconds : Z) : datetime := mkDatetime (dt_local d + microseconds) (dt_offset d).

(** [values(status=...)] on rows already in memory. *)
Definition with_intent_status (status : ApprovalStatus.t) (i : IntentRow) : IntentRow :=
  mkIntentRow (wi_id i) (wi_organization_id i) (wi_decision_id i) (wi_decision_hash i) (wi_solution_plan_id i)
    (wi_stack_patch_id i) (wi_intent_hash i) (wi_merchant_id i) (wi_merchant_name i) (wi_merchant_url i)
    (wi_approved_merchant_chain_id i) (wi_pack_id i) (wi_pack_version i) (wi_offer_id i) (wi_offer_version i)
    (wi_quote_id i) (wi_quote_version i) (wi_quote_expires_at i) (wi_amount i) (wi_currency i)
    (wi_expected_fulfillments i) (wi_payload i) status (wi_version i).
Definition with_approval (status : ApprovalStatus.t) (approved : list string) (a : ApprovalRequestRow) : ApprovalRequestRow :=
  mkApprovalRequestRow (wa_id a) (wa_organization_id a) (wa_purchase_intent_id a) (wa_intent_hash a)
    (wa_policy_version a) status (wa_required_roles a) approved (wa_expires_at a).
Definition with_handoff_status (status : PaymentHandoffStatus.t) (opened_at : option datetime) (h : PaymentHandoffRow)
  : PaymentHandoffRow :=
  mkPaymentHandoffRow (wh_id h) (wh_organization_id h) (wh_purchase_intent_id h) (wh_approval_request_id h)
    (wh_intent_hash h) (wh_handoff_hash h) (wh_destination_url h) (wh_recipient h) (wh_amount h) (wh_currency h)
    (wh_reference h) status (wh_expires_at h) opened_at (wh_created_at h).

Definition set_intent_status (id : string) (status : ApprovalStatus.t) : txp unit :=
  write (λ s, set_intents (update_rows (λ i, wi_id i ≟ id) (with_intent_status status) (ws_intents s)) s).
Definition set_approval (id : string) (status : ApprovalStatus.t) (approved : list string) : txp unit :=
  write (λ s, set_approval_requests (update_rows (λ a, wa_id a ≟ id) (with_approval status approved) (ws_approvals s)) s).

(** ** The repository *)

Section repository.
Context (organization_id : string).

Definition get_purchase_intent (intent_id : string) : txp IntentRow :=
  found ← read (λ s, select_one (λ i, (wi_id i ≟ intent_id) && (wi_organization_id i ≟ organization_id)) (ws_intents s));
  require found not_found.

Definition get_decision (decision_id : string) : txp DecisionRow :=
  found ← read (λ s, select_one (λ d, (wd_id d ≟ decision_id) && (wd_organization_id d ≟ organization_id))
                       (ca_decisions (ws_catalogue s)));
  require found not_found.

Definition get_selected_solution_plan (decision_id solution_plan_id : string) : txp PlanRow :=
  found ← read (λ s,
    select_one (λ p, (wp_organization_id p ≟ organization_id) && (wp_solution_plan_id p ≟ solution_plan_id) &&
      existsb (λ r, (wr_id r ≟ wp_evaluation_run_id p) && (wr_organization_id r ≟ organization_id) &&
                    (wr_decision_id r ≟ decision_id) && (wr_run_kind r ≟ "BASE")) (ca_runs (ws_catalogue s)))
      (ca_plans (ws_catalogue s)));
  require found not_found.

(** The repository's tenant check on a record it is given. *)
Definition _assert_tenant (tenant : string) : txp unit :=
  raise_when (negb (tenant ≟ organization_id)) (PersistenceConflict "Cross-tenant write rejected").

Definition add_outbox (aggregate_type aggregate_id event_type event_key : string) (payload : list (string * Json))
    (new_id : string) (now : datetime) : txp OutboxEvent :=
  existing ← read (λ s, select_one (λ e, (oe_organization_id e ≟ organization_id) && (oe_event_key e ≟ event_key))
                          (ws_outbox s));
  match existing with
  | Some e => mret e
  | None =>
      let event := mkOutboxEvent new_id organization_id aggregate_type aggregate_id event_type event_key
                     (JObj payload) now None in
      _ ← add_record ws_outbox set_outbox outbox_clash event;
      mret event
  end.

Definition add_purchase_intent (record : IntentRow) (outbox_id : string) (now : datetime) : txp IntentRow :=
  _ ← _assert_tenant (wi_organization_id record);
  _ ← add_record ws_intents set_intents intent_clash record;
  _ ← add_outbox "purchase_intent" (wi_id record) "purchase_intent.locked"
        ("purchase-intent-locked:" ++ wi_id record ++ ":" ++ wi_intent_hash record)
        [("purchase_intent_id", JStr (wi_id record)); ("intent_hash", JStr (wi_intent_hash record))] outbox_id now;
  mret record.

(** The claim of an idempotency key: its record, and whether it was answered. *)
Definition claim_idempotency (actor_id operation idempotency_key request_hash new_id : string)
  : txp (IdempotencyRow * bool) :=
  let scope (k : IdempotencyRow) := (wk_organization_id k ≟ organization_id) && (wk_actor_id k ≟ actor_id) &&
    (wk_operation k ≟ operation) && (wk_idempotency_key k ≟ idempotency_key) in
  let claimed (k : IdempotencyRow) : txp (IdempotencyRow * bool) :=
    _ ← raise_when (negb (wk_request_hash k ≟ request_hash))
          (IdempotencyConflict "Idempotency key was already used with a different request body");
    mret (k, wk_completed k) in
  existing ← read (λ s, select_one scope (ws_claims s));
  match existing with
  | Some k => claimed k
  | None =>
      let record := mkIdempotencyRow new_id organization_id actor_id operation idempotency_key request_hash false
                      None None None in
      λ s, match add_record ws_claims set_claims idempotency_clash record s with
           | Ok (_, s') => Ok ((record, false), s')
           | Raise IntegrityError =>
               match select_one scope (ws_claims s) with
               | None => Raise (PersistenceConflict "An idempotency claim raced and must be retried")
               | Some k => claimed k s
               end
           | Raise e => Raise e
           end
  end.

Definition complete_idempotency (record : IdempotencyRow) (response_status : Z) (response_payload : response)
    (response_reference : string) : txp unit :=
  _ ← _assert_tenant (wk_organization_id record);
  write (λ s, set_claims (update_rows (λ k, wk_id k ≟ wk_id record) (λ k,
    mkIdempotencyRow (wk_id k) (wk_organization_id k) (wk_actor_id k) (wk_operation k) (wk_idempotency_key k)
      (wk_request_hash k) true (Some response_status) (Some response_payload) (Some response_reference)) (ws_claims s)) s).

(** A request with the same key is answered by the stored response. *)
Definition replay (k : IdempotencyRow) (default_status : Z) : Z * response :=
  (match wk_response_status k with Some n => if n =? 0 then default_status else n | None => default_status end,
   default [] (wk_response_payload k)).

Definition record_approval_event (approval_request_id intent_hash actor_id actor_role : string)
    (action : ApprovalAction.t) (event_key : string) (reason : option string) (new_id : string) : txp ApprovalEventRow :=
  found ← read (λ s, select_one (λ a, (wa_id a ≟ approval_request_id) && (wa_organization_id a ≟ organization_id))
                       (ws_approvals s));
  approval ← require found not_found;
  intent ← get_purchase_intent (wa_purchase_intent_id approval);
  _ ← raise_when (negb (intent_hash ≟ wa_intent_hash approval) || negb (intent_hash ≟ wi_intent_hash intent))
        (PersistenceConflict "Approval does not bind the current exact intent hash");
  _ ← raise_when (negb (py_in (wa_status approval) [ApprovalStatus.PENDING; ApprovalStatus.APPROVED]))
        (PersistenceConflict ("Approval request is " ++ ApprovalStatus.value (wa_status approval)));
  existing ← read (λ s, select_one (λ e, (we_organization_id e ≟ organization_id) && (we_event_key e ≟ event_key))
                          (ws_events s));
  match existing with
  | Some e => mret e
  | None =>
      let event := mkApprovalEventRow new_id organization_id approval_request_id intent_hash actor_id actor_role
                     action event_key reason in
      _ ← add_record ws_events set_events approval_event_clash event;
      mret event
  end.

(** The open approval requests of an intent become superseded. *)
Definition supersede_requests (intent_id : string) : txp unit :=
  write (λ s, set_approval_requests (update_rows
    (λ a, (wa_organization_id a ≟ organization_id) && (wa_purchase_intent_id a ≟ intent_id) &&
          py_in (wa_status a) [ApprovalStatus.PENDING; ApprovalStatus.APPROVED])
    (λ a, with_approval ApprovalStatus.SUPERSEDED (wa_approved_roles a) a) (ws_approvals s)) s).

Definition supersede_approval_for_mutation (intent_id current_intent_hash mutation_event_key outbox_id : string)
    (now : datetime) : txp unit :=
  intent ← get_purchase_intent intent_id;
  if wi_intent_hash intent ≟ current_intent_hash then mret () else
  if py_in (wi_approval_status intent) [ApprovalStatus.PENDING; ApprovalStatus.APPROVED] then
    _ ← set_intent_status (wi_id intent) ApprovalStatus.SUPERSEDED;
    _ ← supersede_requests intent_id;
    _ ← add_outbox "purchase_intent" intent_id "approval.superseded" mutation_event_key
          [("purchase_intent_id", JStr intent_id); ("reason", JStr "BOUND_INPUT_CHANGED")] outbox_id now;
    mret ()
  else mret ().

(** One intent of an older decision: whether anything was still open. *)
Definition supersede_intent (current_decision_id proposal_id outbox_id : string) (now : datetime) (intent : IntentRow)
  : txp bool :=
  let changed := py_in (wi_approval_status intent)
    [ApprovalStatus.NOT_REQUESTED; ApprovalStatus.PENDING; ApprovalStatus.APPROVED] in
  _ ← (if changed then
         _ ← set_intent_status (wi_id intent) ApprovalStatus.SUPERSEDED;
         supersede_requests (wi_id intent)
       else mret ());
  let open_handoff (h : PaymentHandoffRow) := (wh_organization_id h ≟ organization_id) &&
    (wh_purchase_intent_id h ≟ wi_id intent) && (wh_status h ≟ PaymentHandoffStatus.READY) in
  cancelled ← read (λ s, existsb open_handoff (ws_handoffs s));
  _ ← write (λ s, set_payment_handoffs (update_rows open_handoff
        (λ h, with_handoff_status PaymentHandoffStatus.CANCELLED (wh_opened_at h) h) (ws_handoffs s)) s);
  if changed || cancelled then
    _ ← add_outbox "purchase_intent" (wi_id intent) "approval.superseded"
          ("decision-change:" ++ proposal_id ++ ":" ++ wi_id intent)
          [("purchase_intent_id", JStr (wi_id intent)); ("superseded_decision_id", JStr (wi_decision_id intent));
           ("current_decision_id", JStr current_decision_id); ("reason", JStr "DECISION_VERSION_CHANGED")] outbox_id now;
    mret true
  else mret false.

(** The loop, each intent with a drawn identifier for its event. *)
Fixpoint supersede_each (current_decision_id proposal_id : string) (outbox_ids : nat → string) (now : datetime)
    (intents : list IntentRow) : txp Z :=
  match intents with
  | [] => mret 0
  | intent :: intents =>
      changed ← supersede_intent current_decision_id proposal_id (outbox_ids O) now intent;
      n ← supersede_each current_decision_id proposal_id (λ i, outbox_ids (S i)) now intents;
      mret ((if changed : bool then 1 else 0) + n)
  end.

Definition supersede_intents_for_decision_change (purchase_request_id current_decision_id proposal_id : string)
    (outbox_ids : nat → string) (now : datetime) : txp Z :=
  intents ← read (λ s, List.filter (λ i, (wi_organization_id i ≟ organization_id) &&
      existsb (λ d, (wd_id d ≟ wi_decision_id i) && (wd_organization_id d ≟ organization_id) &&
                    (wd_purchase_request_id d ≟ purchase_request_id) && negb (wd_id d ≟ current_decision_id))
        (ca_decisions (ws_catalogue s))) (ws_intents s));
  supersede_each current_decision_id proposal_id outbox_ids now intents.
End repository.

(** ** Views *)

(** [payload.update({key: value})] *)
Fixpoint entry_update (key : string) (value : PyVal) (l : response) : response :=
  match l with
  | [] => [(key, value)]
  | (k, v) :: l => if k ≟ key then (k, value) :: l else (k, v) :: entry_update key value l
  end.

Definition _purchase_intent_view (i : IntentRow) : response :=
  foldl (λ l p, entry_update p.1 p.2 l) (wi_payload i)
    [("purchase_intent_id", VStr (wi_id i)); ("decision_id", VStr (wi_decision_id i));
     ("decision_hash", VStr (wi_decision_hash i)); ("solution_plan_id", VStr (wi_solution_plan_id i));
     ("quote_version", VInt (wi_quote_version i)); ("quote_expires_at", VStr (isoformat (wi_quote_expires_at i)));
     ("amount", VStr (decimal_text (wi_amount i))); ("currency", VStr (wi_currency i));
     ("expected_fulfillments", wi_expected_fulfillments i);
     ("approval_status", VStr (ApprovalStatus.value (wi_approval_status i)));
     ("intent_hash", VStr (wi_intent_hash i))].

Definition _approval_view (a : ApprovalRequestRow) : response :=
  [("id", VStr (wa_id a)); ("purchase_intent_id", VStr (wa_purchase_intent_id a));
   ("intent_hash", VStr (wa_intent_hash a)); ("status", VStr (ApprovalStatus.value (wa_status a)));
   ("required_roles", vstrs (wa_required_roles a)); ("approved_roles", vstrs (wa_approved_roles a));
   ("expires_at", VStr (isoformat (wa_expires_at a)))].

Definition _payment_handoff_view (h : PaymentHandoffRow) : response :=
  [("id", VStr (wh_id h)); ("purchase_intent_id", VStr (wh_purchase_intent_id h));
   ("approval_request_id", VStr (wh_approval_request_id h)); ("intent_hash", VStr (wh_intent_hash h));
   ("handoff_hash", VStr (wh_handoff_hash h)); ("destination_url", VStr (wh_destination_url h));
   ("recipient", VStr (wh_recipient h)); ("amount", VStr (decimal_text (wh_amount h)));
   ("currency", VStr (wh_currency h)); ("reference", VStr (wh_reference h));
   ("status", VStr (PaymentHandoffStatus.value (wh_status h))); ("expires_at", VStr (isoformat (wh_expires_at h)));
   ("opened_at", vopt (λ d, VStr (isoformat d)) (wh_opened_at h))].
