(* ===== verification/PurchaseProtocol.v ===== *)
(** * The purchase protocol

    What the requests of [PurchaseService] may do to the tables of intents,
    approval requests, approval events and handoffs, as the moves of a protocol
    on these four tables, and the invariant of its runs: every approval is
    bound to one intent, its approved roles are exactly the recorded approvals
    of distinct actors in the order of the policy, and every handoff was
    prepared for an intent whose approval was complete. *)
From S2P Require Import Prelude PyText PyNumber PyTime PyDate Enums Money Hashing DomainModels Tables.
From S2P Require Import Purchase.

Local Open Scope string_scope.
Local Open Scope Z_scope.

#[local] Notation "a ≟ b" := (bool_decide (a = b)) (at level 70).

(** ** Event keys *)

Definition colon_free (s : string) : Prop := ":"%char ∉ chars s.

Lemma chars_app s t : chars (s ++ t) = (chars s ++ chars t)%list.
Proof. induction s as [|c s IH]; [done|]. exact (f_equal (cons c) IH). Qed.

Lemma split_first (c : ascii) l1 l2 r1 r2 :
  c ∉ l1 → c ∉ l2 → (l1 ++ c :: r1 = l2 ++ c :: r2)%list → l1 = l2 ∧ r1 = r2.
Proof.
  revert l2. induction l1 as [|x l1 IH]; intros [|y l2] H1 H2 [=]; subst; try set_solver.
  edestruct (IH l2) as [-> ->]; set_solver.
Qed.

Lemma split_last (c : ascii) l1 l2 r1 r2 :
  c ∉ r1 → c ∉ r2 → (l1 ++ c :: r1 = l2 ++ c :: r2)%list → l1 = l2 ∧ r1 = r2.
Proof.
  intros H1 H2 E. apply (f_equal (@List.rev _)) in E. rewrite !List.rev_app_distr in E. cbn in E.
  rewrite <- !app_assoc in E. cbn in E.
  apply split_first in E as [Er El]; [|by rewrite list_elem_of_In, <- List.in_rev, <- list_elem_of_In..].
  by rewrite <- (List.rev_involutive r1), <- (List.rev_involutive l1), Er, El, !List.rev_involutive.
Qed.

(** The key of an event, as the requests write it. *)
Definition key_of (e : ApprovalEventRow) : string :=
  match we_action e with
  | ApprovalAction.APPROVE => "approve:" ++ we_approval_request_id e ++ ":" ++ we_actor_role e ++ ":" ++ we_actor_id e
  | ApprovalAction.REJECT => "reject:" ++ we_approval_request_id e ++ ":" ++ we_actor_role e ++ ":" ++ we_actor_id e
  | ApprovalAction.REVOKE => "revoke:" ++ we_approval_request_id e ++ ":" ++ we_actor_id e
  | ApprovalAction.DELEGATE => ""
  end.

Definition keyed (e : ApprovalEventRow) : Prop :=
  we_event_key e = key_of e ∧ colon_free (we_approval_request_id e) ∧ colon_free (we_actor_id e) ∧
  we_action e ≠ ApprovalAction.DELEGATE.

Lemma approve_key_unique e id role actor :
  keyed e → colon_free id → colon_free actor →
  we_event_key e = "approve:" ++ id ++ ":" ++ role ++ ":" ++ actor →
  we_action e = ApprovalAction.APPROVE ∧ we_approval_request_id e = id ∧ we_actor_role e = role.
Proof.
  intros (Ek & Hi & Ha & Hd) Hid Hactor E. rewrite Ek in E. unfold key_of in E. apply (f_equal chars) in E.
  destruct (we_action e) eqn:Et; try done. rewrite !chars_app in E.
  assert (∀ l1 l2 : list ascii, (chars "approve:" ++ l1 = chars "approve:" ++ l2)%list → l1 = l2) as Hp by (intros ?? [=]; done).
  apply Hp, (split_first ":"%char) in E as [Ei E]; [|done..].
  apply (split_last ":"%char) in E as [Er _]; [|done..].
  split; [done|]. split; by apply (inj chars).
Qed.

(** ** The protocol *)

(** The four tables. *)
Record core := mkCore {
  k_intents : list IntentRow;
  k_approvals : list ApprovalRequestRow;
  k_events : list ApprovalEventRow;
  k_handoffs : list PaymentHandoffRow
}.
Definition core_of (s : purchase_store) : core := mkCore (ws_intents s) (ws_approvals s) (ws_events s) (ws_handoffs s).

Definition set_intent (id : string) (status : ApprovalStatus.t) : list IntentRow → list IntentRow :=
  update_rows (λ i, wi_id i ≟ id) (with_intent_status status).
Definition set_request (id : string) (status : ApprovalStatus.t) (roles : list string)
  : list ApprovalRequestRow → list ApprovalRequestRow :=
  update_rows (λ a, wa_id a ≟ id) (with_approval status roles).

Definition final_statuses : list ApprovalStatus.t :=
  [ApprovalStatus.REJECTED; ApprovalStatus.REVOKED; ApprovalStatus.EXPIRED; ApprovalStatus.SUPERSEDED].
Definition requested_statuses : list ApprovalStatus.t :=
  ApprovalStatus.PENDING :: ApprovalStatus.APPROVED :: final_statuses.

Lemma final_not_open st : st ∈ final_statuses → st ∈ [ApprovalStatus.PENDING; ApprovalStatus.APPROVED] → False.
Proof. rewrite <- !py_in_true. by destruct st. Qed.

Lemma requested_open st :
  st ∈ requested_statuses →
  st ∈ [ApprovalStatus.NOT_REQUESTED; ApprovalStatus.PENDING; ApprovalStatus.APPROVED] →
  st ∈ [ApprovalStatus.PENDING; ApprovalStatus.APPROVED].
Proof. rewrite <- !py_in_true. by destruct st. Qed.

(** The recorded approvals of a request. *)
Definition approvals_of (id : string) (events : list ApprovalEventRow) : list ApprovalEventRow :=
  List.filter (λ e, (we_approval_request_id e ≟ id) && (we_action e ≟ ApprovalAction.APPROVE)) events.

(** An approval request is for exactly this intent. *)
Definition binds (i : IntentRow) (a : ApprovalRequestRow) : Prop :=
  wa_purchase_intent_id a = wi_id i ∧ wa_organization_id a = wi_organization_id i ∧ wa_intent_hash a = wi_intent_hash i.

(** A handoff carries what the approved intent says. *)
Definition pays (a : ApprovalRequestRow) (i : IntentRow) (h : PaymentHandoffRow) : Prop :=
  wh_approval_request_id h = wa_id a ∧ wh_purchase_intent_id h = wi_id i ∧
  wh_organization_id h = wi_organization_id i ∧ wh_intent_hash h = wi_intent_hash i ∧
  Money_new (MDecimal (wi_amount i)) (wi_currency i) = Ok (mkMoney (wh_amount h) (wh_currency h)) ∧
  wh_destination_url h = wi_merchant_url i ∧ wh_recipient h = wi_merchant_name i ∧
  wh_reference h = "SIRA-" ++ wi_id i ∧ instant (wh_expires_at h) <= instant (wa_expires_at a).

(** A handoff has a time of opening exactly when it is open, before it expires. *)
Definition opened_in_time (h : PaymentHandoffRow) : Prop :=
  match wh_opened_at h with
  | Some t => wh_status h = PaymentHandoffStatus.OPENED ∧ instant t < instant (wh_expires_at h)
  | None => wh_status h ≠ PaymentHandoffStatus.OPENED
  end.

Section protocol.
(** The roles an organisation's actors hold, as their identities are verified. *)
Context (holds : string → string → string → Prop).

Inductive move (c : core) : core → Prop :=
| move_lock i :
    wi_approval_status i = ApprovalStatus.NOT_REQUESTED → (∀ j, j ∈ k_intents c → wi_id j ≠ wi_id i) →
    move c (mkCore (k_intents c ++ [i])%list (k_approvals c) (k_events c) (k_handoffs c))
| move_request i a :
    i ∈ k_intents c → wi_approval_status i = ApprovalStatus.NOT_REQUESTED → binds i a →
    wa_status a = ApprovalStatus.PENDING → wa_approved_roles a = [] → wa_required_roles a ≠ [] →
    NoDup (wa_required_roles a) → (∀ b, b ∈ k_approvals c → wa_id b ≠ wa_id a) → colon_free (wa_id a) →
    move c (mkCore (set_intent (wi_id i) ApprovalStatus.PENDING (k_intents c)) (k_approvals c ++ [a])%list
             (k_events c) (k_handoffs c))
| move_approve i a e status :
    i ∈ k_intents c → a ∈ k_approvals c → binds i a → wa_status a ∈ [ApprovalStatus.PENDING; ApprovalStatus.APPROVED] →
    wa_required_roles a !! length (wa_approved_roles a) = Some (we_actor_role e) →
    we_approval_request_id e = wa_id a → we_organization_id e = wa_organization_id a →
    we_intent_hash e = wa_intent_hash a → we_action e = ApprovalAction.APPROVE → keyed e →
    (∀ e', e' ∈ approvals_of (wa_id a) (k_events c) → we_actor_id e' ≠ we_actor_id e) →
    holds (we_organization_id e) (we_actor_id e) (we_actor_role e) →
    status = (if (wa_approved_roles a ++ [we_actor_role e])%list ≟ wa_required_roles a then ApprovalStatus.APPROVED
              else wa_status a) →
    move c (mkCore (set_intent (wi_id i) status (k_intents c))
             (set_request (wa_id a) status (wa_approved_roles a ++ [we_actor_role e])%list (k_approvals c))
             (k_events c ++ [e])%list (k_handoffs c))
| move_close i a status events :
    i ∈ k_intents c → a ∈ k_approvals c → binds i a → status ∈ final_statuses →
    (∀ e, e ∈ events → keyed e ∧ we_action e ≠ ApprovalAction.APPROVE ∧ we_approval_request_id e = wa_id a) →
    move c (mkCore (set_intent (wi_id i) status (k_intents c))
             (set_request (wa_id a) status (wa_approved_roles a) (k_approvals c))
             (k_events c ++ events)%list (k_handoffs c))
| move_withdraw i :
    i ∈ k_intents c → (∀ a, a ∈ k_approvals c → wa_purchase_intent_id a ≠ wi_id i) →
    move c (mkCore (set_intent (wi_id i) ApprovalStatus.SUPERSEDED (k_intents c)) (k_approvals c)
             (k_events c) (k_handoffs c))
| move_cancel which :
    move c (mkCore (k_intents c) (k_approvals c) (k_events c)
             (update_rows (λ h, which h && (wh_status h ≟ PaymentHandoffStatus.READY))
                (λ h, with_handoff_status PaymentHandoffStatus.CANCELLED (wh_opened_at h) h) (k_handoffs c)))
| move_prepare i a h :
    i ∈ k_intents c → a ∈ k_approvals c → binds i a → wa_status a = ApprovalStatus.APPROVED →
    pays a i h → wh_status h = PaymentHandoffStatus.READY → wh_opened_at h = None →
    (∀ g, g ∈ k_handoffs c → wh_id g ≠ wh_id h) →
    move c (mkCore (k_intents c) (k_approvals c) (k_events c) (k_handoffs c ++ [h])%list)
| move_open i a h t :
    i ∈ k_intents c → a ∈ k_approvals c → binds i a → h ∈ k_handoffs c →
    wh_approval_request_id h = wa_id a → wh_purchase_intent_id h = wi_id i →
    wa_status a = ApprovalStatus.APPROVED → wi_approval_status i = ApprovalStatus.APPROVED →
    wh_status h = PaymentHandoffStatus.READY → instant t < instant (wh_expires_at h) →
    move c (mkCore (k_intents c) (k_approvals c) (k_events c)
             (update_rows (λ g, wh_id g ≟ wh_id h) (with_handoff_status PaymentHandoffStatus.OPENED (Some t)) (k_handoffs c))).

(** ** The invariant *)

(** The approved roles are the recorded approvals: in the order of the policy,
    by distinct actors who hold the roles, of the exact hash. *)
Record signed (events : list ApprovalEventRow) (a : ApprovalRequestRow) : Prop := {
  sg_policy : wa_required_roles a ≠ [] ∧ NoDup (wa_required_roles a);
  sg_roles : wa_approved_roles a = we_actor_role <$> approvals_of (wa_id a) events;
  sg_order : wa_approved_roles a `prefix_of` wa_required_roles a;
  sg_actors : NoDup (we_actor_id <$> approvals_of (wa_id a) events);
  sg_exact e : e ∈ approvals_of (wa_id a) events →
    we_intent_hash e = wa_intent_hash a ∧ we_organization_id e = wa_organization_id a ∧
    holds (we_organization_id e) (we_actor_id e) (we_actor_role e);
  sg_status : wa_status a ∈ requested_statuses;
  sg_complete : wa_status a = ApprovalStatus.APPROVED → wa_approved_roles a = wa_required_roles a;
  sg_id : colon_free (wa_id a)
}.

Record protocol_ok (c : core) : Prop := {
  po_intents : NoDup (wi_id <$> k_intents c);
  po_approvals : NoDup (wa_id <$> k_approvals c);
  po_one : NoDup (wa_purchase_intent_id <$> k_approvals c);
  po_handoffs : NoDup (wh_id <$> k_handoffs c);
  po_bound a : a ∈ k_approvals c → ∃ i, i ∈ k_intents c ∧ binds i a ∧ wi_approval_status i = wa_status a;
  po_signed a : a ∈ k_approvals c → signed (k_events c) a;
  po_event e : e ∈ k_events c → keyed e ∧ ∃ a, a ∈ k_approvals c ∧ wa_id a = we_approval_request_id e;
  po_handoff h : h ∈ k_handoffs c → opened_in_time h ∧
    ∃ a i, a ∈ k_approvals c ∧ i ∈ k_intents c ∧ binds i a ∧ pays a i h ∧ wa_approved_roles a = wa_required_roles a
}.

(** ** Rows updated in place *)

Lemma key_unique {A B} (key : A → B) l x y : NoDup (key <$> l) → x ∈ l → y ∈ l → key x = key y → x = y.
Proof.
  intros Hn (n & Hx)%list_elem_of_lookup (m & Hy)%list_elem_of_lookup E.
  assert (n = m) as ->; [|by rewrite Hx in Hy; injection Hy].
  eapply NoDup_lookup; [exact Hn|by rewrite list_lookup_fmap, Hx|by rewrite list_lookup_fmap, Hy; cbn; rewrite E].
Qed.

Lemma fmap_update {A B} (key : A → B) w f l : (∀ x, key (f x) = key x) → key <$> update_rows w f l = key <$> l.
Proof.
  intros Hf. unfold update_rows. change (List.map ?g l) with (g <$> l). rewrite <- list_fmap_compose.
  apply list_fmap_ext. intros _ x _. cbn. by destruct (w x).
Qed.

Lemma NoDup_snoc_fmap {A B} (key : A → B) l x :
  NoDup (key <$> l) → (∀ y, y ∈ l → key y ≠ key x) → NoDup (key <$> (l ++ [x])%list).
Proof.
  intros Hn Hx. rewrite fmap_app. apply NoDup_app. split; [done|]. split; [|cbn; apply NoDup_singleton].
  intros k (y & -> & Hy)%list_elem_of_fmap Hk. cbn in Hk. rewrite list_elem_of_singleton in Hk. by apply (Hx y).
Qed.

Lemma set_intent_in id status l i :
  i ∈ l → ∃ i', i' ∈ set_intent id status l ∧ i' = if bool_decide (wi_id i = id) then with_intent_status status i else i.
Proof. intros Hi. eexists. split; [|done]. apply elem_of_update_rows. by exists i. Qed.

Lemma set_request_in id status roles l a :
  a ∈ l → ∃ a', a' ∈ set_request id status roles l ∧ a' = if bool_decide (wa_id a = id) then with_approval status roles a else a.
Proof. intros Ha. eexists. split; [|done]. apply elem_of_update_rows. by exists a. Qed.

Lemma binds_keeps i a s1 s2 roles : binds i a → binds (with_intent_status s1 i) (with_approval s2 roles a).
Proof. done. Qed.

Lemma approvals_of_app id l k : approvals_of id (l ++ k) = (approvals_of id l ++ approvals_of id k)%list.
Proof. apply List.filter_app. Qed.

Lemma elem_of_approvals_of id l e :
  e ∈ approvals_of id l ↔ e ∈ l ∧ we_approval_request_id e = id ∧ we_action e = ApprovalAction.APPROVE.
Proof. unfold approvals_of. rewrite elem_of_lfilter, andb_true_iff, !bool_decide_eq_true. done. Qed.

Lemma approvals_of_none id l :
  (∀ e, e ∈ l → we_approval_request_id e ≠ id ∨ we_action e ≠ ApprovalAction.APPROVE) → approvals_of id l = [].
Proof.
  intros Hl. destruct (approvals_of id l) as [|e k] eqn:E; [done|].
  assert (e ∈ e :: k) as He by left. rewrite <- E in He. apply elem_of_approvals_of in He as (He & ? & ?).
  by destruct (Hl e He).
Qed.

(** Events of others do not count. *)
Lemma signed_ext l k a : approvals_of (wa_id a) k = [] → signed l a → signed (l ++ k) a.
Proof.
  intros Hk [? ? ? ? ? ? ? ?]. split; try done; rewrite approvals_of_app, Hk, app_nil_r; done.
Qed.

Lemma signed_incomplete l a role :
  signed l a → wa_required_roles a !! length (wa_approved_roles a) = Some role →
  wa_approved_roles a ≠ wa_required_roles a ∧ role ∉ wa_approved_roles a ∧
  prefix (wa_approved_roles a ++ [role])%list (wa_required_roles a).
Proof.
  intros Hs Hr. destruct (sg_order _ _ Hs) as [k Hk]. destruct (sg_policy _ _ Hs) as [_ Hd].
  rewrite Hk in Hr, Hd |- *. rewrite lookup_app_r, Nat.sub_diag in Hr by lia.
  destruct k as [|r k]; [done|]. injection Hr as ->. split_and!.
  - intros E. apply (f_equal length) in E. rewrite length_app in E. cbn in E. lia.
  - apply NoDup_app in Hd as (_ & Hd & _). intros Hin. apply (Hd role Hin). left.
  - exists k. by rewrite <- app_assoc.
Qed.

(** ** The invariant is kept *)

(** One approval and its intent move together. *)
Lemma ok_advance c i a status roles events :
  protocol_ok c → i ∈ k_intents c → a ∈ k_approvals c → binds i a →
  (∀ e, e ∈ events → keyed e ∧ we_approval_request_id e = wa_id a) →
  signed (k_events c ++ events) (with_approval status roles a) →
  (wa_approved_roles a = wa_required_roles a → roles = wa_approved_roles a) →
  protocol_ok (mkCore (set_intent (wi_id i) status (k_intents c)) (set_request (wa_id a) status roles (k_approvals c))
                 (k_events c ++ events)%list (k_handoffs c)).
Proof.
  intros Hc Hi Ha Hb Hev Hs Hroles.
  assert (∀ b, b ∈ k_approvals c → wa_purchase_intent_id b = wi_id i → b = a) as Hsame.
  { intros b Hb' Ebi. eapply (key_unique wa_purchase_intent_id); [apply (po_one _ Hc)|done..|]. destruct Hb as [-> _]. done. }
  assert (∀ b, b ∈ k_approvals c → wa_id b = wa_id a → b = a) as Hid by (intros b Hb' E; by eapply (key_unique wa_id); [apply (po_approvals _ Hc)|..]).
  assert (∀ j, j ∈ k_intents c → wi_id j = wi_id i → j = i) as Hiid by (intros j Hj E; by eapply (key_unique wi_id); [apply (po_intents _ Hc)|..]).
  split; cbn [k_intents k_approvals k_events k_handoffs].
  - unfold set_intent. rewrite fmap_update by done. apply (po_intents _ Hc).
  - unfold set_request. rewrite fmap_update by done. apply (po_approvals _ Hc).
  - unfold set_request. rewrite fmap_update by done. apply (po_one _ Hc).
  - apply (po_handoffs _ Hc).
  - intros b (b0 & Hb0 & ->)%elem_of_update_rows. destruct (po_bound _ Hc b0 Hb0) as (j & Hj & Hbj & Est).
    destruct (set_intent_in (wi_id i) status _ j Hj) as (j' & Hj' & ->). eexists. split; [exact Hj'|].
    case_bool_decide as E1; case_bool_decide as E2.
    + split; [exact Hbj|done].
    + exfalso. apply E2. destruct Hbj as [Hbj _]. rewrite (Hsame b0 Hb0); [done|]. by rewrite Hbj.
    + exfalso. apply E1. destruct Hbj as [Hbj _]. rewrite <- Hbj, (Hid b0 Hb0 E2). apply Hb.
    + done.
  - intros b (b0 & Hb0 & ->)%elem_of_update_rows. case_bool_decide as E; [by rewrite (Hid b0 Hb0 E)|].
    apply signed_ext; [|by apply (po_signed _ Hc)]. apply approvals_of_none. intros e He. left.
    destruct (Hev e He) as [_ ->]. done.
  - intros e [He|He]%elem_of_app.
    + destruct (po_event _ Hc e He) as (Hk & b & Hb0 & Eb). split; [done|].
      destruct (set_request_in (wa_id a) status roles _ b Hb0) as (b' & Hb' & ->). eexists. split; [exact Hb'|].
      by case_bool_decide.
    + destruct (Hev e He) as [Hk Eb]. split; [done|].
      destruct (set_request_in (wa_id a) status roles _ a Ha) as (b' & Hb' & ->). eexists. split; [exact Hb'|].
      by case_bool_decide.
  - intros h Hh. destruct (po_handoff _ Hc h Hh) as (Ho & b & j & Hb0 & Hj & Hbj & Hp & Hr). split; [done|].
    destruct (set_request_in (wa_id a) status roles _ b Hb0) as (b' & Hb' & ->).
    destruct (set_intent_in (wi_id i) status _ j Hj) as (j' & Hj' & ->). do 2 eexists. split; [exact Hb'|]. split; [exact Hj'|].
    case_bool_decide as E1; case_bool_decide as E2; split_and!; try done; rewrite (Hid b Hb0 E2) in *; cbn; by rewrite Hroles.
Qed.

Lemma ok_lock c i :
  protocol_ok c → (∀ j, j ∈ k_intents c → wi_id j ≠ wi_id i) →
  protocol_ok (mkCore (k_intents c ++ [i])%list (k_approvals c) (k_events c) (k_handoffs c)).
Proof.
  intros [? ? ? ? Hb Hs He Hh] Hn. split; try done; cbn [k_intents k_approvals k_events k_handoffs].
  - by apply NoDup_snoc_fmap.
  - intros a (j & Hj & ?)%Hb. exists j. rewrite elem_of_app. auto.
  - intros h (Ho & a & j & ? & Hj & ?)%Hh. split; [done|]. exists a, j. rewrite elem_of_app. auto.
Qed.

Lemma ok_request c i a :
  protocol_ok c → i ∈ k_intents c → wi_approval_status i = ApprovalStatus.NOT_REQUESTED → binds i a →
  wa_status a = ApprovalStatus.PENDING → wa_approved_roles a = [] → wa_required_roles a ≠ [] →
  NoDup (wa_required_roles a) → (∀ b, b ∈ k_approvals c → wa_id b ≠ wa_id a) → colon_free (wa_id a) →
  protocol_ok (mkCore (set_intent (wi_id i) ApprovalStatus.PENDING (k_intents c)) (k_approvals c ++ [a])%list
                 (k_events c) (k_handoffs c)).
Proof.
  intros Hc Hi Hst Hb Ha Hr Hne Hnd Hfresh Hcf.
  assert (∀ b, b ∈ k_approvals c → wa_purchase_intent_id b ≠ wi_id i) as Hfirst.
  { intros b Hin Eb. destruct (po_bound _ Hc b Hin) as (j & Hj & [Ej _] & Es).
    assert (j = i) as -> by (eapply (key_unique wi_id); [apply (po_intents _ Hc)|done..|congruence]).
    pose proof (sg_status _ _ (po_signed _ Hc b Hin)) as Hreq. rewrite <- Es, Hst in Hreq. set_solver. }
  split; cbn [k_intents k_approvals k_events k_handoffs].
  - unfold set_intent. rewrite fmap_update by done. apply (po_intents _ Hc).
  - apply NoDup_snoc_fmap; [apply (po_approvals _ Hc)|done].
  - apply NoDup_snoc_fmap; [apply (po_one _ Hc)|]. intros b Hin. destruct Hb as [-> _]. by apply Hfirst.
  - apply (po_handoffs _ Hc).
  - intros b [Hin| ->%list_elem_of_singleton]%elem_of_app.
    + destruct (po_bound _ Hc b Hin) as (j & Hj & Hbj & Es).
      destruct (set_intent_in (wi_id i) ApprovalStatus.PENDING _ j Hj) as (j' & Hj' & ->). exists j.
      case_bool_decide as E; [|done]. destruct (Hfirst b Hin). destruct Hbj as [-> _]. done.
    + destruct (set_intent_in (wi_id i) ApprovalStatus.PENDING _ i Hi) as (i' & Hi' & ->). eexists. split; [exact Hi'|].
      rewrite bool_decide_eq_true_2 by done. by rewrite Ha.
  - intros b [Hin| ->%list_elem_of_singleton]%elem_of_app; [by apply (po_signed _ Hc)|].
    assert (approvals_of (wa_id a) (k_events c) = []) as Hno.
    { apply approvals_of_none. intros e (_ & b & Hin & <-)%(po_event _ Hc). left. by apply Hfresh. }
    split; rewrite ?Hno, ?Hr, ?Ha; try done; [apply prefix_nil|constructor|intros e He; set_solver|set_solver].
  - intros e (Hk & b & Hin & Eb)%(po_event _ Hc). split; [done|]. exists b. rewrite elem_of_app. auto.
  - intros h (Ho & b & j & Hin & Hj & Hbj & Hp)%(po_handoff _ Hc). split; [done|].
    destruct (set_intent_in (wi_id i) ApprovalStatus.PENDING _ j Hj) as (j' & Hj' & ->). do 2 eexists.
    rewrite elem_of_app. split; [by left|]. split; [exact Hj'|]. by case_bool_decide.
Qed.

Lemma ok_withdraw c i :
  protocol_ok c → i ∈ k_intents c → (∀ a, a ∈ k_approvals c → wa_purchase_intent_id a ≠ wi_id i) →
  protocol_ok (mkCore (set_intent (wi_id i) ApprovalStatus.SUPERSEDED (k_intents c)) (k_approvals c)
                 (k_events c) (k_handoffs c)).
Proof.
  intros Hc Hi Hno. split; cbn [k_intents k_approvals k_events k_handoffs]; try apply Hc.
  - unfold set_intent. rewrite fmap_update by done. apply (po_intents _ Hc).
  - intros a Hin. destruct (po_bound _ Hc a Hin) as (j & Hj & Hbj & Es).
    destruct (set_intent_in (wi_id i) ApprovalStatus.SUPERSEDED _ j Hj) as (j' & Hj' & ->). exists j.
    case_bool_decide as E; [|done]. destruct (Hno a Hin). destruct Hbj as [-> _]. done.
  - intros h (Ho & b & j & Hin & Hj & Hbj & Hp)%(po_handoff _ Hc). split; [done|].
    destruct (set_intent_in (wi_id i) ApprovalStatus.SUPERSEDED _ j Hj) as (j' & Hj' & ->). exists b. eexists.
    split; [done|]. split; [exact Hj'|]. by case_bool_decide.
Qed.

(** Handoffs change their status and time of opening only. *)
Lemma ok_handoffs c w f :
  protocol_ok c →
  (∀ h, ∃ st t, f h = with_handoff_status st t h) →
  (∀ h, h ∈ k_handoffs c → w h = true → opened_in_time (f h)) →
  protocol_ok (mkCore (k_intents c) (k_approvals c) (k_events c) (update_rows w f (k_handoffs c))).
Proof.
  intros Hc Hf Hw. split; cbn [k_intents k_approvals k_events k_handoffs]; try apply Hc.
  - rewrite fmap_update; [apply Hc|]. intros h. by destruct (Hf h) as (st & t & ->).
  - intros h (h0 & Hin & ->)%elem_of_update_rows. destruct (po_handoff _ Hc h0 Hin) as (Ho & b & j & ? & ? & ? & Hp).
    destruct (w h0) eqn:E; [|by split; [|exists b, j]]. split; [by apply Hw|]. exists b, j.
    destruct (Hf h0) as (st & t & ->). done.
Qed.

Lemma ok_prepare c i a h :
  protocol_ok c → i ∈ k_intents c → a ∈ k_approvals c → binds i a → wa_status a = ApprovalStatus.APPROVED →
  pays a i h → wh_status h = PaymentHandoffStatus.READY → wh_opened_at h = None →
  (∀ g, g ∈ k_handoffs c → wh_id g ≠ wh_id h) →
  protocol_ok (mkCore (k_intents c) (k_approvals c) (k_events c) (k_handoffs c ++ [h])%list).
Proof.
  intros Hc Hi Ha Hb Hst Hp Hr Ht Hn. split; cbn [k_intents k_approvals k_events k_handoffs]; try apply Hc.
  - apply NoDup_snoc_fmap; [apply Hc|done].
  - intros g [Hg| ->%list_elem_of_singleton]%elem_of_app; [by apply (po_handoff _ Hc)|].
    split; [unfold opened_in_time; by rewrite Ht, Hr|]. exists a, i. split_and!; try done.
    by eapply sg_complete; [by apply (po_signed _ Hc)|].
Qed.

Lemma signed_approved c a e status :
  protocol_ok c → a ∈ k_approvals c → wa_status a ∈ [ApprovalStatus.PENDING; ApprovalStatus.APPROVED] →
  wa_required_roles a !! length (wa_approved_roles a) = Some (we_actor_role e) →
  we_approval_request_id e = wa_id a → we_organization_id e = wa_organization_id a →
  we_intent_hash e = wa_intent_hash a → we_action e = ApprovalAction.APPROVE →
  (∀ e', e' ∈ approvals_of (wa_id a) (k_events c) → we_actor_id e' ≠ we_actor_id e) →
  holds (we_organization_id e) (we_actor_id e) (we_actor_role e) →
  status = (if bool_decide (wa_approved_roles a ++ [we_actor_role e] = wa_required_roles a)%list then ApprovalStatus.APPROVED
            else wa_status a) →
  signed (k_events c ++ [e])%list (with_approval status (wa_approved_roles a ++ [we_actor_role e])%list a).
Proof.
  intros Hc Ha Hst Hr Eid Eorg Eh Eact Hnew Hholds ->. pose proof (po_signed _ Hc a Ha) as Hs.
  destruct (signed_incomplete _ _ _ Hs Hr) as (Hne & _ & Hpre).
  assert (approvals_of (wa_id a) (k_events c ++ [e]) = approvals_of (wa_id a) (k_events c) ++ [e])%list as Eap.
  { rewrite approvals_of_app. f_equal. cbn. by rewrite !bool_decide_eq_true_2. }
  split; cbn [wa_required_roles wa_approved_roles wa_status wa_id wa_intent_hash wa_organization_id with_approval]; rewrite ?Eap.
  - apply Hs.
  - rewrite fmap_app. cbn. f_equal. apply (sg_roles _ _ Hs).
  - done.
  - apply NoDup_snoc_fmap; [apply (sg_actors _ _ Hs)|done].
  - intros e' [He| ->%list_elem_of_singleton]%elem_of_app; [by apply (sg_exact _ _ Hs)|done].
  - case_bool_decide; [|apply Hs]. unfold requested_statuses. set_solver.
  - case_bool_decide; [done|]. intros E. by apply (sg_complete _ _ Hs) in E.
  - apply Hs.
Qed.

Lemma signed_closed c a status events :
  protocol_ok c → a ∈ k_approvals c → status ∈ final_statuses →
  (∀ e, e ∈ events → we_action e ≠ ApprovalAction.APPROVE) →
  signed (k_events c ++ events) (with_approval status (wa_approved_roles a) a).
Proof.
  intros Hc Ha Hst Hev. apply signed_ext; [apply approvals_of_none; intros e He; right; by apply Hev|].
  destruct (po_signed _ Hc a Ha). split; try done.
  - cbn. by do 2 right.
  - cbn. intros ->. exfalso. eapply final_not_open; [exact Hst|]. apply list_elem_of_further, list_elem_of_here.
Qed.

Lemma move_ok c c' : protocol_ok c → move c c' → protocol_ok c'.
Proof.
  intros Hc [i Hst Hn|i a Hi Hst Hb Ha Hr Hne Hd Hf Hcf|i a e status Hi Ha Hb Hst Hr Eid Eorg Eh Eact Hk Hnew Hh ->
    |i a status events Hi Ha Hb Hst Hev|i Hi Hno|which|i a h Hi Ha Hb Hst Hp Hr Ht Hn
    |i a h t Hi Ha Hb Hh Eha Ehi Hst Hist Hr Ht].
  - by apply ok_lock.
  - by apply ok_request.
  - apply ok_advance; try done; [intros e' ->%list_elem_of_singleton; done|by eapply signed_approved|].
    intros E. by destruct (signed_incomplete _ _ _ (po_signed _ Hc a Ha) Hr) as (? & _).
  - apply ok_advance; try done; [intros e He; by destruct (Hev e He) as (? & _ & ?)|].
    apply signed_closed; try done. intros e He. by destruct (Hev e He) as (_ & ? & _).
  - by apply ok_withdraw.
  - apply ok_handoffs; [done|intros h; by eexists _, _|].
    intros h Hin [_ Er%bool_decide_eq_true]%andb_true_iff. destruct (po_handoff _ Hc h Hin) as [Ho _].
    unfold opened_in_time in *. cbn. destruct (wh_opened_at h); [by destruct Ho; congruence|done].
  - by eapply ok_prepare.
  - apply ok_handoffs; [done|intros g; by eexists _, _|].
    intros g Hin Eg%bool_decide_eq_true. split; [done|].
    by rewrite (key_unique wh_id _ _ _ (po_handoffs _ Hc) Hin Hh Eg).
Qed.

Lemma moves_ok c c' : protocol_ok c → rtc move c c' → protocol_ok c'.
Proof. induction 2 as [|? ? ? Hm _ IH]; [done|]. apply IH. by eapply move_ok. Qed.

Definition empty_core : core := mkCore [] [] [] [].

Lemma empty_ok : protocol_ok empty_core.
Proof. split; try apply NoDup_nil_2; intros ? ?%elem_of_nil; done. Qed.

(** ** What never comes back *)

(** A final approval stays final, with the roles it had. *)
Definition finalised (a a' : ApprovalRequestRow) : Prop :=
  wa_id a' = wa_id a ∧ wa_status a' ∈ final_statuses ∧ wa_approved_roles a' = wa_approved_roles a.

Lemma finalised_set a id status roles :
  wa_status a ∈ final_statuses → (wa_id a = id → status ∈ final_statuses ∧ roles = wa_approved_roles a) →
  finalised a (if bool_decide (wa_id a = id) then with_approval status roles a else a).
Proof. intros Hf Hs. case_bool_decide as E; [|done]. destruct (Hs E) as [? ->]. done. Qed.

Lemma move_final c c' a :
  protocol_ok c → move c c' → a ∈ k_approvals c → wa_status a ∈ final_statuses →
  ∃ a', a' ∈ k_approvals c' ∧ finalised a a'.
Proof.
  intros Hc Hm Ha Hf. assert (finalised a a) as Hself by done.
  destruct Hm as [i Hst Hn|i b Hi Hst Hb Hs Hr Hne Hd Hfr Hcf|i b e status Hi Hb Hbi Hst Hr Eid Eorg Eh Eact Hk Hnew Hh ->
    |i b status events Hi Hb Hbi Hst Hev|i Hi Hno|which|i b h Hi Hb Hbi Hst Hp Hr Ht Hn|i b h t Hi Hb Hbi Hh Eha Ehi Hst Hist Hr Ht];
    cbn [k_approvals]; try (by exists a).
  - exists a. rewrite elem_of_app. auto.
  - eexists. split; [apply elem_of_update_rows; by exists a|]. apply finalised_set; [done|].
    intros E. exfalso. rewrite (key_unique wa_id _ _ _ (po_approvals _ Hc) Ha Hb E) in Hf. by eapply final_not_open.
  - eexists. split; [apply elem_of_update_rows; by exists a|]. apply finalised_set; [done|].
    intros E. by rewrite (key_unique wa_id _ _ _ (po_approvals _ Hc) Ha Hb E).
Qed.

Lemma moves_final c c' a :
  protocol_ok c → rtc move c c' → a ∈ k_approvals c → wa_status a ∈ final_statuses →
  ∃ a', a' ∈ k_approvals c' ∧ finalised a a'.
Proof.
  intros Hc Hm. revert Hc a. induction Hm as [c|c c1 c2 Hm _ IH]; intros Hc a Ha Hf; [by exists a|].
  destruct (move_final _ _ _ Hc Hm Ha Hf) as (b & Hb & E1 & Hfb & Eb).
  destruct (IH (move_ok _ _ Hc Hm) b Hb Hfb) as (d & Hd & E2 & Hfd & Ed). exists d. split; [done|].
  split_and!; [congruence|done|congruence].
Qed.
End protocol.
