(* ===== verification/PurchaseService.v ===== *)
(** * Purchase requests: [sira_api/service.py]

    Each request that moves a purchase, as the service runs it: locking a
    Purchase Intent, asking for its approval, approving, rejecting and revoking
    it, preparing and opening the payment handoff, and reading where the
    purchase stands.  A request is a program of transactions on the store of
    [Purchase]; its clock readings and drawn identifiers are arguments. *)
From S2P Require Import Prelude PyText PyNumber PyTime PyDate Enums Money Hashing DomainModels StateMachines Tables.
From S2P Require Import Database Outbox Terms Purchase.

Local Open Scope string_scope.
Local Open Scope Z_scope.

#[local] Notation "a ≟ b" := (bool_decide (a = b)) (at level 70).

(** ** Reading payloads *)

(** [payload[key]] *)
Definition at_key (key : string) (payload : list (string * PyVal)) : result PyVal :=
  match dict_get key payload with Some v => Ok v | None => Raise (KeyError key) end.
Definition item_of (value : PyVal) (key : string) : result PyVal :=
  match value with
  | VDict l => match get key l with Some v => Ok v | None => Raise (KeyError key) end
  | _ => Raise TypeError
  end.
(** A value for a text or integer column; the driver rejects other types. *)
Definition as_text (v : PyVal) : result string := match v with VStr s => Ok s | _ => Raise TypeError end.
Definition as_int (v : PyVal) : result Z := match v with VInt n => Ok n | _ => Raise TypeError end.
Definition text_at (key : string) (payload : list (string * PyVal)) : result string := v ← at_key key payload; as_text v.
Definition int_at (key : string) (payload : list (string * PyVal)) : result Z := v ← at_key key payload; as_int v.
(** [Decimal(value)] *)
Definition decimal_of (v : PyVal) : result Decimal :=
  match v with
  | VDecimal d => Ok d
  | VInt n => Ok (DFinite n 0)
  | VStr s => decimal_of_string s
  | _ => Raise TypeError
  end.
(** [int(value)] *)
Definition int_of (v : PyVal) : result Z :=
  match v with
  | VInt n => Ok n
  | VBool b => Ok (if b then 1 else 0)
  | VStr s =>
      let '(neg, l) := take_sign (strip_chars (chars s)) in
      let '(ds, rest) := take_digits [] l in
      match ds, rest with
      | _ :: _, [] => Ok (apply_sign neg (digits_val ds))
      | _, _ => Raise (ValueError "invalid literal for int()")
      end
  | _ => Raise TypeError
  end.

(** The check constraints of the tables. *)
Definition intent_row_ok (i : IntentRow) : bool :=
  (1 <=? wi_quote_version i) && negb (py_lt (wi_amount i) (DFinite 0 0)) && (wi_currency i ≟ upper (wi_currency i)).
Definition handoff_row_ok (h : PaymentHandoffRow) : bool :=
  negb (py_lt (wh_amount h) (DFinite 0 0)) && (wh_currency h ≟ upper (wh_currency h)) &&
  Bool.eqb (wh_status h ≟ PaymentHandoffStatus.OPENED) (negb (is_none (wh_opened_at h))).

(** ** Requests *)

(** Identifiers a request draws. *)
Record PurchaseIds := mkPurchaseIds { di_claim : string; di_record : string; di_event : string; di_outbox : string }.

(** A request's body, with its identifier, as it is hashed. *)
Notation entries := (list (string * PyVal)) (only parsing).

Section requests.
Context `{Rfc8785} `{BracketedHosts} `{IsoFormat}.
Context (organization_id : string).

Definition _missing (kind : string) : exn := api (kind ++ "_NOT_FOUND") 404.

(** [self._not_found(awaitable, kind)] *)
Definition _not_found {A} (m : txp A) (kind : string) : txp A := λ s,
  match m s with Raise (RecordNotFound _) => Raise (_missing kind) | r => r end.

Definition _require_current_decision (decision : DecisionRow) : txp unit :=
  current ← read (λ s, select_latest wd_version (λ d, (wd_organization_id d ≟ organization_id) &&
      (wd_purchase_request_id d ≟ wd_purchase_request_id decision)) (ca_decisions (ws_catalogue s)));
  d ← require current (RuntimeError "No row was found when one was required");
  api_when (negb (wd_id d ≟ wd_id decision)) "DECISION_SUPERSEDED" 409.

(** The selection of a decision, or the one it implies. *)
Definition selection_of (decision : DecisionRow) : string :=
  match get "selection" (wd_payload decision) with
  | Some (VDict selection) =>
      match get "selection_id" selection with Some (VStr s) => s | _ => "selection_" ++ wd_id decision end
  | _ => "selection_" ++ wd_id decision
  end.

(** The row of a locked payload. *)
Definition intent_of_payload (decision : DecisionRow) (plan_id patch_id : string) (payload : entries) : result IntentRow :=
  merchant ← at_key "merchant" payload;
  id ← text_at "purchase_intent_id" payload;
  hash ← text_at "intent_hash" payload;
  merchant_id ← (v ← item_of merchant "merchant_id"; as_text v);
  name ← (v ← item_of merchant "name"; as_text v);
  url ← (v ← item_of merchant "url"; as_text v);
  chain ← text_at "approved_merchant_chain_id" payload;
  pack ← text_at "pack_id" payload; pack_version ← int_at "pack_version" payload;
  offer ← text_at "offer_id" payload; offer_version ← int_at "offer_version" payload;
  quote ← text_at "quote_id" payload; quote_version ← int_at "quote_version" payload;
  expiry_text ← text_at "quote_expires_at" payload;
  quote_expires_at ← fromisoformat expiry_text;
  amount ← (v ← at_key "amount" payload; decimal_of v);
  currency ← text_at "currency" payload;
  fulfillments ← at_key "expected_fulfillments" payload;
  Ok (mkIntentRow id organization_id (wd_id decision) (wd_decision_hash decision) plan_id patch_id hash merchant_id name
        url chain pack pack_version offer offer_version quote quote_version quote_expires_at amount currency
        fulfillments payload ApprovalStatus.NOT_REQUESTED 1).

(** [body.get("solution_plan_id") not in {None, selected}] *)
Definition other_plan (body : entries) (selected : string) : bool :=
  match dict_get "solution_plan_id" body with
  | None | Some VNone => false
  | Some (VStr p) => negb (p ≟ selected)
  | Some _ => true
  end.

(** The executable plan of a decision and its patch. *)
Definition executable_plan (decision : DecisionRow) (body : entries) : txp (PlanRow * string * string) :=
  match wd_selected_solution_plan_id decision with
  | None => raise_tx (api "NO_EXECUTABLE_SOLUTION_PLAN" 409)
  | Some selected =>
      _ ← api_when (is_empty selected) "NO_EXECUTABLE_SOLUTION_PLAN" 409;
      _ ← api_when (other_plan body selected) "SOLUTION_PLAN_MISMATCH" 409;
      let source := match wd_supersedes_id decision with
                    | Some d => if is_empty d then wd_id decision else d
                    | None => wd_id decision
                    end in
      plan ← (λ s, match get_selected_solution_plan organization_id source selected s with
                   | Raise (RecordNotFound _) => Raise (api "SOLUTION_PLAN_NOT_PERSISTED" 409)
                   | r => r
                   end);
      _ ← api_when (negb (wp_lifecycle plan ≟ "EXECUTABLE") ||
                    negb (py_in (wp_candidate_status plan) ["ELIGIBLE"; "ELIGIBLE_WITH_EXCEPTION"]))
            "SOLUTION_PLAN_NOT_EXECUTABLE" 409;
      match get "stack_patch_id" (wp_payload plan) with
      | Some (VStr patch) =>
          _ ← api_when (is_empty patch) "DECISION_STACK_PATCH_MISSING" 409;
          linked ← read (λ s, existsb (λ p, (wt_id p ≟ patch) && (wt_organization_id p ≟ organization_id))
                                (ca_patches (ws_catalogue s)));
          _ ← api_when (negb linked) "DECISION_STACK_PATCH_UNAVAILABLE" 409;
          mret (plan, selected, patch)
      | _ => raise_tx (api "DECISION_STACK_PATCH_MISSING" 409)
      end
  end.

(** The rest of a request once its key is claimed and unanswered: its response
    is stored with the claim. *)
Definition answered (claim : IdempotencyRow) (status : Z) (body : txp (response * string)) : txp (Z * response) :=
  '(answer, reference) ← body;
  _ ← complete_idempotency organization_id claim status answer reference;
  mret (status, answer).

(** A body that runs once per key. *)
Definition idempotent (actor_id operation idempotency_key request_hash claim_id : string) (status : Z)
    (body : txp (response * string)) : txp (Z * response) :=
  '(claim, replayed) ← claim_idempotency organization_id actor_id operation idempotency_key request_hash claim_id;
  if replayed : bool then mret (replay claim status) else answered claim status body.

Definition lock_body (decision_id : string) (body : entries) (locked_at now : datetime) (ids : PurchaseIds)
  : txp (response * string) :=
  decision ← _not_found (get_decision organization_id decision_id) "DECISION";
  _ ← _require_current_decision decision;
  '(plan, selected, patch) ← executable_plan decision body;
  payload ← lift (match build_purchase_intent_payload organization_id (wd_id decision) (wd_version decision)
                    (wd_decision_hash decision) (selection_of decision) selected patch (di_record ids)
                    (default (VDict []) (get "commercial_terms" (wp_payload plan))) locked_at with
                  | Raise (CommercialTermsConflict _) => Raise (api "PLAN_COMMERCIAL_TERMS_INVALID" 409)
                  | r => r
                  end);
  record ← lift (intent_of_payload decision selected patch payload);
  _ ← raise_when (negb (intent_row_ok record)) IntegrityError;
  _ ← add_purchase_intent organization_id record (di_outbox ids) now;
  mret (_purchase_intent_view record, wi_id record).

Definition lock_purchase_intent (actor_id decision_id idempotency_key : string) (body : entries)
    (quote_clock now : datetime) (ids : PurchaseIds) : prog purchase_store (Z * response) :=
  request_hash ← pure (content_hash (dict (("decision_id", VStr decision_id) :: body)));
  in_transaction organization_id
    (idempotent actor_id "purchase_intents.create" idempotency_key request_hash (di_claim ids) 201
       (lock_body decision_id body (_as_utc quote_clock) now ids)).

(** The roles a brief requires, in its order. *)
Definition required_roles (brief : object) : result (list string) :=
  match get "approval_requirements" brief with
  | Some (VList requirements) =>
      let roles := omap (λ r, match r with
        | VDict r => match get "required" r, get "role" r with
                     | Some (VBool true), Some (VStr role) => Some role
                     | _, _ => None
                     end
        | _ => None end) requirements in
      _ ← raise_if (bool_decide (roles = []) || negb (all_distinct roles)) (api "APPROVAL_POLICY_INVALID" 409);
      Ok roles
  | _ => Raise (api "APPROVAL_POLICY_INVALID" 409)
  end.

Definition request_body (intent_id : string) (quote_clock now : datetime) (ids : PurchaseIds) : txp (response * string) :=
  intent ← _not_found (get_purchase_intent organization_id intent_id) "PURCHASE_INTENT";
  decision ← _not_found (get_decision organization_id (wi_decision_id intent)) "DECISION";
  _ ← _require_current_decision decision;
  _ ← api_when (instant (wi_quote_expires_at intent) <=? instant quote_clock) "QUOTE_EXPIRED" 409;
  _ ← api_when (negb (wi_approval_status intent ≟ ApprovalStatus.NOT_REQUESTED)) "APPROVAL_ALREADY_STARTED" 409;
  found ← read (λ s, select_one (λ b, (wb_id b ≟ wd_purchase_brief_id decision) &&
      (wb_organization_id b ≟ organization_id)) (ca_briefs (ws_catalogue s)));
  brief ← require found (_missing "PURCHASE_BRIEF");
  roles ← lift (required_roles (wb_payload brief));
  policy ← lift (v ← at_key "approval_policy_version" (wi_payload intent); int_of v);
  let approval := mkApprovalRequestRow (di_record ids) organization_id (wi_id intent) (wi_intent_hash intent) policy
    ApprovalStatus.PENDING roles [] (later (_as_utc now) (minutes 60)) in
  _ ← add_record ws_approvals set_approval_requests approval_request_clash approval;
  _ ← set_intent_status (wi_id intent) ApprovalStatus.PENDING;
  mret (_approval_view approval, wa_id approval).

Definition create_approval_request (actor_id intent_id idempotency_key : string) (body : entries)
    (quote_clock now : datetime) (ids : PurchaseIds) : prog purchase_store (Z * response) :=
  request_hash ← pure (content_hash (dict (("intent_id", VStr intent_id) :: body)));
  in_transaction organization_id
    (idempotent actor_id "approval_requests.create" idempotency_key request_hash (di_claim ids) 201
       (request_body intent_id quote_clock now ids)).

(** [_approval_expiry_problem(approval, intent, now)], with the quote clock. *)
Definition _approval_expiry_problem (a : ApprovalRequestRow) (i : IntentRow) (now quote_clock : datetime) : option exn :=
  if instant (wa_expires_at a) <=? instant now then Some (api "APPROVAL_EXPIRED" 409)
  else if instant (wi_quote_expires_at i) <=? instant quote_clock then Some (api "QUOTE_EXPIRED" 409)
  else None.

Definition _require_verified_approval_role (a : ApprovalRequestRow) (actor_roles : list string) (role : string) : result unit :=
  _ ← raise_if (negb (py_in role actor_roles)) (api "APPROVER_ROLE_NOT_VERIFIED" 403);
  raise_if (negb (py_in role (wa_required_roles a))) (api "APPROVER_ROLE_NOT_REQUIRED" 403).

Definition _require_approval_role (a : ApprovalRequestRow) (actor_roles : list string) (role : string) : result unit :=
  _ ← _require_verified_approval_role a actor_roles role;
  match wa_required_roles a !! length (wa_approved_roles a) with
  | None => Raise (api "APPROVAL_ALREADY_FINAL" 409)
  | Some next => raise_if (negb (next ≟ role)) (api "APPROVAL_STAGE_OUT_OF_ORDER" 409)
  end.

(** An approval request, its intent, and that their decision is current. *)
Definition find_approval (approval_id : string) : txp ApprovalRequestRow :=
  found ← read (λ s, select_one (λ a, (wa_id a ≟ approval_id) && (wa_organization_id a ≟ organization_id)) (ws_approvals s));
  require found (_missing "APPROVAL_REQUEST").

Definition approval_with_intent (approval_id : string) : txp (ApprovalRequestRow * IntentRow) :=
  approval ← find_approval approval_id;
  intent ← get_purchase_intent organization_id (wa_purchase_intent_id approval);
  decision ← get_decision organization_id (wi_decision_id intent);
  _ ← _require_current_decision decision;
  mret (approval, intent).

(** [approval.status = ...; intent.approval_status = ...] *)
Definition set_both (a : ApprovalRequestRow) (i : IntentRow) (status : ApprovalStatus.t) : txp unit :=
  _ ← set_approval (wa_id a) status (wa_approved_roles a);
  set_intent_status (wi_id i) status.

(** A transaction that either expires the approval, which is kept, and then
    reports the problem, or runs the body. *)
Definition unless_expired (approval_id : string) (now quote_clock : datetime)
    (body : ApprovalRequestRow → IntentRow → txp (Z * response)) : txp (exn + Z * response) :=
  '(approval, intent) ← approval_with_intent approval_id;
  match _approval_expiry_problem approval intent now quote_clock with
  | Some problem => _ ← set_both approval intent ApprovalStatus.EXPIRED; mret (inl problem)
  | None => r ← body approval intent; mret (inr r)
  end.

Definition settle (r : exn + Z * response) : prog purchase_store (Z * response) :=
  match r with inl problem => Return (Raise problem) | inr answer => Return (Ok answer) end.

Definition step_up (verified : bool) : result unit := raise_if (negb verified) (api "STEP_UP_REQUIRED" 403).

(** The actor's own approvals of the request. *)
Definition approved_before (approval_id actor_id : string) (s : purchase_store) : bool :=
  existsb (λ e, (we_organization_id e ≟ organization_id) && (we_approval_request_id e ≟ approval_id) &&
                (we_actor_id e ≟ actor_id) && (we_action e ≟ ApprovalAction.APPROVE)) (ws_events s).

Definition approve_answer (actor_id : string) (actor_roles : list string) (body : entries) (ids : PurchaseIds)
    (approval : ApprovalRequestRow) (intent : IntentRow) : txp (response * string) :=
  role ← lift (text_at "actor_role" body);
  _ ← lift (_require_approval_role approval actor_roles role);
  existing_actor ← read (approved_before (wa_id approval) actor_id);
  let satisfied := py_in role (wa_approved_roles approval) in
  _ ← api_when (existing_actor && negb satisfied) "SEPARATION_OF_DUTIES" 403;
  intent_hash ← lift (text_at "intent_hash" body);
  _ ← record_approval_event organization_id (wa_id approval) intent_hash actor_id role ApprovalAction.APPROVE
        ("approve:" ++ wa_id approval ++ ":" ++ role ++ ":" ++ actor_id) None (di_event ids);
  let approved := if satisfied then wa_approved_roles approval else (wa_approved_roles approval ++ [role])%list in
  let complete := approved ≟ wa_required_roles approval in
  let status := if complete then ApprovalStatus.APPROVED else wa_status approval in
  _ ← set_approval (wa_id approval) status approved;
  _ ← (if complete then set_intent_status (wi_id intent) ApprovalStatus.APPROVED else mret ());
  mret (_approval_view (with_approval status approved approval), wa_id approval).

Definition approve (actor_id : string) (actor_roles : list string) (step_up_verified : bool)
    (approval_id idempotency_key : string) (body : entries) (now quote_clock : datetime) (ids : PurchaseIds)
  : prog purchase_store (Z * response) :=
  _ ← pure (step_up step_up_verified);
  request_hash ← pure (content_hash (dict (("approval_id", VStr approval_id) :: body)));
  r ← in_transaction organization_id (unless_expired approval_id now quote_clock (λ approval intent,
        idempotent actor_id "approval_requests.approve" idempotency_key request_hash (di_claim ids) 200
          (approve_answer actor_id actor_roles body ids approval intent)));
  settle r.

Definition reject_answer (actor_id : string) (actor_roles : list string) (body : entries) (now : datetime)
    (ids : PurchaseIds) (approval : ApprovalRequestRow) (intent : IntentRow) : txp (response * string) :=
  role ← lift (text_at "actor_role" body);
  _ ← lift (_require_approval_role approval actor_roles role);
  intent_hash ← lift (text_at "intent_hash" body);
  reason ← lift (text_at "reason" body);
  _ ← record_approval_event organization_id (wa_id approval) intent_hash actor_id role ApprovalAction.REJECT
        ("reject:" ++ wa_id approval ++ ":" ++ role ++ ":" ++ actor_id) (Some reason) (di_event ids);
  _ ← set_both approval intent ApprovalStatus.REJECTED;
  _ ← add_outbox organization_id "purchase_intent" (wi_id intent) "approval.rejected"
        ("approval-rejected:" ++ wa_id approval)
        [("purchase_intent_id", JStr (wi_id intent)); ("approval_request_id", JStr (wa_id approval));
         ("actor_role", JStr role)] (di_outbox ids) now;
  mret (_approval_view (with_approval ApprovalStatus.REJECTED (wa_approved_roles approval) approval), wa_id approval).

Definition reject_approval (actor_id : string) (actor_roles : list string) (step_up_verified : bool)
    (approval_id idempotency_key : string) (body : entries) (now quote_clock : datetime) (ids : PurchaseIds)
  : prog purchase_store (Z * response) :=
  _ ← pure (step_up step_up_verified);
  request_hash ← pure (content_hash (dict (("approval_id", VStr approval_id) :: body)));
  r ← in_transaction organization_id (unless_expired approval_id now quote_clock (λ approval intent,
        idempotent actor_id "approval_requests.reject" idempotency_key request_hash (di_claim ids) 200
          (reject_answer actor_id actor_roles body now ids approval intent)));
  settle r.

(** The prepared handoff of an approval is withdrawn. *)
Definition cancel_ready_handoff (approval_id : string) : txp unit :=
  handoff ← read (λ s, select_one (λ h, (wh_organization_id h ≟ organization_id) && (wh_approval_request_id h ≟ approval_id) &&
                         (wh_status h ≟ PaymentHandoffStatus.READY)) (ws_handoffs s));
  match handoff with
  | Some h => write (λ s, set_payment_handoffs (update_rows (λ r, wh_id r ≟ wh_id h)
                (λ r, with_handoff_status PaymentHandoffStatus.CANCELLED (wh_opened_at r) r) (ws_handoffs s)) s)
  | None => mret ()
  end.

Definition revoke_answer (actor_id : string) (actor_roles : list string) (body : entries) (now : datetime)
    (ids : PurchaseIds) (approval : ApprovalRequestRow) (intent : IntentRow) : txp (response * string) :=
  _ ← api_when (negb (py_in (wa_status approval) [ApprovalStatus.PENDING; ApprovalStatus.APPROVED]))
        "APPROVAL_NOT_REVOCABLE" 409;
  role ← lift (text_at "actor_role" body);
  _ ← lift (_require_verified_approval_role approval actor_roles role);
  intent_hash ← lift (text_at "intent_hash" body);
  reason ← lift (text_at "reason" body);
  _ ← record_approval_event organization_id (wa_id approval) intent_hash actor_id role ApprovalAction.REVOKE
        ("revoke:" ++ wa_id approval ++ ":" ++ actor_id) (Some reason) (di_event ids);
  _ ← set_both approval intent ApprovalStatus.REVOKED;
  _ ← cancel_ready_handoff (wa_id approval);
  _ ← add_outbox organization_id "purchase_intent" (wi_id intent) "approval.revoked"
        ("approval-revoked:" ++ wa_id approval)
        [("purchase_intent_id", JStr (wi_id intent)); ("approval_request_id", JStr (wa_id approval));
         ("actor_role", JStr role)] (di_outbox ids) now;
  mret (_approval_view (with_approval ApprovalStatus.REVOKED (wa_approved_roles approval) approval), wa_id approval).

Definition revoke_body (actor_id : string) (actor_roles : list string) (approval_id idempotency_key request_hash : string)
    (body : entries) (now : datetime) (ids : PurchaseIds) : txp (Z * response) :=
  '(approval, intent) ← approval_with_intent approval_id;
  idempotent actor_id "approval_requests.revoke" idempotency_key request_hash (di_claim ids) 200
    (revoke_answer actor_id actor_roles body now ids approval intent).

Definition revoke_approval (actor_id : string) (actor_roles : list string) (step_up_verified : bool)
    (approval_id idempotency_key : string) (body : entries) (now : datetime) (ids : PurchaseIds)
  : prog purchase_store (Z * response) :=
  _ ← pure (step_up step_up_verified);
  request_hash ← pure (content_hash (dict (("approval_id", VStr approval_id) :: body)));
  in_transaction organization_id (revoke_body actor_id actor_roles approval_id idempotency_key request_hash body now ids).

(** The approval of exactly this intent, whatever its status: there is at most
    one, by the constraint on its table. *)
Definition exact_approval (i : IntentRow) (s : purchase_store) : option ApprovalRequestRow :=
  select_one (λ a, (wa_organization_id a ≟ organization_id) && (wa_purchase_intent_id a ≟ wi_id i) &&
                   (wa_intent_hash a ≟ wi_intent_hash i)) (ws_approvals s).
Definition exact_approved (i : IntentRow) (s : purchase_store) : option ApprovalRequestRow :=
  select_one (λ a, (wa_organization_id a ≟ organization_id) && (wa_purchase_intent_id a ≟ wi_id i) &&
                   (wa_intent_hash a ≟ wi_intent_hash i) && (wa_status a ≟ ApprovalStatus.APPROVED)) (ws_approvals s).

Definition expire_body (intent_id : string) (now quote_clock : datetime) : txp (option exn) :=
  intent ← get_purchase_intent organization_id intent_id;
  approval ← read (exact_approval intent);
  match approval with
  | None => mret None
  | Some a =>
      if negb (wa_status a ≟ ApprovalStatus.APPROVED) || negb (wi_approval_status intent ≟ ApprovalStatus.APPROVED)
      then mret None
      else match _approval_expiry_problem a intent now quote_clock with
           | Some problem => _ ← set_both a intent ApprovalStatus.EXPIRED; mret (Some problem)
           | None => mret None
           end
  end.
Definition _expire_purchase_approval_if_needed (intent_id : string) (now quote_clock : datetime)
  : prog purchase_store (option exn) :=
  in_transaction organization_id (expire_body intent_id now quote_clock).

(** [min(a, b)] on aware times: the first of the least. *)
Definition earlier (a b : datetime) : datetime := if instant b <? instant a then b else a.

Definition handoff_expiry (a : ApprovalRequestRow) (i : IntentRow) (now quote_clock : datetime) : datetime :=
  earlier (earlier (_as_utc (wa_expires_at a)) (later now (instant (wi_quote_expires_at i) - instant quote_clock)))
    (later now (minutes 15)).

Definition new_handoff (i : IntentRow) (a : ApprovalRequestRow) (id : string) (now quote_clock : datetime)
  : result PaymentHandoff :=
  amount ← Money_new (MDecimal (wi_amount i)) (wi_currency i);
  PaymentHandoff_check (mkPaymentHandoff "1.0" id organization_id (wi_id i) (wa_id a) (wi_intent_hash i)
    (wi_merchant_url i) (wi_merchant_name i) amount ("SIRA-" ++ wi_id i) now (handoff_expiry a i now quote_clock)
    PaymentHandoffStatus.READY None "").

Definition row_of_handoff (h : PaymentHandoff) : PaymentHandoffRow :=
  mkPaymentHandoffRow (ph_handoff_id h) (ph_organization_id h) (ph_purchase_intent_id h) (ph_approval_request_id h)
    (ph_intent_hash h) (ph_handoff_hash h) (ph_destination_url h) (ph_recipient h) (amount (ph_amount h))
    (currency (ph_amount h)) (ph_reference h) (ph_status h) (ph_expires_at h) None (ph_created_at h).

Definition handoff_answer (intent_id : string) (now quote_clock : datetime) (ids : PurchaseIds) : txp (response * string) :=
  intent ← _not_found (get_purchase_intent organization_id intent_id) "PURCHASE_INTENT";
  decision ← get_decision organization_id (wi_decision_id intent);
  _ ← _require_current_decision decision;
  approval ← read (exact_approved intent);
  _ ← api_when (negb (wi_approval_status intent ≟ ApprovalStatus.APPROVED)) "APPROVAL_REQUIRED" 409;
  approval ← require approval (api "APPROVAL_REQUIRED" 409);
  match _approval_expiry_problem approval intent now quote_clock with
  | Some problem => raise_tx problem
  | None =>
      existing ← read (λ s, select_one (λ h, (wh_organization_id h ≟ organization_id) &&
                   (wh_purchase_intent_id h ≟ wi_id intent) && (wh_approval_request_id h ≟ wa_id approval)) (ws_handoffs s));
      match existing with
      | Some h => mret (_payment_handoff_view h, wh_id h)
      | None =>
          domain_handoff ← lift (new_handoff intent approval (di_record ids) now quote_clock);
          let record := row_of_handoff domain_handoff in
          _ ← raise_when (negb (handoff_row_ok record)) IntegrityError;
          _ ← add_record ws_handoffs set_payment_handoffs payment_handoff_clash record;
          _ ← add_outbox organization_id "payment_handoff" (wh_id record) "payment_handoff.ready"
                ("payment-handoff-ready:" ++ wh_id record)
                [("payment_handoff_id", JStr (wh_id record)); ("purchase_intent_id", JStr (wi_id intent));
                 ("handoff_hash", JStr (wh_handoff_hash record))] (di_outbox ids) now;
          mret (_payment_handoff_view record, wh_id record)
      end
  end.

(** Two transactions: the first may expire the approval. *)
Definition create_payment_handoff (actor_id intent_id idempotency_key : string) (now quote_clock : datetime)
    (ids : PurchaseIds) : prog purchase_store (Z * response) :=
  problem ← _expire_purchase_approval_if_needed intent_id now quote_clock;
  match problem with
  | Some problem => Return (Raise problem)
  | None =>
      request_hash ← pure (content_hash (dict [("intent_id", VStr intent_id); ("operation", VStr "payment_handoff")]));
      in_transaction organization_id
        (idempotent actor_id "payment_handoffs.create" idempotency_key request_hash (di_claim ids) 201
           (handoff_answer intent_id now quote_clock ids))
  end.

(** The value of a stored handoff. *)
Definition handoff_of_row (h : PaymentHandoffRow) : result PaymentHandoff :=
  amount ← Money_new (MDecimal (wh_amount h)) (wh_currency h);
  PaymentHandoff_check (mkPaymentHandoff "1.0" (wh_id h) (wh_organization_id h) (wh_purchase_intent_id h)
    (wh_approval_request_id h) (wh_intent_hash h) (wh_destination_url h) (wh_recipient h) amount (wh_reference h)
    (_as_utc (wh_created_at h)) (_as_utc (wh_expires_at h)) (wh_status h) (_as_utc <$> wh_opened_at h)
    (wh_handoff_hash h)).

(** The approval and the intent still stand behind the handoff. *)
Definition authority_ok (h : PaymentHandoffRow) (i : IntentRow) (approval : option ApprovalRequestRow) : bool :=
  match approval with
  | None => false
  | Some a =>
      (wa_status a ≟ ApprovalStatus.APPROVED) && (wi_approval_status i ≟ ApprovalStatus.APPROVED) &&
      (wa_intent_hash a ≟ wh_intent_hash h) && (wi_intent_hash i ≟ wh_intent_hash h)
  end.

Definition open_answer (handoff_id : string) (now : datetime) (ids : PurchaseIds) : txp (response * string) :=
  found ← read (λ s, select_one (λ h, (wh_id h ≟ handoff_id) && (wh_organization_id h ≟ organization_id)) (ws_handoffs s));
  record ← require found (_missing "PAYMENT_HANDOFF");
  intent ← get_purchase_intent organization_id (wh_purchase_intent_id record);
  approval ← read (λ s, select_one (λ a, (wa_id a ≟ wh_approval_request_id record) &&
                     (wa_organization_id a ≟ organization_id)) (ws_approvals s));
  _ ← api_when (negb (authority_ok record intent approval)) "HANDOFF_AUTHORITY_INVALID" 409;
  domain_handoff ← lift (handoff_of_row record);
  opened ← lift (match PaymentHandoffTransitionService.transition domain_handoff PaymentHandoffStatus.OPENED now with
                 | Raise e => Raise (if is_value_error e then api "HANDOFF_NOT_OPENABLE" 409 else e)
                 | r => r
                 end);
  let record := with_handoff_status (ph_status opened) (ph_opened_at opened) record in
  _ ← write (λ s, set_payment_handoffs (update_rows (λ h, wh_id h ≟ wh_id record)
        (with_handoff_status (ph_status opened) (ph_opened_at opened)) (ws_handoffs s)) s);
  _ ← add_outbox organization_id "payment_handoff" (wh_id record) "payment_handoff.opened"
        ("payment-handoff-opened:" ++ wh_id record)
        [("payment_handoff_id", JStr (wh_id record)); ("purchase_intent_id", JStr (wh_purchase_intent_id record));
         ("handoff_hash", JStr (wh_handoff_hash record))] (di_outbox ids) now;
  mret (_payment_handoff_view record, wh_id record).

Definition open_payment_handoff (actor_id handoff_id idempotency_key : string) (now : datetime) (ids : PurchaseIds)
  : prog purchase_store response :=
  request_hash ← pure (content_hash (dict [("handoff_id", VStr handoff_id); ("operation", VStr "open")]));
  r ← in_transaction organization_id
        (idempotent actor_id "payment_handoffs.open" idempotency_key request_hash (di_claim ids) 200
           (open_answer handoff_id now ids));
  pure (Ok (r : Z * response).2).

(** [order_by(time.desc(), id.desc()).limit(1)] *)
Definition newest {R} (key : R → Z * string) (where_ : R → bool) (rows : list R) : option R :=
  match List.filter where_ rows with [] => None | r :: l => Some (max_by key r l) end.

Definition purchase_state (approval : ApprovalStatus.t) (handoff : option PaymentHandoffStatus.t) : string :=
  if negb (approval ≟ ApprovalStatus.APPROVED) then "AWAITING_APPROVAL"
  else match handoff with
       | Some PaymentHandoffStatus.OPENED => "HANDOFF_OPENED"
       | Some PaymentHandoffStatus.EXPIRED => "HANDOFF_EXPIRED"
       | Some PaymentHandoffStatus.CANCELLED => "HANDOFF_CANCELLED"
       | _ => "READY_FOR_HANDOFF"
       end.

Definition status_body (intent_id : string) : txp response :=
  intent ← _not_found (get_purchase_intent organization_id intent_id) "PURCHASE_INTENT";
  handoff ← read (λ s, newest (λ h, (instant (wh_created_at h), wh_id h)) (λ h, (wh_organization_id h ≟ organization_id) &&
                    (wh_purchase_intent_id h ≟ wi_id intent)) (ws_handoffs s));
  outcome ← read (λ s, newest (λ o, (instant (wo_observed_at o), wo_id o)) (λ o, (wo_organization_id o ≟ organization_id) &&
                    (wo_purchase_intent_id o ≟ wi_id intent)) (ca_outcomes (ws_catalogue s)));
  let handoff_status := wh_status <$> handoff in
  mret [("purchase_intent_id", VStr (wi_id intent));
        ("approval_status", VStr (ApprovalStatus.value (wi_approval_status intent)));
        ("handoff_status", vopt (λ h, VStr (PaymentHandoffStatus.value h)) handoff_status);
        ("purchase_state", VStr (purchase_state (wi_approval_status intent) handoff_status));
        ("outcome_state", VStr (match outcome with Some o => wo_state o | None => "NOT_MEASURED" end))].

Definition purchase_status (intent_id : string) : prog purchase_store response :=
  in_transaction organization_id (status_body intent_id).
End requests.

Definition translate_persistence_conflict (error : exn) : exn :=
  match error with IdempotencyConflict _ => api "IDEMPOTENCY_CONFLICT" 409 | _ => api "STATE_CONFLICT" 409 end.
