(* ===== verification/PurchaseSafety.v ===== *)
(** * What the purchase requests guarantee

    Every transaction of a purchase request runs moves of the protocol of
    [PurchaseProtocol], under any interleaving with other requests; so
    approvals are earned, a payment handoff opens only behind a complete one,
    and what is final stays so.  A request repeated with its key changes
    nothing. *)
From S2P Require Import Prelude PyText PyNumber PyTime PyDate Enums Money Hashing DomainModels StateMachines Tables.
From S2P Require Import Database Outbox Terms Purchase PurchaseProtocol PurchaseService.

Local Open Scope string_scope.
Local Open Scope Z_scope.

#[local] Notation "a ≟ b" := (bool_decide (a = b)) (at level 70).

(** ** Transactions that leave the four tables *)

Definition quiet {A} (m : txp A) : Prop := ∀ s a s', m s = Ok (a, s') → core_of s' = core_of s.
(** Transactions that only read. *)
Definition reading {A} (m : txp A) : Prop := ∀ s a s', m s = Ok (a, s') → s' = s.

Lemma reading_quiet {A} (m : txp A) : reading m → quiet m.
Proof. intros Hm s a s' E. by rewrite (Hm _ _ _ E). Qed.

Lemma quiet_bind {A B} (m : txp A) (f : A → txp B) : quiet m → (∀ a, quiet (f a)) → quiet (m ≫= f).
Proof. intros Hm Hf s b s' (a & s1 & E1 & E2)%tx_bind_Ok. by rewrite (Hf _ _ _ _ E2), (Hm _ _ _ E1). Qed.

Lemma reading_bind {A B} (m : txp A) (f : A → txp B) : reading m → (∀ a, reading (f a)) → reading (m ≫= f).
Proof. intros Hm Hf s b s' (a & s1 & E1 & E2)%tx_bind_Ok. by rewrite (Hf _ _ _ _ E2), (Hm _ _ _ E1). Qed.

Lemma reading_ret {A} (a : A) : reading (mret a).
Proof. intros s b s' E. inv_tx. done. Qed.
Lemma reading_lift {A} (m : result A) : reading (lift m).
Proof. intros s b s' E. inv_tx. done. Qed.
Lemma reading_read {A} (f : purchase_store → A) : reading (read f).
Proof. intros s b s' E. inv_tx. done. Qed.
Lemma reading_raise {A} e : reading (raise_tx e : txp A).
Proof. intros s b s' E. inv_tx. Qed.
Lemma reading_when c e : reading (raise_when c e).
Proof. intros s b s' E. inv_tx. done. Qed.
Lemma reading_require {A} (o : option A) e : reading (require o e).
Proof. destruct o; [apply reading_ret|apply reading_raise]. Qed.

Create HintDb reading.
#[local] Hint Resolve reading_bind reading_ret reading_lift reading_read reading_raise reading_when reading_require : reading.

Lemma quiet_add_outbox org at_ ai et ek p id now : quiet (add_outbox org at_ ai et ek p id now).
Proof.
  unfold add_outbox. apply quiet_bind; [apply reading_quiet, reading_read|]. intros [e|]; [apply reading_quiet, reading_ret|].
  apply quiet_bind; [|intros []; apply reading_quiet, reading_ret].
  intros s a s'. unfold add_record. destruct (insert_row _ _ _); intros [= _ <-]. done.
Qed.

Lemma quiet_complete org k status p ref : quiet (complete_idempotency org k status p ref).
Proof.
  unfold complete_idempotency. apply quiet_bind; [apply reading_quiet; unfold _assert_tenant; apply reading_when|].
  intros _ s a s' E. inv_tx. done.
Qed.

(** A claim is of the key, and for a request with this hash. *)
Definition claims_key (org actor op key : string) (k : IdempotencyRow) : Prop :=
  wk_organization_id k = org ∧ wk_actor_id k = actor ∧ wk_operation k = op ∧ wk_idempotency_key k = key.

Lemma claim_Ok org actor op key hash id k b s s' :
  claim_idempotency org actor op key hash id s = Ok ((k, b), s') →
  claims_key org actor op key k ∧ wk_request_hash k = hash ∧ b = wk_completed k ∧
  (s' = s ∧ k ∈ ws_claims s ∨
   s' = set_claims (ws_claims s ++ [k])%list s ∧ b = false ∧ ∀ r, r ∈ ws_claims s → idempotency_clash k r = false).
Proof.
  unfold claim_idempotency. intros E.
  assert (∀ c, (wk_organization_id c ≟ org) && (wk_actor_id c ≟ actor) && (wk_operation c ≟ op) &&
    (wk_idempotency_key c ≟ key) = true → claims_key org actor op key c) as Hkey.
  { intros c. rewrite !andb_true_iff, !bool_decide_eq_true. unfold claims_key. tauto. }
  apply tx_bind_Ok in E as (o & s1 & Er & E). apply read_Ok in Er as [-> ->].
  destruct (select_one _ (ws_claims s)) as [c|] eqn:Es.
  - apply select_one_Some in Es as [Hin Hw]. apply tx_bind_Ok in E as ([] & s1 & Er & E).
    apply raise_when_Ok in Er as [Hh%negb_false_iff%bool_decide_eq_true ->].
    apply ret_Ok in E as [[= -> ->] ->]. eauto 10.
  - unfold add_record in E. destruct (insert_row _ _ _) as [rows|e] eqn:Ei.
    + injection E as <- <- <-. apply insert_row_Ok in Ei as [-> Hn]. split; [done|]. split; [done|]. split; [done|].
      by right.
    + destruct e; try done. rewrite Es in E. done.
Qed.

(** A request either replays its answer or runs its body once. *)
Lemma idempotent_Ok org actor op key hash id status body x s s' :
  idempotent org actor op key hash id status body s = Ok (x, s') →
  (∃ k, k ∈ ws_claims s ∧ claims_key org actor op key k ∧ wk_request_hash k = hash ∧ wk_completed k = true ∧
     x = replay k status ∧ s' = s) ∨
  (∃ k s1 answer ref s2, claim_idempotency org actor op key hash id s = Ok ((k, false), s1) ∧
     body s1 = Ok ((answer, ref), s2) ∧ complete_idempotency org k status answer ref s2 = Ok ((), s') ∧
     x = (status, answer)).
Proof.
  unfold idempotent, answered. intros E. apply tx_bind_Ok in E as ([k b] & s1 & Ec & E).
  pose proof (claim_Ok _ _ _ _ _ _ _ _ _ _ Ec) as (Hk & Hh & Hb & Hs).
  destruct b.
  - left. destruct Hs as [[-> Hin]|(? & ? & _)]; [|done]. inv_tx. exists k. done.
  - right. apply tx_bind_Ok in E as ([answer ref] & s2 & Eb & E). apply tx_bind_Ok in E as ([] & s3 & Ek & E).
    inv_tx. exists k, s1, answer, ref, s2. done.
Qed.

Lemma idempotent_core org actor op key hash id status body x s s' :
  idempotent org actor op key hash id status body s = Ok (x, s') →
  core_of s' = core_of s ∨ ∃ s1 y s2, core_of s1 = core_of s ∧ body s1 = Ok (y, s2) ∧ core_of s' = core_of s2.
Proof.
  intros [(k & _ & _ & _ & _ & _ & ->)|(k & s1 & answer & ref & s2 & Ec & Eb & Ek & _)]%idempotent_Ok; [by left|]. right.
  exists s1, (answer, ref), s2. split_and!; [|done|by apply quiet_complete in Ek].
  by apply claim_Ok in Ec as (_ & _ & _ & [[-> _]|[-> _]]).
Qed.

(** ** Reading the tables *)

Lemma not_found_Ok {A} (m : txp A) kind s a s' : _not_found m kind s = Ok (a, s') → m s = Ok (a, s').
Proof. unfold _not_found. destruct (m s) as [[]|[]]; done. Qed.

Lemma require_Ok {A} (o : option A) e s a s' : require o e s = Ok (a, s') → o = Some a ∧ s' = s.
Proof. destruct o; cbn; [intros E; inv_tx; done|done]. Qed.

Lemma get_intent_Ok org id i s s' :
  get_purchase_intent org id s = Ok (i, s') → s' = s ∧ i ∈ ws_intents s ∧ wi_id i = id ∧ wi_organization_id i = org.
Proof.
  unfold get_purchase_intent. intros (o & s1 & Er & E)%tx_bind_Ok. apply read_Ok in Er as [-> ->].
  apply require_Ok in E as [(Hin & Hw)%select_one_Some ->]. apply andb_true_iff in Hw as [?%bool_decide_eq_true ?%bool_decide_eq_true].
  done.
Qed.

Lemma reading_decision org id : reading (get_decision org id).
Proof. unfold get_decision. auto with reading. Qed.

Lemma reading_current org d : reading (_require_current_decision org d).
Proof. unfold _require_current_decision, api_when. auto with reading. Qed.

Lemma find_approval_Ok org id a s s' :
  find_approval org id s = Ok (a, s') → s' = s ∧ a ∈ ws_approvals s ∧ wa_id a = id ∧ wa_organization_id a = org.
Proof.
  unfold find_approval. intros (o & s1 & Er & E)%tx_bind_Ok. apply read_Ok in Er as [-> ->].
  apply require_Ok in E as [(Hin & Hw)%select_one_Some ->]. apply andb_true_iff in Hw as [?%bool_decide_eq_true ?%bool_decide_eq_true].
  done.
Qed.

Lemma approval_with_intent_Ok org id a i s s' :
  approval_with_intent org id s = Ok ((a, i), s') →
  s' = s ∧ a ∈ ws_approvals s ∧ wa_id a = id ∧ wa_organization_id a = org ∧
  i ∈ ws_intents s ∧ wi_id i = wa_purchase_intent_id a ∧ wi_organization_id i = org.
Proof.
  unfold approval_with_intent. intros (b & s1 & (-> & Ha & Hid & Ho)%find_approval_Ok & E)%tx_bind_Ok.
  apply tx_bind_Ok in E as (j & s1 & (-> & Hi & Hii & Hio)%get_intent_Ok & E).
  apply tx_bind_Ok in E as (d & s1 & ->%reading_decision & E).
  apply tx_bind_Ok in E as ([] & s1 & ->%reading_current & E). apply ret_Ok in E as [[= -> ->] ->]. done.
Qed.

Section safety.
Context (holds : string → string → string → Prop).
Local Abbreviation move := (move holds).
Local Abbreviation protocol_ok := (protocol_ok holds).

(** The intent of an approval is the one it binds. *)
Lemma its_intent c a i :
  protocol_ok c → a ∈ k_approvals c → i ∈ k_intents c → wi_id i = wa_purchase_intent_id a →
  binds i a ∧ wi_approval_status i = wa_status a.
Proof.
  intros Hc Ha Hi E. destruct (po_bound _ _ Hc a Ha) as (j & Hj & Hb & Es).
  assert (j = i) as ->; [|done]. eapply (key_unique wi_id); [apply (po_intents _ _ Hc)|done..|]. destruct Hb as [Hb _]. congruence.
Qed.

(** ** Effects on the four tables *)

Lemma set_both_core a i status s s' :
  set_both a i status s = Ok ((), s') →
  core_of s' = mkCore (set_intent (wi_id i) status (ws_intents s)) (set_request (wa_id a) status (wa_approved_roles a) (ws_approvals s))
                 (ws_events s) (ws_handoffs s).
Proof. unfold set_both, set_approval, set_intent_status. intros E. inv_tx. done. Qed.

Lemma record_event_Ok org id hash actor role action key reason eid e s s' :
  record_approval_event org id hash actor role action key reason eid s = Ok (e, s') →
  (∃ a, a ∈ ws_approvals s ∧ wa_id a = id ∧ wa_organization_id a = org ∧ hash = wa_intent_hash a ∧
     wa_status a ∈ [ApprovalStatus.PENDING; ApprovalStatus.APPROVED]) ∧
  (s' = s ∧ e ∈ ws_events s ∧ we_event_key e = key ∨
   e = mkApprovalEventRow eid org id hash actor role action key reason ∧ s' = set_events (ws_events s ++ [e])%list s).
Proof.
  unfold record_approval_event. intros (o & s1 & Er & E)%tx_bind_Ok. apply read_Ok in Er as [-> ->].
  apply tx_bind_Ok in E as (a & s1 & [(Ha & Hw)%select_one_Some ->]%require_Ok & E).
  apply andb_true_iff in Hw as [Hid%bool_decide_eq_true Ho%bool_decide_eq_true].
  apply tx_bind_Ok in E as (i & s1 & (-> & _)%get_intent_Ok & E).
  apply tx_bind_Ok in E as ([] & s1 & [[Hh%negb_false_iff%bool_decide_eq_true _]%orb_false_iff ->]%raise_when_Ok & E).
  apply tx_bind_Ok in E as ([] & s1 & [Hst%negb_false_iff%bool_decide_eq_true ->]%raise_when_Ok & E).
  split; [by exists a|].
  apply tx_bind_Ok in E as (o & s1 & Er & E). apply read_Ok in Er as [-> ->].
  destruct (select_one _ (ws_events s)) as [x|] eqn:Es.
  - left. apply ret_Ok in E as [-> ->]. apply select_one_Some in Es as [Hin [_ Hk%bool_decide_eq_true]%andb_true_iff]. done.
  - right. apply tx_bind_Ok in E as ([] & s1 & Ea & E). apply ret_Ok in E as [-> ->]. split; [done|].
    unfold add_record in Ea. destruct (insert_row _ _ _) as [rows|] eqn:Ei; [|done]. injection Ea as <-.
    by apply insert_row_Ok in Ei as [-> _].
Qed.

Lemma role_Ok a roles role u :
  _require_approval_role a roles role = Ok u →
  role ∈ roles ∧ role ∈ wa_required_roles a ∧ wa_required_roles a !! length (wa_approved_roles a) = Some role.
Proof.
  unfold _require_approval_role, _require_verified_approval_role. intros (v & (w & H1%raise_if_Ok & H2%raise_if_Ok)%bind_Ok & E)%bind_Ok.
  apply negb_false_iff, bool_decide_eq_true in H1, H2. destruct (_ !! _); [|done].
  by apply raise_if_Ok, negb_false_iff, bool_decide_eq_true in E as ->.
Qed.

(** ** The requests run moves *)

Lemma set_intent_same i l : i ∈ l → NoDup (wi_id <$> l) → set_intent (wi_id i) (wi_approval_status i) l = l.
Proof.
  intros Hi Hn. unfold set_intent, update_rows. transitivity (List.map id l); [|apply List.map_id].
  apply List.map_ext_in. intros j Hj%list_elem_of_In. unfold id. case_bool_decide as E; [|done].
  rewrite (key_unique wi_id _ _ _ Hn Hj Hi E). by destruct i.
Qed.

(** What a request that succeeded on an approval found. *)
Definition on_approval (s : purchase_store) (org : string) (a : ApprovalRequestRow) (i : IntentRow) : Prop :=
  a ∈ ws_approvals s ∧ wa_organization_id a = org ∧ i ∈ ws_intents s ∧ wi_id i = wa_purchase_intent_id a.

Lemma on_approval_core s s' org a i : core_of s' = core_of s → on_approval s org a i → on_approval s' org a i.
Proof. intros [= E1 E2 E3 E4]. unfold on_approval. by rewrite E1, E2. Qed.

(** The approve request: how it ran. *)
Lemma approve_answer_Ok org actor roles body ids a i x s s' :
  protocol_ok (core_of s) → on_approval s org a i → colon_free actor →
  approve_answer org actor roles body ids a i s = Ok (x, s') →
  ∃ e status,
    we_actor_id e = actor ∧ we_actor_role e ∈ roles ∧ we_action e = ApprovalAction.APPROVE ∧
    we_approval_request_id e = wa_id a ∧ we_organization_id e = org ∧ we_intent_hash e = wa_intent_hash a ∧ keyed e ∧
    wa_status a ∈ [ApprovalStatus.PENDING; ApprovalStatus.APPROVED] ∧
    wa_required_roles a !! length (wa_approved_roles a) = Some (we_actor_role e) ∧
    (∀ e', e' ∈ approvals_of (wa_id a) (ws_events s) → we_actor_id e' ≠ actor) ∧
    status = (if bool_decide (wa_approved_roles a ++ [we_actor_role e] = wa_required_roles a)%list
              then ApprovalStatus.APPROVED else wa_status a) ∧
    core_of s' = mkCore (set_intent (wi_id i) status (ws_intents s))
      (set_request (wa_id a) status (wa_approved_roles a ++ [we_actor_role e])%list (ws_approvals s))
      (ws_events s ++ [e])%list (ws_handoffs s).
Proof.
  intros Hok (Ha & Ho & Hi & Eai) Hactor. unfold approve_answer.
  intros (role & s1 & [Erole ->]%lift_Ok & E)%tx_bind_Ok.
  apply tx_bind_Ok in E as (u & s1 & [(Hr1 & _ & Hnext)%role_Ok ->]%lift_Ok & E).
  apply tx_bind_Ok in E as (seen & s1 & [-> ->]%read_Ok & E).
  pose proof (po_signed _ _ Hok a Ha) as Hsg. destruct (signed_incomplete _ _ _ _ Hsg Hnext) as (_ & Hfresh & _).
  assert (py_in role (wa_approved_roles a) = false) as Hsat by by apply bool_decide_eq_false.
  rewrite Hsat in E. cbn [negb] in E. rewrite andb_true_r in E.
  apply tx_bind_Ok in E as (u' & s1 & [Hseen ->]%raise_when_Ok & E).
  apply tx_bind_Ok in E as (hash & s1 & [_ ->]%lift_Ok & E).
  apply tx_bind_Ok in E as (e & s1 & [(b & Hb & Eb & _ & Eh & Hst) He]%record_event_Ok & E).
  assert (b = a) as -> by (eapply (key_unique wa_id); [apply (po_approvals _ _ Hok)|done..]).
  destruct He as [(-> & He & Ek)|[-> ->]].
  { exfalso. destruct (po_event _ _ Hok e He) as [Hkey _].
    destruct (approve_key_unique _ _ _ _ Hkey (sg_id _ _ _ Hsg) Hactor Ek) as (Ea & Ei & Er). apply Hfresh.
    rewrite (sg_roles _ _ _ Hsg). apply list_elem_of_fmap. exists e. split; [done|]. by apply elem_of_approvals_of. }
  set (e := mkApprovalEventRow _ _ _ _ _ _ _ _ _) in *.
  exists e, (if bool_decide (wa_approved_roles a ++ [role] = wa_required_roles a)%list then ApprovalStatus.APPROVED else wa_status a).
  do 6 (split; [done|]). split; [split_and!; [done|apply Hsg|done|done]|]. do 2 (split; [done|]). split; [|split; [done|]].
  - intros e' He' <-. unfold approved_before in Hseen. rewrite existsb_false in Hseen.
    destruct (sg_exact _ _ _ Hsg e' He') as (_ & Eo & _). apply elem_of_approvals_of in He' as (Hin & E1 & E2).
    specialize (Hseen e' Hin). by rewrite !bool_decide_eq_true_2 in Hseen by congruence.
  - apply tx_bind_Ok in E as ([] & s1 & ->%write_Ok & E). cbn [we_actor_role e].
    case_bool_decide as Ec.
    + apply tx_bind_Ok in E as ([] & s1 & ->%write_Ok & E). apply ret_Ok in E as [_ ->]. done.
    + apply tx_bind_Ok in E as ([] & s1 & [_ ->]%ret_Ok & E). apply ret_Ok in E as [_ ->].
      destruct (its_intent _ _ _ Hok Ha Hi Eai) as [_ <-]. unfold core_of; cbn.
      rewrite set_intent_same; [done|done|apply (po_intents _ _ Hok)].
Qed.

Lemma approve_moves org actor roles body ids a i x s s' :
  protocol_ok (core_of s) → on_approval s org a i → colon_free actor → (∀ r, r ∈ roles → holds org actor r) →
  approve_answer org actor roles body ids a i s = Ok (x, s') → rtc move (core_of s) (core_of s').
Proof.
  intros Hok Hon Hactor Hholds E.
  destruct (approve_answer_Ok _ _ _ _ _ _ _ _ _ _ Hok Hon Hactor E)
    as (e & status & Ea & Hr & Eact & Eid & Eo & Eh & Hk & Hst & Hn & Hd & Es & ->).
  destruct Hon as (Ha & Ho & Hi & Eai). destruct (its_intent _ _ _ Hok Ha Hi Eai) as [Hb _].
  apply rtc_once. eapply move_approve; try done; [congruence|intros e' He'; rewrite Ea; by apply Hd|].
  rewrite Eo, Ea. by apply Hholds.
Qed.

(** An event that is not an approval, then a final status. *)
Lemma close_with_event org a i id hash actor role action key reason eid e status s s1 :
  protocol_ok (core_of s) → on_approval s org a i → id = wa_id a →
  record_approval_event org id hash actor role action key reason eid s = Ok (e, s1) →
  status ∈ final_statuses → action ∈ [ApprovalAction.REJECT; ApprovalAction.REVOKE] → colon_free actor →
  key = key_of (mkApprovalEventRow eid org id hash actor role action key reason) →
  move (core_of s) (mkCore (set_intent (wi_id i) status (ws_intents s1))
    (set_request (wa_id a) status (wa_approved_roles a) (ws_approvals s1)) (ws_events s1) (ws_handoffs s1)).
Proof.
  intros Hok (Ha & Ho & Hi & Eai) -> Er Hst Hact Hactor Hk. destruct (its_intent _ _ _ Hok Ha Hi Eai) as [Hb _].
  apply record_event_Ok in Er as [_ [(-> & _ & _)|[-> ->]]].
  - rewrite <- (app_nil_r (ws_events s)). eapply (move_close _ (core_of s)); try done. intros e' ?%elem_of_nil. done.
  - eapply (move_close _ (core_of s)); try done. intros e' ->%list_elem_of_singleton. split_and!; [|set_solver|done].
    split; [done|]. split_and!; [apply (po_signed _ _ Hok a Ha)|done|set_solver].
Qed.

Lemma reject_moves org actor roles body now ids a i x s s' :
  protocol_ok (core_of s) → on_approval s org a i → colon_free actor →
  reject_answer org actor roles body now ids a i s = Ok (x, s') → rtc move (core_of s) (core_of s').
Proof.
  intros Hok Hon Hactor. unfold reject_answer.
  intros (role & s1 & [_ ->]%lift_Ok & E)%tx_bind_Ok. apply tx_bind_Ok in E as (u & s1 & [_ ->]%lift_Ok & E).
  apply tx_bind_Ok in E as (hash & s1 & [_ ->]%lift_Ok & E). apply tx_bind_Ok in E as (reason & s1 & [_ ->]%lift_Ok & E).
  apply tx_bind_Ok in E as (e & s1 & Ee & E). apply tx_bind_Ok in E as ([] & s2 & Es & E).
  apply tx_bind_Ok in E as (o & s3 & Eo%quiet_add_outbox & E). apply ret_Ok in E as [_ ->].
  rewrite Eo, (set_both_core _ _ _ _ _ Es). apply rtc_once.
  eapply close_with_event; try done; unfold final_statuses; set_solver.
Qed.

Lemma update_rows_ext {R} (w w' : R → bool) f f' rows :
  (∀ r, r ∈ rows → (if w r then f r else r) = (if w' r then f' r else r)) → update_rows w f rows = update_rows w' f' rows.
Proof. intros Hr. apply List.map_ext_in. intros r Hin%list_elem_of_In. by apply Hr. Qed.

Lemma cancel_moves org id s s' :
  protocol_ok (core_of s) → cancel_ready_handoff org id s = Ok ((), s') → rtc move (core_of s) (core_of s').
Proof.
  intros Hok. unfold cancel_ready_handoff. intros (o & s1 & [-> ->]%read_Ok & E)%tx_bind_Ok.
  destruct (select_one _ _) as [h|] eqn:Eh; [|by apply ret_Ok in E as [_ ->]].
  apply write_Ok in E as ->. apply select_one_Some in Eh as [Hin [_ Hr]%andb_true_iff]. apply rtc_once.
  unfold core_of at 2; cbn.
  rewrite (update_rows_ext _ (λ g, bool_decide (wh_id g = wh_id h) && bool_decide (wh_status g = PaymentHandoffStatus.READY)) _
    (λ g, with_handoff_status PaymentHandoffStatus.CANCELLED (wh_opened_at g) g)); [apply (move_cancel _ (core_of s))|].
  intros g Hg. destruct (bool_decide_reflect (wh_id g = wh_id h)) as [Eg|]; [|done].
  rewrite (key_unique wh_id _ _ _ (po_handoffs _ _ Hok) Hg Hin Eg), Hr. done.
Qed.

Lemma revoke_moves org actor roles body now ids a i x s s' :
  protocol_ok (core_of s) → on_approval s org a i → colon_free actor →
  revoke_answer org actor roles body now ids a i s = Ok (x, s') → rtc move (core_of s) (core_of s').
Proof.
  intros Hok Hon Hactor. unfold revoke_answer. intros ([] & s1 & [_ ->]%raise_when_Ok & E)%tx_bind_Ok.
  apply tx_bind_Ok in E as (role & s1 & [_ ->]%lift_Ok & E). apply tx_bind_Ok in E as (u & s1 & [_ ->]%lift_Ok & E).
  apply tx_bind_Ok in E as (hash & s1 & [_ ->]%lift_Ok & E). apply tx_bind_Ok in E as (reason & s1 & [_ ->]%lift_Ok & E).
  apply tx_bind_Ok in E as (e & s1 & Ee & E). apply tx_bind_Ok in E as ([] & s2 & Es & E).
  apply tx_bind_Ok in E as ([] & s3 & Ec & E). apply tx_bind_Ok in E as (o & s4 & Eo%quiet_add_outbox & E).
  apply ret_Ok in E as [_ ->]. rewrite Eo.
  assert (move (core_of s) (core_of s2)) as Hm.
  { rewrite (set_both_core _ _ _ _ _ Es). eapply close_with_event; try done; unfold final_statuses; set_solver. }
  eapply rtc_l; [exact Hm|]. eapply cancel_moves; [|exact Ec]. by eapply move_ok.
Qed.

(** Expiring an approval. *)
Lemma expire_move a i s s' org :
  protocol_ok (core_of s) → on_approval s org a i → set_both a i ApprovalStatus.EXPIRED s = Ok ((), s') →
  move (core_of s) (core_of s').
Proof.
  intros Hok (Ha & Ho & Hi & Eai) E. destruct (its_intent _ _ _ Hok Ha Hi Eai) as [Hb _].
  rewrite (set_both_core _ _ _ _ _ E), <- (app_nil_r (ws_events s)). eapply (move_close _ (core_of s)); try done.
  - unfold final_statuses; set_solver.
  - intros e ?%elem_of_nil. done.
Qed.

Lemma unless_expired_moves org id now clock (body : _ → _ → txp (Z * response)) x s s' :
  protocol_ok (core_of s) →
  (∀ a i y s', on_approval s org a i → body a i s = Ok (y, s') → rtc move (core_of s) (core_of s')) →
  unless_expired org id now clock body s = Ok (x, s') → rtc move (core_of s) (core_of s').
Proof.
  intros Hok Hbody. unfold unless_expired.
  intros ([a i] & s1 & (-> & Ha & _ & Ho & Hi & Ei & _)%approval_with_intent_Ok & E)%tx_bind_Ok.
  destruct (_approval_expiry_problem a i now clock) as [problem|].
  - apply tx_bind_Ok in E as ([] & s1 & Es & E). apply ret_Ok in E as [_ ->]. apply rtc_once. by eapply expire_move.
  - apply tx_bind_Ok in E as (y & s1 & Eb & E). apply ret_Ok in E as [_ ->]. by eapply Hbody.
Qed.

(** A body that runs on the tables the claim left. *)
Lemma idempotent_moves org actor op key hash id status body x s s' :
  (∀ s1 y s2, core_of s1 = core_of s → body s1 = Ok (y, s2) → rtc move (core_of s1) (core_of s2)) →
  idempotent org actor op key hash id status body s = Ok (x, s') → rtc move (core_of s) (core_of s').
Proof.
  intros Hb [->|(s1 & y & s2 & E1 & E2 & ->)]%idempotent_core; [done|]. rewrite <- E1. by eapply Hb.
Qed.

Lemma exact_approval_Ok org i s a : exact_approval org i s = Some a →
  a ∈ ws_approvals s ∧ wa_organization_id a = org ∧ wa_purchase_intent_id a = wi_id i ∧ wa_intent_hash a = wi_intent_hash i.
Proof.
  intros [Hin Hw]%select_one_Some. rewrite !andb_true_iff, !bool_decide_eq_true in Hw. tauto.
Qed.

Lemma expire_body_moves org id now clock x s s' :
  protocol_ok (core_of s) → expire_body org id now clock s = Ok (x, s') → rtc move (core_of s) (core_of s').
Proof.
  intros Hok. unfold expire_body. intros (i & s1 & (-> & Hi & _)%get_intent_Ok & E)%tx_bind_Ok.
  apply tx_bind_Ok in E as (o & s1 & [-> ->]%read_Ok & E).
  destruct (exact_approval org i s) as [a|] eqn:Ea; [|by apply ret_Ok in E as [_ ->]].
  apply exact_approval_Ok in Ea as (Ha & Ho & Ei & _).
  destruct (negb _ || _); [by apply ret_Ok in E as [_ ->]|].
  destruct (_approval_expiry_problem a i now clock); [|by apply ret_Ok in E as [_ ->]].
  apply tx_bind_Ok in E as ([] & s1 & Es & E). apply ret_Ok in E as [_ ->]. apply rtc_once. by eapply expire_move.
Qed.

(** Replacing what an older decision allowed. *)
Lemma supersede_move c org i :
  protocol_ok c → i ∈ k_intents c → wi_organization_id i = org →
  wi_approval_status i ∈ [ApprovalStatus.NOT_REQUESTED; ApprovalStatus.PENDING; ApprovalStatus.APPROVED] →
  move c (mkCore (set_intent (wi_id i) ApprovalStatus.SUPERSEDED (k_intents c))
    (update_rows
      (λ a, bool_decide (wa_organization_id a = org) && bool_decide (wa_purchase_intent_id a = wi_id i) &&
            py_in (wa_status a) [ApprovalStatus.PENDING; ApprovalStatus.APPROVED])
      (λ a, with_approval ApprovalStatus.SUPERSEDED (wa_approved_roles a) a) (k_approvals c))
    (k_events c) (k_handoffs c)).
Proof.
  intros Hok Hi Ho Hst.
  destruct (select_one (λ a, bool_decide (wa_purchase_intent_id a = wi_id i)) (k_approvals c)) as [a|] eqn:Ea.
  - apply select_one_Some in Ea as [Ha Eai%bool_decide_eq_true].
    destruct (its_intent _ _ _ Hok Ha Hi (eq_sym Eai)) as [Hb Es].
    rewrite (update_rows_ext _ (λ b, bool_decide (wa_id b = wa_id a)) _ (with_approval ApprovalStatus.SUPERSEDED (wa_approved_roles a))).
    + rewrite <- (app_nil_r (k_events c)). eapply move_close; try done; [unfold final_statuses; set_solver|].
      intros e ?%elem_of_nil. done.
    + intros b Hb0. destruct (bool_decide_reflect (wa_id b = wa_id a)) as [E|E].
      * rewrite (key_unique wa_id _ _ _ (po_approvals _ _ Hok) Hb0 Ha E).
        destruct Hb as (_ & -> & _). rewrite Ho, Eai, !bool_decide_eq_true_2 by done. cbn [andb].
        rewrite (proj2 (py_in_true _ _)); [done|]. pose proof (sg_status _ _ _ (po_signed _ _ Hok a Ha)) as Hr.
        rewrite <- Es in Hr |- *. by apply requested_open.
      * rewrite (bool_decide_eq_false_2 (wa_purchase_intent_id b = _)), andb_false_r; [done|]. intros Eb. apply E.
        f_equal. eapply (key_unique wa_purchase_intent_id); [apply (po_one _ _ Hok)|done..|congruence].
  - rewrite select_one_None in Ea. rewrite update_rows_none.
    + apply move_withdraw; [done|]. intros a Ha Eb. specialize (Ea a Ha). by apply bool_decide_eq_false in Ea.
    + intros a Ha. specialize (Ea a Ha). cbn in Ea. by rewrite Ea, andb_false_r.
Qed.

Lemma set_intent_others id status l j : j ∈ l → wi_id j ≠ id → j ∈ set_intent id status l.
Proof. intros Hj Hn. destruct (set_intent_in id status l j Hj) as (j' & Hj' & ->). by rewrite bool_decide_eq_false_2 in Hj'. Qed.

Lemma supersede_intent_moves org decision proposal oid now i x s s' :
  protocol_ok (core_of s) → i ∈ ws_intents s → wi_organization_id i = org →
  supersede_intent org decision proposal oid now i s = Ok (x, s') →
  rtc move (core_of s) (core_of s') ∧ ∀ j, j ∈ ws_intents s → wi_id j ≠ wi_id i → j ∈ ws_intents s'.
Proof.
  intros Hok Hi Ho. unfold supersede_intent. intros ([] & s1 & E1 & E)%tx_bind_Ok.
  assert (rtc move (core_of s) (core_of s1) ∧ ∀ j, j ∈ ws_intents s → wi_id j ≠ wi_id i → j ∈ ws_intents s1) as [Hm Hoth].
  { destruct (py_in _ _) eqn:Est; [|by apply ret_Ok in E1 as [_ ->]].
    apply tx_bind_Ok in E1 as ([] & s2 & ->%write_Ok & ->%write_Ok). apply py_in_true in Est.
    split; [|by intros; apply set_intent_others]. apply rtc_once. by apply (supersede_move (core_of s)). }
  apply tx_bind_Ok in E as (cancelled & s2 & [_ ->]%read_Ok & E). apply tx_bind_Ok in E as ([] & s2 & ->%write_Ok & E).
  assert (core_of s' = core_of (set_payment_handoffs (update_rows (λ h, bool_decide (wh_organization_id h = org) &&
    bool_decide (wh_purchase_intent_id h = wi_id i) && bool_decide (wh_status h = PaymentHandoffStatus.READY))
    (λ h, with_handoff_status PaymentHandoffStatus.CANCELLED (wh_opened_at h) h) (ws_handoffs s1)) s1)) as Ec.
  { destruct (_ || cancelled); [|by apply ret_Ok in E as [_ ->]].
    apply tx_bind_Ok in E as (o & s2 & <-%quiet_add_outbox & E). by apply ret_Ok in E as [_ ->]. }
  split.
  - rewrite Ec. eapply rtc_r; [exact Hm|]. apply (move_cancel _ (core_of s1)).
  - intros j Hj Hn. injection Ec as -> _ _ _. by apply Hoth.
Qed.

Lemma supersede_each_moves org decision proposal oids now intents x s s' :
  protocol_ok (core_of s) → NoDup (wi_id <$> intents) →
  (∀ i, i ∈ intents → i ∈ ws_intents s ∧ wi_organization_id i = org) →
  supersede_each org decision proposal oids now intents s = Ok (x, s') → rtc move (core_of s) (core_of s').
Proof.
  revert oids x s. induction intents as [|i intents IH]; intros oids x s Hok Hd Hin E; [by apply ret_Ok in E as [_ ->]|].
  cbn in E, Hd. apply NoDup_cons in Hd as [Hi Hd]. apply tx_bind_Ok in E as (b & s1 & E1 & E).
  destruct (Hin i) as [Hii Hio]; [left|].
  destruct (supersede_intent_moves _ _ _ _ _ _ _ _ _ Hok Hii Hio E1) as [Hm Hoth].
  apply tx_bind_Ok in E as (n & s2 & E2 & E). apply ret_Ok in E as [_ ->]. etrans; [exact Hm|].
  eapply IH; [by eapply moves_ok|done| |exact E2]. intros j Hj. destruct (Hin j) as [Hj1 Hj2]; [by right|].
  split; [|done]. apply Hoth; [done|]. intros Eij. apply Hi. rewrite <- Eij. by apply list_elem_of_fmap_2.
Qed.

Lemma supersede_intents_moves org request decision proposal oids now x s s' :
  protocol_ok (core_of s) → supersede_intents_for_decision_change org request decision proposal oids now s = Ok (x, s') →
  rtc move (core_of s) (core_of s').
Proof.
  intros Hok. unfold supersede_intents_for_decision_change. intros (l & s1 & [-> ->]%read_Ok & E)%tx_bind_Ok.
  eapply supersede_each_moves; [done| | |exact E].
  - eapply sublist_NoDup; [apply (po_intents _ _ Hok)|]. apply fmap_sublist, lfilter_sublist.
  - intros i [Hi [Ho%bool_decide_eq_true _]%andb_true_iff]%elem_of_lfilter. done.
Qed.

Lemma supersede_mutation_moves org id hash key oid now x s s' :
  protocol_ok (core_of s) → supersede_approval_for_mutation org id hash key oid now s = Ok (x, s') →
  rtc move (core_of s) (core_of s').
Proof.
  intros Hok. unfold supersede_approval_for_mutation. intros (i & s1 & (-> & Hi & Ei & Ho)%get_intent_Ok & E)%tx_bind_Ok.
  destruct (bool_decide _); [by apply ret_Ok in E as [_ ->]|].
  destruct (py_in _ _) eqn:Est; [|by apply ret_Ok in E as [_ ->]]. apply py_in_true in Est.
  apply tx_bind_Ok in E as ([] & s1 & ->%write_Ok & E). apply tx_bind_Ok in E as ([] & s1 & ->%write_Ok & E).
  apply tx_bind_Ok in E as (o & s2 & Eo%quiet_add_outbox & E). apply ret_Ok in E as [_ ->]. rewrite Eo. apply rtc_once.
  rewrite <- Ei. apply (supersede_move (core_of s)); try done. by right.
Qed.

Section requests.
Context `{Rfc8785} `{BracketedHosts} `{IsoFormat}.

Lemma add_record_Ok {R} table set (clash : R → R → bool) row s s' :
  add_record table set clash row s = Ok ((), s') →
  s' = set (table s ++ [row])%list s ∧ ∀ r, r ∈ table s → clash row r = false.
Proof.
  unfold add_record. destruct (insert_row _ _ _) as [rows|] eqn:Ei; [|done]. intros [= <-].
  by apply insert_row_Ok in Ei as [-> Hn].
Qed.

Lemma reading_executable org d body : reading (executable_plan org d body).
Proof.
  unfold executable_plan, api_when. destruct (wd_selected_solution_plan_id d) as [plan|]; [|apply reading_raise].
  apply reading_bind; [apply reading_when|intros _]. apply reading_bind; [apply reading_when|intros _].
  apply reading_bind.
  - intros s a s' E. assert (reading (get_selected_solution_plan org
      match wd_supersedes_id d with Some x => if is_empty x then wd_id d else x | None => wd_id d end plan)) as Hr
      by (unfold get_selected_solution_plan; auto with reading).
    specialize (Hr s). destruct (get_selected_solution_plan _ _ _ s) as [[b s1]|[]]; try done. injection E as <- <-. by eapply Hr.
  - intros p. apply reading_bind; [apply reading_when|intros _].
    destruct (get "stack_patch_id" (wp_payload p)) as [[]|]; auto 8 with reading.
Qed.

Lemma intent_of_payload_status org d plan patch payload i :
  intent_of_payload org d plan patch payload = Ok i → wi_approval_status i = ApprovalStatus.NOT_REQUESTED.
Proof. unfold intent_of_payload. intros E. repeat (apply bind_Ok in E as (? & _ & E)). by injection E as <-. Qed.

Lemma lock_moves org id body locked now ids x s s' :
  lock_body org id body locked now ids s = Ok (x, s') → rtc move (core_of s) (core_of s').
Proof.
  unfold lock_body. intros (d & s1 & ->%not_found_Ok%reading_decision & E)%tx_bind_Ok.
  apply tx_bind_Ok in E as ([] & s1 & ->%reading_current & E).
  apply tx_bind_Ok in E as ([[plan selected] patch] & s1 & ->%reading_executable & E).
  apply tx_bind_Ok in E as (payload & s1 & [_ ->]%lift_Ok & E).
  apply tx_bind_Ok in E as (i & s1 & [Hst%intent_of_payload_status ->]%lift_Ok & E).
  apply tx_bind_Ok in E as ([] & s1 & [_ ->]%raise_when_Ok & E).
  apply tx_bind_Ok in E as (j & s1 & Ea & E). apply ret_Ok in E as [_ ->]. unfold add_purchase_intent in Ea.
  apply tx_bind_Ok in Ea as ([] & s2 & [_ ->]%raise_when_Ok & Ea).
  apply tx_bind_Ok in Ea as ([] & s2 & [-> Hn]%add_record_Ok & Ea).
  apply tx_bind_Ok in Ea as (o & s3 & Eo%quiet_add_outbox & Ea). apply ret_Ok in Ea as [_ ->].
  rewrite Eo. apply rtc_once. apply (move_lock _ (core_of s)); [done|]. intros k Hk Eid. specialize (Hn k Hk).
  unfold intent_clash in Hn. by rewrite (bool_decide_eq_true_2 (wi_id i = wi_id k)) in Hn.
Qed.

Lemma required_roles_Ok brief roles : required_roles brief = Ok roles → roles ≠ [] ∧ NoDup roles.
Proof.
  unfold required_roles. destruct (get "approval_requirements" brief) as [[]|]; try done.
  intros (u & [Hne Hd]%raise_if_Ok%orb_false_iff & [= <-])%bind_Ok.
  apply bool_decide_eq_false in Hne. apply negb_false_iff, all_distinct_NoDup in Hd. done.
Qed.

Lemma request_moves org id clock now ids x s s' :
  colon_free (di_record ids) → request_body org id clock now ids s = Ok (x, s') → rtc move (core_of s) (core_of s').
Proof.
  intros Hcf. unfold request_body. intros (i & s1 & (-> & Hi & _ & Ho)%not_found_Ok%get_intent_Ok & E)%tx_bind_Ok.
  apply tx_bind_Ok in E as (d & s1 & ->%not_found_Ok%reading_decision & E).
  apply tx_bind_Ok in E as ([] & s1 & ->%reading_current & E).
  apply tx_bind_Ok in E as ([] & s1 & [_ ->]%raise_when_Ok & E).
  apply tx_bind_Ok in E as ([] & s1 & [Hst%negb_false_iff%bool_decide_eq_true ->]%raise_when_Ok & E).
  apply tx_bind_Ok in E as (o & s1 & [_ ->]%read_Ok & E). apply tx_bind_Ok in E as (b & s1 & [_ ->]%require_Ok & E).
  apply tx_bind_Ok in E as (roles & s1 & [[Hne Hd]%required_roles_Ok ->]%lift_Ok & E).
  apply tx_bind_Ok in E as (policy & s1 & [_ ->]%lift_Ok & E).
  apply tx_bind_Ok in E as ([] & s1 & [-> Hn]%add_record_Ok & E). apply tx_bind_Ok in E as ([] & s1 & ->%write_Ok & E).
  apply ret_Ok in E as [_ ->]. apply rtc_once. eapply (move_request _ (core_of s)); try done.
  intros c Hc Eid. specialize (Hn c Hc). unfold approval_request_clash in Hn.
  by rewrite (bool_decide_eq_true_2 (_ = wa_id c)) in Hn.
Qed.

(** Preparing and opening a handoff. *)
Lemma earlier_le a b : instant (earlier a b) <= instant a.
Proof. unfold earlier. destruct (Z.ltb_spec (instant b) (instant a)); lia. Qed.

Lemma as_utc_instant d : instant (_as_utc d) = instant d.
Proof. unfold _as_utc, instant. cbn. lia. Qed.

Lemma expiry_le a i now clock : instant (handoff_expiry a i now clock) <= instant (wa_expires_at a).
Proof.
  unfold handoff_expiry. etrans; [apply earlier_le|]. etrans; [apply earlier_le|]. by rewrite as_utc_instant.
Qed.

Lemma new_handoff_pays org i a id now clock h :
  binds i a → wi_organization_id i = org → new_handoff org i a id now clock = Ok h →
  pays a i (row_of_handoff h) ∧ wh_id (row_of_handoff h) = id ∧ wh_status (row_of_handoff h) = PaymentHandoffStatus.READY ∧
  wh_opened_at (row_of_handoff h) = None.
Proof.
  intros Hb <-. unfold new_handoff. intros (m & Hm & (_ & _ & hash & _ & _ & ->)%handoff_check_Ok)%bind_Ok.
  split_and!; try done. split_and!; try done; cbn; [by destruct m|apply expiry_le].
Qed.

Lemma exact_approved_Ok org i s a : exact_approved org i s = Some a →
  a ∈ ws_approvals s ∧ wa_organization_id a = org ∧ wa_purchase_intent_id a = wi_id i ∧
  wa_intent_hash a = wi_intent_hash i ∧ wa_status a = ApprovalStatus.APPROVED.
Proof. intros [Hin Hw]%select_one_Some. rewrite !andb_true_iff, !bool_decide_eq_true in Hw. tauto. Qed.

Lemma handoff_moves org id now clock ids x s s' :
  handoff_answer org id now clock ids s = Ok (x, s') → rtc move (core_of s) (core_of s').
Proof.
  unfold handoff_answer. intros (i & s1 & (-> & Hi & _ & Ho)%not_found_Ok%get_intent_Ok & E)%tx_bind_Ok.
  apply tx_bind_Ok in E as (d & s1 & ->%reading_decision & E).
  apply tx_bind_Ok in E as ([] & s1 & ->%reading_current & E).
  apply tx_bind_Ok in E as (o & s1 & [-> ->]%read_Ok & E). apply tx_bind_Ok in E as ([] & s1 & [_ ->]%raise_when_Ok & E).
  apply tx_bind_Ok in E as (a & s1 & [(Ha & Hao & Hai & Hah & Hst)%exact_approved_Ok ->]%require_Ok & E).
  destruct (_approval_expiry_problem a i now clock); [done|].
  apply tx_bind_Ok in E as (o & s1 & [-> ->]%read_Ok & E).
  destruct (select_one _ _) as [g|]; [by apply ret_Ok in E as [_ ->]|].
  assert (binds i a) as Hb by (split_and!; congruence).
  apply tx_bind_Ok in E as (h & s1 & [Hh ->]%lift_Ok & E).
  apply new_handoff_pays in Hh as (Hp & Hid & Hr & Ht); [|done..].
  apply tx_bind_Ok in E as ([] & s1 & [_ ->]%raise_when_Ok & E).
  apply tx_bind_Ok in E as ([] & s1 & [-> Hn]%add_record_Ok & E).
  apply tx_bind_Ok in E as (o & s2 & Eo%quiet_add_outbox & E). apply ret_Ok in E as [_ ->].
  rewrite Eo. apply rtc_once. apply (move_prepare _ (core_of s) i a (row_of_handoff h)); try done.
  intros g Hg Eg. specialize (Hn g Hg). unfold payment_handoff_clash in Hn.
  by rewrite (bool_decide_eq_true_2 (_ = wh_id g)) in Hn.
Qed.

(** What opening a handoff found, and what it wrote. *)
Lemma open_answer_Ok org id now ids x s s' :
  open_answer org id now ids s = Ok (x, s') →
  ∃ h i a, h ∈ ws_handoffs s ∧ wh_id h = id ∧ wh_organization_id h = org ∧
    i ∈ ws_intents s ∧ wi_id i = wh_purchase_intent_id h ∧ wi_organization_id i = org ∧
    a ∈ ws_approvals s ∧ wa_id a = wh_approval_request_id h ∧ wa_organization_id a = org ∧
    authority_ok h i (Some a) = true ∧
    wh_status h = PaymentHandoffStatus.READY ∧ is_aware now = true ∧ instant now < instant (wh_expires_at h) ∧
    core_of s' = mkCore (ws_intents s) (ws_approvals s) (ws_events s)
      (update_rows (λ g, bool_decide (wh_id g = id)) (with_handoff_status PaymentHandoffStatus.OPENED (Some now)) (ws_handoffs s)).
Proof.
  unfold open_answer. intros (o & s1 & [-> ->]%read_Ok & E)%tx_bind_Ok.
  apply tx_bind_Ok in E as (h & s1 & [[Hin Hw]%select_one_Some ->]%require_Ok & E).
  apply andb_true_iff in Hw as [Hid%bool_decide_eq_true Ho%bool_decide_eq_true].
  apply tx_bind_Ok in E as (i & s1 & (-> & Hi & Eii & Eio)%get_intent_Ok & E).
  apply tx_bind_Ok in E as (oa & s1 & [-> ->]%read_Ok & E).
  apply tx_bind_Ok in E as ([] & s1 & [Hauth%negb_false_iff ->]%raise_when_Ok & E).
  destruct (select_one _ (ws_approvals s)) as [a|] eqn:Ea; [|done].
  apply select_one_Some in Ea as [Ha [Eai%bool_decide_eq_true Eao%bool_decide_eq_true]%andb_true_iff].
  apply tx_bind_Ok in E as (d & s1 & [Hd ->]%lift_Ok & E).
  apply tx_bind_Ok in E as (o & s1 & [Hopen ->]%lift_Ok & E).
  unfold handoff_of_row in Hd. apply bind_Ok in Hd as (m & _ & Hd). pose proof (check_constructs _ _ Hd) as Hc.
  apply handoff_check_Ok in Hd as (_ & _ & hash & _ & _ & Ed).
  pose proof (handoff_transition_cases d PaymentHandoffStatus.OPENED now Hc) as Ht.
  destruct (PaymentHandoffTransitionService.transition _ _ _) as [d'|]; [|done]. injection Hopen as ->.
  destruct Ht as [(Haw & Hr & _ & Hlt) Eo]. rewrite Ed in Hr. specialize (Hlt eq_refl). rewrite Ed in Hlt. cbn in Hlt, Hr.
  apply tx_bind_Ok in E as ([] & s1 & ->%write_Ok & E). apply tx_bind_Ok in E as (x' & s2 & Ex%quiet_add_outbox & E).
  apply ret_Ok in E as [_ ->]. exists h, i, a. do 11 (split; [done|]).
  split; [done|]. split; [by rewrite <- (as_utc_instant (wh_expires_at h))|].
  rewrite Ex. unfold core_of. cbn. by rewrite Eo, Hid.
Qed.

Lemma open_moves org id now ids x s s' :
  protocol_ok (core_of s) → open_answer org id now ids s = Ok (x, s') → rtc move (core_of s) (core_of s').
Proof.
  intros Hok (h & i & a & Hh & <- & _ & Hi & Ei & _ & Ha & Ea & _ & Hauth & Hr & _ & Hlt & ->)%open_answer_Ok.
  unfold authority_ok in Hauth. rewrite !andb_true_iff, !bool_decide_eq_true in Hauth. destruct Hauth as [[[Hst Hist] _] _].
  destruct (po_handoff _ _ Hok h Hh) as (_ & b & j & Hb & Hj & Hbj & (Epa & Epi & _) & _).
  assert (b = a) as -> by (eapply (key_unique wa_id); [apply (po_approvals _ _ Hok)|done..|congruence]).
  assert (j = i) as -> by (eapply (key_unique wi_id); [apply (po_intents _ _ Hok)|done..|congruence]).
  apply rtc_once. by eapply (move_open _ (core_of s)).
Qed.

(** ** The requests *)

(** The requests that touch a purchase, under the service's own conditions on
    what it draws and what it verifies: identifiers without colons, and the
    roles of an actor as its identity is verified.  The last two are the
    updates other requests make when a decision or a bound input changes. *)
Inductive purchase_request : ∀ {A : Type}, prog purchase_store A → Prop :=
| request_lock org actor decision key body clock now ids :
    purchase_request (lock_purchase_intent org actor decision key body clock now ids)
| request_approval org actor intent key body clock now ids :
    colon_free (di_record ids) → purchase_request (create_approval_request org actor intent key body clock now ids)
| request_approve org actor roles verified approval key body now clock ids :
    colon_free actor → (∀ r, r ∈ roles → holds org actor r) →
    purchase_request (approve org actor roles verified approval key body now clock ids)
| request_reject org actor roles verified approval key body now clock ids :
    colon_free actor → purchase_request (reject_approval org actor roles verified approval key body now clock ids)
| request_revoke org actor roles verified approval key body now ids :
    colon_free actor → purchase_request (revoke_approval org actor roles verified approval key body now ids)
| request_handoff org actor intent key now clock ids :
    purchase_request (create_payment_handoff org actor intent key now clock ids)
| request_open org actor handoff key now ids :
    purchase_request (open_payment_handoff org actor handoff key now ids)
| request_status org intent : purchase_request (purchase_status org intent)
| request_decision_changed org request decision proposal oids now :
    purchase_request (in_transaction org (supersede_intents_for_decision_change org request decision proposal oids now))
| request_input_changed org intent hash key oid now :
    purchase_request (in_transaction org (supersede_approval_for_mutation org intent hash key oid now)).

Definition moves_of (s s' : purchase_store) : Prop := rtc move (core_of s) (core_of s').
Local Abbreviation core_ok := (λ s, protocol_ok (core_of s)).

Lemma reading_status org id : reading (status_body org id).
Proof.
  intros s x s' E. unfold status_body in E. apply tx_bind_Ok in E as (i & s1 & (-> & _)%not_found_Ok%get_intent_Ok & E).
  inv_tx. done.
Qed.

Lemma within_idempotent org actor op key hash id status body :
  (∀ s y s', core_ok s → body s = Ok (y, s') → moves_of s s') →
  within core_ok moves_of (in_transaction org (idempotent org actor op key hash id status body)).
Proof.
  intros Hb. apply within_transaction. intros s x s' Hok. apply idempotent_moves.
  intros s1 y s2 Ec E. eapply Hb; [by rewrite Ec|exact E].
Qed.

Lemma within_unless_expired org actor op key hash id status approval now clock answer :
  (∀ s a i y s', core_ok s → on_approval s org a i → answer a i s = Ok (y, s') → moves_of s s') →
  within core_ok moves_of (r ← in_transaction org (unless_expired org approval now clock
    (λ a i, idempotent org actor op key hash id status (answer a i))); settle r).
Proof.
  intros Hb. apply within_bind; [|by intros [?|?]]. apply within_transaction. intros s x s' Hok.
  apply unless_expired_moves; [done|]. intros a i y s2 Hon. apply idempotent_moves.
  intros s1 z s3 Ec E. eapply Hb; [by rewrite Ec|by eapply on_approval_core|exact E].
Qed.

Lemma revoke_within org actor roles verified approval key body now ids :
  colon_free actor → within core_ok moves_of (revoke_approval org actor roles verified approval key body now ids).
Proof.
  intros Hcf. unfold revoke_approval. apply within_bind; [exact I|intros _]. apply within_bind; [exact I|intros hash]. apply within_transaction.
  intros s x s' Hok. unfold revoke_body.
  intros ([a i] & s1 & (-> & Ha & _ & Ho & Hi & Ei & _)%approval_with_intent_Ok & E)%tx_bind_Ok.
  revert E. apply idempotent_moves. intros s1 y s2 Ec E. eapply revoke_moves; [by rewrite Ec| |done|exact E].
  by eapply on_approval_core.
Qed.

Lemma handoff_within org actor intent key now clock ids :
  within core_ok moves_of (create_payment_handoff org actor intent key now clock ids).
Proof.
  unfold create_payment_handoff, _expire_purchase_approval_if_needed. apply within_bind.
  - apply within_transaction. intros s x s' Hok. by apply expire_body_moves.
  - intros [problem|]; [exact I|]. apply within_bind; [exact I|intros hash]. apply within_idempotent.
    intros s y s' _. apply handoff_moves.
Qed.

(** Every transaction of a request runs moves of the protocol. *)
Lemma request_within {A} (m : prog purchase_store A) : purchase_request m → within core_ok moves_of m.
Proof.
  destruct 1; [| | | |by apply revoke_within|apply handoff_within|..].
  - unfold lock_purchase_intent. apply within_bind; [exact I|intros hash]. apply within_idempotent.
    intros s y s' _. apply lock_moves.
  - unfold create_approval_request. apply within_bind; [exact I|intros hash]. apply within_idempotent.
    intros s y s' _. by apply request_moves.
  - unfold approve. apply within_bind; [exact I|intros _]. apply within_bind; [exact I|intros hash]. apply within_unless_expired.
    intros s b j y s' Hok Hon. by eapply approve_moves.
  - unfold reject_approval. apply within_bind; [exact I|intros _]. apply within_bind; [exact I|intros hash]. apply within_unless_expired.
    intros s b j y s' Hok Hon. by eapply reject_moves.
  - unfold open_payment_handoff. apply within_bind; [exact I|intros hash]. apply within_bind; [|done].
    apply within_idempotent. intros s y s' Hok. by apply open_moves.
  - apply within_transaction. intros s y s' _ ->%reading_status. apply rtc_refl.
  - apply within_transaction. intros s y s' Hok. by apply supersede_intents_moves.
  - apply within_transaction. intros s y s' Hok. by apply supersede_mutation_moves.
Qed.

(** ** Histories *)

(** One committed or rolled back transaction of a purchase request, or a change
    of other tables. *)
Inductive purchase_step (s s' : purchase_store) : Prop :=
| step_request A (m : prog purchase_store A) : purchase_request m → ran m s s' → purchase_step s s'
| step_other : core_of s' = core_of s → purchase_step s s'.

Definition purchase_reachable (s : purchase_store) : Prop :=
  ∃ s0, core_of s0 = empty_core ∧ rtc purchase_step s0 s.

Lemma step_moves s s' : core_ok s → purchase_step s s' → moves_of s s'.
Proof.
  intros Hok [A m Hm Hr|Ec]; [|by unfold moves_of; rewrite Ec].
  eapply (within_ran core_ok); [intros x; unfold moves_of; done|by apply request_within|done|exact Hr].
Qed.

Lemma steps_moves s s' : core_ok s → rtc purchase_step s s' → moves_of s s'.
Proof.
  intros Hok Hs. induction Hs as [s|s s1 s' Hst _ IH]; [unfold moves_of; done|].
  pose proof (step_moves _ _ Hok Hst) as Hm. unfold moves_of in *. etrans; [exact Hm|]. apply IH. by eapply moves_ok.
Qed.

Lemma reachable_moves s : purchase_reachable s → rtc move empty_core (core_of s).
Proof. intros (s0 & E0 & Hs). rewrite <- E0. apply steps_moves; [rewrite E0; apply empty_ok|done]. Qed.

Lemma reachable_ok s : purchase_reachable s → core_ok s.
Proof. intros Hs%reachable_moves. eapply moves_ok; [apply empty_ok|exact Hs]. Qed.

(** Whoever approved: each required role once, in order, by distinct actors. *)
Definition fully_approved (s : purchase_store) (i : IntentRow) (a : ApprovalRequestRow) : Prop :=
  let signatures := approvals_of (wa_id a) (ws_events s) in
  we_actor_role <$> signatures = wa_required_roles a ∧ wa_required_roles a ≠ [] ∧ NoDup (wa_required_roles a) ∧
  NoDup (we_actor_id <$> signatures) ∧
  ∀ e, e ∈ signatures → we_intent_hash e = wi_intent_hash i ∧
    holds (wi_organization_id i) (we_actor_id e) (we_actor_role e).

Lemma approved_fully s i a :
  core_ok s → a ∈ ws_approvals s → binds i a → wa_status a = ApprovalStatus.APPROVED → fully_approved s i a.
Proof.
  intros Hok Ha (_ & Ho & Hh) Hst. pose proof (po_signed _ _ Hok a Ha) as Hs. destruct (sg_policy _ _ _ Hs) as [Hne Hd].
  split_and!; [by rewrite <- (sg_complete _ _ _ Hs Hst), (sg_roles _ _ _ Hs)|done|done|apply (sg_actors _ _ _ Hs)|].
  intros e He. destruct (sg_exact _ _ _ Hs e He) as (E1 & E2 & Hh'). rewrite E2 in Hh'. by rewrite <- Ho, <- Hh.
Qed.

(** The transactions of opening a handoff. *)
Lemma ran_open org actor id key now ids s s' :
  ran (open_payment_handoff org actor id key now ids) s s' →
  core_of s' = core_of s ∨
  ∃ s1 s2 x, core_of s1 = core_of s ∧ open_answer org id now ids s1 = Ok (x, s2) ∧ core_of s' = core_of s2.
Proof.
  unfold open_payment_handoff. destruct (content_hash _) as [hash|e]; cbn [pure mbind prog_bind]; [|done].
  intros [(r & Et)|(r & Hr)]; [|by destruct r]. revert Et. unfold transaction, commit, mbind at 1, tx_bind, lift.
  destruct (_validated_organization_id org); [|intros [= _ <-]; by left].
  destruct (idempotent _ _ _ _ _ _ _ _ s) as [[y s2]|] eqn:E; intros [= _ <-]; [|by left].
  apply idempotent_core in E as [E|(s1 & z & s3 & E1 & E2 & E3)]; [by left|]. right. by exists s1, s3, z.
Qed.

(** Every interleaving of the purchase requests is a run of the purchase
    protocol.  Whatever the clocks, the drawn identifiers and the other
    transactions between its own, a request started in a reachable store moves
    the four tables only by moves of the protocol: it locks an intent, asks for
    its approval, adds one approval by a new actor for the next role of the
    policy, closes an approval with its intent, and prepares, opens or cancels
    handoffs as the protocol allows. *)
Theorem requests_follow_protocol {A} (m : prog purchase_store A) (s : purchase_store) (r : result A) (s' : purchase_store) :
  purchase_reachable s → purchase_request m → runs purchase_step m s r s' →
  rtc (PurchaseProtocol.move holds) empty_core (core_of s) ∧ rtc (PurchaseProtocol.move holds) (core_of s) (core_of s').
Proof.
  intros Hs Hm Hr. split; [by apply reachable_moves|]. apply steps_moves; [by apply reachable_ok|].
  eapply runs_steps; [|exact Hr]. intros x y Hxy. by eapply step_request.
Qed.

(** Approvals are earned.  In a reachable store an APPROVED request belongs
    to one intent, which is APPROVED too, and the recorded approvals of the
    request are exactly one for each required role in the order of the policy,
    by distinct actors who hold these roles, of the hash of that intent. *)
Theorem approvals_are_earned (s : purchase_store) (a : ApprovalRequestRow) :
  purchase_reachable s → a ∈ ws_approvals s → wa_status a = ApprovalStatus.APPROVED →
  ∃ i, i ∈ ws_intents s ∧ binds i a ∧ wi_approval_status i = ApprovalStatus.APPROVED ∧ fully_approved s i a.
Proof.
  intros Hs%reachable_ok Ha Hst. destruct (po_bound _ _ Hs a Ha) as (i & Hi & Hb & Es). exists i.
  split_and!; [done..|congruence|by apply approved_fully].
Qed.


(** What is final stays so, and nothing is paid on it.  A rejected, revoked,
    expired or superseded approval of a reachable store is still final after any
    further requests, with no role added to it, and no request opens a handoff
    of it any more. *)
Theorem final_approvals_stay_final (s s' : purchase_store) (a : ApprovalRequestRow) :
  purchase_reachable s → rtc purchase_step s s' → a ∈ ws_approvals s → wa_status a ∈ final_statuses →
  (∃ a', a' ∈ ws_approvals s' ∧ finalised a a') ∧
  ∀ h org actor key now ids s'', h ∈ ws_handoffs s' → wh_approval_request_id h = wa_id a →
    ran (open_payment_handoff org actor (wh_id h) key now ids) s' s'' → core_of s'' = core_of s'.
Proof.
  intros Hs%reachable_ok Hsteps Ha Hf. pose proof (steps_moves _ _ Hs Hsteps) as Hm.
  destruct (moves_final _ _ _ _ Hs Hm Ha Hf) as (a' & Ha' & Hfin). split; [by exists a'|].
  intros h org actor key now ids s'' Hh Eha Hr. pose proof (moves_ok _ _ _ Hs Hm) as Hs'.
  apply ran_open in Hr as [?|(s1 & s2 & x & E1 & E & _)]; [done|]. exfalso.
  apply open_answer_Ok in E as (g & i & b & Hg & Eid & _ & _ & _ & _ & Hb & Eb & _ & Hauth & _).
  injection E1 as _ Ea1 _ Eh1. rewrite Ea1, Eh1 in *.
  assert (g = h) as -> by (eapply (key_unique wh_id); [apply (po_handoffs _ _ Hs')|done..]).
  destruct Hfin as (Eid' & Hfin & _).
  assert (b = a') as -> by (eapply (key_unique wa_id); [apply (po_approvals _ _ Hs')|done..|congruence]).
  unfold authority_ok in Hauth. rewrite !andb_true_iff, !bool_decide_eq_true in Hauth. destruct Hauth as [[[Hst _] _] _].
  eapply final_not_open; [exact Hfin|]. rewrite Hst. apply list_elem_of_further, list_elem_of_here.
Qed.
End requests.
End safety.
