(* ===== verification/PurchaseReplay.v ===== *)
(** * Repeated purchase requests

    The claims of idempotency keys: a key has one claim, a completed claim is
    never changed again by any request, and a request repeated with its key is
    answered with the stored response and changes nothing. *)
From S2P Require Import Prelude PyText PyNumber PyTime PyDate Enums Money Hashing DomainModels StateMachines Tables.
From S2P Require Import Database Outbox Terms Purchase PurchaseProtocol PurchaseService PurchaseSafety.

Local Open Scope string_scope.
Local Open Scope Z_scope.

(** ** The claims *)

Definition claim_key (k : IdempotencyRow) : string * string * string * string :=
  (wk_organization_id k, wk_actor_id k, wk_operation k, wk_idempotency_key k).

Definition claims_ok (l : list IdempotencyRow) : Prop := NoDup (wk_id <$> l) ∧ NoDup (claim_key <$> l).

(** Answered claims stay, and keys stay unique. *)
Definition claims_kept (s s' : purchase_store) : Prop :=
  claims_ok (ws_claims s') ∧ ∀ k, k ∈ ws_claims s → wk_completed k = true → k ∈ ws_claims s'.

Lemma claims_key_iff org actor op key k : claims_key org actor op key k ↔ claim_key k = (org, actor, op, key).
Proof. unfold claims_key, claim_key. split; [by intros (-> & -> & -> & ->)|by intros [= -> -> -> ->]]. Qed.

Lemma claims_kept_same s s' : ws_claims s' = ws_claims s → claims_ok (ws_claims s) → claims_kept s s'.
Proof. unfold claims_kept. by intros ->. Qed.

(** Transactions that leave the claims. *)
Definition unclaiming {A} (m : txp A) : Prop := ∀ s a s', m s = Ok (a, s') → ws_claims s' = ws_claims s.

Lemma reading_unclaiming {A} (m : txp A) : reading m → unclaiming m.
Proof. intros Hm s a s' E. by rewrite (Hm _ _ _ E). Qed.

Lemma unclaiming_bind {A B} (m : txp A) (f : A → txp B) : unclaiming m → (∀ a, unclaiming (f a)) → unclaiming (m ≫= f).
Proof. intros Hm Hf s b s' (a & s1 & E1 & E2)%tx_bind_Ok. by rewrite (Hf _ _ _ _ E2), (Hm _ _ _ E1). Qed.

Lemma unclaiming_write f : (∀ s, ws_claims (f s) = ws_claims s) → unclaiming (write f).
Proof. intros Hf s a s' ->%write_Ok. apply Hf. Qed.

Lemma unclaiming_add {R} (table : purchase_store → list R) set clash row :
  (∀ l s, ws_claims (set l s) = ws_claims s) → unclaiming (add_record table set clash row).
Proof. intros Hs s [] s' [-> _]%add_record_Ok. apply Hs. Qed.

Lemma unclaiming_not_found {A} (m : txp A) kind : unclaiming m → unclaiming (_not_found m kind).
Proof. intros Hm s a s' E%not_found_Ok. by eapply Hm. Qed.

(** Follows the binds and the branches of a body down to its writes. *)
Ltac unclaim :=
  repeat match goal with
  | Hu : unclaiming ?m |- unclaiming ?m => exact Hu
  | |- unclaiming (mbind _ _) => apply unclaiming_bind; [|intros ?]
  | |- unclaiming (write _) => apply unclaiming_write; reflexivity
  | |- unclaiming (add_record _ _ _ _) => apply unclaiming_add; reflexivity
  | |- unclaiming (_not_found _ _) => apply unclaiming_not_found
  | |- unclaiming (let _ := _ in _) => cbv zeta
  | |- unclaiming (match ?x with _ => _ end) => destruct x
  | |- unclaiming (if ?x then _ else _) => destruct x
  | |- unclaiming _ => apply reading_unclaiming; solve
      [ apply reading_ret | apply reading_lift | apply reading_read | apply reading_raise | apply reading_when
      | apply reading_require | apply reading_decision | apply reading_current | apply reading_executable
      | apply reading_status ]
  end.

Lemma unclaiming_outbox org at_ ai et ek p id now : unclaiming (add_outbox org at_ ai et ek p id now).
Proof. unfold add_outbox. unclaim. Qed.

Lemma unclaiming_intent org id : unclaiming (get_purchase_intent org id).
Proof. unfold get_purchase_intent. unclaim. Qed.

Lemma unclaiming_approval org id : unclaiming (approval_with_intent org id).
Proof. intros s [a i] s' (-> & _)%approval_with_intent_Ok. done. Qed.

Lemma unclaiming_event org id hash actor role action key reason eid :
  unclaiming (record_approval_event org id hash actor role action key reason eid).
Proof. intros s e s' [_ [(-> & _)|[_ ->]]]%record_event_Ok; done. Qed.

Lemma unclaiming_both a i status : unclaiming (set_both a i status).
Proof. unfold set_both, set_approval, set_intent_status. unclaim. Qed.

Section bodies.
Context `{Rfc8785} `{BracketedHosts} `{IsoFormat}.

(** The answers of the requests leave the claims to [idempotent]. *)
Lemma lock_unclaiming org id body locked now ids : unclaiming (lock_body org id body locked now ids).
Proof.
  pose proof unclaiming_outbox. unfold lock_body, add_purchase_intent, _assert_tenant. unclaim. all: auto.
Qed.

Lemma request_unclaiming org id clock now ids : unclaiming (request_body org id clock now ids).
Proof.
  pose proof unclaiming_intent. unfold request_body, set_intent_status, api_when. unclaim. all: auto.
Qed.

Lemma approve_unclaiming org actor roles body ids a i : unclaiming (approve_answer org actor roles body ids a i).
Proof.
  unfold approve_answer, set_approval, set_intent_status, api_when. unclaim. all: auto using unclaiming_event.
Qed.

Lemma reject_unclaiming org actor roles body now ids a i : unclaiming (reject_answer org actor roles body now ids a i).
Proof.
  unfold reject_answer, api_when. unclaim. all: auto using unclaiming_event, unclaiming_both, unclaiming_outbox.
Qed.

Lemma revoke_unclaiming org actor roles body now ids a i : unclaiming (revoke_answer org actor roles body now ids a i).
Proof.
  unfold revoke_answer, cancel_ready_handoff, api_when. unclaim.
  all: auto using unclaiming_event, unclaiming_both, unclaiming_outbox.
Qed.

Lemma handoff_unclaiming org id now clock ids : unclaiming (handoff_answer org id now clock ids).
Proof.
  unfold handoff_answer, api_when. unclaim. all: auto using unclaiming_intent, unclaiming_outbox.
Qed.

Lemma open_unclaiming org id now ids : unclaiming (open_answer org id now ids).
Proof.
  unfold open_answer, api_when. unclaim. all: auto using unclaiming_intent, unclaiming_outbox.
Qed.

Lemma expire_unclaiming org id now clock : unclaiming (expire_body org id now clock).
Proof. unfold expire_body. unclaim. all: auto using unclaiming_intent, unclaiming_both. Qed.

Lemma supersede_requests_unclaiming org id : unclaiming (supersede_requests org id).
Proof. unfold supersede_requests. unclaim. Qed.

Lemma supersede_intent_unclaiming org decision proposal oid now i :
  unclaiming (supersede_intent org decision proposal oid now i).
Proof.
  unfold supersede_intent, set_intent_status. unclaim. all: auto using unclaiming_outbox, supersede_requests_unclaiming.
Qed.

Lemma supersede_each_unclaiming org decision proposal oids now l :
  unclaiming (supersede_each org decision proposal oids now l).
Proof.
  revert oids. induction l as [|i l IH]; intros oids; cbn [supersede_each]; unclaim; auto using supersede_intent_unclaiming.
Qed.

Lemma supersede_mutation_unclaiming org id hash key oid now :
  unclaiming (supersede_approval_for_mutation org id hash key oid now).
Proof.
  unfold supersede_approval_for_mutation, set_intent_status. unclaim.
  all: auto using unclaiming_intent, unclaiming_outbox, supersede_requests_unclaiming.
Qed.
End bodies.

(** ** A claim, from its first answer on *)

Lemma clash_false k r : idempotency_clash k r = false → wk_id r ≠ wk_id k ∧ claim_key r ≠ claim_key k.
Proof.
  unfold idempotency_clash. intros [Hi%bool_decide_eq_false Hk%bool_decide_eq_false]%orb_false_iff.
  unfold claim_key. split; congruence.
Qed.

Lemma claims_ok_snoc l k : claims_ok l → (∀ r, r ∈ l → idempotency_clash k r = false) → claims_ok (l ++ [k])%list.
Proof.
  intros [Hi Hk] Hn. split; apply NoDup_snoc_fmap; try done; intros r Hr; by apply clash_false, Hn.
Qed.

(** The row of a claim that was answered. *)
Definition answered_row (k : IdempotencyRow) (status : Z) (answer : response) (ref : string) : IdempotencyRow :=
  mkIdempotencyRow (wk_id k) (wk_organization_id k) (wk_actor_id k) (wk_operation k) (wk_idempotency_key k)
    (wk_request_hash k) true (Some status) (Some answer) (Some ref).

Lemma complete_Ok org k status answer ref s s' :
  complete_idempotency org k status answer ref s = Ok ((), s') →
  ws_claims s' = update_rows (λ r, bool_decide (wk_id r = wk_id k)) (λ r, answered_row r status answer ref) (ws_claims s).
Proof. unfold complete_idempotency. intros (u & s1 & [_ ->]%raise_when_Ok & ->%write_Ok)%tx_bind_Ok. done. Qed.

(** The answer to a request is in its claim. *)
Definition answers (org actor op key hash : string) (status : Z) (x : Z * response) (s : purchase_store) : Prop :=
  ∃ k, k ∈ ws_claims s ∧ claims_key org actor op key k ∧ wk_request_hash k = hash ∧ wk_completed k = true ∧
    replay k status = x.

Lemma idempotent_claims org actor op key hash id status body x s s' :
  claims_ok (ws_claims s) → unclaiming body → status ≠ 0 →
  idempotent org actor op key hash id status body s = Ok (x, s') →
  claims_kept s s' ∧ answers org actor op key hash status x s'.
Proof.
  intros Hok Hb Hst [(k & Hin & Hk & Hh & Hc & -> & ->)|(k & s1 & answer & ref & s2 & Ec & Eb & Ek & ->)]%idempotent_Ok.
  - split; [by apply claims_kept_same|]. by exists k.
  - apply claim_Ok in Ec as (Hk & Hh & Hc & Hs).
    assert (claims_ok (ws_claims s1) ∧ k ∈ ws_claims s1 ∧ ∀ r, r ∈ ws_claims s → r ∈ ws_claims s1) as ([Hi Hkeys] & Hin & Hsub).
    { destruct Hs as [[-> Hin]|(-> & _ & Hn)]; [done|]. split; [by apply claims_ok_snoc|].
      cbn. setoid_rewrite elem_of_app. split; [right; by apply list_elem_of_singleton|auto]. }
    rewrite <- (Hb _ _ _ Eb) in Hi, Hkeys, Hin, Hsub. apply complete_Ok in Ek.
    split; [split|].
    + rewrite Ek. by split; rewrite fmap_update.
    + intros r Hr Hrc. rewrite Ek. apply elem_of_update_rows. exists r. split; [by apply Hsub|].
      rewrite bool_decide_eq_false_2; [done|]. intros E. apply Hsub in Hr.
      rewrite (key_unique wk_id _ _ _ Hi Hr Hin E) in Hrc. congruence.
    + exists (answered_row k status answer ref). split; [rewrite Ek; apply elem_of_update_rows; exists k; by rewrite bool_decide_eq_true_2|].
      do 3 (split; [done|]). unfold replay. cbn. by destruct (Z.eqb_spec status 0).
Qed.

Lemma answered_replays org actor op key hash id status body x s :
  claims_ok (ws_claims s) → answers org actor op key hash status x s →
  idempotent org actor op key hash id status body s = Ok (x, s).
Proof.
  intros [_ Hkeys] (k & Hin & Hk & Hh & Hc & <-).
  assert (claim_idempotency org actor op key hash id s = Ok ((k, true), s)) as E.
  { unfold claim_idempotency, mbind, tx_bind, read.
    destruct (select_one _ (ws_claims s)) as [c|] eqn:Es.
    - apply select_one_Some in Es as [Hc' Hw]. rewrite !andb_true_iff, !bool_decide_eq_true in Hw.
      assert (c = k) as ->.
      { apply claims_key_iff in Hk. eapply (key_unique claim_key); [exact Hkeys|done..|]. rewrite Hk. unfold claim_key.
        destruct Hw as [[[-> ->] ->] ->]. done. }
      unfold raise_when, lift, raise_if. rewrite bool_decide_eq_true_2 by done. cbn. by rewrite Hc.
    - exfalso. rewrite select_one_None in Es. specialize (Es k Hin). destruct Hk as (E1 & E2 & E3 & E4).
      by rewrite !bool_decide_eq_true_2 in Es by done. }
  unfold idempotent, mbind, tx_bind. by rewrite E.
Qed.

Lemma answers_kept org actor op key hash status x s s' :
  claims_kept s s' → answers org actor op key hash status x s → answers org actor op key hash status x s'.
Proof. intros [_ Hk] (k & Hin & ? & ? & Hc & ?). exists k. by split; [apply Hk|]. Qed.

(** ** Requests and their claims *)

Section replays.
Context (holds : string → string → string → Prop).
Context `{Rfc8785} `{BracketedHosts} `{IsoFormat}.

Definition stay (s s' : purchase_store) : Prop := claims_ok (ws_claims s) → claims_kept s s'.
Local Abbreviation any := (λ _ : purchase_store, True).

Lemma unclaiming_within {A} org (body : txp A) : unclaiming body → within any stay (in_transaction org body).
Proof. intros Hb. apply within_transaction. intros s a s' _ E Hok. apply claims_kept_same; [by eapply Hb|done]. Qed.

Lemma idempotent_within org actor op key hash id status body :
  unclaiming body → status ≠ 0 → within any stay (in_transaction org (idempotent org actor op key hash id status body)).
Proof. intros Hb Hst. apply within_transaction. intros s x s' _ E Hok. by eapply idempotent_claims. Qed.

(** A request that reads its approval, then claims its key. *)
Lemma after_reading {A B} (m : txp A) (f : A → txp B) s x s' :
  reading m → (∀ a, f a s = Ok (x, s') → claims_kept s s') → (m ≫= f) s = Ok (x, s') → claims_kept s s'.
Proof. intros Hm Hf (a & s1 & E1 & E2)%tx_bind_Ok. apply Hm in E1 as ->. by eapply Hf. Qed.

Lemma reading_approval org id : reading (approval_with_intent org id).
Proof. intros s [a i] s' (-> & _)%approval_with_intent_Ok. done. Qed.

Lemma unless_expired_within org actor op key hash id status approval now clock answer :
  (∀ a i, unclaiming (answer a i)) → status ≠ 0 →
  within any stay (in_transaction org (unless_expired org approval now clock
    (λ a i, idempotent org actor op key hash id status (answer a i)))).
Proof.
  intros Hb Hst. apply within_transaction. intros s x s' _ E Hok. revert E. unfold unless_expired.
  apply after_reading; [apply reading_approval|]. intros [a i]. destruct (_approval_expiry_problem a i now clock).
  - intros (u & s1 & E1 & E2)%tx_bind_Ok. apply ret_Ok in E2 as [_ ->].
    apply claims_kept_same; [by eapply unclaiming_both|done].
  - intros (y & s1 & E1 & E2)%tx_bind_Ok. apply ret_Ok in E2 as [_ ->]. by eapply idempotent_claims.
Qed.

Lemma request_stay {A} (m : prog purchase_store A) : purchase_request holds m → within any stay m.
Proof.
  destruct 1.
  - unfold lock_purchase_intent. apply within_bind; [exact I|intros hash]. by apply idempotent_within; [apply lock_unclaiming|].
  - unfold create_approval_request. apply within_bind; [exact I|intros hash]. by apply idempotent_within; [apply request_unclaiming|].
  - unfold approve. do 2 (apply within_bind; [exact I|intros ?]). apply within_bind; [|by intros [?|?]].
    apply unless_expired_within; [|done]. intros. apply approve_unclaiming.
  - unfold reject_approval. do 2 (apply within_bind; [exact I|intros ?]). apply within_bind; [|by intros [?|?]].
    apply unless_expired_within; [|done]. intros. apply reject_unclaiming.
  - unfold revoke_approval. do 2 (apply within_bind; [exact I|intros ?]). apply within_transaction.
    intros s x s' _ E Hok. revert E. unfold revoke_body. apply after_reading; [apply reading_approval|]. intros [b i] E.
    by eapply idempotent_claims; [..|exact E]; [|apply revoke_unclaiming|].
  - unfold create_payment_handoff, _expire_purchase_approval_if_needed. apply within_bind.
    + apply unclaiming_within, expire_unclaiming.
    + intros [problem|]; [exact I|]. apply within_bind; [exact I|intros hash].
      by apply idempotent_within; [apply handoff_unclaiming|].
  - unfold open_payment_handoff. apply within_bind; [exact I|intros hash]. apply within_bind; [|intros ?; exact I].
    by apply idempotent_within; [apply open_unclaiming|].
  - apply unclaiming_within, reading_unclaiming, reading_status.
  - apply unclaiming_within. unfold supersede_intents_for_decision_change. unclaim. apply supersede_each_unclaiming.
  - apply unclaiming_within, supersede_mutation_unclaiming.
Qed.

(** The purchase requests, and others that respect the claims of keys. *)
Inductive claim_step (s s' : purchase_store) : Prop :=
| claim_request A (m : prog purchase_store A) : purchase_request holds m → ran m s s' → claim_step s s'
| claim_other : claims_kept s s' → claim_step s s'.

Lemma claim_step_kept s s' : claims_ok (ws_claims s) → claim_step s s' → claims_kept s s'.
Proof.
  intros Hok [A m Hm Hr|Hk]; [|done]. revert Hok. change (stay s s'). eapply (within_ran any); [|by apply request_stay|done|exact Hr].
  intros x Hx. by apply claims_kept_same.
Qed.

Lemma claim_steps_kept s s' : claims_ok (ws_claims s) → rtc claim_step s s' → claims_kept s s'.
Proof.
  intros Hok Hs. induction Hs as [s|s s1 s' Hst _ IH]; [by apply claims_kept_same|].
  pose proof (claim_step_kept _ _ Hok Hst) as [Hok1 Hk]. destruct (IH Hok1) as [Hok' Hk']. split; [done|]. auto.
Qed.

(** A request with a key, run once among others, and the same request again. *)
Lemma repeated_idempotent org actor op key hash id id' status body body' x s s' :
  claims_ok (ws_claims s) → unclaiming body → status ≠ 0 →
  runs claim_step (in_transaction org (idempotent org actor op key hash id status body)) s (Ok x) s' →
  run_alone (in_transaction org (idempotent org actor op key hash id' status body')) s' = (Ok x, s').
Proof.
  intros Hok Hb Hst (s1 & s2 & Ho1 & Hv & E & Ho2)%runs_transaction.
  apply claim_steps_kept in Ho1 as [Hok1 _]; [|done].
  destruct (idempotent_claims _ _ _ _ _ _ _ _ _ _ _ Hok1 Hb Hst E) as [[Hok2 _] Hans].
  pose proof (claim_steps_kept _ _ Hok2 Ho2) as Hkept. pose proof (answers_kept _ _ _ _ _ _ _ _ _ Hkept Hans) as Hans'.
  destruct Hkept as [Hok' _]. cbn. unfold transaction, commit, _validated_organization_id, mbind, tx_bind, lift. rewrite Hv. cbn.
  by rewrite (answered_replays _ _ _ _ _ id' _ body' _ _ Hok' Hans').
Qed.

(** The same request, sent again with its key: the clocks and the identifiers it
    draws may differ. *)
Inductive repeats : ∀ {A : Type}, prog purchase_store A → prog purchase_store A → Prop :=
| repeats_lock org actor decision key body clock now ids clock' now' ids' :
    repeats (lock_purchase_intent org actor decision key body clock now ids)
      (lock_purchase_intent org actor decision key body clock' now' ids')
| repeats_approval org actor intent key body clock now ids clock' now' ids' :
    repeats (create_approval_request org actor intent key body clock now ids)
      (create_approval_request org actor intent key body clock' now' ids')
| repeats_open org actor handoff key now ids now' ids' :
    repeats (open_payment_handoff org actor handoff key now ids) (open_payment_handoff org actor handoff key now' ids').

(** A repeated request changes nothing.  When locking an intent, asking for
    its approval or opening a handoff succeeded, among any other requests, the
    same request sent again with its key, at any later time, gives the same
    answer and leaves the store as it is: an intent is locked, and a handoff
    opened, once. *)
Theorem repeated_requests_replay {A} (m m' : prog purchase_store A) (s : purchase_store) (x : A) (s' : purchase_store) :
  claims_ok (ws_claims s) → repeats m m' → runs claim_step m s (Ok x) s' → run_alone m' s' = (Ok x, s').
Proof.
  intros Hok Hm. revert x. destruct Hm as [org actor decision key body clock now ids clock' now' ids'|org actor intent key body clock now ids clock' now' ids'
    |org actor handoff key now ids now' ids']; intros x;
  unfold lock_purchase_intent, create_approval_request, open_payment_handoff;
  destruct (content_hash _) as [hash|]; try (by intros [? _]); cbn [pure mbind prog_bind].
  - apply repeated_idempotent; [done|apply lock_unclaiming|done].
  - apply repeated_idempotent; [done|apply request_unclaiming|done].
  - intros Hr. apply (runs_bind claim_step (in_transaction org _) (λ r, pure (Ok r.2))) in Hr as (y & s1 & Hr & Hp).
    apply runs_pure in Hp as [[= <-] Ho].
    assert (runs claim_step (in_transaction org (idempotent org actor "payment_handoffs.open" key hash (di_claim ids) 200
      (open_answer org handoff now ids))) s (Ok y) s') as Hr'.
    { apply runs_transaction in Hr as (s2 & s3 & ? & ? & ? & ?). apply runs_transaction. exists s2, s3. split_and!; try done. by etrans. }
    apply (repeated_idempotent _ _ _ _ _ _ (di_claim ids') _ _ (open_answer org handoff now' ids')) in Hr'; [|done|apply open_unclaiming|done].
    cbn in Hr' |- *. destruct (transaction org _ s') as [[r|] s4]; [|done]. by injection Hr' as -> ->.
Qed.
End replays.
