(* ===== verification/PurchaseScenario.v ===== *)
(** * A concrete purchase, request by request

    An intent is locked, its approval asked for, approved by a manager and by
    finance, and its handoff prepared and opened; in another course the
    approval is revoked instead.  The theorems on purchases are applied to
    them. *)
From S2P Require Import Prelude PyText PyNumber PyTime PyDate Enums Money Hashing DomainModels StateMachines Tables.
From S2P Require Import Database Outbox Terms Purchase PurchaseProtocol PurchaseService PurchaseSafety PurchaseReplay.
From S2P Require Import Scenario DomainScenario ExchangeScenario ServiceScenario.

Local Open Scope string_scope.
Local Open Scope Z_scope.

(** ** The tables others wrote *)

Definition px_term (field : string) : PyVal :=
  if bool_decide (field = "merchant") then
    dict [("merchant_id", VStr "merchant_1"); ("name", VStr "Acme"); ("url", VStr "https://acme.example/pay")]
  else if bool_decide (field ∈ ["pack_version"; "offer_version"; "quote_version"; "approval_policy_version"]) then VInt 1
  else if bool_decide (field = "amount") then VStr "125.00"
  else if bool_decide (field = "currency") then VStr "USD"
  else if bool_decide (field = "quote_expires_at") then VStr "later"
  else VStr field.
Definition px_base : object :=
  ([(KStr "schema_version", VStr "plan_commercial_terms_v1"); (KStr "solution_plan_id", VStr "plan_1");
   (KStr "stack_patch_id", VStr "patch_1")] ++ ((λ f, (KStr f, px_term f)) <$> _TERM_FIELDS))%list.
Definition px_terms : PyVal :=
  VDict (px_base ++ [(KStr "commercial_terms_hash",
    match content_hash (VDict px_base) with Ok h => VStr h | Raise _ => VNone end)])%list.

Definition px_role (role : string) : PyVal := dict [("role", VStr role); ("required", VBool true)].
Definition px_catalogue : catalogue :=
  mkCatalogue
    [mkDecisionRow "decision_1" "org_1" "request_1" "brief_1" 1 None some_hash (Some "plan_1") []]
    [mkRunRow "run_1" "org_1" "decision_1" "BASE"]
    [mkPlanRow "org_1" "run_1" "plan_1" "EXECUTABLE" "ELIGIBLE"
       [(KStr "stack_patch_id", VStr "patch_1"); (KStr "commercial_terms", px_terms)]]
    [mkPurchaseBriefRow "brief_1" "org_1" [(KStr "approval_requirements", VList [px_role "manager"; px_role "finance"])]]
    [mkPatchRow "patch_1" "org_1"] [].
Definition px_start : purchase_store := mkPurchaseStore px_catalogue [] [] [] [] [] [].

(** ** The course *)

Definition px_ids (n record : string) : PurchaseIds := mkPurchaseIds ("idem_" ++ n) record ("ape_" ++ n) ("out_" ++ n).
Definition px_hash (s : purchase_store) : string := match ws_intents s with i :: _ => wi_intent_hash i | [] => "" end.
Definition px_body (role : string) (s : purchase_store) : list (string * PyVal) :=
  [("intent_hash", VStr (px_hash s)); ("actor_role", VStr role)].

Definition px_lock : prog purchase_store (Z * response) :=
  lock_purchase_intent "org_1" "ann" "decision_1" "key_1" [] (sx_time 0) (sx_time 0) (px_ids "1" "pi_1").
Definition px_ask : prog purchase_store (Z * response) :=
  create_approval_request "org_1" "ann" "pi_1" "key_2" [] (sx_time 0) (sx_time 0) (px_ids "2" "apr_1").
Definition px_approve (actor role n : string) (s : purchase_store) : prog purchase_store (Z * response) :=
  approve "org_1" actor [role] true "apr_1" "key_3" (px_body role s) (sx_time 0) (sx_time 0) (px_ids n "").
Definition px_prepare : prog purchase_store (Z * response) :=
  create_payment_handoff "org_1" "ann" "pi_1" "key_4" (sx_time 0) (sx_time 0) (px_ids "5" "phd_1").
Definition px_open : prog purchase_store response :=
  open_payment_handoff "org_1" "ann" "phd_1" "key_5" (sx_time 0) (px_ids "6" "").
Definition px_revoke (s : purchase_store) : prog purchase_store (Z * response) :=
  revoke_approval "org_1" "bob" ["finance"] true "apr_1" "key_6" (px_body "finance" s ++ [("reason", VStr "Too expensive")])%list
    (sx_time 0) (px_ids "7" "").

Definition after {A} (m : prog purchase_store A) (s : purchase_store) : purchase_store := (run_alone m s).2.
Definition px_approved : purchase_store :=
  let s := after px_ask (after px_lock px_start) in
  let s := after (px_approve "ann" "manager" "3" s) s in
  after (px_approve "bob" "finance" "4" s) s.
Definition px_prepared : purchase_store := after px_prepare px_approved.

(** ** The theorems on this purchase *)

Definition px_holds (org actor role : string) : Prop := (actor, role) ∈ [("ann", "manager"); ("bob", "finance")].

Lemma px_after {A} (m : prog purchase_store A) s :
  purchase_request px_holds m → purchase_reachable px_holds s → purchase_reachable px_holds (after m s).
Proof.
  intros Hm (s0 & E0 & Hs). exists s0. split; [done|]. etrans; [exact Hs|]. apply run_alone_steps.
  intros x y Hxy. by eapply step_request.
Qed.

Lemma colon_free_test s : bool_decide (":"%char ∈ chars s) = false → colon_free s.
Proof. apply bool_decide_eq_false. Qed.

Lemma px_approve_request actor role n s :
  colon_free actor → px_holds "org_1" actor role → purchase_request px_holds (px_approve actor role n s).
Proof. intros Hc Hh. apply request_approve; [done|]. by intros r ->%list_elem_of_singleton. Qed.

Lemma px_approved_reachable : purchase_reachable px_holds px_approved.
Proof.
  unfold px_approved. cbv zeta. do 2 (apply px_after; [apply px_approve_request; [by apply colon_free_test|unfold px_holds; set_solver]|]).
  apply px_after; [by apply request_approval, colon_free_test|]. apply px_after; [apply request_lock|]. by exists px_start.
Qed.

Lemma px_prepared_reachable : purchase_reachable px_holds px_prepared.
Proof. apply px_after; [apply request_handoff|apply px_approved_reachable]. Qed.

Lemma px_revoke_request s : purchase_request px_holds (px_revoke s).
Proof. apply request_revoke, colon_free_test. reflexivity. Qed.

(** What the tables hold after a course. *)
Definition px_statuses (s : purchase_store) : list ApprovalStatus.t * list ApprovalStatus.t * list PaymentHandoffStatus.t :=
  (wi_approval_status <$> ws_intents s, wa_status <$> ws_approvals s, wh_status <$> ws_handoffs s).

Lemma px_prepared_statuses :
  px_statuses px_prepared = ([ApprovalStatus.APPROVED], [ApprovalStatus.APPROVED], [PaymentHandoffStatus.READY]).
Proof. vm_compute. reflexivity. Qed.

Lemma px_opened_statuses :
  px_statuses (after px_open px_prepared) =
  ([ApprovalStatus.APPROVED], [ApprovalStatus.APPROVED], [PaymentHandoffStatus.OPENED]).
Proof. vm_compute. reflexivity. Qed.

Lemma px_revoked_statuses :
  px_statuses (after (px_revoke px_prepared) px_prepared) =
  ([ApprovalStatus.REVOKED], [ApprovalStatus.REVOKED], [PaymentHandoffStatus.CANCELLED]).
Proof. vm_compute. reflexivity. Qed.

Lemma fmap_one {A B} (f : A → B) l y : f <$> l = [y] → ∃ x, l = [x] ∧ f x = y.
Proof. destruct l as [|x [|]]; try done. intros [= <-]. by exists x. Qed.

Lemma statuses_one s a b c : px_statuses s = ([a], [b], [c]) →
  ∃ i r h, ws_intents s = [i] ∧ ws_approvals s = [r] ∧ ws_handoffs s = [h] ∧
    wi_approval_status i = a ∧ wa_status r = b ∧ wh_status h = c.
Proof.
  intros [= (i & -> & <-)%fmap_one (r & -> & <-)%fmap_one (h & -> & <-)%fmap_one]. by exists i, r, h.
Qed.

Lemma requests_follow_protocol_witness :
  ∃ s, px_statuses s = ([ApprovalStatus.APPROVED], [ApprovalStatus.APPROVED], [PaymentHandoffStatus.OPENED]) ∧
    rtc (PurchaseProtocol.move px_holds) empty_core (core_of px_prepared) ∧
    rtc (PurchaseProtocol.move px_holds) (core_of px_prepared) (core_of s).
Proof.
  exists (after px_open px_prepared). split; [exact px_opened_statuses|].
  exact (requests_follow_protocol px_holds px_open px_prepared (run_alone px_open px_prepared).1 (after px_open px_prepared)
    px_prepared_reachable (request_open _ _ _ _ _ _ _) (run_alone_runs _ px_open px_prepared)).
Defined.

Lemma approvals_are_earned_witness :
  ∃ s a i, purchase_reachable px_holds s ∧ wa_status a = ApprovalStatus.APPROVED ∧ binds i a ∧ fully_approved px_holds s i a.
Proof.
  destruct (statuses_one _ _ _ _ px_prepared_statuses) as (i & a & h & _ & Ea & _ & _ & Hs & _).
  assert (a ∈ ws_approvals px_prepared) as Ha by (rewrite Ea; apply list_elem_of_here).
  destruct (approvals_are_earned px_holds px_prepared a px_prepared_reachable Ha Hs) as (j & _ & Hb & _ & Hf).
  exists px_prepared, a, j. split_and!; [exact px_prepared_reachable|exact Hs|exact Hb|exact Hf].
Defined.




Definition px_revoked : purchase_store := after (px_revoke px_prepared) px_prepared.

Lemma final_approvals_stay_final_witness :
  ∃ a, a ∈ ws_approvals px_revoked ∧ wa_status a = ApprovalStatus.REVOKED ∧
    ∃ a', a' ∈ ws_approvals (after px_open px_revoked) ∧ finalised a a'.
Proof.
  destruct (statuses_one _ _ _ _ px_revoked_statuses) as (i & a & h & _ & Ea & _ & _ & Hs & _).
  assert (a ∈ ws_approvals px_revoked) as Ha by (unfold px_revoked; rewrite Ea; apply list_elem_of_here).
  assert (purchase_reachable px_holds px_revoked) as Hr by exact (px_after _ _ (px_revoke_request _) px_prepared_reachable).
  assert (rtc (purchase_step px_holds) px_revoked (after px_open px_revoked)) as Hst.
  { apply run_alone_steps. intros x y Hxy. eapply step_request; [apply request_open|exact Hxy]. }
  assert (wa_status a ∈ final_statuses) as Hf by (rewrite Hs; apply list_elem_of_further, list_elem_of_here).
  destruct (final_approvals_stay_final px_holds px_revoked (after px_open px_revoked) a Hr Hst Ha Hf) as [Hfin _].
  exists a. split_and!; [exact Ha|exact Hs|exact Hfin].
Defined.

Lemma px_lock_succeeds : is_ok (run_alone px_lock px_start).1 = true.
Proof. vm_compute. reflexivity. Qed.

(** The same request later, with another clock and other identifiers. *)
Definition px_lock_again : prog purchase_store (Z * response) :=
  lock_purchase_intent "org_1" "ann" "decision_1" "key_1" [] (sx_time 20) (sx_time 20) (px_ids "8" "pi_2").

Lemma repeated_requests_replay_witness :
  ∃ x, (run_alone px_lock px_start).1 = Ok x ∧
    run_alone px_lock_again (after px_lock px_start) = (Ok x, after px_lock px_start).
Proof.
  destruct (ok_of _ px_lock_succeeds) as [x E]. exists x. split; [exact E|].
  assert (claims_ok (ws_claims px_start)) as Hc by (split; constructor).
  pose proof (run_alone_runs (claim_step px_holds) px_lock px_start) as Hr. rewrite E in Hr.
  exact (repeated_requests_replay px_holds px_lock px_lock_again px_start x (after px_lock px_start) Hc
    (repeats_lock _ _ _ _ _ _ _ _ _ _ _) Hr).
Defined.

(** ** Commercial terms *)

Definition px_payload : result (list (string * PyVal)) :=
  build_purchase_intent_payload "org_1" "decision_1" 1 some_hash "selection_1" "plan_1" "patch_1" "pi_1" px_terms (sx_time 0).

Lemma locked_terms_exact_witness :
  ∃ out terms payload hash, px_payload = Ok out ∧ sealed_terms terms ∧
    out = (payload ++ [("intent_hash", VStr hash)])%list ∧
    locks "org_1" "decision_1" 1 some_hash "selection_1" "plan_1" "patch_1" "pi_1" terms (sx_time 0) payload hash.
Proof.
  compute_ok px_payload out E.
  destruct (locked_terms_exact "org_1" "decision_1" 1 some_hash "selection_1" "plan_1" "patch_1" "pi_1" px_terms (sx_time 0) out E)
    as (terms & payload & hash & _ & Hs & _ & _ & Eo & Hl).
  exists out, terms, payload, hash. split_and!; [exact E|exact Hs|exact Eo|exact Hl].
Defined.
